(* ===== verification/_CoqProject ===== *)
-Q . S2P
Prelude.v
Cstring.v
Pages.v
Blocks.v
Ring.v
Dlist.v
FsState.v
Super.v
Zone.v
Inode.v
Dir.v
Namei.v
File.v
ReadWrite.v
Pipe.v
Content.v
Dirmap.v
Open.v
Link.v
Dirent.v
IoState.v
Ide.v
Buffer.v
Bufcache.v
Bufread.v
Bufstore.v
Task.v
Sched.v
Runq.v
Signal.v
Stable.v
Family.v
Sigframe.v
Proc.v
Tree.v
System.v
Buddy.v
Kmalloc.v
MemInit.v
