(* ===== verification/Prelude.v ===== *)
(** * cnix *)

From stdpp Require Import base numbers gmap list.
From Stdlib Require Import ZArith Lia.

#[global] Set Default Goal Selector "!".

Local Open Scope Z_scope.

(** ** The outcome monad

    A kernel function either returns, or executes [DIE] (a store through the
    null pointer, include/cnix/kernel.h), or gives up the processor inside
    [sleepon] with the state it leaves behind. *)
Inductive outcome (S A : Type) : Type :=
  | Ret (a : A) (s : S)
  | Die
  | Sleep (s : S).
Arguments Ret {S A} a s.
Arguments Die {S A}.
Arguments Sleep {S A} s.

Definition M (S A : Type) : Type := S → outcome S A.

#[export] Instance M_ret S : MRet (M S) := λ A a s, Ret a s.
#[export] Instance M_bind S : MBind (M S) := λ A B k c s,
  match c s with
  | Ret a s' => k a s'
  | Die => Die
  | Sleep s' => Sleep s'
  end.

Section monad.
Context {S : Type}.

Definition gets {A} (f : S → A) : M S A := λ s, Ret (f s) s.
Definition modify (f : S → S) : M S unit := λ s, Ret tt (f s).
Definition die {A} : M S A := λ _, Die.
Definition sleepon {A} : M S A := λ s, Sleep s.
(** [if(b) DIE(...)] *)
Definition die_if (b : bool) : M S unit := if b then die else mret tt.
(** [if(b) c] *)
Definition when (b : bool) (c : M S unit) : M S unit := if b then c else mret tt.
Definition from_opt {A} (o : option A) : M S A :=
  match o with Some a => mret a | None => die end.

Lemma bind_Ret {A B} (c : M S A) (k : A → M S B) s b s' :
  (c ≫= k) s = Ret b s' ↔ ∃ a s1, c s = Ret a s1 ∧ k a s1 = Ret b s'.
Proof.
  unfold mbind, M_bind. split.
  - destruct (c s) as [a s1| |s1]; intros H; [by exists a, s1|discriminate..].
  - intros (a & s1 & Hc & Hk). by rewrite Hc.
Qed.

Lemma bind_eval {A B} (c : M S A) (k : A → M S B) s a s1 :
  c s = Ret a s1 → (c ≫= k) s = k a s1.
Proof. unfold mbind, M_bind. by intros ->. Qed.

Lemma bind_mret_l {A B} (a : A) (k : A → M S B) s : (mret a ≫= k) s = k a s.
Proof. done. Qed.
Lemma bind_gets {A B} (f : S → A) (k : A → M S B) s : (gets f ≫= k) s = k (f s) s.
Proof. done. Qed.
Lemma bind_modify {B} (f : S → S) (k : unit → M S B) s : (modify f ≫= k) s = k tt (f s).
Proof. done. Qed.
Lemma bind_assoc {A B C} (c : M S A) (k : A → M S B) (k' : B → M S C) s :
  ((c ≫= k) ≫= k') s = (c ≫= (λ a, k a ≫= k')) s.
Proof. unfold mbind, M_bind. by destruct (c s). Qed.
End monad.

(** ** What a computation leaves alone

    [keeps f c]: [f] of the state is the same after [c], also where [c] sleeps. *)
Definition keeps {S A B} (f : S → B) (c : M S A) : Prop := ∀ s,
  match c s with Ret _ s' => f s' = f s | Die => True | Sleep s' => f s' = f s end.

Section keeps.
Context {S B : Type} (f : S → B).

Lemma keeps_mret {A} (a : A) : keeps f (mret a).
Proof. by intros s. Qed.
Lemma keeps_gets {A} (g : S → A) : keeps f (gets g).
Proof. by intros s. Qed.
Lemma keeps_die {A} : keeps f (@die S A).
Proof. by intros s. Qed.
Lemma keeps_sleepon {A} : keeps f (@sleepon S A).
Proof. by intros s. Qed.
Lemma keeps_modify g : (∀ s, f (g s) = f s) → keeps f (modify g).
Proof. by intros Hg s; simpl. Qed.
Lemma keeps_bind {A C} (c : M S A) (k : A → M S C) :
  keeps f c → (∀ a, keeps f (k a)) → keeps f (c ≫= k).
Proof.
  intros Hc Hk s. unfold mbind, M_bind. specialize (Hc s). destruct (c s) as [a s1| |s1]; [|done|done].
  specialize (Hk a s1). rewrite <-Hc. exact Hk.
Qed.
Lemma keeps_when b c : keeps f c → keeps f (when b c).
Proof. by destruct b. Qed.
Lemma keeps_die_if b : keeps f (die_if b).
Proof. by destruct b. Qed.
Lemma keeps_from_opt {A} (o : option A) : keeps f (from_opt o).
Proof. by destruct o. Qed.
Lemma keeps_Ret {A} (c : M S A) s a s' : keeps f c → c s = Ret a s' → f s' = f s.
Proof. intros Hc He. specialize (Hc s). by rewrite He in Hc. Qed.
End keeps.

Create HintDb keeps.
#[export] Hint Resolve keeps_mret keeps_gets keeps_die keeps_sleepon keeps_die_if keeps_from_opt : keeps.

(** [keep] goes through a definition by its structure; the steps on the state
    and the calls are left to the hints. *)
Ltac keep :=
  repeat (intros; first
    [ assumption | solve [auto with keeps nocore]
    | apply keeps_bind | apply keeps_when | case_match
    | apply keeps_modify; solve [intros; auto with keeps | intros; done] ]).

(** ** What a computation does not break

    [stable I c]: [I] holds after [c] when it holds before, also where [c]
    sleeps. *)
Definition stable {S A} (I : S → Prop) (c : M S A) : Prop := ∀ s, I s →
  match c s with Ret _ s' => I s' | Die => True | Sleep s' => I s' end.

Section stable.
Context {S : Type} (I : S → Prop).

Lemma stable_mret {A} (a : A) : stable I (mret a).
Proof. by intros s. Qed.
Lemma stable_gets {A} (g : S → A) : stable I (gets g).
Proof. by intros s. Qed.
Lemma stable_die {A} : stable I (@die S A).
Proof. by intros s. Qed.
Lemma stable_modify g : (∀ s, I s → I (g s)) → stable I (modify g).
Proof. intros Hg s Hs. by apply Hg. Qed.
Lemma stable_bind {A C} (c : M S A) (k : A → M S C) : stable I c → (∀ a, stable I (k a)) → stable I (c ≫= k).
Proof.
  intros Hc Hk s Hs. unfold mbind, M_bind. specialize (Hc s Hs). destruct (c s) as [a s1| |s1]; [|done|done]. by apply Hk.
Qed.
Lemma stable_when b c : stable I c → stable I (when b c).
Proof. destruct b; [done|intros _; apply stable_mret]. Qed.
Lemma stable_die_if b : stable I (die_if b).
Proof. destruct b; [apply stable_die|apply stable_mret]. Qed.
Lemma stable_from_opt {A} (o : option A) : stable I (from_opt o).
Proof. destruct o; [apply stable_mret|apply stable_die]. Qed.
Lemma stable_Ret {A} (c : M S A) s a s' : stable I c → c s = Ret a s' → I s → I s'.
Proof. intros Hc He Hs. specialize (Hc s Hs). by rewrite He in Hc. Qed.
End stable.

Create HintDb stable.
#[export] Hint Resolve stable_mret stable_gets stable_die stable_die_if stable_from_opt : stable.

(** [stab] is [keep] for [stable]. *)
Ltac stab :=
  repeat (intros; first
    [ assumption | solve [auto with stable nocore]
    | apply stable_bind | apply stable_when | case_match
    | apply stable_modify; solve [intros; auto with stable] ]).

(** [mstep] runs the head of a monadic goal while it is a primitive. *)
Ltac mstep :=
  repeat (first [rewrite bind_mret_l | rewrite bind_gets | rewrite bind_modify
                | rewrite bind_assoc]; cbv beta).

(** ** Error numbers (include/cnix/errno.h) *)

Definition EPERM : Z := 1.
Definition ENOENT : Z := 2.
Definition ESRCH : Z := 3.
Definition EINTR : Z := 4.
Definition EIO : Z := 5.
Definition EBADF : Z := 9.
Definition ECHILD : Z := 10.
Definition EAGAIN : Z := 11.
Definition ENOMEM : Z := 12.
Definition EACCES : Z := 13.
Definition EFAULT : Z := 14.
Definition EBUSY : Z := 16.
Definition EEXIST : Z := 17.
Definition ENODEV : Z := 19.
Definition ENOTDIR : Z := 20.
Definition EISDIR : Z := 21.
Definition EINVAL : Z := 22.
Definition ENFILE : Z := 23.
Definition EMFILE : Z := 24.
Definition EFBIG : Z := 27.
Definition ENOSPC : Z := 28.
Definition ESPIPE : Z := 29.
Definition EROFS : Z := 30.
Definition EMLINK : Z := 31.
Definition EPIPE : Z := 32.
Definition ERANGE : Z := 34.
Definition ENAMETOOLONG : Z := 36.
Definition ENOTEMPTY : Z := 39.

(** ** Machine integers *)

Declare Scope cnix_scope.
Delimit Scope cnix_scope with cnix.

(** An [unsigned long] or [unsigned int] is an integer modulo [2^32]; an [int]
    is its two's complement reading. *)
Definition u32 (z : Z) : Z := z mod 2 ^ 32.
Definition s32 (z : Z) : Z := (z + 2 ^ 31) mod 2 ^ 32 - 2 ^ 31.
Definition u16 (z : Z) : Z := z mod 2 ^ 16.
Definition u8 (z : Z) : Z := z mod 2 ^ 8.

Notation "x +w y" := (u32 (x + y)) (at level 50, left associativity) : cnix_scope.
Notation "x -w y" := (u32 (x - y)) (at level 50, left associativity) : cnix_scope.

(** C's truth test. *)
Definition truth (z : Z) : bool := negb (z =? 0).
(** [flags & mask] as a condition. *)
Definition has (flags mask : Z) : bool := truth (Z.land flags mask).

Lemma u32_small z : 0 <= z < 2 ^ 32 → u32 z = z.
Proof. apply Z.mod_small. Qed.
Lemma u32_range z : 0 <= u32 z < 2 ^ 32.
Proof. apply Z.mod_pos_bound. lia. Qed.
Lemma s32_small z : - 2 ^ 31 <= z < 2 ^ 31 → s32 z = z.
Proof. intros H. unfold s32. rewrite Z.mod_small; lia. Qed.
Lemma s32_range z : - 2 ^ 31 <= s32 z < 2 ^ 31.
Proof. unfold s32. pose proof (Z.mod_pos_bound (z + 2 ^ 31) (2 ^ 32)). lia. Qed.
Lemma u32_idemp z : u32 (u32 z) = u32 z.
Proof. apply u32_small, u32_range. Qed.
Lemma truth_true z : truth z = true ↔ z ≠ 0.
Proof. unfold truth. rewrite negb_true_iff, Z.eqb_neq. done. Qed.
Lemma truth_false z : truth z = false ↔ z = 0.
Proof. unfold truth. rewrite negb_false_iff, Z.eqb_eq. done. Qed.

Create HintDb cnix.
#[export] Hint Resolve u32_range s32_range : cnix.

(** ** Bits *)

Lemma land_pow2_testbit z i : 0 <= i →
  truth (Z.land z (2 ^ i)) = Z.testbit z i.
Proof.
  intros Hi. destruct (Z.testbit z i) eqn:E.
  - apply truth_true. intros H.
    assert (Z.testbit (Z.land z (2 ^ i)) i = true) as Ht.
    { rewrite Z.land_spec, E, Z.pow2_bits_true by lia. done. }
    by rewrite H, Z.bits_0 in Ht.
  - apply truth_false. apply Z.bits_inj'. intros j Hj.
    rewrite Z.land_spec, Z.bits_0, Z.pow2_bits_eqb by lia.
    destruct (Z.eqb_spec i j) as [<-|]; [by rewrite E|by rewrite andb_false_r].
Qed.

Lemma has_lor f m m' : has (Z.lor f m) m' = has f m' || has m m'.
Proof.
  unfold has, truth. rewrite Z.land_lor_distr_l. destruct (Z.eqb_spec (Z.land f m') 0) as [->|Hf].
  - by rewrite Z.lor_0_l.
  - simpl. destruct (Z.eqb_spec (Z.lor (Z.land f m') (Z.land m m')) 0) as [He|]; [|done].
    by apply Z.lor_eq_0_iff in He as [? _].
Qed.
Lemma has_clear f m i : 0 <= i → has (Z.land f (Z.lnot m)) (2 ^ i) = has f (2 ^ i) && negb (has m (2 ^ i)).
Proof. intros. unfold has. rewrite !land_pow2_testbit, Z.land_spec, Z.lnot_spec by done. done. Qed.

Lemma pow2_pos o : 0 <= o → 0 < 2 ^ o.
Proof. intros. apply Z.pow_pos_nonneg; lia. Qed.

(** The mask [~((1UL << o) - 1)]. *)
Definition mask_of (o : Z) : Z := 2 ^ 32 - 2 ^ o.

Lemma mask_of_ldiff o : 0 <= o <= 32 → mask_of o = Z.ldiff (Z.ones 32) (Z.ones o).
Proof.
  intros Ho. rewrite Z.ldiff_ones_r, Z.shiftl_mul_pow2, Z.shiftr_div_pow2 by lia.
  unfold mask_of. rewrite Z.ones_equiv. pose proof (pow2_pos o ltac:(lia)).
  assert (2 ^ 32 = 2 ^ (32 - o) * 2 ^ o) as He by (rewrite <-Z.pow_add_r by lia; f_equal; lia).
  rewrite He. unfold Z.pred. rewrite <-(Z.div_unique _ (2 ^ o) (2 ^ (32 - o) - 1) (2 ^ o - 1)); lia.
Qed.

Lemma land_mask o n : 0 <= o <= 32 → 0 <= n < 2 ^ 32 →
  Z.land n (mask_of o) = n / 2 ^ o * 2 ^ o.
Proof.
  intros Ho Hn. rewrite mask_of_ldiff by done.
  assert (Z.land n (Z.ldiff (Z.ones 32) (Z.ones o)) = Z.ldiff n (Z.ones o)) as ->.
  { apply Z.bits_inj'. intros j Hj. rewrite Z.land_spec, !Z.ldiff_spec.
    destruct (decide (j < 32)).
    - by rewrite Z.ones_spec_low, andb_true_l by lia.
    - rewrite (Z.bits_above_log2 n j); [done|lia|]. destruct (decide (n = 0)) as [->|]; [simpl; lia|].
      apply Z.log2_lt_pow2; [lia|]. pose proof (Z.pow_le_mono_r 2 32 j). lia. }
  rewrite Z.ldiff_ones_r, Z.shiftl_mul_pow2, Z.shiftr_div_pow2 by lia. done.
Qed.

(** ** Arrays

    A C array is a list; an access with a [Z] index goes through [Z.to_nat].
    [memcpy] into an array is stdpp's [list_inserts]. *)
Definition slice {A} (off len : Z) (l : list A) : list A :=
  take (Z.to_nat len) (drop (Z.to_nat off) l).
Definition memcpy {A} (dst : list A) (off : Z) (src : list A) : list A :=
  list_inserts (Z.to_nat off) src dst.

Lemma length_memcpy {A} (dst : list A) off src : length (memcpy dst off src) = length dst.
Proof. apply length_inserts. Qed.

Lemma length_slice {A} off len (l : list A) :
  0 <= off → 0 <= len → off + len <= Z.of_nat (length l) →
  length (slice off len l) = Z.to_nat len.
Proof. intros. unfold slice. rewrite length_take, length_drop. lia. Qed.

Lemma lookup_slice {A} off len (l : list A) (i : nat) :
  0 <= off → 0 <= len → (i < Z.to_nat len)%nat →
  slice off len l !! i = l !! (Z.to_nat off + i)%nat.
Proof. intros. unfold slice. rewrite lookup_take_lt, lookup_drop by lia. done. Qed.

Lemma lookup_memcpy {A} (dst : list A) off src (j : nat) :
  0 <= off → off + Z.of_nat (length src) <= Z.of_nat (length dst) →
  memcpy dst off src !! j =
    if decide (off <= Z.of_nat j < off + Z.of_nat (length src))
    then src !! (j - Z.to_nat off)%nat else dst !! j.
Proof.
  intros H0 Hle. unfold memcpy. case_decide.
  - apply list_lookup_inserts; lia.
  - destruct (decide (j < Z.to_nat off)%nat).
    + apply list_lookup_inserts_lt; lia.
    + apply list_lookup_inserts_ge; lia.
Qed.

(** ** Lists *)

Lemma filter_id {A} (P : A → Prop) `{∀ x, Decision (P x)} (l : list A) :
  (∀ x, x ∈ l → P x) → filter P l = l.
Proof.
  induction l as [|x l IH]; intros HP; [done|].
  rewrite filter_cons_True by (apply HP; left). f_equal. apply IH. intros y Hy.
  apply HP. by right.
Qed.

(** ** Arrays indexed by integers

    [zget] is [None] outside the array, below zero too. *)
Definition zget {A} (l : list A) (i : Z) : option A :=
  if 0 <=? i then l !! Z.to_nat i else None.
Definition zalter {A} (f : A → A) (i : Z) (l : list A) : list A :=
  if 0 <=? i then alter f (Z.to_nat i) l else l.
Definition zset {A} (i : Z) (x : A) (l : list A) : list A := zalter (λ _, x) i l.
Definition zlen {A} (l : list A) : Z := Z.of_nat (length l).

Lemma zget_zalter {A} (f : A → A) i j (l : list A) :
  zget (zalter f i l) j = if decide (j = i) then f <$> zget l j else zget l j.
Proof.
  unfold zget, zalter. destruct (Z.leb_spec 0 i); destruct (Z.leb_spec 0 j);
    case_decide; subst; try lia; try done.
  - by rewrite list_lookup_alter_eq.
  - rewrite list_lookup_alter_ne; [done|lia].
Qed.
Lemma zalter_zalter {A} (f g : A → A) i (l : list A) : zalter f i (zalter g i l) = zalter (λ x, f (g x)) i l.
Proof. unfold zalter. destruct (_ <=? _); [|done]. apply (list_alter_alter_eq f g). Qed.
Lemma zalter_ext {A} (f g : A → A) i (l : list A) : (∀ x, zget l i = Some x → f x = g x) → zalter f i l = zalter g i l.
Proof.
  unfold zalter, zget. destruct (_ <=? _); [|done]. intros Hfg. apply list_alter_ext; [|done]. intros x Hx. by apply Hfg.
Qed.
Lemma zlen_zalter {A} (f : A → A) i (l : list A) : zlen (zalter f i l) = zlen l.
Proof. unfold zlen, zalter. case_match; [by rewrite length_alter|done]. Qed.
Lemma zget_zset {A} i (x : A) j (l : list A) :
  0 <= i < zlen l → zget (zset i x l) j = if decide (j = i) then Some x else zget l j.
Proof.
  intros Hi. unfold zset. rewrite zget_zalter. case_decide; [subst|done].
  unfold zget. rewrite (proj2 (Z.leb_le 0 i)) by lia.
  destruct (lookup_lt_is_Some_2 l (Z.to_nat i)) as [y Hy]; [unfold zlen in *; lia|].
  by rewrite Hy.
Qed.
Lemma zlen_zset {A} i (x : A) (l : list A) : zlen (zset i x l) = zlen l.
Proof. apply zlen_zalter. Qed.
Lemma zget_is_Some {A} (l : list A) i : is_Some (zget l i) ↔ 0 <= i < zlen l.
Proof.
  unfold zget, zlen. destruct (Z.leb_spec 0 i).
  - rewrite lookup_lt_is_Some. lia.
  - split; [intros [? [=]]|lia].
Qed.
Lemma zget_None {A} (l : list A) i : zget l i = None ↔ i < 0 ∨ zlen l <= i.
Proof.
  rewrite eq_None_not_Some, zget_is_Some. lia.
Qed.
Lemma zlen_nonneg {A} (l : list A) : 0 <= zlen l.
Proof. unfold zlen. lia. Qed.
#[export] Hint Rewrite @zlen_zalter @zlen_zset : cnix.

Lemma zget_ext {A} (l k : list A) : (∀ i, 0 <= i → zget l i = zget k i) → l = k.
Proof.
  intros He. apply list_eq. intros i. specialize (He (Z.of_nat i) ltac:(lia)). unfold zget in He.
  rewrite (proj2 (Z.leb_le 0 _)), Nat2Z.id in He by lia. done.
Qed.
Lemma zlen_memcpy {A} (dst : list A) off src : zlen (memcpy dst off src) = zlen dst.
Proof. unfold zlen. by rewrite length_memcpy. Qed.
Lemma zget_memcpy {A} (dst : list A) off src j :
  0 <= off → off + zlen src <= zlen dst →
  zget (memcpy dst off src) j =
    if decide (off <= j < off + zlen src) then zget src (j - off) else zget dst j.
Proof.
  unfold zlen. intros H0 Hle. unfold zget. destruct (Z.leb_spec 0 j).
  - rewrite lookup_memcpy by done. rewrite Z2Nat.id by done. case_decide; [|done].
    rewrite (proj2 (Z.leb_le 0 _)) by lia. f_equal. lia.
  - rewrite decide_False by lia. done.
Qed.
Lemma zlen_slice {A} off len (l : list A) : 0 <= off → 0 <= len → off + len <= zlen l → zlen (slice off len l) = len.
Proof. unfold zlen. intros. rewrite length_slice by done. lia. Qed.
Lemma zget_slice {A} off len (l : list A) i : 0 <= off → 0 <= len →
  zget (slice off len l) i = if decide (0 <= i < len) then zget l (off + i) else None.
Proof.
  intros. unfold zget. destruct (Z.leb_spec 0 i).
  - rewrite (proj2 (Z.leb_le 0 (off + i))) by lia. case_decide.
    + rewrite lookup_slice by lia. f_equal. lia.
    + unfold slice. rewrite lookup_take_ge by lia. done.
  - rewrite decide_False by lia. done.
Qed.
Lemma zget_app {A} (l k : list A) i : 0 <= i →
  zget (l ++ k) i = if decide (i < zlen l) then zget l i else zget k (i - zlen l).
Proof.
  intros. unfold zget, zlen. rewrite (proj2 (Z.leb_le 0 i)) by lia. case_decide.
  - rewrite lookup_app_l by lia. done.
  - rewrite lookup_app_r, (proj2 (Z.leb_le 0 _)) by lia. f_equal. lia.
Qed.
Lemma zget_fmap_seqZ {A} (f : Z → A) a n i :
  zget (f <$> seqZ a n) i = if decide (0 <= i < n) then Some (f (a + i)) else None.
Proof.
  unfold zget. destruct (Z.leb_spec 0 i); [|by rewrite decide_False by lia].
  rewrite list_lookup_fmap. case_decide.
  - rewrite (proj2 (lookup_seqZ a n (Z.to_nat i) (a + i))) by lia. done.
  - rewrite lookup_seqZ_ge by lia. done.
Qed.
Lemma zget_replicate {A} (x : A) n i :
  zget (replicate (Z.to_nat n) x) i = if decide (0 <= i < n) then Some x else None.
Proof.
  unfold zget. destruct (Z.leb_spec 0 i); [|by rewrite decide_False by lia]. case_decide.
  - apply lookup_replicate_2. lia.
  - apply lookup_replicate_None. lia.
Qed.
Lemma zlen_app {A} (l k : list A) : zlen (l ++ k) = zlen l + zlen k.
Proof. unfold zlen. rewrite length_app. lia. Qed.
Lemma zlen_take {A} c (l : list A) : 0 <= c <= zlen l → zlen (take (Z.to_nat c) l) = c.
Proof. unfold zlen. intros. rewrite length_take. lia. Qed.
Lemma zlen_drop {A} c (l : list A) : 0 <= c <= zlen l → zlen (drop (Z.to_nat c) l) = zlen l - c.
Proof. unfold zlen. intros. rewrite length_drop. lia. Qed.
Lemma zget_take {A} c (l : list A) k : 0 <= c → 0 <= k →
  zget (take (Z.to_nat c) l) k = if decide (k < c) then zget l k else None.
Proof.
  intros. unfold zget. rewrite (proj2 (Z.leb_le 0 k)) by lia. case_decide.
  - rewrite lookup_take_lt by lia. done.
  - rewrite lookup_take_ge by lia. done.
Qed.
Lemma zget_drop {A} c (l : list A) k : 0 <= c → 0 <= k → zget (drop (Z.to_nat c) l) k = zget l (c + k).
Proof.
  intros. unfold zget. rewrite (proj2 (Z.leb_le 0 k)), (proj2 (Z.leb_le 0 (c + k))) by lia.
  rewrite lookup_drop. f_equal. lia.
Qed.

(** Different indices of an array. *)
Lemma NoDup_range_length (l : list Z) n : NoDup l → (∀ x, x ∈ l → 0 <= x < n) → (length l <= Z.to_nat n)%nat.
Proof.
  intros Hnd Hr. assert (l ⊆+ seqZ 0 n) as Hs.
  { apply NoDup_submseteq; [done|]. intros x Hx. apply elem_of_seqZ. specialize (Hr x Hx). lia. }
  apply submseteq_length in Hs. by rewrite length_seqZ in Hs.
Qed.
