(* ===== verification/Cstring.v ===== *)
(** * C strings (include/asm/string.h)

    The kernel's string functions are inline assembly.  A pointer into a
    buffer is the list of bytes from there to the end of the buffer. *)

From S2P Require Import Prelude.
From stdpp Require Import base numbers gmap list.

Local Open Scope Z_scope.

(** [repne scasb] up to the terminator. *)
Fixpoint kstrlen (s : list Z) : Z :=
  match s with
  | [] => 0
  | c :: s => if c =? 0 then 0 else 1 + kstrlen s
  end.

(** The sign of the first difference within [n] bytes: [sbbl] and [orb $1]. *)
Fixpoint kstrncmp (s1 s2 : list Z) (n : nat) : Z :=
  match n with
  | O => 0
  | S n =>
      let c1 := default 0 (head s1) in
      let c2 := default 0 (head s2) in
      if c1 =? c2 then if c1 =? 0 then 0 else kstrncmp (tail s1) (tail s2) n
      else if c1 <? c2 then -1 else 1
  end.

(** [kstrcmp] has no bound: [n] covers the longer string. *)
Definition kstrcmp (s1 s2 : list Z) : Z := kstrncmp s1 s2 (S (length s1 + length s2)).

(** The bytes [kstrncpy] stores: up to [n] of the source including its
    terminator, and then always one more zero. *)
Fixpoint kstrncpy_bytes (src : list Z) (n : nat) : list Z :=
  match n with
  | O => [0]
  | S n =>
      let c := default 0 (head src) in
      c :: (if c =? 0 then [0] else kstrncpy_bytes (tail src) n)
  end.
Definition kstrncpy (dest : list Z) (off : Z) (src : list Z) (n : nat) : list Z :=
  memcpy dest off (kstrncpy_bytes src n).

(** The string before [c], and the rest from [c] on; null when [c] is not there
    before the terminator. *)
Fixpoint kstrchr (s : list Z) (c : Z) : option (list Z * list Z) :=
  match s with
  | [] => None
  | x :: s' =>
      if x =? c then Some ([], s)
      else if x =? 0 then None
      else match kstrchr s' c with Some (a, b) => Some (x :: a, b) | None => None end
  end.

(** The string proper, without terminator. *)
Definition cstr (s : list Z) : list Z := take (Z.to_nat (kstrlen s)) s.

Lemma kstrlen_nonneg s : 0 <= kstrlen s <= zlen s.
Proof.
  induction s as [|c s IH]; [done|]. cbn [kstrlen]. unfold zlen in *. simpl.
  destruct (_ =? _); lia.
Qed.

Lemma cstr_cons c s : cstr (c :: s) = if c =? 0 then [] else c :: cstr s.
Proof.
  unfold cstr. cbn [kstrlen]. destruct (c =? 0); [done|]. pose proof (kstrlen_nonneg s).
  replace (Z.to_nat (1 + kstrlen s)) with (S (Z.to_nat (kstrlen s))) by lia. done.
Qed.

(** Within [n] bytes two strings compare equal when their first [n] characters
    are the same. *)
Lemma kstrncmp_eq s1 s2 n : kstrncmp s1 s2 n = 0 ↔ take n (cstr s1) = take n (cstr s2).
Proof.
  revert s1 s2. induction n as [|n IH]; intros s1 s2; [done|]. cbn [kstrncmp].
  assert (∀ s, take (S n) (cstr s) =
    if default 0 (head s) =? 0 then [] else default 0 (head s) :: take n (cstr (tail s))) as Ht.
  { intros [|c s]; [done|]. rewrite cstr_cons. simpl. by destruct (c =? 0). }
  rewrite !Ht. destruct (Z.eqb_spec (default 0 (head s1)) (default 0 (head s2))) as [Heq|Hne].
  - rewrite Heq. destruct (_ =? 0); [done|]. rewrite IH. split; [congruence|].
    intros [= He]. done.
  - split.
    + destruct (_ <? _); discriminate.
    + destruct (Z.eqb_spec (default 0 (head s1)) 0), (Z.eqb_spec (default 0 (head s2)) 0); intros He;
        [congruence|discriminate|discriminate|]. injection He as ? ?. congruence.
Qed.

(** [kstrncpy] stores one byte more than [n] as soon as the source has [n - 1]
    characters. *)
Lemma kstrncpy_bytes_len src n : zlen (kstrncpy_bytes src n) = Z.min (Z.of_nat n) (kstrlen src + 1) + 1.
Proof.
  revert src. induction n as [|n IH]; intros src.
  - pose proof (kstrlen_nonneg src). cbn [kstrncpy_bytes]. unfold zlen. simpl. lia.
  - destruct src as [|c src]; cbn [kstrncpy_bytes kstrlen]; cbv zeta; unfold zlen in *; simpl.
    + lia.
    + destruct (c =? 0); simpl; [lia|]. specialize (IH src). lia.
Qed.
