(* ===== verification/Pages.v ===== *)
(** * The page allocator's interface

    What the rest of the kernel relies on: [get_free_pages] and [__free_pages]
    (mm/page_alloc.c) as operations on a set of free page numbers.  The small
    block allocator and the page tables are verified against this class; the
    buddy allocator is its instance. *)

From S2P Require Import Prelude.
From stdpp Require Import base numbers.

Local Open Scope Z_scope.

Definition PAGE_SHIFT : Z := 12.
Definition PAGE_SIZE : Z := 4096.
Definition NR_FREE_LIST : Z := 10.

(** [2^o] pages from [n] on. *)
Definition in_block (o n p : Z) : Prop := n <= p < n + 2 ^ o.

Class PageAlloc (S : Type) := {
  get_pages : Z → Z → M S Z;
  release_pages : Z → Z → S → S;
  (** [free_one_page]: one reference less. *)
  put_page : Z → M S unit;
  (** [pages_inv s F]: the state is well formed and [F] are its free pages. *)
  pages_inv : S → (Z → Prop) → Prop;
  pages_total : S → Z;
}.

Class PageAllocLaws (S : Type) `{PageAlloc S} := {
  pa_bound s F : pages_inv s F → pages_total s <= 2 ^ 20;
  pa_free_range s F p : pages_inv s F → F p → 0 < p < pages_total s;
  (** An aligned block leaves the free set, or the state is as before. *)
  pa_get attr order s F : pages_inv s F → 0 <= order < NR_FREE_LIST →
    (∃ b s' F', get_pages attr order s = Ret (b * PAGE_SIZE) s' ∧ pages_inv s' F' ∧
      pages_total s' = pages_total s ∧ 0 < b ∧ b + 2 ^ order <= pages_total s ∧ (2 ^ order | b) ∧
      (∀ p, in_block order b p → F p) ∧ (∀ p, F' p ↔ F p ∧ ¬ in_block order b p)) ∨
    get_pages attr order s = Ret 0 s ∨ get_pages attr order s = Sleep s;
  (** A block that is not free joins the free set. *)
  pa_release b order s F : pages_inv s F → 0 <= order < NR_FREE_LIST →
    0 < b → b + 2 ^ order <= pages_total s → (2 ^ order | b) →
    (∀ p, in_block order b p → ¬ F p) →
    ∃ F', pages_inv (release_pages (b * PAGE_SIZE) order s) F' ∧
      pages_total (release_pages (b * PAGE_SIZE) order s) = pages_total s ∧
      (∀ p, F' p ↔ F p ∨ in_block order b p);
}.

(** An allocator with no pages left. *)
#[export] Instance no_pages : PageAlloc unit := {
  get_pages _ _ := mret 0;
  release_pages _ _ s := s;
  put_page _ := mret tt;
  pages_inv _ F := ∀ p, ¬ F p;
  pages_total _ := 0;
}.
#[export] Instance no_pages_laws : PageAllocLaws unit.
Proof.
  split.
  - intros. done.
  - intros s F p HF Hp. by apply HF in Hp.
  - intros. right. by left.
  - intros b order s F _ Ho Hb Hle. pose proof (Z.pow_pos_nonneg 2 order). simpl in Hle. lia.
Qed.
