(* ===== verification/Blocks.v ===== *)
(** * Disk blocks and what the buffer cache promises

    The file system reads and writes blocks of 1024 bytes through [bread],
    [brelse] and [bwrite].  To its clients the cache is one store of blocks:
    the class [BlockStore].  A block is a list of bytes; its structures are
    little-endian integers in it. *)

From S2P Require Import Prelude.
From stdpp Require Import base numbers gmap list.

Local Open Scope Z_scope.

Definition BLOCKSIZ : Z := 0x400.
Definition NODEV : Z := 0x7fff.
Definition MAJOR (dev : Z) : Z := Z.land (Z.shiftr dev 8) 0xff.
Definition MINOR (dev : Z) : Z := Z.land dev 0xff.

(** ** Little-endian integers in byte lists *)

Fixpoint le_decode (l : list Z) : Z :=
  match l with [] => 0 | b :: l => b + 256 * le_decode l end.
Fixpoint le_encode (n : nat) (v : Z) : list Z :=
  match n with O => [] | S n => v mod 256 :: le_encode n (v / 256) end.

Definition load (n : nat) (off : Z) (l : list Z) : Z := le_decode (slice off (Z.of_nat n) l).
Definition store (n : nat) (off v : Z) (l : list Z) : list Z := memcpy l off (le_encode n v).

Definition byte_ok (b : Z) : Prop := 0 <= b < 256.
Definition bytes_ok (l : list Z) : Prop := Forall byte_ok l.

Lemma le_decode_encode n v : 0 <= v < 256 ^ Z.of_nat n → le_decode (le_encode n v) = v.
Proof.
  revert v. induction n as [|n IH]; intros v Hv; simpl; [lia|].
  rewrite IH.
  - pose proof (Z.div_mod v 256). lia.
  - replace (Z.of_nat (S n)) with (Z.of_nat n + 1) in Hv by lia. rewrite Z.pow_add_r in Hv by lia.
    split; [apply Z.div_pos; lia|]. apply Z.div_lt_upper_bound; lia.
Qed.
Lemma zlen_le_encode n v : zlen (le_encode n v) = Z.of_nat n.
Proof. unfold zlen. f_equal. revert v. induction n as [|n IH]; intros v; simpl; [done|]. by rewrite IH. Qed.
Lemma le_encode_ok n v : bytes_ok (le_encode n v).
Proof.
  revert v. induction n as [|n IH]; intros v; constructor; [|apply IH].
  unfold byte_ok. apply Z.mod_pos_bound. lia.
Qed.
Lemma le_decode_range l : bytes_ok l → 0 <= le_decode l < 256 ^ zlen l.
Proof.
  induction 1 as [|b l Hb Hl IH]; [done|]. cbn [le_decode]. unfold byte_ok in Hb.
  assert (256 ^ zlen (b :: l) = 256 * 256 ^ zlen l) as ->.
  { replace (zlen (b :: l)) with (zlen l + 1) by (unfold zlen; simpl; lia).
    rewrite Z.pow_add_r; unfold zlen; lia. }
  lia.
Qed.

Lemma bytes_ok_zget l : bytes_ok l ↔ ∀ i b, zget l i = Some b → byte_ok b.
Proof.
  unfold bytes_ok. rewrite Forall_lookup. split.
  - intros Hf i b. unfold zget. destruct (_ <=? _); [apply Hf|done].
  - intros Hz i b Hb. apply (Hz (Z.of_nat i)). unfold zget.
    by rewrite (proj2 (Z.leb_le 0 _)), Nat2Z.id by lia.
Qed.

Lemma bytes_ok_slice off n l : bytes_ok l → bytes_ok (slice off n l).
Proof. intros Hl. unfold slice. by apply Forall_take, Forall_drop. Qed.
Lemma bytes_ok_memcpy l off src : bytes_ok l → bytes_ok src → 0 <= off → off + zlen src <= zlen l →
  bytes_ok (memcpy l off src).
Proof.
  intros Hl Hs H0 Hle. apply bytes_ok_zget. intros i b. rewrite zget_memcpy by done.
  case_decide; by apply bytes_ok_zget.
Qed.

Lemma slice_memcpy_same {A} (l : list A) off src : 0 <= off → off + zlen src <= zlen l →
  slice off (zlen src) (memcpy l off src) = src.
Proof.
  intros H0 Hle. pose proof (zlen_nonneg src). apply zget_ext. intros i Hi.
  rewrite zget_slice by lia. case_decide.
  - rewrite zget_memcpy by done. rewrite decide_True by lia. f_equal. lia.
  - symmetry. apply zget_None. lia.
Qed.
Lemma slice_memcpy_other {A} (l : list A) off src off' n :
  0 <= off → off + zlen src <= zlen l → 0 <= off' → 0 <= n →
  off' + n <= off ∨ off + zlen src <= off' →
  slice off' n (memcpy l off src) = slice off' n l.
Proof.
  intros H0 Hle H0' Hn Hd. apply zget_ext. intros i Hi. rewrite !zget_slice by lia.
  case_decide; [|done]. rewrite zget_memcpy by done. rewrite decide_False by lia. done.
Qed.

Lemma load_store n off v l : 0 <= off → off + Z.of_nat n <= zlen l → 0 <= v < 256 ^ Z.of_nat n →
  load n off (store n off v l) = v.
Proof.
  intros H0 Hle Hv. unfold load, store. rewrite <-(zlen_le_encode n v) at 1.
  rewrite slice_memcpy_same by (rewrite ?zlen_le_encode; lia). by apply le_decode_encode.
Qed.
Lemma load_store_other n m off off' v l :
  0 <= off → off + Z.of_nat n <= zlen l → 0 <= off' →
  off' + Z.of_nat m <= off ∨ off + Z.of_nat n <= off' →
  load m off' (store n off v l) = load m off' l.
Proof.
  intros H0 Hle H0' Hd. unfold load, store. f_equal.
  apply slice_memcpy_other; rewrite ?zlen_le_encode; lia.
Qed.
Lemma zlen_store n off v l : zlen (store n off v l) = zlen l.
Proof. apply zlen_memcpy. Qed.
Lemma load_range n off l : bytes_ok l → 0 <= off → off + Z.of_nat n <= zlen l →
  0 <= load n off l < 256 ^ Z.of_nat n.
Proof.
  intros Hl H0 Hle. unfold load.
  pose proof (le_decode_range _ (bytes_ok_slice off (Z.of_nat n) l Hl)) as Hr.
  by rewrite zlen_slice in Hr by lia.
Qed.
Lemma bytes_ok_store n off v l : bytes_ok l → 0 <= off → off + Z.of_nat n <= zlen l →
  bytes_ok (store n off v l).
Proof.
  intros Hl H0 Hle. apply bytes_ok_memcpy; [done|apply le_encode_ok|done|]. by rewrite zlen_le_encode.
Qed.

(** ** The block store *)

Definition block_ok (l : list Z) : Prop := zlen l = BLOCKSIZ ∧ bytes_ok l.

Class BlockStore (S : Type) := {
  (** The contents of a block as a reader sees them, cached or not. *)
  block_at : S → Z → Z → list Z;
  (** A write through a buffer: data changed, marked dirty and released. *)
  set_block : Z → Z → list Z → S → S;
  (** Whether reading the block succeeds; [bread] returns null otherwise. *)
  readable : S → Z → Z → bool;
  (** [inval_block]: a cached copy of the block is dropped, written or not. *)
  inval_block : Z → Z → S → S;
}.

Class BlockLaws (S : Type) `{BlockStore S} := {
  block_set d b l s d' b' :
    block_at (set_block d b l s) d' b' = if decide (d' = d ∧ b' = b) then l else block_at s d' b';
  readable_set d b l s d' b' : readable (set_block d b l s) d' b' = readable s d' b';
  block_inval d b s d' b' : (d', b') ≠ (d, b) → block_at (inval_block d b s) d' b' = block_at s d' b';
  block_ok_inval d b s d' b' : block_ok (block_at s d' b') → block_ok (block_at (inval_block d b s) d' b');
  readable_inval d b s d' b' : readable (inval_block d b s) d' b' = readable s d' b';
}.

(** [bread]: the data of the block, or null. *)
Definition bread {S} `{BlockStore S} (dev blk : Z) (s : S) : option (list Z) :=
  if readable s dev blk then Some (block_at s dev blk) else None.

(** A disk without faults. *)
Abbreviation plain_disk := (gmap (Z * Z) (list Z)).
#[export] Instance plain_store : BlockStore plain_disk := {
  block_at s d b := default (replicate 1024 0) (s !! (d, b));
  set_block d b l s := <[(d, b) := l]> s;
  readable _ _ _ := true;
  inval_block _ _ s := s;
}.
#[export] Instance plain_laws : BlockLaws plain_disk.
Proof.
  split; [|done..]. intros d b l s d' b'. simpl. case_decide as Hd.
  - destruct Hd as [-> ->]. by rewrite lookup_insert_eq.
  - rewrite lookup_insert_ne; [done|]. intros [= -> ->]. by apply Hd.
Qed.
