(* ===== verification/Ring.v ===== *)
(** * Ring buffers (net/ringbuff.c)

    The byte queues of the TCP code: an array with a write position [head] and
    a byte count.  The theorems say that a ring is a bounded first-in
    first-out queue, that a copy never leaves the array, and where reading at
    an offset departs from that. *)

From S2P Require Import Prelude.
From stdpp Require Import base numbers gmap list.

Local Open Scope Z_scope.

Record ring_buffer_t := Ring { r_data : list Z; r_head : Z; r_count : Z; r_size : Z }.

(** [mem]: the block [kmalloc] returns when [size] is positive. *)
Definition init_ring (mem : list Z) (size : Z) : ring_buffer_t :=
  Ring (if 0 <? size then mem else []) 0 0 size.

Definition copy_to_ring (srcbuf : list Z) (data_len : Z) : M ring_buffer_t Z :=
  ring ← gets id;
  if r_size ring <=? r_count ring then mret 0
  else
    let data_len :=
      if r_size ring - r_count ring <? data_len then r_size ring - r_count ring else data_len in
    let len := r_size ring - r_head ring in
    let data :=
      if data_len <=? len then memcpy (r_data ring) (r_head ring) (slice 0 data_len srcbuf)
      else
        let data := memcpy (r_data ring) (r_head ring) (slice 0 len srcbuf) in
        memcpy data 0 (slice len (data_len - len) srcbuf) in
    modify (λ ring, Ring data (Z.rem (r_head ring + data_len) (r_size ring))
      (r_count ring + data_len) (r_size ring));;
    mret data_len.

(** The caller's buffer is passed in and returned. *)
Definition copy_from_ring (destbuf : list Z) (data_len off : Z) (del : bool)
    : M ring_buffer_t (Z * list Z) :=
  ring ← gets id;
  if r_count ring <=? 0 then mret (0, destbuf)
  else
    die_if (r_count ring <=? off);;
    let data_len := if r_count ring <? data_len then r_count ring else data_len in
    let idx := r_head ring - r_count ring + off in
    let idx := if idx <? 0 then idx + r_size ring else idx in
    let len := r_size ring - idx in
    let destbuf :=
      if data_len <=? len then memcpy destbuf 0 (slice idx data_len (r_data ring))
      else
        let destbuf := memcpy destbuf 0 (slice idx len (r_data ring)) in
        memcpy destbuf len (slice 0 (data_len - len) (r_data ring)) in
    when del (modify (λ ring,
      Ring (r_data ring) (r_head ring) (r_count ring - data_len) (r_size ring)));;
    mret (data_len, destbuf).

Definition ring_is_empty (ring : ring_buffer_t) : bool := negb (0 <? r_count ring).
Definition ring_is_avail (ring : ring_buffer_t) : bool := r_count ring <? r_size ring.

(** ** The queue a ring holds *)

Record ring_ok (r : ring_buffer_t) : Prop := {
  rk_size : 0 < r_size r;
  rk_head : 0 <= r_head r < r_size r;
  rk_count : 0 <= r_count r <= r_size r;
  rk_data : zlen (r_data r) = r_size r;
}.

(** Byte [i] of the queue. *)
Definition ring_pos (r : ring_buffer_t) (i : Z) : Z := (r_head r - r_count r + i) mod r_size r.
Definition contents (r : ring_buffer_t) : list Z :=
  (λ i, default 0 (zget (r_data r) (ring_pos r i))) <$> seqZ 0 (r_count r).

Lemma ring_pos_range r i : ring_ok r → 0 <= ring_pos r i < r_size r.
Proof. intros []. apply Z.mod_pos_bound. lia. Qed.

Lemma zlen_contents r : ring_ok r → zlen (contents r) = r_count r.
Proof. intros []. unfold zlen, contents. rewrite length_fmap, length_seqZ. lia. Qed.

Lemma zget_contents r i : ring_ok r →
  zget (contents r) i = if decide (0 <= i < r_count r) then zget (r_data r) (ring_pos r i) else None.
Proof.
  intros Hr. unfold contents. case_decide.
  - unfold zget at 1. rewrite (proj2 (Z.leb_le 0 i)) by lia.
    rewrite list_lookup_fmap, lookup_seqZ_lt by lia. simpl. rewrite Z2Nat.id by lia.
    pose proof (ring_pos_range r i Hr). destruct Hr.
    destruct (proj2 (zget_is_Some (r_data r) (ring_pos r i))) as [x Hx]; [lia|].
    by rewrite Z.add_0_l, Hx.
  - apply zget_None. rewrite <-(zlen_contents r Hr) in H. unfold contents in H. lia.
Qed.

(** Copying [n] bytes in from [head] on, around the end of the array. *)
Lemma zget_copy_in {A} (data : list A) head size src n j :
  0 <= head < size → zlen data = size → 0 <= n <= size → n <= zlen src → 0 <= j < size →
  zget (if n <=? size - head then memcpy data head (slice 0 n src)
        else memcpy (memcpy data head (slice 0 (size - head) src)) 0
          (slice (size - head) (n - (size - head)) src)) j =
    if decide ((j - head) mod size < n) then zget src ((j - head) mod size) else zget data j.
Proof.
  intros Hh Hd Hn Hs Hj. destruct (Z.leb_spec n (size - head)).
  - rewrite zget_memcpy by (rewrite ?zlen_slice; lia). rewrite zlen_slice by lia.
    destruct (decide (head <= j)).
    + rewrite (Z.mod_small (j - head)) by lia. rewrite zget_slice by lia.
      repeat case_decide; try lia; try done.
    + replace ((j - head) mod size) with (j - head + size).
      2: { rewrite <-(Z.mod_add (j - head) 1), Z.mul_1_l, Z.mod_small; lia. }
      rewrite !decide_False by lia. done.
  - rewrite zget_memcpy by (rewrite ?zlen_memcpy, ?zlen_slice; lia).
    rewrite zlen_slice by lia. rewrite zget_memcpy by (rewrite ?zlen_slice; lia).
    rewrite zlen_slice by lia. rewrite !zget_slice by lia.
    destruct (decide (head <= j)).
    + rewrite (Z.mod_small (j - head)) by lia. rewrite !decide_False by lia.
      repeat case_decide; try lia. done.
    + replace ((j - head) mod size) with (j - head + size).
      2: { rewrite <-(Z.mod_add (j - head) 1), Z.mul_1_l, Z.mod_small; lia. }
      repeat case_decide; try lia; [|done]. f_equal. lia.
Qed.

Lemma zlen_copy_in {A} (data : list A) head size src n :
  zlen (if n <=? size - head then memcpy data head (slice 0 n src)
        else memcpy (memcpy data head (slice 0 (size - head) src)) 0
          (slice (size - head) (n - (size - head)) src)) = zlen data.
Proof. destruct (_ <=? _); by rewrite !zlen_memcpy. Qed.

Lemma copy_to_ring_spec r src n : ring_ok r → 0 <= n <= zlen src →
  let k := Z.min n (r_size r - r_count r) in
  ∃ r', copy_to_ring src n r = Ret k r' ∧ ring_ok r' ∧ r_size r' = r_size r ∧
    contents r' = contents r ++ slice 0 k src.
Proof.
  intros Hr Hn k. pose proof Hr as [Hsz Hh Hc Hd]. unfold copy_to_ring. mstep. unfold id.
  destruct (Z.leb_spec (r_size r) (r_count r)) as [Hfull|Hroom].
  { exists r. assert (k = 0) as -> by lia. split_and!; [done..|].
    unfold slice. simpl. by rewrite app_nil_r. }
  assert ((if r_size r - r_count r <? n then r_size r - r_count r else n) = k) as ->
    by (destruct (Z.ltb_spec (r_size r - r_count r) n); lia).
  set (data := if _ <=? _ then _ else _). mstep.
  rewrite Z.rem_mod_nonneg by lia.
  set (r' := Ring data _ _ _).
  assert (ring_ok r') as Hr'.
  { split; cbn; [done|apply Z.mod_pos_bound; lia|lia|]. unfold data. by rewrite zlen_copy_in. }
  exists r'. split_and!; [done|done|done|].
  apply zget_ext. intros i Hi. rewrite zget_app by done.
  rewrite !zget_contents, zlen_contents, zget_slice by (done || lia).
  change (r_count r') with (r_count r + k). change (r_data r') with data.
  assert (ring_pos r' i = ring_pos r i) as Hpos.
  { unfold ring_pos, r'. cbn.
    replace ((r_head r + k) mod r_size r - (r_count r + k) + i)
      with ((r_head r + k) mod r_size r + (i - r_count r - k)) by lia.
    rewrite Z.add_mod_idemp_l by lia. f_equal. lia. }
  rewrite Hpos. pose proof (ring_pos_range r i Hr) as Hp.
  destruct (decide (i < r_count r + k)); [|repeat case_decide; try lia; done].
  unfold data. rewrite zget_copy_in by lia.
  assert ((ring_pos r i - r_head r) mod r_size r = (i - r_count r) mod r_size r) as ->.
  { unfold ring_pos. rewrite Zminus_mod_idemp_l. f_equal. lia. }
  destruct (decide (i < r_count r)) as [Hlt|Hge].
  - replace ((i - r_count r) mod r_size r) with (i - r_count r + r_size r).
    2: { rewrite <-(Z.mod_add (i - r_count r) 1), Z.mul_1_l, Z.mod_small; lia. }
    repeat case_decide; try lia; done.
  - rewrite (Z.mod_small (i - r_count r)) by lia. repeat case_decide; try lia; done.
Qed.

(** Copying [n] bytes out from [idx] on. *)
Lemma zget_copy_out {A} (dest data : list A) idx size n j :
  0 <= idx < size → zlen data = size → 0 <= n <= size → n <= zlen dest → 0 <= j →
  zget (if n <=? size - idx then memcpy dest 0 (slice idx n data)
        else memcpy (memcpy dest 0 (slice idx (size - idx) data)) (size - idx)
          (slice 0 (n - (size - idx)) data)) j =
    if decide (j < n) then zget data ((idx + j) mod size) else zget dest j.
Proof.
  intros Hi Hd Hn Hs Hj. destruct (Z.leb_spec n (size - idx)).
  - rewrite zget_memcpy by (rewrite ?zlen_slice; lia). rewrite zlen_slice, zget_slice by lia.
    repeat case_decide; try lia; [|done]. rewrite Z.mod_small by lia. f_equal. lia.
  - rewrite zget_memcpy by (rewrite ?zlen_memcpy, ?zlen_slice; lia).
    rewrite zlen_slice by lia. rewrite zget_memcpy by (rewrite ?zlen_slice; lia).
    rewrite zlen_slice, !zget_slice by lia.
    destruct (decide (j < size - idx)).
    + rewrite Z.mod_small by lia. repeat case_decide; try lia. f_equal. lia.
    + destruct (decide (j < n)); [|repeat case_decide; try lia; done].
      replace ((idx + j) mod size) with (idx + j - size).
      2: { rewrite <-(Z.mod_add (idx + j) (-1)), Z.mod_small; lia. }
      repeat case_decide; try lia. f_equal. lia.
Qed.

(** Reading [n] bytes at [off]: the bytes come from the queue as long as there
    are enough of them after [off]. *)
Lemma copy_from_ring_spec r dest n off del : ring_ok r → 0 <= n <= zlen dest → 0 <= off < r_count r →
  let k := Z.min n (r_count r) in
  ∃ r' dest', copy_from_ring dest n off del r = Ret (k, dest') r' ∧ zlen dest' = zlen dest ∧
    r' = (if del then Ring (r_data r) (r_head r) (r_count r - k) (r_size r) else r) ∧
    ∀ j, 0 <= j → zget dest' j =
      if decide (j < k) then zget (r_data r) (ring_pos r (off + j)) else zget dest j.
Proof.
  intros Hr Hn Hoff k. pose proof Hr as [Hsz Hh Hc Hd]. unfold copy_from_ring. mstep. unfold id.
  rewrite (proj2 (Z.leb_gt (r_count r) 0)) by lia. rewrite (proj2 (Z.leb_gt (r_count r) off)) by lia.
  assert ((if r_count r <? n then r_count r else n) = k) as ->
    by (destruct (Z.ltb_spec (r_count r) n); lia).
  set (idx := r_head r - r_count r + off).
  assert ((if idx <? 0 then idx + r_size r else idx) = idx mod r_size r) as ->.
  { destruct (Z.ltb_spec idx 0); [|rewrite Z.mod_small; lia].
    rewrite <-(Z.mod_add idx 1), Z.mul_1_l, Z.mod_small; lia. }
  unfold die_if. mstep. set (dest' := if _ <=? _ then _ else _).
  exists (if del then Ring (r_data r) (r_head r) (r_count r - k) (r_size r) else r), dest'. split; [unfold when; by destruct del|].
  split_and!; [|done|].
  - unfold dest'. destruct (_ <=? _); by rewrite !zlen_memcpy.
  - intros j Hj. unfold dest'. pose proof (Z.mod_pos_bound idx (r_size r)).
    rewrite zget_copy_out by lia. unfold ring_pos. rewrite Z.add_mod_idemp_l by lia.
    by replace (r_head r - r_count r + (off + j)) with (idx + j) by lia.
Qed.

(** ** First in, first out *)

Lemma read_front r dest n del : ring_ok r → 0 <= n <= zlen dest →
  let k := Z.min n (r_count r) in
  ∃ r' dest', copy_from_ring dest n 0 del r = Ret (k, dest') r' ∧ ring_ok r' ∧
    r_size r' = r_size r ∧ slice 0 k dest' = slice 0 k (contents r) ∧
    contents r' = if del then slice k (r_count r - k) (contents r) else contents r.
Proof.
  intros Hr Hn k. pose proof Hr as [Hsz Hh Hc Hd].
  destruct (decide (r_count r = 0)) as [H0|H0].
  { assert (k = 0) as -> by lia. exists r, dest. unfold copy_from_ring. mstep. unfold id.
    rewrite H0. split_and!; try done. destruct del; [|done].
    unfold slice. simpl. rewrite take_0. apply length_zero_iff_nil.
    pose proof (zlen_contents r Hr). unfold zlen in *. lia. }
  destruct (copy_from_ring_spec r dest n 0 del Hr Hn) as (r' & dest' & Heq & Hlen & Hr' & Hget); [lia|].
  exists r', dest'. fold k in Heq, Hget, Hr'.
  assert (ring_ok r') as Hok by (rewrite Hr'; destruct del; [|done]; split; cbn; lia || done).
  split_and!; [done|done|rewrite Hr'; by destruct del|..].
  - apply zget_ext. intros i Hi. rewrite !zget_slice by lia. case_decide; [|done].
    rewrite !Z.add_0_l, Hget, zget_contents by (done || lia). repeat case_decide; try lia. done.
  - subst r'. destruct del; [|done]. apply zget_ext. intros i Hi.
    rewrite zget_slice by lia. rewrite !zget_contents by done. cbn [r_count r_data].
    repeat case_decide; try lia; [|done]. f_equal. unfold ring_pos. cbn. f_equal. lia.
Qed.

(** A program of writes and deleting reads, on a ring and on a bounded queue;
    the bytes read are collected. *)
Inductive ring_op := RWrite (bs : list Z) | RRead (n : Z).

Fixpoint run_ring (os : list ring_op) (r : ring_buffer_t) (out : list Z) : option (ring_buffer_t * list Z) :=
  match os with
  | [] => Some (r, out)
  | RWrite bs :: os =>
      match copy_to_ring bs (zlen bs) r with Ret _ r => run_ring os r out | _ => None end
  | RRead n :: os =>
      match copy_from_ring (replicate (Z.to_nat n) 0) n 0 true r with
      | Ret (k, dest) r => run_ring os r (out ++ slice 0 k dest)
      | _ => None
      end
  end.
Fixpoint run_queue (size : Z) (os : list ring_op) (q out : list Z) : list Z * list Z :=
  match os with
  | [] => (q, out)
  | RWrite bs :: os => run_queue size os (q ++ slice 0 (size - zlen q) bs) out
  | RRead n :: os => run_queue size os (drop (Z.to_nat n) q) (out ++ take (Z.to_nat n) q)
  end.

Lemma slice_clip {A} k n (l : list A) : 0 <= k → zlen l = n → slice 0 (Z.min n k) l = slice 0 k l.
Proof.
  intros Hk Hl. unfold slice. rewrite drop_0. unfold zlen in Hl.
  destruct (decide (n <= k)).
  - rewrite Z.min_l by lia. rewrite !take_ge by lia. done.
  - by rewrite Z.min_r by lia.
Qed.



(** Reading at an offset, as a retransmission does, copies the queue's
    bytes from [off] on only while [off + n] stays within the count.  The
    length is limited by the count alone, so that a longer read runs past the
    newest byte: a ring of four holding 7 and 8 with old bytes 1 and 2 returns
    the old byte 1 when two bytes are read at offset 1. *)
Theorem ring_offset_read r dest n off del : ring_ok r → 0 <= n <= zlen dest → 0 <= off < r_count r →
  ∃ r' dest' k, copy_from_ring dest n off del r = Ret (k, dest') r' ∧ k = Z.min n (r_count r) ∧
    slice 0 (Z.min k (r_count r - off)) dest' = slice off (Z.min k (r_count r - off)) (contents r).
Proof.
  intros Hr Hn Hoff. destruct (copy_from_ring_spec r dest n off del Hr Hn Hoff) as
    (r' & dest' & Heq & _ & _ & Hget).
  exists r', dest', (Z.min n (r_count r)). split_and!; [done..|].
  apply zget_ext. intros i Hi. rewrite !zget_slice by lia. case_decide; [|done].
  rewrite Z.add_0_l, Hget, zget_contents by (done || lia). repeat case_decide; try lia. done.
Qed.

Lemma ring_offset_read_witness :
  (∃ r' dest' k, copy_from_ring [0; 0] 2 1 false (Ring [7; 8; 1; 2] 2 2 4) = Ret (k, dest') r' ∧ k = 2 ∧
    slice 0 (Z.min k 1) dest' = slice 1 (Z.min k 1) [7; 8]) ∧
  copy_from_ring [0; 0] 2 1 false (Ring [7; 8; 1; 2] 2 2 4) = Ret (2, [8; 1]) (Ring [7; 8; 1; 2] 2 2 4).
Proof.
  split; [|reflexivity].
  apply (ring_offset_read (Ring [7; 8; 1; 2] 2 2 4) [0; 0] 2 1 false).
  - split; cbn; lia || done.
  - vm_compute. split; congruence.
  - vm_compute. split; congruence.
Defined.
