(* ===== verification/Dlist.v ===== *)
(** * Intrusive circular doubly linked lists (include/cnix/list.h)

    Every queue of the kernel (free page areas, buffers, inodes, tasks, timers,
    packets) is threaded through [prev]/[next] fields by the inline functions
    of list.h.  The functions are defined here over any store of linked nodes
    (class [LinkStore]), statement by statement, and shown to implement the
    operations of a plain list of node addresses ([is_list]).  The page
    allocator uses the theory for its own inlined list surgery. *)

From S2P Require Import Prelude.
From stdpp Require Import base numbers functions gmap list.

Local Open Scope Z_scope.

(** A store with [prev]/[next] fields at the addresses [P]. *)
Class LinkStore (S P : Type) := {
  nxt : S → P → P;
  prv : S → P → P;
  set_nxt : P → P → S → S;
  set_prv : P → P → S → S;
  linkable : S → P → Prop;
}.

Class LinkLaws (S P : Type) `{EqDecision P} `{LinkStore S P} := {
  nxt_set_nxt s p v q :
    linkable s p → nxt (set_nxt p v s) q = if decide (q = p) then v else nxt s q;
  prv_set_prv s p v q :
    linkable s p → prv (set_prv p v s) q = if decide (q = p) then v else prv s q;
  nxt_set_prv s p v q : nxt (set_prv p v s) q = nxt s q;
  prv_set_nxt s p v q : prv (set_nxt p v s) q = prv s q;
  linkable_set_nxt s p v q : linkable (set_nxt p v s) q ↔ linkable s q;
  linkable_set_prv s p v q : linkable (set_prv p v s) q ↔ linkable s q;
}.

Section ops.
Context {S P : Type} `{EqDecision P} `{LinkStore S P}.

Definition list_head_init (list : P) (s : S) : S :=
  set_prv list list (set_nxt list list s).

Definition list_init (list : P) (s : S) : S :=
  set_prv list list (set_nxt list list s).

Definition list_empty (list : P) (s : S) : bool := bool_decide (prv s list = list).

Definition list_add_head (list n : P) (s : S) : S :=
  let s := set_nxt n (nxt s list) s in
  let s := set_prv (nxt s list) n s in
  let s := set_nxt list n s in
  set_prv n list s.

Definition list_add_tail (list n : P) (s : S) : S :=
  let s := set_prv n (prv s list) s in
  let s := set_nxt (prv s list) n s in
  let s := set_nxt n list s in
  set_prv list n s.

Definition list_del (e : P) (s : S) : S :=
  let s := set_nxt (prv s e) (nxt s e) s in
  set_prv (nxt s e) (prv s e) s.

Definition list_del1 (e : P) (s : S) : S :=
  let s := set_nxt (prv s e) (nxt s e) s in
  let s := set_prv (nxt s e) (prv s e) s in
  set_prv e e (set_nxt e e s).

Definition list_insert (t n : P) (s : S) : S :=
  let s := set_prv n t s in
  let s := set_nxt n (nxt s t) s in
  let s := set_prv (nxt s t) n s in
  set_nxt t n s.

(** [list_foreach(tmp, pos, list) body]; [None] when the fuel runs out. *)
Fixpoint foreach_loop (fuel : nat) (list tmp pos : P) (body : P → S → S) (s : S)
    : option S :=
  match fuel with
  | O => None
  | Datatypes.S fuel =>
      if decide (tmp = list) then Some s
      else
        let s := body tmp s in
        foreach_loop fuel list pos (nxt s pos) body s
  end.
Definition list_foreach (fuel : nat) (list : P) (body : P → S → S) (s : S) : option S :=
  let tmp := nxt s list in
  foreach_loop fuel list tmp (nxt s tmp) body s.
End ops.

(** ** The list a head represents *)
Section shape.
Context {S P : Type} `{EqDecision P} `{LinkStore S P}.

(** [links s p l]: from [p], following [next], come the nodes of [l], each
    with its [prev] set to the node before it. *)
Fixpoint links (s : S) (p : P) (l : list P) : Prop :=
  match l with
  | [] => True
  | q :: l' => nxt s p = q ∧ prv s q = p ∧ links s q l'
  end.

Definition is_list (s : S) (hd : P) (l : list P) : Prop :=
  NoDup (hd :: l) ∧ Forall (linkable s) (hd :: l) ∧ links s hd (l ++ [hd]).

(** The nodes whose [next] field [links s p l] reads. *)
Fixpoint srcs (p : P) (l : list P) : list P :=
  match l with [] => [] | q :: l' => p :: srcs q l' end.

Definition lst (p : P) (l : list P) : P := List.last l p.
#[local] Arguments lst : simpl never.

Lemma srcs_snoc p l x : srcs p (l ++ [x]) = p :: l.
Proof. revert p. induction l as [|q l IH]; intros p; simpl; [done|]. by rewrite IH. Qed.

Lemma lst_cons p q l : lst p (q :: l) = lst q l.
Proof.
  unfold lst. simpl. destruct l as [|r l]; [done|].
  revert r; induction l as [|x l IH]; intros r; [done|]. simpl in *. apply IH.
Qed.
Lemma lst_snoc p l x : lst p (l ++ [x]) = x.
Proof. revert p. induction l as [|q l IH]; intros p; [done|]. simpl app. rewrite lst_cons. apply IH. Qed.
Lemma lst_elem p l : lst p l ∈ p :: l.
Proof.
  revert p. induction l as [|q l IH]; intros p; [left|].
  rewrite lst_cons. right. apply IH.
Qed.

Lemma links_app s p l1 l2 : links s p (l1 ++ l2) ↔ links s p l1 ∧ links s (lst p l1) l2.
Proof.
  revert p. induction l1 as [|q l1 IH]; intros p; simpl; [naive_solver|].
  rewrite IH, lst_cons. naive_solver.
Qed.

Lemma links_frame s s' p l :
  (∀ q, q ∈ srcs p l → nxt s' q = nxt s q) →
  (∀ q, q ∈ l → prv s' q = prv s q) →
  links s p l → links s' p l.
Proof.
  revert p. induction l as [|q l IH]; intros p Hn Hp; [done|].
  intros (H1 & H2 & H3). simpl in *. split_and!.
  - rewrite Hn; [done|left].
  - rewrite Hp; [done|left].
  - apply IH; [..|done].
    + intros r Hr. apply Hn. by right.
    + intros r Hr. apply Hp. by right.
Qed.

Lemma is_list_NoDup s hd l : is_list s hd l → NoDup l.
Proof. intros (Hnd & _). by apply NoDup_cons in Hnd as [_ ?]. Qed.
Lemma is_list_hd_notin s hd l : is_list s hd l → hd ∉ l.
Proof. intros (Hnd & _). by apply NoDup_cons in Hnd as [? _]. Qed.
Lemma is_list_linkable s hd l q : is_list s hd l → q ∈ hd :: l → linkable s q.
Proof. intros (_ & Hf & _) Hq. by eapply Forall_forall in Hf. Qed.

Lemma is_list_frame s s' hd l :
  is_list s hd l →
  (∀ q, q ∈ hd :: l → nxt s' q = nxt s q ∧ prv s' q = prv s q) →
  (∀ q, linkable s q → linkable s' q) →
  is_list s' hd l.
Proof.
  intros (Hnd & Hl & Hlk) Hfr Hlnk. split_and!; [done| |].
  - eapply Forall_impl; [exact Hl|]. auto.
  - eapply links_frame; [..|exact Hlk].
    + rewrite srcs_snoc. intros q Hq. by apply Hfr.
    + intros q Hq. apply Hfr. set_solver.
Qed.

(** [first l b]: the node after the head. *)
Definition fst_or (b : P) (l : list P) : P := default b (head l).

Lemma fst_or_elem b l : fst_or b l ∈ b :: l.
Proof. destruct l; unfold fst_or; simpl; set_solver. Qed.

Lemma is_list_next s hd l1 l2 :
  is_list s hd (l1 ++ l2) → nxt s (lst hd l1) = fst_or hd l2 ∧ prv s (fst_or hd l2) = lst hd l1.
Proof.
  intros (_ & _ & Hlk). rewrite <-app_assoc, links_app in Hlk.
  destruct Hlk as [_ Hlk]. destruct l2; simpl in *; naive_solver.
Qed.

Lemma is_list_nxt_hd s hd l : is_list s hd l → nxt s hd = fst_or hd l.
Proof. intros Hl. by apply (is_list_next s hd [] l). Qed.
Lemma is_list_prv_hd s hd l : is_list s hd l → prv s hd = lst hd l.
Proof.
  intros Hl. rewrite <-(app_nil_r l) in Hl at 1.
  apply is_list_next in Hl as [_ Hp]. done.
Qed.

(** [s'] is [s] with [n] put between [a] and [b]. *)
Definition spliced (s s' : S) (a n b : P) : Prop :=
  (∀ q, nxt s' q = if decide (q = a) then n else if decide (q = n) then b else nxt s q) ∧
  (∀ q, prv s' q = if decide (q = b) then n else if decide (q = n) then a else prv s q) ∧
  (∀ q, linkable s' q ↔ linkable s q).

(** [s'] is [s] with [e] taken out from between [a] and [b]; the fields of
    [e] itself are left open. *)
Definition unlinked (s s' : S) (a e b : P) : Prop :=
  (∀ q, q ≠ e → nxt s' q = if decide (q = a) then b else nxt s q) ∧
  (∀ q, q ≠ e → prv s' q = if decide (q = b) then a else prv s q) ∧
  (∀ q, linkable s' q ↔ linkable s q).

Lemma links_last_frame s s' hd l1 :
  NoDup (hd :: l1) → (∀ q, q ∈ hd :: l1 → q ≠ lst hd l1 → nxt s' q = nxt s q) →
  (∀ q, q ∈ l1 → prv s' q = prv s q) → links s hd l1 → links s' hd l1.
Proof.
  intros Hnd Hn Hp. apply links_frame; [|done].
  destruct l1 as [|x l1 _] using rev_ind; [set_solver|].
  rewrite srcs_snoc. intros q Hq. apply Hn; [set_solver|].
  rewrite lst_snoc. intros ->.
  change (hd :: l1 ++ [x]) with ((hd :: l1) ++ [x]) in Hnd.
  apply NoDup_app in Hnd as (_ & Hd & _). apply (Hd x Hq). set_solver.
Qed.

Lemma spliced_is_list s s' hd l1 l2 n :
  is_list s hd (l1 ++ l2) → n ∉ hd :: l1 ++ l2 → linkable s n →
  spliced s s' (lst hd l1) n (fst_or hd l2) →
  is_list s' hd (l1 ++ n :: l2).
Proof.
  intros (Hnd & Hl & Hlk) Hn Hln (Hnx & Hpv & Hlb). split_and!.
  - rewrite Permutation_middle in Hn. change (hd :: l1 ++ n :: l2) with ((hd :: l1) ++ n :: l2).
    rewrite <-Permutation_middle. constructor; set_solver.
  - rewrite !Forall_cons, Forall_app, ?Forall_cons in *.
    setoid_rewrite Forall_forall in Hl. rewrite !Forall_forall, !Hlb in *.
    setoid_rewrite Hlb. naive_solver.
  - rewrite <-app_assoc, links_app in Hlk. destruct Hlk as [Hk1 Hk2].
    rewrite <-app_assoc, links_app. change (hd :: l1 ++ l2) with ((hd :: l1) ++ l2) in Hnd.
    apply NoDup_app in Hnd as (Hnd1 & Hd & Hnd2).
    assert (Hlst := lst_elem hd l1).
    assert (n ≠ lst hd l1) as Hna by set_solver.
    assert (n ≠ fst_or hd l2) as Hnb by (pose proof (fst_or_elem hd l2); set_solver).
    split.
    + eapply links_last_frame; [done|..|exact Hk1].
      * intros q Hq Hne. rewrite Hnx, !decide_False; [done|set_solver|done].
      * intros q Hq. rewrite Hpv, !decide_False; [done|set_solver|].
        intros ->. apply NoDup_cons in Hnd1 as [Hh _].
        destruct l2 as [|x l2]; unfold fst_or in *; simpl in *; [done|].
        apply (Hd x); [set_solver|set_solver].
    + simpl. rewrite Hnx, decide_True by done. rewrite Hpv, decide_False, decide_True by done.
      do 2 (split; [done|]).
      destruct l2 as [|b l2]; simpl in *; unfold fst_or in *; simpl in *.
      * destruct Hk2 as (_ & _ & _). rewrite Hnx, decide_False, decide_True by done.
        by rewrite Hpv, decide_True.
      * destruct Hk2 as (_ & _ & Hk2). rewrite Hnx, decide_False, decide_True by done.
        rewrite Hpv, decide_True by done. do 2 (split; [done|]).
        apply NoDup_cons in Hnd2 as [Hb2 Hnd2].
        eapply links_frame; [..|exact Hk2].
        -- rewrite srcs_snoc. intros q Hq. rewrite Hnx, !decide_False; [done|set_solver|].
           intros ->. eapply Hd; [exact Hlst|set_solver].
        -- intros q Hq. rewrite Hpv, !decide_False; [done|set_solver|].
           intros ->. apply elem_of_app in Hq as [Hq|Hq]; [done|].
           apply list_elem_of_singleton in Hq as ->. apply (Hd hd); set_solver.
Qed.

Lemma unlinked_is_list s s' hd l1 e l2 :
  is_list s hd (l1 ++ e :: l2) →
  unlinked s s' (lst hd l1) e (fst_or hd l2) →
  is_list s' hd (l1 ++ l2).
Proof.
  intros (Hnd & Hl & Hlk) (Hnx & Hpv & Hlb).
  change (hd :: l1 ++ e :: l2) with ((hd :: l1) ++ e :: l2) in Hnd.
  pose proof Hnd as Hnd0. rewrite <-Permutation_middle in Hnd.
  apply NoDup_cons in Hnd as [He Hnd].
  split_and!; [done| |].
  - rewrite !Forall_forall in *. intros q Hq. apply Hlb, Hl. set_solver.
  - rewrite <-app_assoc, links_app in Hlk. destruct Hlk as [Hk1 Hk2].
    rewrite <-app_assoc, links_app.
    change ((hd :: l1) ++ l2) with (hd :: l1 ++ l2) in Hnd.
    apply NoDup_app in Hnd0 as (Hnd1 & Hd & Hnd2).
    assert (Hlst := lst_elem hd l1).
    split.
    + eapply links_last_frame; [done|..|exact Hk1].
      * intros q Hq Hne. rewrite Hnx, decide_False; [done|done|set_solver].
      * intros q Hq. rewrite Hpv, decide_False; [done| |set_solver].
        intros ->. apply NoDup_cons in Hnd1 as [Hh _].
        destruct l2 as [|x l2]; unfold fst_or in *; simpl in *; [done|].
        apply (Hd x); set_solver.
    + apply NoDup_cons in Hnd2 as [_ Hnd2].
      assert (fst_or hd l2 ≠ e) as Hbe.
      { intros Heq. apply He. rewrite <-Heq. pose proof (fst_or_elem hd l2). set_solver. }
      assert (lst hd l1 ≠ e) as Hae.
      { intros Heq. apply He. rewrite <-Heq. set_solver. }
      destruct l2 as [|b l2]; simpl in *; unfold fst_or in *; simpl in *.
      * rewrite Hnx, decide_True by done. by rewrite Hpv, decide_True.
      * destruct Hk2 as (_ & _ & _ & _ & Hk2).
        rewrite Hnx, decide_True by done. rewrite Hpv, decide_True by done.
        do 2 (split; [done|]). apply NoDup_cons in Hnd2 as [Hb2 Hnd2].
        eapply links_frame; [..|exact Hk2].
        -- rewrite srcs_snoc. intros q Hq. rewrite Hnx, decide_False; [done| |set_solver].
           intros ->. eapply Hd; [exact Hlst|set_solver].
        -- intros q Hq. rewrite Hpv, decide_False; [done| |set_solver].
           intros ->. apply elem_of_app in Hq as [Hq|Hq]; [done|].
           apply list_elem_of_singleton in Hq as ->. apply (Hd hd); set_solver.
Qed.
End shape.

(** ** The operations implement list operations *)
Section correct.
Context {S P : Type} `{EqDecision P} `{!LinkStore S P} `{!LinkLaws S P}.
Implicit Types (s : S) (hd e n p q : P) (l : list P).

(** [store] rewrites reads after writes, deciding which node is read. *)
Ltac lkbl := repeat first [rewrite linkable_set_nxt | rewrite linkable_set_prv]; done.
Ltac store :=
  repeat first
    [ rewrite nxt_set_prv | rewrite prv_set_nxt
    | rewrite nxt_set_nxt by lkbl | rewrite prv_set_prv by lkbl ].

Lemma linkable_fst s hd l : is_list s hd l → linkable s (fst_or hd l).
Proof. intros Hl. eapply is_list_linkable; [exact Hl|]. apply fst_or_elem. Qed.
Lemma linkable_lst s hd l : is_list s hd l → linkable s (lst hd l).
Proof. intros Hl. eapply is_list_linkable; [exact Hl|]. apply lst_elem. Qed.
Lemma linkable_hd s hd l : is_list s hd l → linkable s hd.
Proof. intros Hl. eapply is_list_linkable; [exact Hl|]. left. Qed.

Lemma list_head_init_is_list s hd : linkable s hd → is_list (list_head_init hd s) hd [].
Proof.
  intros Hl. unfold list_head_init. split_and!.
  - apply NoDup_singleton.
  - repeat constructor. by rewrite linkable_set_prv, linkable_set_nxt.
  - simpl. store. by rewrite !decide_True.
Qed.

(** The test reads only [prev], and is right for any well-formed list. *)
Lemma list_empty_spec s hd l : is_list s hd l → list_empty hd s = bool_decide (l = []).
Proof.
  intros Hl. unfold list_empty. rewrite (is_list_prv_hd _ _ _ Hl).
  apply bool_decide_ext. destruct l as [|x l _] using rev_ind; [done|].
  rewrite lst_snoc. split; [|intros Hn; by apply app_nil in Hn as [_ ?]].
  intros ->. exfalso. apply is_list_hd_notin in Hl. set_solver.
Qed.

Lemma list_add_head_spliced s hd l n :
  is_list s hd l → n ∉ hd :: l → linkable s n →
  spliced s (list_add_head hd n s) hd n (fst_or hd l).
Proof.
  intros Hl Hn Hln. pose proof (linkable_fst _ _ _ Hl). pose proof (linkable_hd _ _ _ Hl).
  pose proof (is_list_nxt_hd _ _ _ Hl) as Hnx.
  assert (hd ≠ n) by set_solver. unfold list_add_head. cbv zeta.
  assert (nxt (set_nxt n (nxt s hd) s) hd = fst_or hd l) as ->.
  { store. by rewrite decide_False. }
  rewrite Hnx. split_and!; intros q; [| |lkbl].
  - store. repeat case_decide; congruence.
  - store. repeat case_decide; subst; try done.
    pose proof (fst_or_elem hd l). set_solver.
Qed.

Lemma list_add_head_is_list s hd l n :
  is_list s hd l → n ∉ hd :: l → linkable s n → is_list (list_add_head hd n s) hd (n :: l).
Proof.
  intros Hl Hn Hln. apply (spliced_is_list s _ hd [] l); [done..|].
  by apply list_add_head_spliced.
Qed.

Lemma list_add_tail_spliced s hd l n :
  is_list s hd l → n ∉ hd :: l → linkable s n →
  spliced s (list_add_tail hd n s) (lst hd l) n hd.
Proof.
  intros Hl Hn Hln. pose proof (linkable_lst _ _ _ Hl). pose proof (linkable_hd _ _ _ Hl).
  pose proof (is_list_prv_hd _ _ _ Hl) as Hpv. pose proof (lst_elem hd l).
  assert (hd ≠ n) by set_solver. assert (lst hd l ≠ n) by set_solver.
  unfold list_add_tail. cbv zeta.
  assert (prv (set_prv n (prv s hd) s) hd = lst hd l) as ->.
  { store. by rewrite decide_False. }
  rewrite Hpv. split_and!; intros q; [| |lkbl].
  - store. repeat case_decide; congruence.
  - store. repeat case_decide; congruence.
Qed.

Lemma list_add_tail_is_list s hd l n :
  is_list s hd l → n ∉ hd :: l → linkable s n → is_list (list_add_tail hd n s) hd (l ++ [n]).
Proof.
  intros Hl Hn Hln. apply (spliced_is_list s _ hd l []); rewrite ?app_nil_r; [done..|].
  by apply list_add_tail_spliced.
Qed.

Lemma list_insert_is_list s hd l1 l2 n :
  is_list s hd (l1 ++ l2) → n ∉ hd :: l1 ++ l2 → linkable s n →
  is_list (list_insert (lst hd l1) n s) hd (l1 ++ n :: l2).
Proof.
  intros Hl Hn Hln. apply (spliced_is_list s); [done..|].
  pose proof (is_list_next _ _ _ _ Hl) as [Hnx _].
  pose proof (lst_elem hd l1) as Ha. pose proof (fst_or_elem hd l2) as Hb.
  assert (linkable s (lst hd l1)) by (eapply is_list_linkable; [done|set_solver]).
  assert (linkable s (fst_or hd l2)) by (eapply is_list_linkable; [done|set_solver]).
  assert (lst hd l1 ≠ n) by set_solver. assert (fst_or hd l2 ≠ n) by set_solver.
  unfold list_insert. cbv zeta. rewrite !nxt_set_prv.
  rewrite nxt_set_nxt by (by rewrite linkable_set_prv).
  rewrite nxt_set_prv, Hnx, decide_False by done.
  split_and!; intros q; [| |lkbl].
  - store. repeat case_decide; congruence.
  - store. repeat case_decide; congruence.
Qed.

Lemma list_del_unlinked s hd l1 e l2 :
  is_list s hd (l1 ++ e :: l2) → unlinked s (list_del e s) (lst hd l1) e (fst_or hd l2).
Proof.
  intros Hl. pose proof (is_list_next _ _ _ _ Hl) as [_ Hpv].
  rewrite (cons_middle e l1 l2), app_assoc in Hl.
  pose proof (is_list_next _ _ _ _ Hl) as [Hnx _]. rewrite lst_snoc in Hnx.
  unfold fst_or at 1 in Hpv; simpl in Hpv.
  pose proof (lst_elem hd l1) as Ha. pose proof (fst_or_elem hd l2) as Hb.
  assert (linkable s (lst hd l1)) by (eapply is_list_linkable; [done|set_solver]).
  assert (linkable s (fst_or hd l2)) by (eapply is_list_linkable; [done|set_solver]).
  destruct Hl as (Hnd & _). rewrite <-app_assoc in Hnd.
  change (hd :: l1 ++ [e] ++ l2) with ((hd :: l1) ++ e :: l2) in Hnd.
  rewrite <-Permutation_middle in Hnd. apply NoDup_cons in Hnd as [He _].
  assert (e ≠ lst hd l1) by set_solver.
  unfold list_del. cbv zeta. rewrite prv_set_nxt, nxt_set_nxt by (by rewrite Hpv).
  rewrite Hpv, Hnx, decide_False by done.
  split_and!; intros q; [| |by rewrite linkable_set_prv, linkable_set_nxt].
  - intros _. by store.
  - intros _. by store.
Qed.

Lemma list_del_is_list s hd l1 e l2 :
  is_list s hd (l1 ++ e :: l2) → is_list (list_del e s) hd (l1 ++ l2).
Proof. intros Hl. eapply unlinked_is_list; [exact Hl|]. by apply list_del_unlinked. Qed.

Lemma list_del1_del e s :
  list_del1 e s = set_prv e e (set_nxt e e (list_del e s)).
Proof. done. Qed.

(** [list_del1] also leaves the removed node as an empty list of its own. *)
Lemma list_del1_is_list s hd l1 e l2 :
  is_list s hd (l1 ++ e :: l2) →
  is_list (list_del1 e s) hd (l1 ++ l2) ∧ is_list (list_del1 e s) e [].
Proof.
  intros Hl. pose proof (list_del_unlinked _ _ _ _ _ Hl) as (Hn & Hp & Hlb).
  assert (linkable s e) by (eapply is_list_linkable; [done|set_solver]).
  rewrite list_del1_del. split.
  - eapply unlinked_is_list; [exact Hl|]. split_and!; intros q.
    + intros Hq. rewrite nxt_set_prv, nxt_set_nxt, (decide_False (P := q = e)) by (by rewrite ?Hlb).
      by apply Hn.
    + intros Hq. rewrite prv_set_prv, prv_set_nxt, (decide_False (P := q = e))
        by (by rewrite ?linkable_set_nxt, ?Hlb). by apply Hp.
    + by rewrite linkable_set_prv, linkable_set_nxt.
  - apply (list_head_init_is_list (list_del e s) e). by rewrite Hlb.
Qed.

(** Nodes of other lists are not touched. *)
Lemma list_del1_others s hd l1 e l2 p : is_list s hd (l1 ++ e :: l2) → p ∉ hd :: l1 ++ e :: l2 →
  nxt (list_del1 e s) p = nxt s p ∧ prv (list_del1 e s) p = prv s p.
Proof.
  intros Hl Hp. pose proof (list_del_unlinked _ _ _ _ _ Hl) as (Hn & Hpv & Hlb).
  pose proof (lst_elem hd l1) as Ha. pose proof (fst_or_elem hd l2) as Hb. assert (p ≠ e) by set_solver.
  assert (linkable s e) by (eapply is_list_linkable; [done|set_solver]).
  rewrite list_del1_del, nxt_set_prv, nxt_set_nxt, prv_set_prv, prv_set_nxt by (rewrite ?linkable_set_nxt, ?Hlb; done).
  rewrite !(decide_False (P := p = e)) by done. rewrite Hn, Hpv, !decide_False by set_solver. done.
Qed.
Lemma list_add_head_others s hd l n p : is_list s hd l → n ∉ hd :: l → linkable s n → p ∉ n :: hd :: l →
  nxt (list_add_head hd n s) p = nxt s p ∧ prv (list_add_head hd n s) p = prv s p.
Proof.
  intros Hl Hn Hlk Hp. destruct (list_add_head_spliced s hd l n Hl Hn Hlk) as (Hnx & Hpv & _).
  pose proof (fst_or_elem hd l). rewrite Hnx, Hpv, !decide_False by set_solver. done.
Qed.
Lemma list_add_tail_others s hd l n p : is_list s hd l → n ∉ hd :: l → linkable s n → p ∉ n :: hd :: l →
  nxt (list_add_tail hd n s) p = nxt s p ∧ prv (list_add_tail hd n s) p = prv s p.
Proof.
  intros Hl Hn Hlk Hp. destruct (list_add_tail_spliced s hd l n Hl Hn Hlk) as (Hnx & Hpv & _).
  pose proof (lst_elem hd l). rewrite Hnx, Hpv, !decide_False by set_solver. done.
Qed.
Lemma list_del_others s hd l1 e l2 p : is_list s hd (l1 ++ e :: l2) → p ∉ hd :: l1 ++ e :: l2 →
  nxt (list_del e s) p = nxt s p ∧ prv (list_del e s) p = prv s p.
Proof.
  intros Hl Hp. destruct (list_del_unlinked _ _ _ _ _ Hl) as (Hn & Hpv & _).
  pose proof (lst_elem hd l1). pose proof (fst_or_elem hd l2). rewrite Hn, Hpv, !decide_False by set_solver. done.
Qed.
(** The links tell the list. *)
Lemma is_list_unique s hd l l' : is_list s hd l → is_list s hd l' → l = l'.
Proof.
  intros (Hnd & _ & Hl) (Hnd' & _ & Hl'). apply NoDup_cons in Hnd as [Hh _], Hnd' as [Hh' _]. revert Hl Hl'.
  generalize hd at 1 3. revert l' Hh'. induction l as [|x l IH]; intros [|y l'] Hh' p; simpl.
  - done.
  - intros (H1 & _) (H2 & _). rewrite H1 in H2. subst. set_solver.
  - intros (H1 & _) (H2 & _). rewrite H1 in H2. subst. set_solver.
  - intros (H1 & _ & Hl) (H2 & _ & Hl'). rewrite H1 in H2. subst y. f_equal.
    apply (IH ltac:(set_solver) l' ltac:(set_solver) x); done.
Qed.
(** A list without a head of its own: any node is the head. *)
Lemma is_list_rotate s hd x l : is_list s hd (x :: l) → is_list s x (l ++ [hd]).
Proof.
  intros (Hnd & Hlk & Hl). split_and!.
  - rewrite NoDup_cons, NoDup_app. rewrite !NoDup_cons in Hnd. destruct Hnd as (Hh & Hx & Hnd).
    split; [set_solver|]. split; [done|]. split; [set_solver|]. apply NoDup_singleton.
  - rewrite Forall_forall in *. intros y Hy. apply Hlk. set_solver.
  - destruct Hl as (H1 & H2 & Hl). rewrite <-app_assoc. change (l ++ [hd] ++ [x]) with (l ++ [hd] ++ [x]).
    rewrite app_assoc, links_app. split; [done|]. rewrite lst_snoc. simpl. done.
Qed.

Lemma is_list_turn s hd l1 p l2 : is_list s hd (l1 ++ p :: l2) → is_list s p (l2 ++ hd :: l1).
Proof.
  revert hd l2. induction l1 as [|x l1 IH]; intros hd l2 Hl; simpl in Hl; [by apply is_list_rotate|].
  apply is_list_rotate in Hl. rewrite <-app_assoc in Hl. specialize (IH x _ Hl). by rewrite <-app_assoc in IH.
Qed.
(** [list_add_head] at a node puts the new one after it. *)
Lemma list_add_head_after s hd l1 p l2 n : is_list s hd (l1 ++ p :: l2) → n ∉ hd :: l1 ++ p :: l2 → linkable s n →
  is_list (list_add_head p n s) hd (l1 ++ p :: n :: l2).
Proof.
  intros Hl Hn Hlk. apply is_list_turn in Hl. apply (list_add_head_is_list _ _ _ n) in Hl; [|set_solver|done].
  by apply (is_list_turn _ p (n :: l2) hd l1).
Qed.

(** The same surgery as written out by callers that do not use list.h. *)
Lemma node_neighbours s hd l1 e l2 :
  is_list s hd (l1 ++ e :: l2) →
  prv s e = lst hd l1 ∧ nxt s e = fst_or hd l2 ∧
  linkable s (lst hd l1) ∧ linkable s (fst_or hd l2) ∧ e ≠ lst hd l1 ∧ e ≠ fst_or hd l2.
Proof.
  intros Hl. pose proof (is_list_next _ _ _ _ Hl) as [_ Hpv].
  unfold fst_or at 1 in Hpv; simpl in Hpv.
  assert (e ∉ hd :: l1 ++ l2) as He.
  { destruct Hl as (Hnd & _). change (hd :: l1 ++ e :: l2) with ((hd :: l1) ++ e :: l2) in Hnd.
    rewrite <-Permutation_middle in Hnd. by apply NoDup_cons in Hnd as [He _]. }
  rewrite (cons_middle e l1 l2), app_assoc in Hl.
  pose proof (is_list_next _ _ _ _ Hl) as [Hnx _]. rewrite lst_snoc in Hnx.
  pose proof (lst_elem hd l1) as Ha. pose proof (fst_or_elem hd l2) as Hb.
  split_and!; [done..| | | |].
  - eapply is_list_linkable; [done|set_solver].
  - eapply is_list_linkable; [done|set_solver].
  - intros ->. apply He. set_solver.
  - intros ->. apply He. set_solver.
Qed.

Lemma unlink_pair s a e b :
  linkable s a → linkable s b → unlinked s (set_prv b a (set_nxt a b s)) a e b.
Proof.
  intros. split_and!; intros q; [intros _; by store|intros _; by store|lkbl].
Qed.

Lemma splice_head s hd l n :
  is_list s hd l → n ∉ hd :: l → linkable s n →
  spliced s (set_nxt hd n (set_prv (fst_or hd l) n (set_prv n hd (set_nxt n (nxt s hd) s))))
    hd n (fst_or hd l).
Proof.
  intros Hl Hn Hln. pose proof (linkable_fst _ _ _ Hl). pose proof (linkable_hd _ _ _ Hl).
  rewrite (is_list_nxt_hd _ _ _ Hl).
  assert (hd ≠ n) by set_solver. assert (fst_or hd l ≠ n).
  { intros <-. apply Hn. apply fst_or_elem. }
  split_and!; intros q; [store; repeat case_decide; congruence..|lkbl].
Qed.

(** ** Traversal

    The loop reads the successor before it runs the body, so the body may
    take the current node out of the list. *)
Section foreach.
Context (hd : P) (body : P → S → S) (keep : P → bool).
Hypothesis body_list : ∀ s l1 e l2, is_list s hd (l1 ++ e :: l2) →
  is_list (body e s) hd (l1 ++ (if keep e then [e] else []) ++ l2).

Lemma foreach_loop_spec l2 s l1 (fuel : nat) :
  is_list s hd (l1 ++ l2) → (length l2 < fuel)%nat →
  ∃ s', foreach_loop fuel hd (fst_or hd l2) (nxt s (fst_or hd l2)) body s = Some s' ∧
    is_list s' hd (l1 ++ filter keep l2).
Proof.
  revert s l1 fuel. induction l2 as [|e l2 IH]; intros s l1 [|fuel] Hl Hf; simpl in Hf; try lia.
  - simpl. rewrite decide_True by done. eauto.
  - change (fst_or hd (e :: l2)) with e. simpl. rewrite decide_False.
    2: { apply is_list_hd_notin in Hl. set_solver. }
    assert (nxt s e = fst_or hd l2) as Hnx.
    { rewrite (cons_middle e l1 l2), app_assoc in Hl.
      apply is_list_next in Hl as [Hnx _]. by rewrite lst_snoc in Hnx. }
    rewrite Hnx. pose proof (body_list _ _ _ _ Hl) as Hb. rewrite app_assoc in Hb.
    destruct (IH _ _ fuel Hb) as (s' & Hrun & Hl'); [lia|].
    exists s'. split; [done|]. rewrite filter_cons.
    destruct (keep e); simpl in *; by rewrite <-app_assoc in Hl'.
Qed.

Lemma list_foreach_spec s l (fuel : nat) :
  is_list s hd l → (length l < fuel)%nat →
  ∃ s', list_foreach fuel hd body s = Some s' ∧ is_list s' hd (filter keep l).
Proof.
  intros Hl Hf. unfold list_foreach. rewrite (is_list_nxt_hd _ _ _ Hl).
  by apply (foreach_loop_spec l s []).
Qed.
End foreach.

(** A body that leaves the links alone is run on each node in turn. *)
Lemma foreach_loop_fold hd (body : P → S → S) l2 s l1 (fuel : nat) :
  (∀ p s q, nxt (body p s) q = nxt s q ∧ prv (body p s) q = prv s q) → (∀ p s q, linkable s q → linkable (body p s) q) →
  is_list s hd (l1 ++ l2) → (length l2 < fuel)%nat →
  foreach_loop fuel hd (fst_or hd l2) (nxt s (fst_or hd l2)) body s = Some (foldl (λ s p, body p s) s l2).
Proof.
  intros Hb Hlk. revert s l1 fuel. induction l2 as [|e l2 IH]; intros s l1 [|fuel] Hl Hf; simpl in Hf; try lia.
  - simpl. by rewrite decide_True.
  - change (fst_or hd (e :: l2)) with e. simpl. rewrite decide_False.
    2: { apply is_list_hd_notin in Hl. set_solver. }
    assert (nxt s e = fst_or hd l2) as ->.
    { rewrite (cons_middle e l1 l2), app_assoc in Hl. apply is_list_next in Hl as [Hnx _]. by rewrite lst_snoc in Hnx. }
    apply (IH _ (l1 ++ [e])); [|lia]. rewrite <-app_assoc. eapply is_list_frame; [exact Hl|intros; apply Hb|intros; by apply Hlk].
Qed.
Lemma list_foreach_fold hd (body : P → S → S) l s (fuel : nat) :
  (∀ p s q, nxt (body p s) q = nxt s q ∧ prv (body p s) q = prv s q) → (∀ p s q, linkable s q → linkable (body p s) q) →
  is_list s hd l → (length l < fuel)%nat → list_foreach fuel hd body s = Some (foldl (λ s p, body p s) s l).
Proof.
  intros Hb Hlk Hl Hf. unfold list_foreach. rewrite (is_list_nxt_hd _ _ _ Hl). by apply (foreach_loop_fold hd body l s []).
Qed.
End correct.

(** ** Several lists in one store

    Heads [hd i] for the indices in [dom], with no node on two lists. *)
Section families.
Context {S P I : Type} `{EqDecision P} `{EqDecision I} `{!LinkStore S P} `{!LinkLaws S P}.
Context (dom : I → Prop) (hd : I → P).
Implicit Types (s : S) (L : I → list P).

Record lists_ok s L : Prop := {
  lk_list i : dom i → is_list s (hd i) (L i);
  lk_disj i j p : dom i → dom j → p ∈ hd i :: L i → p ∈ hd j :: L j → i = j;
}.

(** A node on none of the lists, heads included. *)
Definition fresh_node L (n : P) : Prop := ∀ i, dom i → n ∉ hd i :: L i.

Lemma lists_ok_frame s s' L :
  lists_ok s L → (∀ i p, dom i → p ∈ hd i :: L i → nxt s' p = nxt s p ∧ prv s' p = prv s p) →
  (∀ q, linkable s q → linkable s' q) → lists_ok s' L.
Proof.
  intros [Hl Hd] Hf Hlk. split; [|done]. intros i Hi.
  eapply is_list_frame; [by apply Hl| |done]. intros q Hq. by apply (Hf i).
Qed.

Lemma lists_ok_ext s L L' : (∀ i, dom i → L i = L' i) → lists_ok s L → lists_ok s L'.
Proof.
  intros He [Hl Hd]. split.
  - intros i Hi. rewrite <-He by done. by apply Hl.
  - intros i j p Hi Hj. rewrite <-!He by done. by apply Hd.
Qed.

Lemma lists_ok_spliced s s' L i l1 l2 n :
  lists_ok s L → dom i → L i = l1 ++ l2 → fresh_node L n → linkable s n →
  spliced s s' (lst (hd i) l1) n (fst_or (hd i) l2) →
  lists_ok s' (<[i := l1 ++ n :: l2]> L).
Proof.
  intros [Hl Hd] Hi HL Hn Hlk Hsp. pose proof Hsp as (Hnx & Hpv & Hlb).
  pose proof (lst_elem (hd i) l1) as Ha. pose proof (fst_or_elem (hd i) l2) as Hb.
  assert (∀ j p, dom j → j ≠ i → p ∈ hd j :: L j → p ∉ hd i :: L i) as Hother.
  { intros j p Hj Hne Hp Hp'. by apply Hne, (Hd j i p). }
  split.
  - intros j Hj. destruct (decide (j = i)) as [->|Hne].
    + rewrite fn_lookup_insert. eapply spliced_is_list; [|..|done|done].
      * rewrite <-HL. by apply Hl.
      * rewrite <-HL. by apply Hn.
    + rewrite fn_lookup_insert_ne by done.
      eapply is_list_frame; [by apply Hl|..|intros q; apply Hlb]. intros q Hq.
      pose proof (Hother j q Hj Hne Hq) as Hq'. rewrite HL in Hq'.
      assert (q ≠ n) by (intros ->; by apply (Hn j)).
      rewrite Hnx, Hpv, !decide_False; set_solver.
  - assert (∀ j p, dom j → p ∈ hd j :: (<[i := l1 ++ n :: l2]> L) j →
      p ∈ hd j :: L j ∨ (p = n ∧ j = i)) as Hel.
    { intros j p Hj. destruct (decide (j = i)) as [->|Hne].
      - rewrite fn_lookup_insert, HL. set_solver.
      - rewrite fn_lookup_insert_ne by done. by left. }
    intros j k p Hj Hk Hpj Hpk. apply Hel in Hpj; [|done]. apply Hel in Hpk; [|done].
    destruct Hpj as [Hpj|[-> ->]], Hpk as [Hpk|[? ->]]; subst; [by eapply Hd|..|done].
    + exfalso. by apply (Hn j).
    + exfalso. by apply (Hn k).
Qed.

Lemma lists_ok_unlinked s s' L i l1 e l2 :
  lists_ok s L → dom i → L i = l1 ++ e :: l2 →
  unlinked s s' (lst (hd i) l1) e (fst_or (hd i) l2) →
  lists_ok s' (<[i := l1 ++ l2]> L) ∧ fresh_node (<[i := l1 ++ l2]> L) e.
Proof.
  intros [Hl Hd] Hi HL Hul. pose proof Hul as (Hnx & Hpv & Hlb).
  pose proof (lst_elem (hd i) l1) as Ha. pose proof (fst_or_elem (hd i) l2) as Hb.
  assert (∀ j p, dom j → j ≠ i → p ∈ hd j :: L j → p ∉ hd i :: L i) as Hother.
  { intros j p Hj Hne Hp Hp'. by apply Hne, (Hd j i p). }
  pose proof (Hl i Hi) as Hli. rewrite HL in Hli.
  split; [split|].
  - intros j Hj. destruct (decide (j = i)) as [->|Hne].
    + rewrite fn_lookup_insert. by eapply unlinked_is_list.
    + rewrite fn_lookup_insert_ne by done.
      eapply is_list_frame; [by apply Hl|..|intros q; apply Hlb]. intros q Hq.
      pose proof (Hother j q Hj Hne Hq) as Hq'. rewrite HL in Hq'.
      rewrite Hnx, Hpv, !decide_False; set_solver.
  - assert (∀ j p, p ∈ hd j :: (<[i := l1 ++ l2]> L) j → p ∈ hd j :: L j) as Hel.
    { intros j p. destruct (decide (j = i)) as [->|Hne].
      - rewrite fn_lookup_insert, HL. set_solver.
      - by rewrite fn_lookup_insert_ne by done. }
    intros j k p Hj Hk Hpj%Hel Hpk%Hel. by eapply Hd.
  - intros j Hj. destruct (decide (j = i)) as [->|Hne].
    + rewrite fn_lookup_insert. destruct Hli as (Hnd & _).
      change (hd i :: l1 ++ e :: l2) with ((hd i :: l1) ++ e :: l2) in Hnd.
      rewrite <-Permutation_middle in Hnd. by apply NoDup_cons in Hnd as [? _].
    + rewrite fn_lookup_insert_ne by done. intros He. eapply (Hother j e); [done..|]. rewrite HL. set_solver.
Qed.

Lemma lists_ok_add_head s L i n :
  lists_ok s L → dom i → fresh_node L n → linkable s n →
  lists_ok (list_add_head (hd i) n s) (<[i := n :: L i]> L).
Proof.
  intros Hl Hi Hn Hlk. apply (lists_ok_spliced s _ L i [] (L i) n); try done.
  apply list_add_head_spliced; [by apply lk_list|by apply Hn|done].
Qed.
Lemma lists_ok_add_tail s L i n :
  lists_ok s L → dom i → fresh_node L n → linkable s n →
  lists_ok (list_add_tail (hd i) n s) (<[i := L i ++ [n]]> L).
Proof.
  intros Hl Hi Hn Hlk. apply (lists_ok_spliced s _ L i (L i) [] n); try done.
  - by rewrite app_nil_r.
  - apply list_add_tail_spliced; [by apply lk_list|by apply Hn|done].
Qed.
Lemma lists_ok_del s L i l1 e l2 :
  lists_ok s L → dom i → L i = l1 ++ e :: l2 →
  lists_ok (list_del e s) (<[i := l1 ++ l2]> L) ∧ fresh_node (<[i := l1 ++ l2]> L) e.
Proof.
  intros Hl Hi HL. eapply lists_ok_unlinked; [done..|].
  apply list_del_unlinked. rewrite <-HL. by apply lk_list.
Qed.

Lemma fresh_node_ext L L' n :
  (∀ i, dom i → ∀ p, p ∈ L' i → p ∈ L i) → fresh_node L n → fresh_node L' n.
Proof. intros Hsub Hn i Hi Hin. apply (Hn i Hi). specialize (Hsub i Hi n). set_solver. Qed.
End families.

Section more.
Context {S P I : Type} `{EqDecision P} `{EqDecision I} `{!LinkStore S P} `{!LinkLaws S P}.
Implicit Types (s : S) (L : I → list P) (dom : I → Prop) (hd : I → P).

Lemma lists_ok_dom dom dom' hd s L : (∀ i, dom' i → dom i) → lists_ok dom hd s L → lists_ok dom' hd s L.
Proof. intros He [Hl Hd]. split; [intros i Hi; by apply Hl, He|]. intros i j p Hi%He Hj%He. by apply Hd. Qed.
(** One more list, empty. *)
Lemma lists_ok_new dom hd s L n : lists_ok dom hd s L → ¬ dom n → fresh_node dom hd L (hd n) → linkable s (hd n) →
  lists_ok (λ i, i = n ∨ dom i) hd (list_head_init (hd n) s) (<[n := []]> L).
Proof.
  intros [Hl Hd] Hn Hf Hlk. assert (∀ i, dom i → i ≠ n) as Hne by (by intros i Hi ->). split.
  - intros i [->|Hi]; [rewrite fn_lookup_insert; by apply list_head_init_is_list|]. rewrite fn_lookup_insert_ne by (symmetry; by apply Hne).
    eapply is_list_frame; [by apply Hl| |].
    + intros q Hq. assert (q ≠ hd n) by (intros ->; by apply (Hf i Hi)). unfold list_head_init.
      rewrite nxt_set_prv, nxt_set_nxt, prv_set_prv, prv_set_nxt by (rewrite ?linkable_set_nxt; done). by rewrite !decide_False.
    + intros q Hq. unfold list_head_init. by rewrite linkable_set_prv, linkable_set_nxt.
  - assert (∀ i p, i = n ∨ dom i → p ∈ hd i :: (<[n := []]> L) i → i = n ∧ p = hd n ∨ dom i ∧ p ∈ hd i :: L i) as Hel.
    { intros i p [->|Hi]; [rewrite fn_lookup_insert; set_solver|]. rewrite fn_lookup_insert_ne by (symmetry; by apply Hne). by right. }
    intros i j p Hi Hj Hpi%Hel Hpj%Hel; [|done..].
    destruct Hpi as [[-> ->]|[Hi' Hpi]], Hpj as [[-> Hp]|[Hj' Hpj]]; subst; [done| | |by eapply Hd].
    + exfalso. by apply (Hf j).
    + exfalso. by apply (Hf i).
Qed.

(** ** Rings: each node is the head of the ring it is on *)
Section rings.
Context (nd : I → P) `{!Inj (=) (=) nd}.

Definition rings_ok (dom : I → Prop) (s : S) : Prop := ∀ p, dom p → ∃ l, is_list s (nd p) (nd <$> l) ∧ Forall dom l.

Lemma ring_turn s c l p : is_list s (nd c) (nd <$> l) → p ∈ c :: l →
  ∃ l', is_list s (nd p) (nd <$> l') ∧ ∀ x, x ∈ p :: l' ↔ x ∈ c :: l.
Proof.
  intros Hl [->|Hp]%elem_of_cons; [by exists l|]. apply list_elem_of_split in Hp as (l1 & l2 & ->).
  exists (l2 ++ c :: l1). split; [|set_solver]. rewrite fmap_app, fmap_cons in Hl |- *. by apply is_list_turn.
Qed.
Lemma ring_same s c l p lp x : is_list s (nd c) (nd <$> l) → is_list s (nd p) (nd <$> lp) → x ∈ c :: l → x ∈ p :: lp → p ∈ c :: l.
Proof.
  intros Hl Hlp Hx Hxp. destruct (ring_turn s c l x Hl Hx) as (l1 & H1 & E1), (ring_turn s p lp x Hlp Hxp) as (l2 & H2 & E2).
  pose proof (is_list_unique _ _ _ _ H1 H2) as Heq. apply (inj (fmap nd)) in Heq as <-. apply E1, E2. left.
Qed.

Lemma nd_notin c l n : n ∉ c :: l → nd n ∉ nd c :: (nd <$> l).
Proof. intros Hn Hin. rewrite <-fmap_cons in Hin. apply list_elem_of_fmap in Hin as (y & Hy & Hin). apply (inj nd) in Hy as <-. done. Qed.

(** What the links of [s'] may differ in: the ring of [c], and [n]. *)
Lemma rings_frame dom s s' c l p : rings_ok dom s → dom p → is_list s (nd c) (nd <$> l) → p ∉ c :: l →
  (∀ q, dom q → q ∉ c :: l → nxt s' (nd q) = nxt s (nd q) ∧ prv s' (nd q) = prv s (nd q)) → (∀ q, linkable s q → linkable s' q) →
  ∃ lp, is_list s' (nd p) (nd <$> lp) ∧ Forall (λ q, dom q ∧ q ∉ c :: l) lp.
Proof.
  intros Hr Hp Hl Hn Hf Hlk. destruct (Hr p Hp) as (lp & Hlp & Hall). exists lp. rewrite Forall_forall in Hall.
  assert (∀ q, q ∈ p :: lp → dom q ∧ q ∉ c :: l) as Hq.
  { intros q Hq. split; [apply elem_of_cons in Hq as [->|]; [done|by apply Hall]|]. intros Hqc. by apply Hn, (ring_same s c l p lp q). }
  split; [|apply Forall_forall; intros q Hin; apply Hq; by right].
  eapply is_list_frame; [exact Hlp| |done]. intros q Hin. rewrite <-fmap_cons in Hin. apply list_elem_of_fmap in Hin as (y & -> & Hy).
  apply Hf; by apply Hq.
Qed.

Lemma rings_add dom s c n : rings_ok dom s → dom c → ¬ dom n → linkable s (nd n) →
  rings_ok (λ i, i = n ∨ dom i) (list_add_head (nd c) (nd n) s).
Proof.
  intros Hr Hc Hn Hlk. destruct (Hr c Hc) as (l & Hl & Hall). rewrite Forall_forall in Hall.
  assert (n ∉ c :: l) as Hnl by (intros [->|?%Hall]%elem_of_cons; done).
  pose proof (list_add_head_is_list s (nd c) (nd <$> l) (nd n) Hl (nd_notin _ _ _ Hnl) Hlk) as Hl'.
  rewrite <-fmap_cons in Hl'. intros p Hp. destruct (decide (p ∈ c :: n :: l)) as [Hin|Hin].
  - destruct (ring_turn _ c (n :: l) p Hl' Hin) as (l' & Hl2 & E). exists l'. split; [done|]. apply Forall_forall. intros x Hx.
    assert (x ∈ c :: n :: l) as [->|[->|?]%elem_of_cons]%elem_of_cons by (apply E; by right); [by right|by left|right; by apply Hall].
  - destruct Hp as [->|Hp]; [set_solver|].
    destruct (rings_frame dom s (list_add_head (nd c) (nd n) s) c l p Hr Hp Hl) as (lp & Hlp & HF); [set_solver| | |].
    + intros q Hq Hqc. apply (list_add_head_others s (nd c) (nd <$> l)); [done|by apply nd_notin|done|].
      intros [E%(inj nd)|E]%elem_of_cons; [by subst|]. by apply (nd_notin c l q Hqc).
    + intros q. by apply (list_add_head_spliced s (nd c) (nd <$> l) (nd n) Hl (nd_notin _ _ _ Hnl) Hlk).
    + exists lp. split; [done|]. eapply Forall_impl; [exact HF|]. intros q [? _]. by right.
Qed.

Lemma rings_del dom s c x l : rings_ok dom s → dom c → is_list s (nd c) (nd <$> x :: l) → rings_ok (λ i, dom i ∧ i ≠ c) (list_del (nd c) s).
Proof.
  intros Hr Hc Hl. assert (∀ q, q ∈ c :: x :: l → dom q) as Hall.
  { destruct (Hr c Hc) as (l0 & Hl0 & Hall). pose proof (is_list_unique _ _ _ _ Hl Hl0) as E. apply (inj (fmap nd)) in E as <-.
    intros q [->|Hq]%elem_of_cons; [done|]. rewrite Forall_forall in Hall. by apply Hall. }
  assert (c ∉ x :: l) as Hcl.
  { intros Hcx. apply is_list_hd_notin in Hl. apply Hl. apply list_elem_of_fmap. by exists c. }
  rewrite fmap_cons in Hl. apply is_list_rotate in Hl as Hl1. change ((nd <$> l) ++ [nd c]) with ((nd <$> l) ++ nd c :: []) in Hl1.
  pose proof (list_del_is_list s (nd x) (nd <$> l) (nd c) [] Hl1) as Hl2. rewrite app_nil_r in Hl2.
  intros p [Hp Hpc]. destruct (decide (p ∈ x :: l)) as [Hin|Hin].
  - destruct (ring_turn _ x l p Hl2 Hin) as (l' & Hl3 & E). exists l'. split; [done|]. apply Forall_forall. intros y Hy.
    assert (y ∈ x :: l) as Hyx by (apply E; by right). split; [apply Hall; by right|]. by intros ->.
  - destruct (rings_frame dom s (list_del (nd c) s) c (x :: l) p Hr Hp) as (lp & Hlp & HF); [by rewrite fmap_cons|set_solver| | |].
    + intros q Hq Hqc. apply (list_del_others s (nd x) (nd <$> l) (nd c) []); [done|]. intros Hin2.
      apply (nd_notin c (x :: l) q Hqc). rewrite fmap_cons. set_solver.
    + intros q. by apply (list_del_unlinked s (nd x) (nd <$> l) (nd c) [] Hl1).
    + exists lp. split; [done|]. eapply Forall_impl; [exact HF|]. intros q [? ?]. split; [done|]. set_solver.
Qed.
(** A node taken out by [list_del1] is a ring of its own. *)
Lemma rings_del1 dom s c x l : rings_ok dom s → dom c → is_list s (nd c) (nd <$> x :: l) → rings_ok dom (list_del1 (nd c) s).
Proof.
  intros Hr Hc Hl. pose proof (rings_del dom s c x l Hr Hc Hl) as Hd. rewrite fmap_cons in Hl. pose proof Hl as Hl1.
  apply is_list_rotate in Hl1. change ((nd <$> l) ++ [nd c]) with ((nd <$> l) ++ nd c :: []) in Hl1.
  destruct (list_del1_is_list s (nd x) (nd <$> l) (nd c) [] Hl1) as [_ He].
  assert (linkable s (nd c)) as Hlk by (eapply is_list_linkable; [exact Hl|left]).
  assert (∀ q, linkable (list_del (nd c) s) q ↔ linkable s q) as Hlb by (intros q; unfold list_del; by rewrite linkable_set_prv, linkable_set_nxt).
  intros p Hp. destruct (decide (p = c)) as [->|Hne]; [by exists []|].
  destruct (Hd p (conj Hp Hne)) as (lp & Hlp & Hall). exists lp. rewrite Forall_forall in Hall.
  split; [|apply Forall_forall; intros y Hy; by apply Hall]. eapply is_list_frame; [exact Hlp| |].
  - intros q Hq. assert (q ≠ nd c) as Hqc.
    { rewrite <-fmap_cons in Hq. apply list_elem_of_fmap in Hq as (y & -> & Hy). intros E%(inj nd). subst y.
      apply elem_of_cons in Hy as [E|Hy]; [by subst|]. by apply Hall in Hy as [_ []]. }
    rewrite list_del1_del, nxt_set_prv, nxt_set_nxt, prv_set_prv, prv_set_nxt by (rewrite ?linkable_set_nxt, ?Hlb; done). by rewrite !decide_False.
  - intros q Hq. by rewrite list_del1_del, linkable_set_prv, linkable_set_nxt.
Qed.
End rings.
End more.

(** ** Refinement: a program of list.h calls against a plain list *)
Inductive list_op (P : Type) :=
  | AddHead (n : P)
  | AddTail (n : P)
  | InsertAfter (t n : P)
  | Del (e : P)
  | Del1 (e : P).
Arguments AddHead {P}. Arguments AddTail {P}. Arguments InsertAfter {P}.
Arguments Del {P}. Arguments Del1 {P}.

Section refinement.
Context {S P : Type} `{EqDecision P} `{!LinkStore S P}.

(** The call each operation stands for, on the list with head [hd]. *)
Definition run_op (hd : P) (o : list_op P) (s : S) : S :=
  match o with
  | AddHead n => list_add_head hd n s
  | AddTail n => list_add_tail hd n s
  | InsertAfter t n => list_insert t n s
  | Del e => list_del e s
  | Del1 e => list_del1 e s
  end.

Fixpoint insert_after (t n : P) (l : list P) : list P :=
  match l with
  | [] => []
  | x :: l => if decide (x = t) then x :: n :: l else x :: insert_after t n l
  end.

(** What it promises: a fresh node may be added, a member may be removed. *)
Definition spec_op (hd : P) (o : list_op P) (l : list P) : option (list P) :=
  match o with
  | AddHead n => if decide (n ∈ hd :: l) then None else Some (n :: l)
  | AddTail n => if decide (n ∈ hd :: l) then None else Some (l ++ [n])
  | InsertAfter t n =>
      if decide (n ∈ hd :: l) then None
      else if decide (t = hd) then Some (n :: l)
      else if decide (t ∈ l) then Some (insert_after t n l) else None
  | Del e | Del1 e =>
      if decide (e ∈ l) then Some (filter (λ x, x ≠ e) l) else None
  end.

(** The nodes an operation brings in. *)
Definition op_nodes (o : list_op P) : list P :=
  match o with AddHead n | AddTail n | InsertAfter _ n => [n] | Del _ | Del1 _ => [] end.

Fixpoint run_ops (hd : P) (os : list (list_op P)) (s : S) : S :=
  match os with [] => s | o :: os => run_ops hd os (run_op hd o s) end.
Fixpoint spec_ops (hd : P) (os : list (list_op P)) (l : list P) : option (list P) :=
  match os with
  | [] => Some l
  | o :: os => match spec_op hd o l with Some l => spec_ops hd os l | None => None end
  end.

Lemma insert_after_app t n l1 l2 :
  t ∉ l1 → insert_after t n (l1 ++ t :: l2) = l1 ++ t :: n :: l2.
Proof.
  induction l1 as [|x l1 IH]; intros Ht; simpl; [by rewrite decide_True|].
  rewrite decide_False by set_solver. rewrite IH by set_solver. done.
Qed.

Lemma filter_ne_app (e : P) l1 l2 :
  NoDup (l1 ++ e :: l2) → filter (λ x, x ≠ e) (l1 ++ e :: l2) = l1 ++ l2.
Proof.
  intros Hnd. rewrite filter_app, filter_cons_False by naive_solver.
  rewrite <-Permutation_middle in Hnd. apply NoDup_cons in Hnd as [He _].
  f_equal; apply filter_id; set_solver.
Qed.

Context `{!LinkLaws S P}.

Lemma linkable_run_op hd o s q : linkable (run_op hd o s) q ↔ linkable s q.
Proof.
  destruct o; simpl; unfold list_add_head, list_add_tail, list_insert, list_del, list_del1;
    repeat first [rewrite linkable_set_nxt | rewrite linkable_set_prv]; done.
Qed.

Lemma run_op_refines hd o s l l' :
  is_list s hd l → Forall (linkable s) (op_nodes o) → spec_op hd o l = Some l' →
  is_list (run_op hd o s) hd l'.
Proof.
  intros Hl Hlk. destruct o as [n|n|t n|e|e]; simpl in *; rewrite ?Forall_singleton in Hlk.
  - case_decide; intros; simplify_eq. by apply list_add_head_is_list.
  - case_decide; intros; simplify_eq. by apply list_add_tail_is_list.
  - case_decide as Hn; [done|]. case_decide as Ht; intros; simplify_eq.
    + by apply (list_insert_is_list s hd [] l).
    + case_decide as Hin; simplify_eq. apply list_elem_of_split_l in Hin as (l1 & l2 & -> & Hnin).
      rewrite insert_after_app by done.
      rewrite (cons_middle t l1 l2), app_assoc in Hl, Hn.
      change (l1 ++ t :: n :: l2) with (l1 ++ [t] ++ n :: l2). rewrite app_assoc.
      rewrite <-(lst_snoc hd l1 t) at 1. by apply list_insert_is_list.
  - case_decide as Hin; intros; simplify_eq. apply list_elem_of_split in Hin as (l1 & l2 & ->).
    rewrite filter_ne_app by (by eapply is_list_NoDup). by apply list_del_is_list.
  - case_decide as Hin; intros; simplify_eq. apply list_elem_of_split in Hin as (l1 & l2 & ->).
    rewrite filter_ne_app by (by eapply is_list_NoDup). by apply list_del1_is_list.
Qed.

(** C1: any sequence of calls of list.h that respects the contract (nodes
    added are not in the list, nodes removed are) leaves the [prev]/[next]
    fields describing exactly the list the contract computes. *)
Theorem list_ops_refine hd os s l l' :
  is_list s hd l → Forall (linkable s) (os ≫= op_nodes) → spec_ops hd os l = Some l' →
  is_list (run_ops hd os s) hd l'.
Proof.
  revert s l. induction os as [|o os IH]; simpl; intros s l Hl Hlk Hs; [by simplify_eq|].
  destruct (spec_op hd o l) as [l1|] eqn:Ho; [|done].
  apply Forall_app in Hlk as [Hlk1 Hlk2].
  eapply IH; [|..|exact Hs].
  - by eapply run_op_refines.
  - eapply Forall_impl; [exact Hlk2|]. intros q. by rewrite linkable_run_op.
Qed.
End refinement.

(** ** A store of nodes

    The plain store: a finite map from addresses to [list_t] records. *)
Record list_t := Node { n_prev : Z; n_next : Z }.

#[export] Instance node_store : LinkStore (gmap Z list_t) Z := {
  nxt h p := from_option n_next p (h !! p);
  prv h p := from_option n_prev p (h !! p);
  set_nxt p v h := alter (λ n, Node (n_prev n) v) p h;
  set_prv p v h := alter (λ n, Node v (n_next n)) p h;
  linkable h p := is_Some (h !! p);
}.

#[export] Instance node_laws : LinkLaws (gmap Z list_t) Z.
Proof.
  split; intros s p v q; simpl.
  1, 2: intros [x Hx]; case_decide; subst; [by rewrite lookup_alter_eq, Hx|];
    by rewrite lookup_alter_ne.
  1, 2: rewrite lookup_alter; case_decide; [subst; by destruct (s !! q)|done].
  all: rewrite lookup_alter; case_decide; [subst; by rewrite fmap_is_Some|done].
Qed.

(** The scheduler's use: two tasks queued, the first one put to sleep. *)
Definition demo_heap : gmap Z list_t :=
  <[1 := Node 1 1]> (<[2 := Node 2 2]> (<[3 := Node 3 3]> ∅)).

Lemma list_ops_refine_witness :
  is_list (run_ops 1 [AddHead 2; AddTail 3; Del1 2] demo_heap) 1 [3].
Proof.
  apply (list_ops_refine 1 [AddHead 2; AddTail 3; Del1 2] demo_heap [] [3]).
  - split_and!; [apply NoDup_singleton| |done].
    repeat constructor. by eexists.
  - simpl. repeat constructor; by eexists.
  - reflexivity.
Defined.
