(* ===== verification/FsState.v ===== *)
(** * The state of the file system (include/cnix/inode.h, super.h, file.h)

    The tables of super blocks, inodes and open files, the lists threaded
    through the inodes, the current process's part in it, and the blocks behind
    the buffer cache.  Pointers into a table are indices.  A call that would
    block in [sleepon] ends as [Sleep] with the state it leaves. *)

From S2P Require Import Prelude Blocks Pages Dlist.
From stdpp Require Import base numbers functions gmap list.

Local Open Scope Z_scope.

(** A [list_t *] of the inode cache: a hash list, the free list, or the
    [i_hashlist] or [i_freelist] of an inode. *)
Inductive iptr := INull | IHead (h : Z) | IHashN (i : Z) | IFreeHead | IFreeN (i : Z).
#[export] Instance iptr_eq_dec : EqDecision iptr.
Proof. solve_decision. Defined.

(** The members of the union [u] are kept apart; [i_bytes] are the contents of
    the page at [i_buffer]. *)
Record inode := Inode {
  i_mode : Z;
  i_nlinks : Z;
  i_uid : Z;
  i_gid : Z;
  i_size : Z;
  i_atime : Z;
  i_mtime : Z;
  i_ctime : Z;
  i_zone : list Z;
  i_dev : Z;
  i_count : Z;
  i_dirty : Z;
  i_update : Z;
  i_hnext : iptr;
  i_hprev : iptr;
  i_fnext : iptr;
  i_fprev : iptr;
  i_flags : Z;
  i_lockowner : Z;
  i_num : Z;
  i_sp : option Z;
  i_mounts : option Z;
  i_ndzones : Z;
  i_nindirs : Z;
  i_buddy : Z;
  i_buffer : Z;
  i_bytes : list Z;
  i_readp : Z;
  i_writep : Z;
}.
Definition set_i_mode (v : Z) (x : inode) : inode :=
  Inode v (i_nlinks x) (i_uid x) (i_gid x) (i_size x) (i_atime x) (i_mtime x) (i_ctime x) (i_zone x) (i_dev x) (i_count x) (i_dirty x) (i_update x) (i_hnext x) (i_hprev x) (i_fnext x) (i_fprev x) (i_flags x) (i_lockowner x) (i_num x) (i_sp x) (i_mounts x) (i_ndzones x) (i_nindirs x) (i_buddy x) (i_buffer x) (i_bytes x) (i_readp x) (i_writep x).
Definition set_i_nlinks (v : Z) (x : inode) : inode :=
  Inode (i_mode x) v (i_uid x) (i_gid x) (i_size x) (i_atime x) (i_mtime x) (i_ctime x) (i_zone x) (i_dev x) (i_count x) (i_dirty x) (i_update x) (i_hnext x) (i_hprev x) (i_fnext x) (i_fprev x) (i_flags x) (i_lockowner x) (i_num x) (i_sp x) (i_mounts x) (i_ndzones x) (i_nindirs x) (i_buddy x) (i_buffer x) (i_bytes x) (i_readp x) (i_writep x).
Definition set_i_uid (v : Z) (x : inode) : inode :=
  Inode (i_mode x) (i_nlinks x) v (i_gid x) (i_size x) (i_atime x) (i_mtime x) (i_ctime x) (i_zone x) (i_dev x) (i_count x) (i_dirty x) (i_update x) (i_hnext x) (i_hprev x) (i_fnext x) (i_fprev x) (i_flags x) (i_lockowner x) (i_num x) (i_sp x) (i_mounts x) (i_ndzones x) (i_nindirs x) (i_buddy x) (i_buffer x) (i_bytes x) (i_readp x) (i_writep x).
Definition set_i_gid (v : Z) (x : inode) : inode :=
  Inode (i_mode x) (i_nlinks x) (i_uid x) v (i_size x) (i_atime x) (i_mtime x) (i_ctime x) (i_zone x) (i_dev x) (i_count x) (i_dirty x) (i_update x) (i_hnext x) (i_hprev x) (i_fnext x) (i_fprev x) (i_flags x) (i_lockowner x) (i_num x) (i_sp x) (i_mounts x) (i_ndzones x) (i_nindirs x) (i_buddy x) (i_buffer x) (i_bytes x) (i_readp x) (i_writep x).
Definition set_i_size (v : Z) (x : inode) : inode :=
  Inode (i_mode x) (i_nlinks x) (i_uid x) (i_gid x) v (i_atime x) (i_mtime x) (i_ctime x) (i_zone x) (i_dev x) (i_count x) (i_dirty x) (i_update x) (i_hnext x) (i_hprev x) (i_fnext x) (i_fprev x) (i_flags x) (i_lockowner x) (i_num x) (i_sp x) (i_mounts x) (i_ndzones x) (i_nindirs x) (i_buddy x) (i_buffer x) (i_bytes x) (i_readp x) (i_writep x).
Definition set_i_atime (v : Z) (x : inode) : inode :=
  Inode (i_mode x) (i_nlinks x) (i_uid x) (i_gid x) (i_size x) v (i_mtime x) (i_ctime x) (i_zone x) (i_dev x) (i_count x) (i_dirty x) (i_update x) (i_hnext x) (i_hprev x) (i_fnext x) (i_fprev x) (i_flags x) (i_lockowner x) (i_num x) (i_sp x) (i_mounts x) (i_ndzones x) (i_nindirs x) (i_buddy x) (i_buffer x) (i_bytes x) (i_readp x) (i_writep x).
Definition set_i_mtime (v : Z) (x : inode) : inode :=
  Inode (i_mode x) (i_nlinks x) (i_uid x) (i_gid x) (i_size x) (i_atime x) v (i_ctime x) (i_zone x) (i_dev x) (i_count x) (i_dirty x) (i_update x) (i_hnext x) (i_hprev x) (i_fnext x) (i_fprev x) (i_flags x) (i_lockowner x) (i_num x) (i_sp x) (i_mounts x) (i_ndzones x) (i_nindirs x) (i_buddy x) (i_buffer x) (i_bytes x) (i_readp x) (i_writep x).
Definition set_i_ctime (v : Z) (x : inode) : inode :=
  Inode (i_mode x) (i_nlinks x) (i_uid x) (i_gid x) (i_size x) (i_atime x) (i_mtime x) v (i_zone x) (i_dev x) (i_count x) (i_dirty x) (i_update x) (i_hnext x) (i_hprev x) (i_fnext x) (i_fprev x) (i_flags x) (i_lockowner x) (i_num x) (i_sp x) (i_mounts x) (i_ndzones x) (i_nindirs x) (i_buddy x) (i_buffer x) (i_bytes x) (i_readp x) (i_writep x).
Definition set_i_zone (v : list Z) (x : inode) : inode :=
  Inode (i_mode x) (i_nlinks x) (i_uid x) (i_gid x) (i_size x) (i_atime x) (i_mtime x) (i_ctime x) v (i_dev x) (i_count x) (i_dirty x) (i_update x) (i_hnext x) (i_hprev x) (i_fnext x) (i_fprev x) (i_flags x) (i_lockowner x) (i_num x) (i_sp x) (i_mounts x) (i_ndzones x) (i_nindirs x) (i_buddy x) (i_buffer x) (i_bytes x) (i_readp x) (i_writep x).
Definition set_i_dev (v : Z) (x : inode) : inode :=
  Inode (i_mode x) (i_nlinks x) (i_uid x) (i_gid x) (i_size x) (i_atime x) (i_mtime x) (i_ctime x) (i_zone x) v (i_count x) (i_dirty x) (i_update x) (i_hnext x) (i_hprev x) (i_fnext x) (i_fprev x) (i_flags x) (i_lockowner x) (i_num x) (i_sp x) (i_mounts x) (i_ndzones x) (i_nindirs x) (i_buddy x) (i_buffer x) (i_bytes x) (i_readp x) (i_writep x).
Definition set_i_count (v : Z) (x : inode) : inode :=
  Inode (i_mode x) (i_nlinks x) (i_uid x) (i_gid x) (i_size x) (i_atime x) (i_mtime x) (i_ctime x) (i_zone x) (i_dev x) v (i_dirty x) (i_update x) (i_hnext x) (i_hprev x) (i_fnext x) (i_fprev x) (i_flags x) (i_lockowner x) (i_num x) (i_sp x) (i_mounts x) (i_ndzones x) (i_nindirs x) (i_buddy x) (i_buffer x) (i_bytes x) (i_readp x) (i_writep x).
Definition set_i_dirty (v : Z) (x : inode) : inode :=
  Inode (i_mode x) (i_nlinks x) (i_uid x) (i_gid x) (i_size x) (i_atime x) (i_mtime x) (i_ctime x) (i_zone x) (i_dev x) (i_count x) v (i_update x) (i_hnext x) (i_hprev x) (i_fnext x) (i_fprev x) (i_flags x) (i_lockowner x) (i_num x) (i_sp x) (i_mounts x) (i_ndzones x) (i_nindirs x) (i_buddy x) (i_buffer x) (i_bytes x) (i_readp x) (i_writep x).
Definition set_i_update (v : Z) (x : inode) : inode :=
  Inode (i_mode x) (i_nlinks x) (i_uid x) (i_gid x) (i_size x) (i_atime x) (i_mtime x) (i_ctime x) (i_zone x) (i_dev x) (i_count x) (i_dirty x) v (i_hnext x) (i_hprev x) (i_fnext x) (i_fprev x) (i_flags x) (i_lockowner x) (i_num x) (i_sp x) (i_mounts x) (i_ndzones x) (i_nindirs x) (i_buddy x) (i_buffer x) (i_bytes x) (i_readp x) (i_writep x).
Definition set_i_hnext (v : iptr) (x : inode) : inode :=
  Inode (i_mode x) (i_nlinks x) (i_uid x) (i_gid x) (i_size x) (i_atime x) (i_mtime x) (i_ctime x) (i_zone x) (i_dev x) (i_count x) (i_dirty x) (i_update x) v (i_hprev x) (i_fnext x) (i_fprev x) (i_flags x) (i_lockowner x) (i_num x) (i_sp x) (i_mounts x) (i_ndzones x) (i_nindirs x) (i_buddy x) (i_buffer x) (i_bytes x) (i_readp x) (i_writep x).
Definition set_i_hprev (v : iptr) (x : inode) : inode :=
  Inode (i_mode x) (i_nlinks x) (i_uid x) (i_gid x) (i_size x) (i_atime x) (i_mtime x) (i_ctime x) (i_zone x) (i_dev x) (i_count x) (i_dirty x) (i_update x) (i_hnext x) v (i_fnext x) (i_fprev x) (i_flags x) (i_lockowner x) (i_num x) (i_sp x) (i_mounts x) (i_ndzones x) (i_nindirs x) (i_buddy x) (i_buffer x) (i_bytes x) (i_readp x) (i_writep x).
Definition set_i_fnext (v : iptr) (x : inode) : inode :=
  Inode (i_mode x) (i_nlinks x) (i_uid x) (i_gid x) (i_size x) (i_atime x) (i_mtime x) (i_ctime x) (i_zone x) (i_dev x) (i_count x) (i_dirty x) (i_update x) (i_hnext x) (i_hprev x) v (i_fprev x) (i_flags x) (i_lockowner x) (i_num x) (i_sp x) (i_mounts x) (i_ndzones x) (i_nindirs x) (i_buddy x) (i_buffer x) (i_bytes x) (i_readp x) (i_writep x).
Definition set_i_fprev (v : iptr) (x : inode) : inode :=
  Inode (i_mode x) (i_nlinks x) (i_uid x) (i_gid x) (i_size x) (i_atime x) (i_mtime x) (i_ctime x) (i_zone x) (i_dev x) (i_count x) (i_dirty x) (i_update x) (i_hnext x) (i_hprev x) (i_fnext x) v (i_flags x) (i_lockowner x) (i_num x) (i_sp x) (i_mounts x) (i_ndzones x) (i_nindirs x) (i_buddy x) (i_buffer x) (i_bytes x) (i_readp x) (i_writep x).
Definition set_i_flags (v : Z) (x : inode) : inode :=
  Inode (i_mode x) (i_nlinks x) (i_uid x) (i_gid x) (i_size x) (i_atime x) (i_mtime x) (i_ctime x) (i_zone x) (i_dev x) (i_count x) (i_dirty x) (i_update x) (i_hnext x) (i_hprev x) (i_fnext x) (i_fprev x) v (i_lockowner x) (i_num x) (i_sp x) (i_mounts x) (i_ndzones x) (i_nindirs x) (i_buddy x) (i_buffer x) (i_bytes x) (i_readp x) (i_writep x).
Definition set_i_lockowner (v : Z) (x : inode) : inode :=
  Inode (i_mode x) (i_nlinks x) (i_uid x) (i_gid x) (i_size x) (i_atime x) (i_mtime x) (i_ctime x) (i_zone x) (i_dev x) (i_count x) (i_dirty x) (i_update x) (i_hnext x) (i_hprev x) (i_fnext x) (i_fprev x) (i_flags x) v (i_num x) (i_sp x) (i_mounts x) (i_ndzones x) (i_nindirs x) (i_buddy x) (i_buffer x) (i_bytes x) (i_readp x) (i_writep x).
Definition set_i_num (v : Z) (x : inode) : inode :=
  Inode (i_mode x) (i_nlinks x) (i_uid x) (i_gid x) (i_size x) (i_atime x) (i_mtime x) (i_ctime x) (i_zone x) (i_dev x) (i_count x) (i_dirty x) (i_update x) (i_hnext x) (i_hprev x) (i_fnext x) (i_fprev x) (i_flags x) (i_lockowner x) v (i_sp x) (i_mounts x) (i_ndzones x) (i_nindirs x) (i_buddy x) (i_buffer x) (i_bytes x) (i_readp x) (i_writep x).
Definition set_i_sp (v : option Z) (x : inode) : inode :=
  Inode (i_mode x) (i_nlinks x) (i_uid x) (i_gid x) (i_size x) (i_atime x) (i_mtime x) (i_ctime x) (i_zone x) (i_dev x) (i_count x) (i_dirty x) (i_update x) (i_hnext x) (i_hprev x) (i_fnext x) (i_fprev x) (i_flags x) (i_lockowner x) (i_num x) v (i_mounts x) (i_ndzones x) (i_nindirs x) (i_buddy x) (i_buffer x) (i_bytes x) (i_readp x) (i_writep x).
Definition set_i_mounts (v : option Z) (x : inode) : inode :=
  Inode (i_mode x) (i_nlinks x) (i_uid x) (i_gid x) (i_size x) (i_atime x) (i_mtime x) (i_ctime x) (i_zone x) (i_dev x) (i_count x) (i_dirty x) (i_update x) (i_hnext x) (i_hprev x) (i_fnext x) (i_fprev x) (i_flags x) (i_lockowner x) (i_num x) (i_sp x) v (i_ndzones x) (i_nindirs x) (i_buddy x) (i_buffer x) (i_bytes x) (i_readp x) (i_writep x).
Definition set_i_ndzones (v : Z) (x : inode) : inode :=
  Inode (i_mode x) (i_nlinks x) (i_uid x) (i_gid x) (i_size x) (i_atime x) (i_mtime x) (i_ctime x) (i_zone x) (i_dev x) (i_count x) (i_dirty x) (i_update x) (i_hnext x) (i_hprev x) (i_fnext x) (i_fprev x) (i_flags x) (i_lockowner x) (i_num x) (i_sp x) (i_mounts x) v (i_nindirs x) (i_buddy x) (i_buffer x) (i_bytes x) (i_readp x) (i_writep x).
Definition set_i_nindirs (v : Z) (x : inode) : inode :=
  Inode (i_mode x) (i_nlinks x) (i_uid x) (i_gid x) (i_size x) (i_atime x) (i_mtime x) (i_ctime x) (i_zone x) (i_dev x) (i_count x) (i_dirty x) (i_update x) (i_hnext x) (i_hprev x) (i_fnext x) (i_fprev x) (i_flags x) (i_lockowner x) (i_num x) (i_sp x) (i_mounts x) (i_ndzones x) v (i_buddy x) (i_buffer x) (i_bytes x) (i_readp x) (i_writep x).
Definition set_i_buddy (v : Z) (x : inode) : inode :=
  Inode (i_mode x) (i_nlinks x) (i_uid x) (i_gid x) (i_size x) (i_atime x) (i_mtime x) (i_ctime x) (i_zone x) (i_dev x) (i_count x) (i_dirty x) (i_update x) (i_hnext x) (i_hprev x) (i_fnext x) (i_fprev x) (i_flags x) (i_lockowner x) (i_num x) (i_sp x) (i_mounts x) (i_ndzones x) (i_nindirs x) v (i_buffer x) (i_bytes x) (i_readp x) (i_writep x).
Definition set_i_buffer (v : Z) (x : inode) : inode :=
  Inode (i_mode x) (i_nlinks x) (i_uid x) (i_gid x) (i_size x) (i_atime x) (i_mtime x) (i_ctime x) (i_zone x) (i_dev x) (i_count x) (i_dirty x) (i_update x) (i_hnext x) (i_hprev x) (i_fnext x) (i_fprev x) (i_flags x) (i_lockowner x) (i_num x) (i_sp x) (i_mounts x) (i_ndzones x) (i_nindirs x) (i_buddy x) v (i_bytes x) (i_readp x) (i_writep x).
Definition set_i_bytes (v : list Z) (x : inode) : inode :=
  Inode (i_mode x) (i_nlinks x) (i_uid x) (i_gid x) (i_size x) (i_atime x) (i_mtime x) (i_ctime x) (i_zone x) (i_dev x) (i_count x) (i_dirty x) (i_update x) (i_hnext x) (i_hprev x) (i_fnext x) (i_fprev x) (i_flags x) (i_lockowner x) (i_num x) (i_sp x) (i_mounts x) (i_ndzones x) (i_nindirs x) (i_buddy x) (i_buffer x) v (i_readp x) (i_writep x).
Definition set_i_readp (v : Z) (x : inode) : inode :=
  Inode (i_mode x) (i_nlinks x) (i_uid x) (i_gid x) (i_size x) (i_atime x) (i_mtime x) (i_ctime x) (i_zone x) (i_dev x) (i_count x) (i_dirty x) (i_update x) (i_hnext x) (i_hprev x) (i_fnext x) (i_fprev x) (i_flags x) (i_lockowner x) (i_num x) (i_sp x) (i_mounts x) (i_ndzones x) (i_nindirs x) (i_buddy x) (i_buffer x) (i_bytes x) v (i_writep x).
Definition set_i_writep (v : Z) (x : inode) : inode :=
  Inode (i_mode x) (i_nlinks x) (i_uid x) (i_gid x) (i_size x) (i_atime x) (i_mtime x) (i_ctime x) (i_zone x) (i_dev x) (i_count x) (i_dirty x) (i_update x) (i_hnext x) (i_hprev x) (i_fnext x) (i_fprev x) (i_flags x) (i_lockowner x) (i_num x) (i_sp x) (i_mounts x) (i_ndzones x) (i_nindirs x) (i_buddy x) (i_buffer x) (i_bytes x) (i_readp x) v.

Record super_block := SuperBlock {
  s_ninodes : Z;
  s_nzones : Z;
  s_imblocks : Z;
  s_zmblocks : Z;
  s_fdzone : Z;
  s_lzsize : Z;
  s_msize : Z;
  s_magic : Z;
  s_pad : Z;
  s_zones : Z;
  s_rooti : option Z;
  s_mounti : option Z;
  s_count : Z;
  s_flags : Z;
  s_dev : Z;
  s_roflag : Z;
  s_isearch : Z;
  s_zsearch : Z;
  s_version : Z;
  s_ipblock : Z;
  s_ndzones : Z;
  s_nindirs : Z;
}.
Definition set_s_ninodes (v : Z) (x : super_block) : super_block :=
  SuperBlock v (s_nzones x) (s_imblocks x) (s_zmblocks x) (s_fdzone x) (s_lzsize x) (s_msize x) (s_magic x) (s_pad x) (s_zones x) (s_rooti x) (s_mounti x) (s_count x) (s_flags x) (s_dev x) (s_roflag x) (s_isearch x) (s_zsearch x) (s_version x) (s_ipblock x) (s_ndzones x) (s_nindirs x).
Definition set_s_nzones (v : Z) (x : super_block) : super_block :=
  SuperBlock (s_ninodes x) v (s_imblocks x) (s_zmblocks x) (s_fdzone x) (s_lzsize x) (s_msize x) (s_magic x) (s_pad x) (s_zones x) (s_rooti x) (s_mounti x) (s_count x) (s_flags x) (s_dev x) (s_roflag x) (s_isearch x) (s_zsearch x) (s_version x) (s_ipblock x) (s_ndzones x) (s_nindirs x).
Definition set_s_imblocks (v : Z) (x : super_block) : super_block :=
  SuperBlock (s_ninodes x) (s_nzones x) v (s_zmblocks x) (s_fdzone x) (s_lzsize x) (s_msize x) (s_magic x) (s_pad x) (s_zones x) (s_rooti x) (s_mounti x) (s_count x) (s_flags x) (s_dev x) (s_roflag x) (s_isearch x) (s_zsearch x) (s_version x) (s_ipblock x) (s_ndzones x) (s_nindirs x).
Definition set_s_zmblocks (v : Z) (x : super_block) : super_block :=
  SuperBlock (s_ninodes x) (s_nzones x) (s_imblocks x) v (s_fdzone x) (s_lzsize x) (s_msize x) (s_magic x) (s_pad x) (s_zones x) (s_rooti x) (s_mounti x) (s_count x) (s_flags x) (s_dev x) (s_roflag x) (s_isearch x) (s_zsearch x) (s_version x) (s_ipblock x) (s_ndzones x) (s_nindirs x).
Definition set_s_fdzone (v : Z) (x : super_block) : super_block :=
  SuperBlock (s_ninodes x) (s_nzones x) (s_imblocks x) (s_zmblocks x) v (s_lzsize x) (s_msize x) (s_magic x) (s_pad x) (s_zones x) (s_rooti x) (s_mounti x) (s_count x) (s_flags x) (s_dev x) (s_roflag x) (s_isearch x) (s_zsearch x) (s_version x) (s_ipblock x) (s_ndzones x) (s_nindirs x).
Definition set_s_lzsize (v : Z) (x : super_block) : super_block :=
  SuperBlock (s_ninodes x) (s_nzones x) (s_imblocks x) (s_zmblocks x) (s_fdzone x) v (s_msize x) (s_magic x) (s_pad x) (s_zones x) (s_rooti x) (s_mounti x) (s_count x) (s_flags x) (s_dev x) (s_roflag x) (s_isearch x) (s_zsearch x) (s_version x) (s_ipblock x) (s_ndzones x) (s_nindirs x).
Definition set_s_msize (v : Z) (x : super_block) : super_block :=
  SuperBlock (s_ninodes x) (s_nzones x) (s_imblocks x) (s_zmblocks x) (s_fdzone x) (s_lzsize x) v (s_magic x) (s_pad x) (s_zones x) (s_rooti x) (s_mounti x) (s_count x) (s_flags x) (s_dev x) (s_roflag x) (s_isearch x) (s_zsearch x) (s_version x) (s_ipblock x) (s_ndzones x) (s_nindirs x).
Definition set_s_magic (v : Z) (x : super_block) : super_block :=
  SuperBlock (s_ninodes x) (s_nzones x) (s_imblocks x) (s_zmblocks x) (s_fdzone x) (s_lzsize x) (s_msize x) v (s_pad x) (s_zones x) (s_rooti x) (s_mounti x) (s_count x) (s_flags x) (s_dev x) (s_roflag x) (s_isearch x) (s_zsearch x) (s_version x) (s_ipblock x) (s_ndzones x) (s_nindirs x).
Definition set_s_pad (v : Z) (x : super_block) : super_block :=
  SuperBlock (s_ninodes x) (s_nzones x) (s_imblocks x) (s_zmblocks x) (s_fdzone x) (s_lzsize x) (s_msize x) (s_magic x) v (s_zones x) (s_rooti x) (s_mounti x) (s_count x) (s_flags x) (s_dev x) (s_roflag x) (s_isearch x) (s_zsearch x) (s_version x) (s_ipblock x) (s_ndzones x) (s_nindirs x).
Definition set_s_zones (v : Z) (x : super_block) : super_block :=
  SuperBlock (s_ninodes x) (s_nzones x) (s_imblocks x) (s_zmblocks x) (s_fdzone x) (s_lzsize x) (s_msize x) (s_magic x) (s_pad x) v (s_rooti x) (s_mounti x) (s_count x) (s_flags x) (s_dev x) (s_roflag x) (s_isearch x) (s_zsearch x) (s_version x) (s_ipblock x) (s_ndzones x) (s_nindirs x).
Definition set_s_rooti (v : option Z) (x : super_block) : super_block :=
  SuperBlock (s_ninodes x) (s_nzones x) (s_imblocks x) (s_zmblocks x) (s_fdzone x) (s_lzsize x) (s_msize x) (s_magic x) (s_pad x) (s_zones x) v (s_mounti x) (s_count x) (s_flags x) (s_dev x) (s_roflag x) (s_isearch x) (s_zsearch x) (s_version x) (s_ipblock x) (s_ndzones x) (s_nindirs x).
Definition set_s_mounti (v : option Z) (x : super_block) : super_block :=
  SuperBlock (s_ninodes x) (s_nzones x) (s_imblocks x) (s_zmblocks x) (s_fdzone x) (s_lzsize x) (s_msize x) (s_magic x) (s_pad x) (s_zones x) (s_rooti x) v (s_count x) (s_flags x) (s_dev x) (s_roflag x) (s_isearch x) (s_zsearch x) (s_version x) (s_ipblock x) (s_ndzones x) (s_nindirs x).
Definition set_s_count (v : Z) (x : super_block) : super_block :=
  SuperBlock (s_ninodes x) (s_nzones x) (s_imblocks x) (s_zmblocks x) (s_fdzone x) (s_lzsize x) (s_msize x) (s_magic x) (s_pad x) (s_zones x) (s_rooti x) (s_mounti x) v (s_flags x) (s_dev x) (s_roflag x) (s_isearch x) (s_zsearch x) (s_version x) (s_ipblock x) (s_ndzones x) (s_nindirs x).
Definition set_s_flags (v : Z) (x : super_block) : super_block :=
  SuperBlock (s_ninodes x) (s_nzones x) (s_imblocks x) (s_zmblocks x) (s_fdzone x) (s_lzsize x) (s_msize x) (s_magic x) (s_pad x) (s_zones x) (s_rooti x) (s_mounti x) (s_count x) v (s_dev x) (s_roflag x) (s_isearch x) (s_zsearch x) (s_version x) (s_ipblock x) (s_ndzones x) (s_nindirs x).
Definition set_s_dev (v : Z) (x : super_block) : super_block :=
  SuperBlock (s_ninodes x) (s_nzones x) (s_imblocks x) (s_zmblocks x) (s_fdzone x) (s_lzsize x) (s_msize x) (s_magic x) (s_pad x) (s_zones x) (s_rooti x) (s_mounti x) (s_count x) (s_flags x) v (s_roflag x) (s_isearch x) (s_zsearch x) (s_version x) (s_ipblock x) (s_ndzones x) (s_nindirs x).
Definition set_s_roflag (v : Z) (x : super_block) : super_block :=
  SuperBlock (s_ninodes x) (s_nzones x) (s_imblocks x) (s_zmblocks x) (s_fdzone x) (s_lzsize x) (s_msize x) (s_magic x) (s_pad x) (s_zones x) (s_rooti x) (s_mounti x) (s_count x) (s_flags x) (s_dev x) v (s_isearch x) (s_zsearch x) (s_version x) (s_ipblock x) (s_ndzones x) (s_nindirs x).
Definition set_s_isearch (v : Z) (x : super_block) : super_block :=
  SuperBlock (s_ninodes x) (s_nzones x) (s_imblocks x) (s_zmblocks x) (s_fdzone x) (s_lzsize x) (s_msize x) (s_magic x) (s_pad x) (s_zones x) (s_rooti x) (s_mounti x) (s_count x) (s_flags x) (s_dev x) (s_roflag x) v (s_zsearch x) (s_version x) (s_ipblock x) (s_ndzones x) (s_nindirs x).
Definition set_s_zsearch (v : Z) (x : super_block) : super_block :=
  SuperBlock (s_ninodes x) (s_nzones x) (s_imblocks x) (s_zmblocks x) (s_fdzone x) (s_lzsize x) (s_msize x) (s_magic x) (s_pad x) (s_zones x) (s_rooti x) (s_mounti x) (s_count x) (s_flags x) (s_dev x) (s_roflag x) (s_isearch x) v (s_version x) (s_ipblock x) (s_ndzones x) (s_nindirs x).
Definition set_s_version (v : Z) (x : super_block) : super_block :=
  SuperBlock (s_ninodes x) (s_nzones x) (s_imblocks x) (s_zmblocks x) (s_fdzone x) (s_lzsize x) (s_msize x) (s_magic x) (s_pad x) (s_zones x) (s_rooti x) (s_mounti x) (s_count x) (s_flags x) (s_dev x) (s_roflag x) (s_isearch x) (s_zsearch x) v (s_ipblock x) (s_ndzones x) (s_nindirs x).
Definition set_s_ipblock (v : Z) (x : super_block) : super_block :=
  SuperBlock (s_ninodes x) (s_nzones x) (s_imblocks x) (s_zmblocks x) (s_fdzone x) (s_lzsize x) (s_msize x) (s_magic x) (s_pad x) (s_zones x) (s_rooti x) (s_mounti x) (s_count x) (s_flags x) (s_dev x) (s_roflag x) (s_isearch x) (s_zsearch x) (s_version x) v (s_ndzones x) (s_nindirs x).
Definition set_s_ndzones (v : Z) (x : super_block) : super_block :=
  SuperBlock (s_ninodes x) (s_nzones x) (s_imblocks x) (s_zmblocks x) (s_fdzone x) (s_lzsize x) (s_msize x) (s_magic x) (s_pad x) (s_zones x) (s_rooti x) (s_mounti x) (s_count x) (s_flags x) (s_dev x) (s_roflag x) (s_isearch x) (s_zsearch x) (s_version x) (s_ipblock x) v (s_nindirs x).
Definition set_s_nindirs (v : Z) (x : super_block) : super_block :=
  SuperBlock (s_ninodes x) (s_nzones x) (s_imblocks x) (s_zmblocks x) (s_fdzone x) (s_lzsize x) (s_msize x) (s_magic x) (s_pad x) (s_zones x) (s_rooti x) (s_mounti x) (s_count x) (s_flags x) (s_dev x) (s_roflag x) (s_isearch x) (s_zsearch x) (s_version x) (s_ipblock x) (s_ndzones x) v.

Record filp := Filp {
  f_mode : Z;
  f_count : Z;
  f_ino : option Z;
  f_pos : Z;
}.
Definition set_f_mode (v : Z) (x : filp) : filp :=
  Filp v (f_count x) (f_ino x) (f_pos x).
Definition set_f_count (v : Z) (x : filp) : filp :=
  Filp (f_mode x) v (f_ino x) (f_pos x).
Definition set_f_ino (v : option Z) (x : filp) : filp :=
  Filp (f_mode x) (f_count x) v (f_pos x).
Definition set_f_pos (v : Z) (x : filp) : filp :=
  Filp (f_mode x) (f_count x) (f_ino x) v.

(** The fields of [struct task_struct] the file system uses. *)
Record task_fs := TaskFs {
  pid : Z;
  uid : Z;
  euid : Z;
  gid : Z;
  egid : Z;
  umask : Z;
  pwd : Z;
  root : Z;
  file : list (option Z);
  fflags : list Z;
  check : Z;
}.
Definition set_pid (v : Z) (x : task_fs) : task_fs :=
  TaskFs v (uid x) (euid x) (gid x) (egid x) (umask x) (pwd x) (root x) (file x) (fflags x) (check x).
Definition set_uid (v : Z) (x : task_fs) : task_fs :=
  TaskFs (pid x) v (euid x) (gid x) (egid x) (umask x) (pwd x) (root x) (file x) (fflags x) (check x).
Definition set_euid (v : Z) (x : task_fs) : task_fs :=
  TaskFs (pid x) (uid x) v (gid x) (egid x) (umask x) (pwd x) (root x) (file x) (fflags x) (check x).
Definition set_gid (v : Z) (x : task_fs) : task_fs :=
  TaskFs (pid x) (uid x) (euid x) v (egid x) (umask x) (pwd x) (root x) (file x) (fflags x) (check x).
Definition set_egid (v : Z) (x : task_fs) : task_fs :=
  TaskFs (pid x) (uid x) (euid x) (gid x) v (umask x) (pwd x) (root x) (file x) (fflags x) (check x).
Definition set_umask (v : Z) (x : task_fs) : task_fs :=
  TaskFs (pid x) (uid x) (euid x) (gid x) (egid x) v (pwd x) (root x) (file x) (fflags x) (check x).
Definition set_pwd (v : Z) (x : task_fs) : task_fs :=
  TaskFs (pid x) (uid x) (euid x) (gid x) (egid x) (umask x) v (root x) (file x) (fflags x) (check x).
Definition set_root (v : Z) (x : task_fs) : task_fs :=
  TaskFs (pid x) (uid x) (euid x) (gid x) (egid x) (umask x) (pwd x) v (file x) (fflags x) (check x).
Definition set_file (v : list (option Z)) (x : task_fs) : task_fs :=
  TaskFs (pid x) (uid x) (euid x) (gid x) (egid x) (umask x) (pwd x) (root x) v (fflags x) (check x).
Definition set_fflags (v : list Z) (x : task_fs) : task_fs :=
  TaskFs (pid x) (uid x) (euid x) (gid x) (egid x) (umask x) (pwd x) (root x) (file x) v (check x).
Definition set_check (v : Z) (x : task_fs) : task_fs :=
  TaskFs (pid x) (uid x) (euid x) (gid x) (egid x) (umask x) (pwd x) (root x) (file x) (fflags x) v.

Section state.
Context {S PS : Type}.

Record fs_state := MkFs {
  dsk : S;
  pgs : PS;
  sb : list super_block;
  inodes : list inode;
  inode_hash : list (iptr * iptr);
  ifreelist : iptr * iptr;
  inode_free_num : Z;
  filps : list filp;
  from_filp : Z;
  current : task_fs;
  init_root : Z;
  curclock : Z;
}.
Definition upd_dsk (f : S → S) (x : fs_state) : fs_state :=
  MkFs (f (dsk x)) (pgs x) (sb x) (inodes x) (inode_hash x) (ifreelist x) (inode_free_num x) (filps x) (from_filp x) (current x) (init_root x) (curclock x).
Definition upd_pgs (f : PS → PS) (x : fs_state) : fs_state :=
  MkFs (dsk x) (f (pgs x)) (sb x) (inodes x) (inode_hash x) (ifreelist x) (inode_free_num x) (filps x) (from_filp x) (current x) (init_root x) (curclock x).
Definition upd_sb (f : list super_block → list super_block) (x : fs_state) : fs_state :=
  MkFs (dsk x) (pgs x) (f (sb x)) (inodes x) (inode_hash x) (ifreelist x) (inode_free_num x) (filps x) (from_filp x) (current x) (init_root x) (curclock x).
Definition upd_inodes (f : list inode → list inode) (x : fs_state) : fs_state :=
  MkFs (dsk x) (pgs x) (sb x) (f (inodes x)) (inode_hash x) (ifreelist x) (inode_free_num x) (filps x) (from_filp x) (current x) (init_root x) (curclock x).
Definition upd_inode_hash (f : list (iptr * iptr) → list (iptr * iptr)) (x : fs_state) : fs_state :=
  MkFs (dsk x) (pgs x) (sb x) (inodes x) (f (inode_hash x)) (ifreelist x) (inode_free_num x) (filps x) (from_filp x) (current x) (init_root x) (curclock x).
Definition upd_ifreelist (f : iptr * iptr → iptr * iptr) (x : fs_state) : fs_state :=
  MkFs (dsk x) (pgs x) (sb x) (inodes x) (inode_hash x) (f (ifreelist x)) (inode_free_num x) (filps x) (from_filp x) (current x) (init_root x) (curclock x).
Definition upd_inode_free_num (f : Z → Z) (x : fs_state) : fs_state :=
  MkFs (dsk x) (pgs x) (sb x) (inodes x) (inode_hash x) (ifreelist x) (f (inode_free_num x)) (filps x) (from_filp x) (current x) (init_root x) (curclock x).
Definition upd_filps (f : list filp → list filp) (x : fs_state) : fs_state :=
  MkFs (dsk x) (pgs x) (sb x) (inodes x) (inode_hash x) (ifreelist x) (inode_free_num x) (f (filps x)) (from_filp x) (current x) (init_root x) (curclock x).
Definition upd_from_filp (f : Z → Z) (x : fs_state) : fs_state :=
  MkFs (dsk x) (pgs x) (sb x) (inodes x) (inode_hash x) (ifreelist x) (inode_free_num x) (filps x) (f (from_filp x)) (current x) (init_root x) (curclock x).
Definition upd_current (f : task_fs → task_fs) (x : fs_state) : fs_state :=
  MkFs (dsk x) (pgs x) (sb x) (inodes x) (inode_hash x) (ifreelist x) (inode_free_num x) (filps x) (from_filp x) (f (current x)) (init_root x) (curclock x).

(** ** Tables *)

Definition null_inode : inode :=
  Inode 0 0 0 0 0 0 0 0 (replicate 10 0) 0 0 0 0 INull INull INull INull 0 0 0 None None 0 0 0 0 [] 0 0.
Definition null_sb : super_block :=
  SuperBlock 0 0 0 0 0 0 0 0 0 0 None None 0 0 0 0 0 0 0 0 0 0.
Definition null_filp : filp := Filp 0 0 None 0.

Definition ino_at (s : fs_state) (i : Z) : inode := default null_inode (zget (inodes s) i).
Definition sb_at (s : fs_state) (i : Z) : super_block := default null_sb (zget (sb s) i).
Definition filp_at (s : fs_state) (i : Z) : filp := default null_filp (zget (filps s) i).

Definition upd_ino (i : Z) (f : inode → inode) : fs_state → fs_state := upd_inodes (zalter f i).
Definition upd_sblk (i : Z) (f : super_block → super_block) : fs_state → fs_state := upd_sb (zalter f i).
Definition upd_filp (i : Z) (f : filp → filp) : fs_state → fs_state := upd_filps (zalter f i).

(** A pointer that is followed: null is a fault. *)
Definition deref (p : option Z) : M fs_state Z := from_opt p.

Lemma upd_sblk_upd_sblk i f g s : upd_sblk i f (upd_sblk i g s) = upd_sblk i (λ p, f (g p)) s.
Proof. unfold upd_sblk, upd_sb. simpl. by rewrite zalter_zalter. Qed.
Lemma upd_sblk_ext i f g s : (∀ p, zget (sb s) i = Some p → f p = g p) → upd_sblk i f s = upd_sblk i g s.
Proof. intros Hfg. unfold upd_sblk, upd_sb. f_equal. by apply zalter_ext. Qed.
Lemma sb_at_upd_sblk i f s j : 0 <= i < zlen (sb s) →
  sb_at (upd_sblk i f s) j = if decide (j = i) then f (sb_at s i) else sb_at s j.
Proof.
  intros Hi. unfold sb_at, upd_sblk. simpl. rewrite zget_zalter. case_decide; [|done].
  subst. apply zget_is_Some in Hi as [x ->]. done.
Qed.
Lemma upd_ino_upd_ino i f g s : upd_ino i f (upd_ino i g s) = upd_ino i (λ p, f (g p)) s.
Proof. unfold upd_ino, upd_inodes. simpl. by rewrite zalter_zalter. Qed.
Lemma ino_at_upd_ino i f s j : 0 <= i < zlen (inodes s) →
  ino_at (upd_ino i f s) j = if decide (j = i) then f (ino_at s i) else ino_at s j.
Proof.
  intros Hi. unfold ino_at, upd_ino. simpl. rewrite zget_zalter. case_decide; [|done].
  subst. apply zget_is_Some in Hi as [x ->]. done.
Qed.
Lemma upd_ino_same i s : upd_ino i (λ _, ino_at s i) s = s.
Proof.
  unfold upd_ino, upd_inodes. destruct s as [? ? ? ins]. simpl. f_equal.
  apply zget_ext. intros j Hj. rewrite zget_zalter. case_decide; [|done]. subst.
  unfold ino_at. simpl. by destruct (zget ins i).
Qed.
Lemma zlen_inodes_upd_ino i f s : zlen (inodes (upd_ino i f s)) = zlen (inodes s).
Proof. apply zlen_zalter. Qed.

#[export] Instance fs_links : LinkStore fs_state iptr := {
  nxt s p := match p with
    | INull => INull
    | IHead h => from_option fst INull (zget (inode_hash s) h)
    | IFreeHead => (ifreelist s).1
    | IHashN i => from_option i_hnext INull (zget (inodes s) i)
    | IFreeN i => from_option i_fnext INull (zget (inodes s) i)
    end;
  prv s p := match p with
    | INull => INull
    | IHead h => from_option snd INull (zget (inode_hash s) h)
    | IFreeHead => (ifreelist s).2
    | IHashN i => from_option i_hprev INull (zget (inodes s) i)
    | IFreeN i => from_option i_fprev INull (zget (inodes s) i)
    end;
  set_nxt p v := match p with
    | INull => id
    | IHead h => upd_inode_hash (zalter (λ x, (v, x.2)) h)
    | IFreeHead => upd_ifreelist (λ x, (v, x.2))
    | IHashN i => upd_ino i (set_i_hnext v)
    | IFreeN i => upd_ino i (set_i_fnext v)
    end;
  set_prv p v := match p with
    | INull => id
    | IHead h => upd_inode_hash (zalter (λ x, (x.1, v)) h)
    | IFreeHead => upd_ifreelist (λ x, (x.1, v))
    | IHashN i => upd_ino i (set_i_hprev v)
    | IFreeN i => upd_ino i (set_i_fprev v)
    end;
  linkable s p := match p with
    | INull => False
    | IFreeHead => True
    | IHead h => 0 <= h < zlen (inode_hash s)
    | IHashN i | IFreeN i => 0 <= i < zlen (inodes s)
    end;
}.

Lemma zget_zalter_field {A B} (g : A → B) (d v : B) (f : A → A) (l : list A) i j :
  (∀ x, g (f x) = v) → 0 <= i < zlen l →
  from_option g d (zget (zalter f i l) j) = if decide (j = i) then v else from_option g d (zget l j).
Proof.
  intros Hf Hi. rewrite zget_zalter. case_decide; [subst|done].
  apply zget_is_Some in Hi as [x ->]. apply Hf.
Qed.
Lemma zget_zalter_other {A B} (g : A → B) (d : B) (f : A → A) (l : list A) i j :
  (∀ x, g (f x) = g x) → from_option g d (zget (zalter f i l) j) = from_option g d (zget l j).
Proof.
  intros Hf. rewrite zget_zalter. case_decide; [subst|done]. by destruct (zget l i); simpl; rewrite ?Hf.
Qed.

#[export] Instance fs_laws : LinkLaws fs_state iptr.
Proof.
  split; intros s p v q.
  1, 2: intros Hp; destruct p; [done|..]; destruct q; simpl in *;
    try done; try (by apply zget_zalter_other);
    try (rewrite (zget_zalter_field _ _ v) by done; repeat case_decide; simplify_eq; done).
  1, 2: destruct p; [done|..]; destruct q; simpl in *; try done; by apply zget_zalter_other.
  all: destruct p; [done|..]; destruct q; simpl in *; by rewrite ?zlen_zalter.
Qed.
End state.
Arguments fs_state : clear implicits.

(** ** Constants *)

Definition LOCK_BITOP : Z := 4.
Definition WANT_BITOP : Z := 8.
Definition LOCK_S : Z := 1.
Definition WANT_S : Z := 2.
Definition NOBIT : Z := 0.
Definition NOZONE : Z := 0.
Definition NOBLOCK : Z := 0.
Definition IMAP : Z := 0.
Definition ZMAP : Z := 1.
Definition NR_ZONES : Z := 10.
Definition NR_DZONES : Z := 7.
Definition NR_INDIRECTS : Z := 256.
Definition FILESIZE_MAX : Z := 7 * 1024 + 256 * 1024 + 256 * 256 * 1024.
Definition NR_INODE : Z := 2048.
Definition NR_INODE_HASH : Z := 64.
Definition NR_FILP : Z := 2048.
Definition NR_SB : Z := 10.
Definition OPEN_MAX : Z := 32.
Definition NAME_MAX : Z := 30.
Definition ROOT_INODE : Z := 1.
Definition INODE_SIZE : Z := 64.
Definition SU_UID : Z := 0.

Definition I_TYPE : Z := 0xf000.
Definition I_SOCK : Z := 0xc000.
Definition I_LNK : Z := 0xa000.
Definition I_REG : Z := 0x8000.
Definition I_BLK : Z := 0x6000.
Definition I_DIR : Z := 0x4000.
Definition I_CHR : Z := 0x2000.
Definition I_FIFO : Z := 0x1000.
Definition I_UGRWX : Z := 0xdff.
Definition I_RB : Z := 4.
Definition I_WB : Z := 2.
Definition I_XB : Z := 1.

Definition S_ISSOCK (m : Z) : bool := Z.land m I_TYPE =? I_SOCK.
Definition S_ISLNK (m : Z) : bool := Z.land m I_TYPE =? I_LNK.
Definition S_ISREG (m : Z) : bool := Z.land m I_TYPE =? I_REG.
Definition S_ISBLK (m : Z) : bool := Z.land m I_TYPE =? I_BLK.
Definition S_ISDIR (m : Z) : bool := Z.land m I_TYPE =? I_DIR.
Definition S_ISCHR (m : Z) : bool := Z.land m I_TYPE =? I_CHR.
Definition S_ISFIFO (m : Z) : bool := Z.land m I_TYPE =? I_FIFO.

Definition MOUNT_I : Z := 1.
Definition PIPE_I : Z := 2.
Definition SEEK_I : Z := 4.
Definition LOCK_I : Z := 8.
Definition WANT_I : Z := 16.
Definition ATIME : Z := 1.
Definition MTIME : Z := 2.
Definition CTIME : Z := 4.

Definition O_ACCMODE : Z := 3.
Definition O_RDONLY : Z := 0.
Definition O_WRONLY : Z := 1.
Definition O_CLOEXEC : Z := 4.
Definition O_CREAT : Z := 0x40.
Definition O_EXCL : Z := 0x80.
Definition O_TRUNC : Z := 0x200.
Definition O_APPEND : Z := 0x400.
Definition O_NDELAY : Z := 0x800.
Definition O_SYNC : Z := 0x1000.
