(* ===== verification/Super.v ===== *)
(** * Super blocks and bitmaps (fs/super.c)

    Inodes and zones are allocated from bitmaps on the disk; the super block
    remembers where to start searching.  The theorems say that [bitalloc]
    returns the first free bit of the map and fails only when there is none,
    that [bitfree] makes exactly that bit free, that the search hint never
    hides a free bit, and that [get_free_bits_nr] counts the free bits. *)

From S2P Require Import Prelude Blocks Pages Dlist FsState.
From stdpp Require Import base numbers functions gmap list.

Local Open Scope Z_scope.

Definition SUPER_BLOCK : Z := 1.
Definition u32bits : Z := 32.
Definition WORDS_PER_BLOCK : Z := 256.
Definition BITS_PER_BLOCK : Z := 8192.
Definition INODES_PER_BLOCK : Z := 16.
Definition LM_MAGIC : Z := 0x2478.

(** ** Words of a bitmap block *)

Definition word (data : list Z) (i : Z) : Z := load 4 (4 * i) data.
Definition set_word (data : list Z) (i v : Z) : list Z := store 4 (4 * i) v data.

(** [for(i = 0; i < BLOCKSIZ / u32size; i++, tmp++) if( *tmp < 0xffffffff) break] *)
Fixpoint find_word (n : nat) (i : Z) (data : list Z) : Z :=
  match n with
  | O => i
  | S n => if word data i <? 0xffffffff then i else find_word n (i + 1) data
  end.
(** [for(j = 0; (1 << j) & *tmp; j++)] *)
Fixpoint first_zero (n : nat) (j w : Z) : Z :=
  match n with
  | O => j
  | S n => if truth (Z.land (Z.shiftl 1 j) w) then first_zero n (j + 1) w else j
  end.

(** [get_zero_bits] *)
Fixpoint count_zeros (n : nat) (val i count : Z) : Z :=
  match n with
  | O => count
  | S n =>
      count_zeros n val (i + 1)
        (if negb (truth (Z.land (Z.shiftr val i) 1)) then count + 1 else count)
  end.
Definition get_zero_bits (val bits : Z) : Z :=
  let bits := if 32 <? bits then 32 else bits in
  count_zeros (Z.to_nat bits) val 0 0.

(** ** The bits of a bitmap block *)

Definition bbit (data : list Z) (n : Z) : bool := Z.testbit (word data (n / 32)) (n mod 32).

Lemma word_range data i : block_ok data → 0 <= i < 256 → 0 <= word data i < 2 ^ 32.
Proof.
  intros [Hl Hb] Hi. unfold BLOCKSIZ in Hl. apply (load_range 4 (4 * i) data); [done|lia|lia].
Qed.
Lemma block_ok_set_word data i v : block_ok data → 0 <= i < 256 → block_ok (set_word data i v).
Proof.
  intros [Hl Hb] Hi. unfold BLOCKSIZ in Hl. split; [unfold set_word; by rewrite zlen_store|].
  apply bytes_ok_store; [done|lia|lia].
Qed.
Lemma word_set_word data i v k : block_ok data → 0 <= i < 256 → 0 <= k < 256 → 0 <= v < 2 ^ 32 →
  word (set_word data i v) k = if decide (k = i) then v else word data k.
Proof.
  intros [Hl Hb] Hi Hk Hv. unfold BLOCKSIZ in Hl. unfold word, set_word. case_decide as Hc.
  - subst k. apply load_store; lia.
  - apply load_store_other; lia.
Qed.

Lemma testbit_all_ones w j : 0 <= w < 2 ^ 32 → 0xffffffff <= w → 0 <= j < 32 → Z.testbit w j = true.
Proof.
  intros Hw Hf Hj. replace w with (Z.ones 32) by (rewrite Z.ones_equiv; lia). by apply Z.ones_spec_low.
Qed.
Lemma first_zero_spec w n : 0 <= w < 0xffffffff → ∀ j, j + Z.of_nat n = 32 → 0 <= j →
  (∀ k, 0 <= k < j → Z.testbit w k = true) →
  let r := first_zero n j w in
  0 <= r < 32 ∧ Z.testbit w r = false ∧ ∀ k, 0 <= k < r → Z.testbit w k = true.
Proof.
  intros Hw. induction n as [|n IH]; intros j Hj H0 Hall; simpl.
  - assert (w = Z.ones 32); [|rewrite Z.ones_equiv in *; lia].
    apply Z.bits_inj'. intros k Hk. destruct (decide (k < 32)).
    + rewrite Z.ones_spec_low by lia. apply Hall. lia.
    + rewrite Z.ones_spec_high by lia. destruct (decide (w = 0)) as [->|]; [apply Z.bits_0|].
      apply Z.bits_above_log2; [lia|]. apply Z.log2_lt_pow2; [lia|].
      assert (2 ^ 32 <= 2 ^ k) by (apply Z.pow_le_mono_r; lia). lia.
  - rewrite Z.shiftl_1_l, Z.land_comm, land_pow2_testbit by done. destruct (Z.testbit w j) eqn:E.
    + apply IH; [lia|lia|]. intros k Hk. destruct (decide (k = j)) as [->|]; [done|]. apply Hall. lia.
    + split; [lia|]. by split.
Qed.
Lemma find_word_spec data n i : i + Z.of_nat n = 256 → 0 <= i →
  (∀ k, 0 <= k < i → 0xffffffff <= word data k) →
  let r := find_word n i data in
  i <= r <= 256 ∧ (∀ k, 0 <= k < r → 0xffffffff <= word data k) ∧
  (r < 256 → word data r < 0xffffffff).
Proof.
  revert i. induction n as [|n IH]; intros i Hi H0 Hall; simpl; [split_and!; [lia|lia|done|lia]|].
  destruct (Z.ltb_spec (word data i) 0xffffffff).
  - split_and!; [lia|lia|done|done].
  - destruct (IH (i + 1)) as (Hr & Ha & Hb); [lia|lia| |split; [lia|by split]].
    intros k Hk. destruct (decide (k = i)) as [->|]; [done|]. apply Hall. lia.
Qed.

Lemma word_full data k : block_ok data → 0 <= k < 8192 → 0xffffffff <= word data (k / 32) → bbit data k = true.
Proof.
  intros Hd Hk Hf. unfold bbit. apply testbit_all_ones; [|done|].
  - apply word_range; [done|]. split; [apply Z.div_pos; lia|apply Z.div_lt_upper_bound; lia].
  - apply Z.mod_pos_bound. lia.
Qed.

(** The first free bit of a block is where the two loops stop. *)
Definition block_free (data : list Z) : Z :=
  let i := find_word 256 0 data in i * 32 + first_zero 32 0 (word data i).

Lemma block_scan data : block_ok data →
  let i := find_word 256 0 data in
  let n := block_free data in
  (256 <= i ∧ ∀ k, 0 <= k < 8192 → bbit data k = true) ∨
  (0 <= i < 256 ∧ n / 32 = i ∧ n mod 32 = first_zero 32 0 (word data i) ∧ 0 <= n < 8192 ∧
   bbit data n = false ∧ ∀ k, 0 <= k < n → bbit data k = true).
Proof.
  intros Hd i n. unfold n, block_free. fold i.
  destruct (find_word_spec data 256 0 ltac:(lia) ltac:(lia) ltac:(lia)) as (Hr & Hall & Hw).
  fold i in Hr, Hall, Hw. clearbody i. clear n.
  assert (∀ k, 0 <= k < 8192 → k / 32 < i → bbit data k = true) as Hbelow.
  { intros k Hk Hi. apply word_full; [done|done|]. apply Hall. split; [apply Z.div_pos; lia|done]. }
  destruct (decide (256 <= i)) as [Hi|Hi].
  - left. split; [done|]. intros k Hk. apply Hbelow; [done|].
    assert (k / 32 < 256) by (apply Z.div_lt_upper_bound; lia). lia.
  - right. pose proof (word_range data i Hd ltac:(lia)) as Hwr.
    destruct (first_zero_spec (word data i) 32 ltac:(lia) 0 ltac:(lia) ltac:(lia) ltac:(lia)) as (Hj & Hz & Ho).
    set (j := first_zero 32 0 (word data i)) in *. clearbody j.
    assert ((i * 32 + j) / 32 = i) as Hdiv by (symmetry; apply (Z.div_unique _ _ _ j); lia).
    assert ((i * 32 + j) mod 32 = j) as Hmod by (symmetry; apply (Z.mod_unique _ _ i); lia).
    split_and!; [lia|lia|done|done|lia|lia|unfold bbit; by rewrite Hdiv, Hmod|].
    intros k Hk. destruct (decide (k / 32 < i)) as [|Hge]; [apply Hbelow; [lia|done]|].
    assert (k / 32 = i) as Hki by (assert (k / 32 < i + 1) by (apply Z.div_lt_upper_bound; lia); lia).
    unfold bbit. rewrite Hki. apply Ho. pose proof (Z.div_mod k 32). pose proof (Z.mod_pos_bound k 32). lia.
Qed.

(** Writing one bit of a block. *)
Definition put_bit (data : list Z) (n : Z) (b : bool) : list Z :=
  let w := word data (n / 32) in
  set_word data (n / 32)
    (if b then Z.lor w (2 ^ (n mod 32)) else Z.ldiff w (2 ^ (n mod 32))).

Lemma bit_word_range w j (b : bool) : 0 <= w < 2 ^ 32 → 0 <= j < 32 →
  0 <= (if b then Z.lor w (2 ^ j) else Z.ldiff w (2 ^ j)) < 2 ^ 32.
Proof.
  intros Hw Hj. assert (2 ^ j < 2 ^ 32) by (apply Z.pow_lt_mono_r; lia). pose proof (pow2_pos j).
  assert (∀ v, 0 <= v < 2 ^ 32 ↔ v = Z.land v (Z.ones 32)) as Hr.
  { intros v. rewrite Z.land_ones by lia. split; [intros; by rewrite Z.mod_small|].
    intros ->. apply Z.mod_pos_bound. lia. }
  apply Hr. apply Hr in Hw. assert (2 ^ j = Z.land (2 ^ j) (Z.ones 32)) as Hp by (apply Hr; lia).
  apply Z.bits_inj'. intros k Hk.
  apply (f_equal (λ x, Z.testbit x k)) in Hw, Hp. rewrite Z.land_spec in Hw, Hp.
  destruct b; rewrite Z.land_spec, ?Z.lor_spec, ?Z.ldiff_spec;
    destruct (Z.testbit w k), (Z.testbit (2 ^ j) k), (Z.testbit (Z.ones 32) k); done.
Qed.
Lemma block_ok_put_bit data n b : block_ok data → 0 <= n < 8192 → block_ok (put_bit data n b).
Proof.
  intros Hd Hn. apply block_ok_set_word; [done|].
  split; [apply Z.div_pos; lia|apply Z.div_lt_upper_bound; lia].
Qed.
Lemma bbit_put_bit data n b k : block_ok data → 0 <= n < 8192 → 0 <= k < 8192 →
  bbit (put_bit data n b) k = if decide (k = n) then b else bbit data k.
Proof.
  intros Hd Hn Hk.
  assert (∀ x, 0 <= x < 8192 → 0 <= x / 32 < 256) as Hdiv.
  { intros x Hx. split; [apply Z.div_pos; lia|apply Z.div_lt_upper_bound; lia]. }
  pose proof (Z.mod_pos_bound n 32 ltac:(lia)). pose proof (Z.mod_pos_bound k 32 ltac:(lia)).
  pose proof (Z.div_mod n 32 ltac:(lia)). pose proof (Z.div_mod k 32 ltac:(lia)).
  unfold bbit, put_bit.
  rewrite word_set_word by eauto using bit_word_range, word_range. case_decide as Hw.
  - rewrite Hw. destruct b; rewrite ?Z.lor_spec, ?Z.ldiff_spec, Z.pow2_bits_eqb by lia;
      destruct (Z.eqb_spec (n mod 32) (k mod 32)); rewrite ?decide_True, ?decide_False by lia;
      by rewrite ?orb_true_r, ?orb_false_r, ?andb_false_r, ?andb_true_r.
  - by rewrite decide_False by (intros ->; done).
Qed.

(** The number of clear bits among [a, b). *)
Definition free_count (f : Z → bool) (a b : Z) : Z :=
  Z.of_nat (length (filter (λ k, f k = false) (seqZ a (b - a)))).

Lemma free_count_split f a b c : a <= b → b <= c → free_count f a c = free_count f a b + free_count f b c.
Proof.
  intros Hab Hbc. unfold free_count. replace (c - a) with ((b - a) + (c - b)) by lia.
  rewrite seqZ_app, filter_app, length_app by lia. replace (a + (b - a)) with b by lia. lia.
Qed.
Lemma free_count_ext f g a b : (∀ k, a <= k < b → f k = g k) → free_count f a b = free_count g a b.
Proof.
  intros Hfg. unfold free_count. do 2 f_equal.
  assert (∀ k, k ∈ seqZ a (b - a) → f k = g k) as Hin by (intros k Hk%elem_of_seqZ; apply Hfg; lia).
  induction (seqZ a (b - a)) as [|k l IH]; [done|]. rewrite !filter_cons, (Hin k) by left.
  rewrite IH; [done|]. intros j Hj. apply Hin. by right.
Qed.
Lemma free_count_shift f a b d : free_count f (a + d) (b + d) = free_count (λ k, f (k + d)) a b.
Proof.
  unfold free_count. replace (b + d - (a + d)) with (b - a) by lia.
  rewrite (Z.add_comm a d), <-fmap_add_seqZ. f_equal. induction (seqZ a (b - a)) as [|k l IH]; [done|].
  rewrite fmap_cons, !filter_cons, (Z.add_comm d k). case_decide; simpl; by rewrite IH.
Qed.
Lemma free_count_empty f a b : b <= a → free_count f a b = 0.
Proof. intros Hab. unfold free_count. by rewrite seqZ_nil by lia. Qed.
Lemma free_count_cons f a b : a < b → free_count f a b = (if f a then 0 else 1) + free_count f (a + 1) b.
Proof.
  intros Hab. rewrite (free_count_split f a (a + 1)) by lia. f_equal. unfold free_count.
  replace (a + 1 - a) with (Z.succ 0) by lia. rewrite seqZ_cons by lia. rewrite seqZ_nil by done.
  rewrite filter_cons. case_decide as Hf; simpl.
  - by rewrite Hf.
  - by destruct (f a).
Qed.

Lemma count_zeros_spec n val i count : 0 <= i →
  count_zeros n val i count = count + free_count (Z.testbit val) i (i + Z.of_nat n).
Proof.
  revert i count. induction n as [|n IH]; intros i count Hi; simpl count_zeros.
  - rewrite free_count_empty by lia. lia.
  - rewrite IH by lia. rewrite (free_count_cons _ i) by lia.
    replace (i + 1 + Z.of_nat n) with (i + Z.of_nat (S n)) by lia.
    change 1 with (2 ^ 0) at 1. rewrite land_pow2_testbit, Z.shiftr_spec, Z.add_0_l by lia.
    destruct (Z.testbit val i); simpl; lia.
Qed.
Lemma get_zero_bits_spec val n : 0 <= n <= 32 → get_zero_bits val n = free_count (Z.testbit val) 0 n.
Proof.
  intros Hn. unfold get_zero_bits. rewrite (proj2 (Z.ltb_ge _ _)) by lia.
  rewrite count_zeros_spec by lia. by rewrite Z2Nat.id, !Z.add_0_l by lia.
Qed.

Section super.
Context {S PS : Type} `{BlockStore S}.
Notation fs := (fs_state S PS).

(** [bread] as the file system calls it. *)
Definition fs_bread (dev blk : Z) : M fs (option (list Z)) := gets (λ s, bread dev blk (dsk s)).
(** The buffer is changed, marked dirty and released. *)
Definition fs_bwrite (dev blk : Z) (data : list Z) : M fs unit :=
  modify (upd_dsk (set_block dev blk data)).

Definition init_super_loop (n : nat) (s : fs) : fs :=
  foldr (λ i, upd_sblk (Z.of_nat i) (λ _, set_s_count 0 (set_s_dev NODEV null_sb))) s (seq 0 n).
Definition init_super : fs → fs := init_super_loop 10.

(** The lock around the bitmaps; a process that finds it taken sleeps. *)
Definition lock_bitop (sp : Z) : M fs unit :=
  p ← gets (λ s, sb_at s sp);
  if has (s_flags p) LOCK_BITOP then
    modify (upd_sblk sp (λ p, set_s_flags (Z.lor (s_flags p) WANT_BITOP) p));;
    sleepon
  else modify (upd_sblk sp (λ p, set_s_flags (Z.lor (s_flags p) LOCK_BITOP) p)).
Definition clear_flag (f : Z) (p : super_block) : super_block :=
  set_s_flags (Z.land (s_flags p) (u16 (Z.lnot f))) p.
Definition unlock_bitop (sp : Z) : M fs unit :=
  modify (upd_sblk sp (clear_flag LOCK_BITOP));;
  p ← gets (λ s, sb_at s sp);
  when (has (s_flags p) WANT_BITOP) (modify (upd_sblk sp (clear_flag WANT_BITOP))).

(** [while(block < bit_blocks)] *)
Fixpoint scan_map (fuel : nat) (sp which from_block bit_blocks max_bit blk : Z) : M fs Z :=
  if blk <? bit_blocks then
    match fuel with
    | O => die
    | Datatypes.S fuel =>
        p ← gets (λ s, sb_at s sp);
        bh ← fs_bread (s_dev p) (from_block + blk);
        match bh with
        | None => mret NOBIT
        | Some data =>
            let i := find_word 256 0 data in
            if WORDS_PER_BLOCK <=? i then
              scan_map fuel sp which from_block bit_blocks max_bit (blk + 1)
            else
              let w := word data i in
              let j := first_zero 32 0 w in
              let bit := blk * BITS_PER_BLOCK + i * u32bits + j in
              if max_bit <? bit then mret NOBIT
              else
                fs_bwrite (s_dev p) (from_block + blk) (set_word data i (u32 (Z.lor w (Z.shiftl 1 j))));;
                if which =? IMAP then
                  modify (upd_sblk sp (set_s_isearch (bit + 1)));;
                  mret bit
                else
                  modify (upd_sblk sp (set_s_zsearch (bit + 1)));;
                  mret (bit + (s_fdzone p - 1))
        end
    end
  else mret NOBIT.

Definition bitalloc (sp : option Z) (which : Z) : M fs Z :=
  sp ← from_opt sp;
  p ← gets (λ s, sb_at s sp);
  die_if (s_dev p =? NODEV);;
  if truth (s_roflag p) then mret NOBIT
  else
    lock_bitop sp;;
    let max_bit := if which =? IMAP then s_ninodes p else u32 (s_zones p - s_fdzone p) in
    let from_block := if which =? IMAP then SUPER_BLOCK + 1 else SUPER_BLOCK + 1 + s_imblocks p in
    let from_bit := if which =? IMAP then s_isearch p else s_zsearch p in
    let bit_blocks := u32 (if which =? IMAP then s_imblocks p else s_zmblocks p) in
    let from_bit := if max_bit <? from_bit then 1 else from_bit in
    bit ← scan_map (Z.to_nat bit_blocks) sp which from_block bit_blocks max_bit (from_bit / BITS_PER_BLOCK);
    unlock_bitop sp;;
    mret bit.

Definition bitfree (sp : option Z) (bit which : Z) : M fs unit :=
  sp ← from_opt sp;
  p ← gets (λ s, sb_at s sp);
  die_if (s_dev p =? NODEV);;
  if truth (s_roflag p) then mret tt
  else
    let from_block := if which =? IMAP then SUPER_BLOCK + 1 else SUPER_BLOCK + 1 + s_imblocks p in
    let max_bit := u32 (if which =? IMAP then s_ninodes p - 1 else s_zones p - s_fdzone p - 1) in
    let bit := if which =? IMAP then bit else u32 (bit - (s_fdzone p - 1)) in
    if max_bit <? bit then mret tt
    else
      lock_bitop sp;;
      let blk := bit / BITS_PER_BLOCK in
      bh ← fs_bread (s_dev p) (from_block + blk);
      match bh with
      | None => unlock_bitop sp
      | Some data =>
          let bit := bit mod BITS_PER_BLOCK in
          let i := bit / u32bits in
          let w := Z.land (word data i) (u32 (Z.lnot (Z.shiftl 1 (bit mod u32bits)))) in
          fs_bwrite (s_dev p) (from_block + blk) (set_word data i w);;
          (if which =? IMAP then
             when (bit <? s_isearch p) (modify (upd_sblk sp (set_s_isearch bit)))
           else when (bit <? s_zsearch p) (modify (upd_sblk sp (set_s_zsearch bit))));;
          unlock_bitop sp
      end.

Definition sfree (sp : Z) : fs → fs := upd_sblk sp (λ p, set_s_count (s_count p - 1) p).

(** The inner loop of [get_free_bits_nr] over the words of a block. *)
Fixpoint count_words (n : nat) (i bit max count : Z) (data : list Z) : Z * Z :=
  match n with
  | O => (bit, count)
  | Datatypes.S n =>
      if max <? bit then (bit, count)
      else
        let bit_num := if max <? bit + 32 then max - bit + 1 else 32 in
        count_words n (i + 1) (bit + bit_num) max (count + get_zero_bits (word data i) bit_num) data
  end.
Fixpoint count_blocks (fuel : nat) (dev from_block max_block max blk bit count : Z) : M fs (Z * Z) :=
  if blk <? max_block then
    match fuel with
    | O => die
    | Datatypes.S fuel =>
        bh ← fs_bread dev (from_block + blk);
        match bh with
        | None => mret (- EIO, count)
        | Some data =>
            let r := count_words 256 0 bit max count data in
            if max <? r.1 then mret (0, r.2)
            else count_blocks fuel dev from_block max_block max (blk + 1) r.1 r.2
        end
    end
  else mret (0, count).
(** The error and the count stored through [pcount]. *)
Definition get_free_bits_nr (sp which : Z) : M fs (Z * Z) :=
  lock_bitop sp;;
  p ← gets (λ s, sb_at s sp);
  let max_bit_index := if which =? ZMAP then s32 (s_zones p - s_fdzone p) else s_ninodes p in
  let from_block := if which =? ZMAP then SUPER_BLOCK + 1 + s_imblocks p else SUPER_BLOCK + 1 in
  let max_block := if which =? ZMAP then s_zmblocks p else s_imblocks p in
  r ← count_blocks (Z.to_nat max_block) (s_dev p) from_block max_block max_bit_index 0 0 0;
  unlock_bitop sp;;
  mret r.

(** ** [sread] and [get_sb] *)

Definition s16 (z : Z) : Z := (z + 2 ^ 15) mod 2 ^ 16 - 2 ^ 15.

(** [memcpy(tmp, bh->b_data, SUPER_SIZE)]: the fields before [s_rooti]. *)
Definition super_from_disk (d : list Z) (p : super_block) : super_block :=
  SuperBlock (load 2 0 d) (load 2 2 d) (s16 (load 2 4 d)) (s16 (load 2 6 d)) (load 2 8 d)
    (s16 (load 2 10 d)) (s32 (load 4 12 d)) (s16 (load 2 16 d)) (s16 (load 2 18 d)) (load 4 20 d)
    (s_rooti p) (s_mounti p) (s_count p) (s_flags p) (s_dev p) (s_roflag p) (s_isearch p)
    (s_zsearch p) (s_version p) (s_ipblock p) (s_ndzones p) (s_nindirs p).

(** The loop over the table: the entry of [dev], or the first unused one. *)
Fixpoint find_sb (l : list super_block) (i dev : Z) (tmp : option Z) : (Z * super_block) + option Z :=
  match l with
  | [] => inr tmp
  | p :: l =>
      if s_dev p =? dev then inl (i, p)
      else find_sb l (i + 1) dev (if bool_decide (tmp = None) && (s_count p =? 0) then Some i else tmp)
  end.

Definition unlock_s (i : Z) : M fs unit :=
  modify (upd_sblk i (clear_flag LOCK_S));;
  p ← gets (λ s, sb_at s i);
  when (has (s_flags p) WANT_S) (modify (upd_sblk i (clear_flag WANT_S))).

Definition sread (dev : Z) : M fs (option Z) :=
  found ← gets (λ s, find_sb (sb s) 0 dev None);
  match found with
  | inl (i, p) =>
      if has (s_flags p) LOCK_S then
        modify (upd_sblk i (λ p, set_s_flags (Z.lor (s_flags p) WANT_S) p));;
        sleepon
      else mret (Some i)
  | inr None => mret None
  | inr (Some i) =>
      modify (upd_sblk i (λ p,
        set_s_flags LOCK_S (set_s_zsearch 0 (set_s_isearch 0 (set_s_roflag 0
          (set_s_nindirs NR_INDIRECTS (set_s_ndzones NR_DZONES (set_s_ipblock INODES_PER_BLOCK
            (set_s_version LM_MAGIC (set_s_dev dev (set_s_count 1
              (set_s_mounti None (set_s_rooti None p)))))))))))));;
      bh ← fs_bread dev SUPER_BLOCK;
      match bh with
      | None =>
          modify (upd_sblk i (set_s_dev NODEV));;
          unlock_s i;;
          mret None
      | Some data =>
          modify (upd_sblk i (super_from_disk data));;
          p ← gets (λ s, sb_at s i);
          if negb (s_magic p =? LM_MAGIC)
             || ((s_imblocks p <? 1) || (s_zmblocks p <? 1) || (s_ninodes p <? 1)
                 || (s_zones p <? 1) || negb (s_lzsize p =? 0))
          then
            modify (upd_sblk i (set_s_dev NODEV));;
            unlock_s i;;
            mret None
          else
            unlock_s i;;
            mret (Some i)
      end
  end.

Fixpoint get_sb_loop (l : list super_block) (i dev : Z) : option Z :=
  match l with
  | [] => None
  | p :: l => if s_dev p =? dev then Some i else get_sb_loop l (i + 1) dev
  end.
Definition get_sb (dev : Z) (s : fs) : option Z :=
  if dev =? NODEV then None else get_sb_loop (sb s) 0 dev.
End super.

(** ** The bitmaps of a file system *)

Section bitmap.
Context {S PS : Type} `{BlockLaws S}.
Notation fs := (fs_state S PS).

Definition map_base (which : Z) (p : super_block) : Z :=
  if which =? IMAP then SUPER_BLOCK + 1 else SUPER_BLOCK + 1 + s_imblocks p.
Definition map_max (which : Z) (p : super_block) : Z :=
  if which =? IMAP then s_ninodes p else s_zones p - s_fdzone p.
Definition map_len (which : Z) (p : super_block) : Z :=
  if which =? IMAP then s_imblocks p else s_zmblocks p.
Definition map_hint (which : Z) (p : super_block) : Z :=
  if which =? IMAP then s_isearch p else s_zsearch p.
Definition set_hint (which v : Z) (p : super_block) : super_block :=
  if which =? IMAP then set_s_isearch v p else set_s_zsearch v p.
(** The number of a bit as callers know it: an inode or a zone. *)
Definition bit_number (which : Z) (p : super_block) (n : Z) : Z :=
  if which =? IMAP then n else n + (s_fdzone p - 1).

Definition mapbit (which sp : Z) (s : fs) (n : Z) : bool :=
  let p := sb_at s sp in
  bbit (block_at (dsk s) (s_dev p) (map_base which p + n / 8192)) (n mod 8192).

Record bitmap_ok (which sp : Z) (s : fs) : Prop := {
  bm_slot : 0 <= sp < zlen (sb s);
  bm_dev : s_dev (sb_at s sp) ≠ NODEV;
  bm_rw : s_roflag (sb_at s sp) = 0;
  bm_unlocked : has (s_flags (sb_at s sp)) LOCK_BITOP = false;
  bm_zones : 1 <= s_fdzone (sb_at s sp) ∧ 0 <= s_zones (sb_at s sp) < 2 ^ 31;
  bm_len : 0 <= map_len which (sb_at s sp) < 2 ^ 15;
  bm_max : 0 <= map_max which (sb_at s sp) < 8192 * map_len which (sb_at s sp);
  bm_blocks b : 0 <= b < map_len which (sb_at s sp) →
    readable (dsk s) (s_dev (sb_at s sp)) (map_base which (sb_at s sp) + b) = true ∧
    block_ok (block_at (dsk s) (s_dev (sb_at s sp)) (map_base which (sb_at s sp) + b));
  bm_zero : mapbit which sp s 0 = true;
  bm_hint : 0 <= map_hint which (sb_at s sp) ∧
    ∀ n, 0 <= n → n / 8192 < map_hint which (sb_at s sp) / 8192 →
      n <= map_max which (sb_at s sp) → mapbit which sp s n = true;
}.

(** Whether [n] is the free bit with the smallest number. *)
Definition first_free (which sp : Z) (s : fs) (n : Z) : Prop :=
  0 <= n <= map_max which (sb_at s sp) ∧ mapbit which sp s n = false ∧
  ∀ k, 0 <= k < n → mapbit which sp s k = true.

(** The flags after a bitmap operation. *)
Definition unlocked_flags (f : Z) : Z :=
  let f := Z.land (Z.lor f LOCK_BITOP) (u16 (Z.lnot LOCK_BITOP)) in
  if has f WANT_BITOP then Z.land f (u16 (Z.lnot WANT_BITOP)) else f.

(** The state with bit [n] of the map written and the hint set. *)
Definition write_bit (which sp n : Z) (b : bool) (h : Z) (s : fs) : fs :=
  let p := sb_at s sp in
  let blk := map_base which p + n / 8192 in
  upd_sblk sp (λ p, set_s_flags (unlocked_flags (s_flags p)) (set_hint which h p))
    (upd_dsk (set_block (s_dev p) blk (put_bit (block_at (dsk s) (s_dev p) blk) (n mod 8192) b)) s).

Lemma set_hint_proj which h f p :
  let q := set_s_flags f (set_hint which h p) in
  s_dev q = s_dev p ∧ s_roflag q = s_roflag p ∧ s_flags q = f ∧ s_fdzone q = s_fdzone p ∧
  s_zones q = s_zones p ∧ map_hint which q = h ∧
  ∀ w, map_base w q = map_base w p ∧ map_max w q = map_max w p ∧ map_len w q = map_len w p.
Proof. unfold map_hint, set_hint. destruct (which =? IMAP) eqn:E; simpl; by rewrite ?E. Qed.

Lemma unlocked_flags_unlocked f : has (unlocked_flags f) LOCK_BITOP = false.
Proof.
  unfold unlocked_flags, has. apply truth_false.
  assert (∀ x, Z.land (Z.land x (u16 (Z.lnot LOCK_BITOP))) LOCK_BITOP = 0) as Hx.
  { intros x. rewrite <-Z.land_assoc. change (Z.land (u16 _) _) with 0. apply Z.land_0_r. }
  destruct (truth _); [|apply Hx].
  rewrite <-Z.land_assoc, (Z.land_comm (u16 _)), Z.land_assoc, Hx. apply Z.land_0_l.
Qed.

Lemma mapbit_write which sp n b h s k : bitmap_ok which sp s →
  0 <= n <= map_max which (sb_at s sp) → 0 <= k <= map_max which (sb_at s sp) →
  mapbit which sp (write_bit which sp n b h s) k = if decide (k = n) then b else mapbit which sp s k.
Proof.
  intros Hs Hn Hk. unfold mapbit, write_bit.
  rewrite sb_at_upd_sblk by apply (bm_slot _ _ _ Hs). rewrite decide_True by done.
  change (sb_at (upd_dsk _ s) sp) with (sb_at s sp).
  set (p := sb_at s sp) in *.
  destruct (set_hint_proj which h (unlocked_flags (s_flags p)) p) as (-> & _ & _ & _ & _ & _ & Hq).
  destruct (Hq which) as (-> & _ & _). simpl. rewrite block_set.
  pose proof (Z.div_mod n 8192 ltac:(lia)). pose proof (Z.div_mod k 8192 ltac:(lia)).
  pose proof (Z.mod_pos_bound n 8192 ltac:(lia)). pose proof (Z.mod_pos_bound k 8192 ltac:(lia)).
  pose proof (bm_max _ _ _ Hs) as Hmax. fold p in Hmax.
  case_decide as Hc.
  - assert (n / 8192 = k / 8192) as Hd by lia. rewrite Hd.
    rewrite bbit_put_bit; [repeat case_decide; try lia; done| |done|done].
    apply (bm_blocks _ _ _ Hs). fold p. split; [apply Z.div_pos; lia|apply Z.div_lt_upper_bound; lia].
  - rewrite decide_False; [done|]. intros ->. by apply Hc.
Qed.

Lemma div_8192_lt which sp s n : bitmap_ok which sp s → 0 <= n <= map_max which (sb_at s sp) →
  0 <= n / 8192 < map_len which (sb_at s sp).
Proof.
  intros Hs Hn. pose proof (bm_max _ _ _ Hs).
  split; [apply Z.div_pos; lia|apply Z.div_lt_upper_bound; lia].
Qed.

Lemma sb_at_write_bit which sp n b h s : bitmap_ok which sp s →
  sb_at (write_bit which sp n b h s) sp =
  set_s_flags (unlocked_flags (s_flags (sb_at s sp))) (set_hint which h (sb_at s sp)).
Proof.
  intros Hs. unfold write_bit. rewrite sb_at_upd_sblk by apply (bm_slot _ _ _ Hs). by rewrite decide_True.
Qed.

(** What a written bit leaves of the invariant. *)
Lemma write_bit_ok which sp n b h s : bitmap_ok which sp s → 0 <= n <= map_max which (sb_at s sp) →
  (n = 0 → b = true) → 0 <= h →
  (∀ k, 0 <= k → k / 8192 < h / 8192 → k <= map_max which (sb_at s sp) →
    mapbit which sp (write_bit which sp n b h s) k = true) →
  bitmap_ok which sp (write_bit which sp n b h s).
Proof.
  intros Hs Hn Hz0 Hh Hhint. pose proof (mapbit_write which sp n b h s) as Hbit.
  pose proof (sb_at_write_bit which sp n b h s Hs) as He.
  set (p := sb_at s sp) in *. destruct (set_hint_proj which h (unlocked_flags (s_flags p)) p)
    as (Hdev & Hro & Hfl & Hfd & Hz & Hh' & Hq). destruct (Hq which) as (Hb & Hm & Hl).
  split; rewrite ?He, ?Hdev, ?Hro, ?Hfl, ?Hfd, ?Hz, ?Hh', ?Hb, ?Hm, ?Hl.
  - unfold write_bit, upd_sblk. simpl. rewrite zlen_zalter. apply (bm_slot _ _ _ Hs).
  - apply (bm_dev _ _ _ Hs).
  - apply (bm_rw _ _ _ Hs).
  - apply unlocked_flags_unlocked.
  - apply (bm_zones _ _ _ Hs).
  - apply (bm_len _ _ _ Hs).
  - apply (bm_max _ _ _ Hs).
  - intros c Hc. destruct (bm_blocks _ _ _ Hs c Hc) as [Hr Hok]. fold p in Hr, Hok.
    unfold write_bit. simpl. rewrite readable_set, block_set. split; [done|].
    case_decide; [|done]. apply block_ok_put_bit; [|apply Z.mod_pos_bound; lia].
    apply (bm_blocks _ _ _ Hs). by apply div_8192_lt.
  - pose proof (bm_max _ _ _ Hs) as Hmax. fold p in Hmax. rewrite Hbit by (done || lia).
    case_decide; [by apply Hz0|apply (bm_zero _ _ _ Hs)].
  - split; [done|]. intros k Hk Hlt Hle. by apply Hhint.
Qed.

(** The other map of the file system is not touched. *)
Lemma mapbit_write_other which which' sp n b h s k :
  which = IMAP ∧ which' = ZMAP ∨ which = ZMAP ∧ which' = IMAP →
  bitmap_ok which sp s → bitmap_ok which' sp s →
  0 <= n <= map_max which (sb_at s sp) → 0 <= k <= map_max which' (sb_at s sp) →
  mapbit which' sp (write_bit which sp n b h s) k = mapbit which' sp s k.
Proof.
  intros Hw Hs Hs' Hn Hk. pose proof (div_8192_lt _ _ _ _ Hs Hn) as Hdn.
  pose proof (div_8192_lt _ _ _ _ Hs' Hk) as Hdk.
  unfold mapbit, write_bit. rewrite sb_at_upd_sblk by apply (bm_slot _ _ _ Hs).
  rewrite decide_True by done. change (sb_at (upd_dsk _ s) sp) with (sb_at s sp).
  set (p := sb_at s sp) in *.
  destruct (set_hint_proj which h (unlocked_flags (s_flags p)) p) as (-> & _ & _ & _ & _ & _ & Hq).
  destruct (Hq which') as (-> & _ & _). simpl. rewrite block_set, decide_False; [done|].
  intros [_ He]. destruct Hw as [[-> ->]|[-> ->]]; unfold map_base, map_len in *; simpl in *; lia.
Qed.

(** ** Searching a map *)

Lemma set_word_put_bit data i j n : block_ok data → 0 <= i < 256 → n / 32 = i → n mod 32 = j →
  set_word data i (u32 (Z.lor (word data i) (Z.shiftl 1 j))) = put_bit data n true.
Proof.
  intros Hd Hi <- <-. unfold put_bit. rewrite Z.shiftl_1_l, u32_small; [done|].
  apply (bit_word_range _ _ true); [by apply word_range|apply Z.mod_pos_bound; lia].
Qed.

Lemma bits_full_below which sp s blk : (∀ k, 0 <= k < 8192 * blk → mapbit which sp s k = true) →
  (∀ k, 0 <= k < 8192 → bbit (block_at (dsk s) (s_dev (sb_at s sp)) (map_base which (sb_at s sp) + blk)) k = true) →
  ∀ k, 0 <= k < 8192 * (blk + 1) → mapbit which sp s k = true.
Proof.
  intros Hb Hf k Hk. destruct (decide (k < 8192 * blk)) as [|Hge]; [apply Hb; lia|].
  assert (k / 8192 = blk) as Hd by (symmetry; apply (Z.div_unique _ _ _ (k - 8192 * blk)); lia).
  unfold mapbit. rewrite Hd. apply Hf. apply Z.mod_pos_bound. lia.
Qed.

(** What the search leaves: the bit set and the hint moved. *)
Definition take_bit (which sp n : Z) (s : fs) : fs :=
  let p := sb_at s sp in
  let blk := map_base which p + n / 8192 in
  upd_sblk sp (set_hint which (n + 1))
    (upd_dsk (set_block (s_dev p) blk (put_bit (block_at (dsk s) (s_dev p) blk) (n mod 8192) true)) s).

Lemma scan_map_spec which sp s fuel blk :
  let p := sb_at s sp in
  (∀ b, 0 <= b < map_len which p → readable (dsk s) (s_dev p) (map_base which p + b) = true ∧
    block_ok (block_at (dsk s) (s_dev p) (map_base which p + b))) →
  map_max which p < 8192 * map_len which p → 0 <= blk <= map_len which p →
  (Z.to_nat (map_len which p - blk) <= fuel)%nat →
  (∀ k, 0 <= k < 8192 * blk → mapbit which sp s k = true) →
  let r := scan_map fuel sp which (map_base which p) (map_len which p) (map_max which p) blk s in
  (r = Ret NOBIT s ∧ ∀ k, 0 <= k <= map_max which p → mapbit which sp s k = true) ∨
  (∃ n, first_free which sp s n ∧ r = Ret (bit_number which p n) (take_bit which sp n s)).
Proof.
  intros p Hblocks Hmax. revert blk. induction fuel as [|fuel IH]; intros blk Hblk Hfuel Hbelow.
  - simpl. destruct (Z.ltb_spec blk (map_len which p)); [lia|]. left. split; [done|].
    intros k Hk. apply Hbelow. lia.
  - cbn [scan_map]. destruct (Z.ltb_spec blk (map_len which p)) as [Hlt|Hge].
    2:{ left. split; [done|]. intros k Hk. apply Hbelow. lia. }
    rewrite bind_gets. fold p. unfold fs_bread. rewrite bind_gets. unfold bread.
    destruct (Hblocks blk ltac:(lia)) as [Hr Hok]. rewrite Hr.
    set (data := block_at (dsk s) (s_dev p) (map_base which p + blk)) in *. cbv zeta.
    destruct (block_scan data Hok) as [(Hi & Hfull)|(Hi & Hn32 & Hnm & Hn & Hfree & Hlow)].
    { unfold WORDS_PER_BLOCK. rewrite (proj2 (Z.leb_le _ _) Hi). apply IH; [lia|lia|].
      apply (bits_full_below which sp s blk Hbelow Hfull). }
    unfold WORDS_PER_BLOCK. rewrite (proj2 (Z.leb_gt _ _)) by lia.
    set (i := find_word 256 0 data) in *. set (n := block_free data) in *.
    rewrite <-Hnm. unfold u32bits, BITS_PER_BLOCK.
    assert (blk * 8192 + i * 32 + n mod 32 = 8192 * blk + n) as ->
      by (pose proof (Z.div_mod n 32); lia).
    assert ((8192 * blk + n) / 8192 = blk) as Hd by (symmetry; apply (Z.div_unique _ _ _ n); lia).
    assert ((8192 * blk + n) mod 8192 = n) as Hm by (symmetry; apply (Z.mod_unique _ _ blk); lia).
    assert (∀ k, 0 <= k < 8192 * blk + n → mapbit which sp s k = true) as Hall.
    { intros k Hk. destruct (decide (k < 8192 * blk)) as [|Hge]; [apply Hbelow; lia|].
      unfold mapbit. fold p. rewrite <-(Z.div_unique k 8192 blk (k - 8192 * blk)) by lia. fold data.
      rewrite <-(Z.mod_unique k 8192 blk (k - 8192 * blk)) by lia. apply Hlow. lia. }
    destruct (Z.ltb_spec (map_max which p) (8192 * blk + n)) as [Hgt|Hle].
    { left. split; [done|]. intros k Hk. apply Hall. lia. }
    right. exists (8192 * blk + n). split.
    { split_and!; [pose proof (Z.mod_pos_bound n 32); lia|done| |done].
      unfold mapbit. fold p. rewrite Hd, Hm. done. }
    unfold fs_bwrite. rewrite bind_modify. rewrite (set_word_put_bit data i _ n) by done.
    unfold take_bit, bit_number, set_hint. fold p. rewrite Hd, Hm. fold data.
    destruct (which =? IMAP); reflexivity.
Qed.

(** ** Locking *)

Definition locked (sp : Z) : fs → fs :=
  upd_sblk sp (λ p, set_s_flags (Z.lor (s_flags p) LOCK_BITOP) p).
Definition drop_lock (f : Z) : Z :=
  let f := Z.land f (u16 (Z.lnot LOCK_BITOP)) in
  if has f WANT_BITOP then Z.land f (u16 (Z.lnot WANT_BITOP)) else f.

Lemma lock_bitop_eq sp (s : fs) : has (s_flags (sb_at s sp)) LOCK_BITOP = false →
  lock_bitop sp s = Ret tt (locked sp s).
Proof. intros Hf. unfold lock_bitop. rewrite bind_gets, Hf. done. Qed.
Lemma unlock_bitop_eq sp (s : fs) : 0 <= sp < zlen (sb s) →
  unlock_bitop sp s = Ret tt (upd_sblk sp (λ p, set_s_flags (drop_lock (s_flags p)) p) s).
Proof.
  intros Hsp. unfold unlock_bitop. rewrite bind_modify, bind_gets.
  rewrite sb_at_upd_sblk, decide_True by done. unfold drop_lock, clear_flag.
  pose proof Hsp as [p Hp]%zget_is_Some.
  assert (sb_at s sp = p) as -> by (unfold sb_at; by rewrite Hp). cbn [s_flags set_s_flags].
  destruct (has _ WANT_BITOP) eqn:Hw; unfold when; unfold modify; [rewrite upd_sblk_upd_sblk|];
    cbn; unfold mret, M_ret; f_equal; apply upd_sblk_ext; intros q Hq; simplify_eq;
    by rewrite Hw.
Qed.

Lemma locked_at sp s : 0 <= sp < zlen (sb s) →
  sb_at (locked sp s) sp = set_s_flags (Z.lor (s_flags (sb_at s sp)) LOCK_BITOP) (sb_at s sp).
Proof. intros Hsp. unfold locked. by rewrite sb_at_upd_sblk, decide_True. Qed.
Lemma mapbit_locked which sp s k : 0 <= sp < zlen (sb s) →
  mapbit which sp (locked sp s) k = mapbit which sp s k.
Proof. intros Hsp. unfold mapbit. by rewrite locked_at. Qed.

Lemma take_bit_unlocked which sp n s : 0 <= sp < zlen (sb s) →
  upd_sblk sp (λ p, set_s_flags (drop_lock (s_flags p)) p) (take_bit which sp n (locked sp s)) =
  write_bit which sp n true (n + 1) s.
Proof.
  intros Hsp. unfold take_bit, write_bit. rewrite locked_at by done.
  set (p := sb_at s sp). change (map_base which (set_s_flags _ p)) with (map_base which p).
  change (s_dev (set_s_flags _ p)) with (s_dev p). rewrite upd_sblk_upd_sblk.
  unfold locked, upd_sblk, upd_sb, upd_dsk. simpl. f_equal. rewrite zalter_zalter.
  apply zalter_ext. intros q _. unfold set_hint, unlocked_flags. destruct (which =? IMAP); done.
Qed.

Lemma bitalloc_unfold which sp s : bitmap_ok which sp s → which = IMAP ∨ which = ZMAP →
  let p := sb_at s sp in
  let h := if map_max which p <? map_hint which p then 1 else map_hint which p in
  bitalloc (Some sp) which s =
  (bit ← scan_map (Z.to_nat (map_len which p)) sp which (map_base which p) (map_len which p)
     (map_max which p) (h / 8192); unlock_bitop sp;; mret bit) (locked sp s).
Proof.
  intros Hs Hw p h. unfold bitalloc, from_opt. rewrite bind_mret_l, bind_gets. fold p.
  assert (s_dev p =? NODEV = false) as -> by (apply Z.eqb_neq, (bm_dev _ _ _ Hs)).
  unfold die_if. rewrite bind_mret_l.
  assert (truth (s_roflag p) = false) as -> by (apply truth_false, (bm_rw _ _ _ Hs)).
  rewrite (bind_eval _ _ _ _ _ (lock_bitop_eq sp s (bm_unlocked _ _ _ Hs))).
  pose proof (bm_max _ _ _ Hs) as Hm. pose proof (bm_len _ _ _ Hs) as Hl.
  pose proof (bm_zones _ _ _ Hs) as Hz. fold p in Hm, Hl, Hz. unfold h. cbv zeta.
  unfold map_max, map_len, map_hint, map_base, BITS_PER_BLOCK in *.
  destruct Hw as [-> | ->]; cbn [Z.eqb IMAP ZMAP Pos.eqb] in *; rewrite !u32_small by lia; done.
Qed.

Lemma zlen_locked sp s : zlen (sb (locked sp s)) = zlen (sb s).
Proof. apply zlen_zalter. Qed.
Lemma zlen_take_bit which sp n s : zlen (sb (take_bit which sp n (locked sp s))) = zlen (sb s).
Proof. unfold take_bit, upd_sblk, locked. simpl. by rewrite !zlen_zalter. Qed.

Lemma first_free_pos which sp s n : bitmap_ok which sp s → first_free which sp s n → 1 <= n.
Proof.
  intros Hs (Hn & Hf & _). destruct (decide (n = 0)) as [->|]; [|lia].
  by rewrite (bm_zero _ _ _ Hs) in Hf.
Qed.

(** The search from the hint, in the locked state. *)
Lemma scan_locked which sp s : bitmap_ok which sp s →
  let p := sb_at s sp in
  let h := if map_max which p <? map_hint which p then 1 else map_hint which p in
  let r := scan_map (Z.to_nat (map_len which p)) sp which (map_base which p) (map_len which p)
     (map_max which p) (h / 8192) (locked sp s) in
  (r = Ret NOBIT (locked sp s) ∧ ∀ k, 0 <= k <= map_max which p → mapbit which sp s k = true) ∨
  (∃ n, first_free which sp s n ∧ r = Ret (bit_number which p n) (take_bit which sp n (locked sp s))).
Proof.
  intros Hs p h. pose proof (bm_slot _ _ _ Hs) as Hsp. pose proof (bm_max _ _ _ Hs) as Hm.
  destruct (bm_hint _ _ _ Hs) as [Hh0 Hh]. fold p in Hm, Hh0, Hh.
  assert (0 <= h <= Z.max 1 (map_max which p)) as Hhr by (unfold h; destruct (Z.ltb_spec (map_max which p) (map_hint which p)); lia).
  assert (h / 8192 <= map_len which p).
  { assert (h / 8192 < map_len which p + 1); [|lia]. apply Z.div_lt_upper_bound; lia. }
  assert (∀ k, 0 <= k < 8192 * (h / 8192) → mapbit which sp s k = true) as Hbelow.
  { intros k Hk. assert (k / 8192 < h / 8192) as Hd by (apply Z.div_lt_upper_bound; lia).
    unfold h in *. destruct (Z.ltb_spec (map_max which p) (map_hint which p)).
    - change (1 / 8192) with 0 in *. lia.
    - apply Hh; [lia|done|]. pose proof (Z.mul_div_le (map_hint which p) 8192). lia. }
  pose proof (scan_map_spec which sp (locked sp s) (Z.to_nat (map_len which p)) (h / 8192)) as Hscan.
  cbv zeta in Hscan. rewrite locked_at in Hscan by done. fold p in Hscan.
  destruct Hscan as [[Hr Hall]|(n & Hn & Hr)].
  - apply (bm_blocks _ _ _ Hs).
  - apply Hm.
  - split; [apply Z.div_pos; lia|done].
  - assert (0 <= h / 8192) by (apply Z.div_pos; lia).
    change (map_len which (set_s_flags _ p)) with (map_len which p). lia.
  - intros k Hk. rewrite mapbit_locked by done. by apply Hbelow.
  - left. split; [exact Hr|]. intros k Hk. rewrite <-mapbit_locked by done. by apply Hall.
  - right. exists n. split; [|exact Hr]. destruct Hn as (Hn & Hf & Hlow).
    rewrite locked_at in Hn by done. rewrite mapbit_locked in Hf by done.
    split_and!; [apply Hn|apply Hn|done|]. intros k Hk. rewrite <-mapbit_locked by done. by apply Hlow.
Qed.

Lemma take_bit_ok which sp n s : bitmap_ok which sp s → first_free which sp s n →
  bitmap_ok which sp (write_bit which sp n true (n + 1) s).
Proof.
  intros Hs Hn. pose proof (first_free_pos which sp s n Hs Hn). destruct Hn as (Hr & Hfree & Hlow).
  apply write_bit_ok; [done|done|lia|lia|]. intros k Hk Hd Hle. rewrite mapbit_write by lia || done.
  case_decide; [done|]. apply Hlow. split; [lia|].
  destruct (decide (k < n)); [done|].
  assert ((n + 1) / 8192 <= k / 8192) by (apply Z.div_le_mono; lia). lia.
Qed.
Lemma bitalloc_cases which sp s : bitmap_ok which sp s → which = IMAP ∨ which = ZMAP →
  (bitalloc (Some sp) which s =
     Ret NOBIT (upd_sblk sp (λ p, set_s_flags (unlocked_flags (s_flags p)) p) s) ∧
   ∀ k, 0 <= k <= map_max which (sb_at s sp) → mapbit which sp s k = true) ∨
  (∃ n, first_free which sp s n ∧ 1 <= n ∧
    bitalloc (Some sp) which s =
      Ret (bit_number which (sb_at s sp) n) (write_bit which sp n true (n + 1) s) ∧
    bitmap_ok which sp (write_bit which sp n true (n + 1) s)).
Proof.
  intros Hs Hw. pose proof (bm_slot _ _ _ Hs) as Hsp. rewrite bitalloc_unfold by done.
  destruct (scan_locked which sp s Hs) as [(Hr & Hall)|(n & Hn & Hr)]; rewrite (bind_eval _ _ _ _ _ Hr).
  - left. split; [|done]. rewrite (bind_eval _ _ _ _ _ (unlock_bitop_eq sp (locked sp s) ltac:(by rewrite zlen_locked))).
    unfold mret, M_ret, locked. by rewrite upd_sblk_upd_sblk.
  - right. exists n. split; [done|]. split; [by eapply first_free_pos|]. split; [|by apply take_bit_ok].
    rewrite (bind_eval _ _ _ _ _ (unlock_bitop_eq sp (take_bit which sp n (locked sp s)) ltac:(by rewrite zlen_take_bit))).
    by rewrite take_bit_unlocked.
Qed.

(** C18. [bitalloc] on a bitmap whose invariant holds returns the smallest free
    inode or zone, marks exactly that bit and keeps the invariant; it returns
    [NOBIT] only when every bit of the map is taken, and then changes nothing
    but the lock flags.  The other map of the file system is untouched. *)
Theorem bitalloc_first_fit which sp s : bitmap_ok which sp s → which = IMAP ∨ which = ZMAP →
  (bitalloc (Some sp) which s =
     Ret NOBIT (upd_sblk sp (λ p, set_s_flags (unlocked_flags (s_flags p)) p) s) ∧
   ∀ k, 0 <= k <= map_max which (sb_at s sp) → mapbit which sp s k = true) ∨
  (∃ n s', bitalloc (Some sp) which s = Ret (bit_number which (sb_at s sp) n) s' ∧
    1 <= n ∧ first_free which sp s n ∧ s' = write_bit which sp n true (n + 1) s ∧
    bitmap_ok which sp s' ∧
    (∀ k, 0 <= k <= map_max which (sb_at s sp) →
      mapbit which sp s' k = bool_decide (k = n) || mapbit which sp s k) ∧
    (∀ k, bitmap_ok (1 - which) sp s → 0 <= k <= map_max (1 - which) (sb_at s sp) →
      mapbit (1 - which) sp s' k = mapbit (1 - which) sp s k)).
Proof.
  intros Hs Hw. destruct (bitalloc_cases which sp s Hs Hw) as [Hno|(n & Hn & H1 & He & Hok)]; [by left|right].
  exists n, (write_bit which sp n true (n + 1) s). do 5 (split; [done|]). destruct Hn as (Hn & _). split.
  - intros k Hk. rewrite mapbit_write by done.
    case_decide; [by rewrite bool_decide_true|by rewrite bool_decide_false].
  - intros k Hs' Hk. apply mapbit_write_other; [|done..]. unfold IMAP, ZMAP in *. lia.
Qed.

(** ** Freeing a bit *)

Definition free_hint (which n : Z) (p : super_block) : Z :=
  if n mod 8192 <? map_hint which p then n mod 8192 else map_hint which p.

Lemma land_lnot_ldiff w j : 0 <= w < 2 ^ 32 → 0 <= j < 32 →
  Z.land w (u32 (Z.lnot (Z.shiftl 1 j))) = Z.ldiff w (2 ^ j).
Proof.
  intros Hw Hj. rewrite Z.shiftl_1_l. apply Z.bits_inj'. intros k Hk. unfold u32.
  rewrite Z.land_spec, Z.ldiff_spec. destruct (decide (k < 32)).
  - rewrite Z.mod_pow2_bits_low by lia. by rewrite Z.lnot_spec.
  - replace (Z.testbit w k) with false; [done|]. symmetry.
    destruct (decide (w = 0)) as [->|]; [apply Z.bits_0|]. apply Z.bits_above_log2; [lia|].
    apply Z.log2_lt_pow2; [lia|]. assert (2 ^ 32 <= 2 ^ k) by (apply Z.pow_le_mono_r; lia). lia.
Qed.
Lemma set_word_clear_bit data m : block_ok data → 0 <= m < 8192 →
  set_word data (m / 32) (Z.land (word data (m / 32)) (u32 (Z.lnot (Z.shiftl 1 (m mod 32))))) =
  put_bit data m false.
Proof.
  intros Hd Hm. unfold put_bit. rewrite land_lnot_ldiff; [done| |apply Z.mod_pos_bound; lia].
  apply word_range; [done|]. split; [apply Z.div_pos; lia|apply Z.div_lt_upper_bound; lia].
Qed.

(** The write, the hint and the unlocking together. *)
Lemma free_bit_unlocked which sp n s : 0 <= sp < zlen (sb s) → which = IMAP ∨ which = ZMAP →
  let p := sb_at s sp in
  let blk := map_base which p + n / 8192 in
  let d := put_bit (block_at (dsk s) (s_dev p) blk) (n mod 8192) false in
  ((if which =? IMAP then
      when (n mod 8192 <? s_isearch p) (modify (upd_sblk sp (set_s_isearch (n mod 8192))))
    else when (n mod 8192 <? s_zsearch p) (modify (upd_sblk sp (set_s_zsearch (n mod 8192)))));;
   unlock_bitop sp) (upd_dsk (set_block (s_dev p) blk d) (locked sp s)) =
  Ret tt (write_bit which sp n false (free_hint which n p) s).
Proof.
  intros Hsp Hw p blk d.
  assert (∀ f, upd_sblk sp (λ p, set_s_flags (drop_lock (s_flags p)) p) (upd_sblk sp f
      (upd_dsk (set_block (s_dev p) blk d) (locked sp s))) =
    upd_sblk sp (λ p, set_s_flags (drop_lock (s_flags (f (set_s_flags (Z.lor (s_flags p) LOCK_BITOP) p))))
       (f (set_s_flags (Z.lor (s_flags p) LOCK_BITOP) p)))
      (upd_dsk (set_block (s_dev p) blk d) s)) as He.
  { intros f. unfold locked, upd_sblk, upd_sb, upd_dsk. simpl. by rewrite !zalter_zalter. }
  pose proof (He (λ p, p)) as Hid.
  assert (∀ t, upd_sblk (S:=S) (PS:=PS) sp (λ p, p) t = t) as Hn.
  { intros []. unfold upd_sblk, upd_sb. simpl. f_equal. apply zget_ext. intros i Hi.
    rewrite zget_zalter. case_decide; subst; [|done]. by destruct (zget _ _). }
  rewrite Hn in Hid.
  pose proof Hsp as [q Hq]%zget_is_Some.
  assert (p = q) as Hpq by (unfold p, sb_at; by rewrite Hq).
  unfold write_bit, free_hint, map_hint, set_hint. fold p blk d.
  destruct Hw as [-> | ->]; cbn [Z.eqb IMAP ZMAP Pos.eqb];
    (destruct (_ <? _); unfold when;
     [rewrite bind_modify|rewrite bind_mret_l]; rewrite unlock_bitop_eq by
       (unfold locked, upd_sblk; simpl; by rewrite ?zlen_zalter); f_equal; rewrite ?He, ?Hid;
     apply upd_sblk_ext; intros x Hx; unfold upd_dsk in Hx; simpl in Hx;
     assert (x = p) as -> by congruence; by destruct p).
Qed.

Lemma bitfree_eq which sp n s : bitmap_ok which sp s → which = IMAP ∨ which = ZMAP →
  1 <= n < map_max which (sb_at s sp) →
  bitfree (Some sp) (bit_number which (sb_at s sp) n) which s =
    Ret tt (write_bit which sp n false (free_hint which n (sb_at s sp)) s).
Proof.
  intros Hs Hw Hn. unfold bitfree, from_opt. rewrite bind_mret_l, bind_gets.
  pose proof (bm_blocks _ _ _ Hs (n / 8192) ltac:(apply (div_8192_lt which sp s); [done|lia])) as [Hr Hok].
  pose proof (free_bit_unlocked which sp n s (bm_slot _ _ _ Hs) Hw) as Hfree.
  pose proof (bm_zones _ _ _ Hs) as Hz. pose proof (bm_max _ _ _ Hs) as Hm.
  pose proof (bm_len _ _ _ Hs) as Hl. pose proof (lock_bitop_eq sp s (bm_unlocked _ _ _ Hs)) as Hlock.
  assert (s_dev (sb_at s sp) =? NODEV = false) as -> by (apply Z.eqb_neq, (bm_dev _ _ _ Hs)).
  assert (truth (s_roflag (sb_at s sp)) = false) as -> by (apply truth_false, (bm_rw _ _ _ Hs)).
  unfold die_if. rewrite bind_mret_l. set (p := sb_at s sp) in *. cbv zeta.
  replace (if which =? IMAP then SUPER_BLOCK + 1 else SUPER_BLOCK + 1 + s_imblocks p) with (map_base which p) by done.
  replace (if which =? IMAP then bit_number which p n else u32 (bit_number which p n - (s_fdzone p - 1))) with n.
  2:{ unfold bit_number, map_max, map_len in *. destruct (which =? IMAP); [done|]. rewrite u32_small; lia. }
  replace (u32 (if which =? IMAP then s_ninodes p - 1 else s_zones p - s_fdzone p - 1)) with (map_max which p - 1).
  2:{ unfold map_max, map_len in *. destruct (which =? IMAP); rewrite u32_small; lia. }
  rewrite (proj2 (Z.ltb_ge _ _)) by lia. rewrite (bind_eval _ _ _ _ _ Hlock).
  unfold fs_bread. rewrite bind_gets. unfold bread. change (dsk (locked sp s)) with (dsk s).
  unfold BITS_PER_BLOCK, u32bits. rewrite Hr. unfold fs_bwrite. rewrite bind_modify.
  rewrite set_word_clear_bit by (done || (apply Z.mod_pos_bound; lia)). exact Hfree.
Qed.

Lemma free_hint_low which n p : 0 <= map_hint which p → 0 <= free_hint which n p < 8192.
Proof.
  intros Hh. pose proof (Z.mod_pos_bound n 8192). unfold free_hint. destruct (Z.ltb_spec (n mod 8192) (map_hint which p)); lia.
Qed.
Lemma free_bit_ok which sp n s : bitmap_ok which sp s → 1 <= n <= map_max which (sb_at s sp) →
  bitmap_ok which sp (write_bit which sp n false (free_hint which n (sb_at s sp)) s).
Proof.
  intros Hs Hn. destruct (bm_hint _ _ _ Hs) as [Hh _].
  pose proof (free_hint_low which n _ Hh). apply write_bit_ok; [done|lia|lia|lia|].
  intros k Hk Hd. rewrite (Z.div_small (free_hint _ _ _)) in Hd by lia.
  assert (0 <= k / 8192) by (apply Z.div_pos; lia). lia.
Qed.

(** C20. [bitfree] of an inode or zone other than the last one of its map clears
    exactly its bit, leaves the other map alone and keeps the invariant, so
    that the search hint cannot hide the freed bit. *)
Theorem bitfree_clears which sp n s : bitmap_ok which sp s → which = IMAP ∨ which = ZMAP →
  1 <= n < map_max which (sb_at s sp) →
  ∃ s', bitfree (Some sp) (bit_number which (sb_at s sp) n) which s = Ret tt s' ∧
    bitmap_ok which sp s' ∧
    (∀ k, 0 <= k <= map_max which (sb_at s sp) →
      mapbit which sp s' k = negb (bool_decide (k = n)) && mapbit which sp s k) ∧
    (∀ k, bitmap_ok (1 - which) sp s → 0 <= k <= map_max (1 - which) (sb_at s sp) →
      mapbit (1 - which) sp s' k = mapbit (1 - which) sp s k).
Proof.
  intros Hs Hw Hn. eexists. split; [by apply bitfree_eq|]. split; [apply free_bit_ok; [done|lia]|]. split.
  - intros k Hk. rewrite mapbit_write by (done || lia).
    case_decide; [by rewrite bool_decide_true|by rewrite bool_decide_false].
  - intros k Hs' Hk. apply mapbit_write_other; [|done|done|lia|done]. unfold IMAP, ZMAP in *. lia.
Qed.

Lemma bitfree_last which sp s : bitmap_ok which sp s → which = IMAP ∨ which = ZMAP →
  1 <= map_max which (sb_at s sp) →
  bitfree (Some sp) (bit_number which (sb_at s sp) (map_max which (sb_at s sp))) which s = Ret tt s.
Proof.
  intros Hs Hw Hn. unfold bitfree, from_opt. rewrite bind_mret_l, bind_gets.
  pose proof (bm_zones _ _ _ Hs) as Hz. pose proof (bm_max _ _ _ Hs) as Hm. pose proof (bm_len _ _ _ Hs) as Hl.
  assert (s_dev (sb_at s sp) =? NODEV = false) as -> by (apply Z.eqb_neq, (bm_dev _ _ _ Hs)).
  assert (truth (s_roflag (sb_at s sp)) = false) as -> by (apply truth_false, (bm_rw _ _ _ Hs)).
  unfold die_if. rewrite bind_mret_l. cbv zeta. unfold bit_number, map_max, map_len in *.
  destruct (which =? IMAP); rewrite !u32_small by lia; rewrite (proj2 (Z.ltb_lt _ _)) by lia; done.
Qed.

(** The last inode or zone of a map can be allocated but not freed: the
    bound of [bitfree] is one less than that of [bitalloc], so freeing it is
    refused and changes nothing. *)
Theorem bitfree_last_kept which sp s : bitmap_ok which sp s → which = IMAP ∨ which = ZMAP →
  1 <= map_max which (sb_at s sp) →
  bitfree (Some sp) (bit_number which (sb_at s sp) (map_max which (sb_at s sp))) which s = Ret tt s.
Proof. apply bitfree_last. Qed.


(** ** Counting *)

Lemma count_words_spec data n i base max count : i + Z.of_nat n = 256 → 0 <= i → 0 <= base → base <= max →
  let f k := bbit data (k - base) in
  count_words n i (Z.min (base + 32 * i) (max + 1)) max count data =
  (Z.min (base + 8192) (max + 1),
   count + free_count f (Z.min (base + 32 * i) (max + 1)) (Z.min (base + 8192) (max + 1))).
Proof.
  intros Hn Hi Hb Hm f. revert i count Hn Hi. induction n as [|n IH]; intros i count Hn Hi; cbn [count_words].
  { replace (base + 32 * i) with (base + 8192) by lia. rewrite free_count_empty by lia. f_equal. lia. }
  destruct (Z.ltb_spec max (Z.min (base + 32 * i) (max + 1))) as [Hlt|Hge].
  { replace (Z.min (base + 32 * i) (max + 1)) with (max + 1) by lia.
    replace (Z.min (base + 8192) (max + 1)) with (max + 1) by lia.
    rewrite free_count_empty by lia. f_equal. lia. }
  set (m := if max <? Z.min (base + 32 * i) (max + 1) + 32
            then max - Z.min (base + 32 * i) (max + 1) + 1 else 32).
  assert (0 < m <= 32 ∧ Z.min (base + 32 * i) (max + 1) + m = Z.min (base + 32 * (i + 1)) (max + 1)) as [Hmr Hnext].
  { unfold m. destruct (Z.ltb_spec max (Z.min (base + 32 * i) (max + 1) + 32)); lia. }
  rewrite Hnext, IH by lia. f_equal.
  rewrite (free_count_split f (Z.min (base + 32 * i) (max + 1)) (Z.min (base + 32 * (i + 1)) (max + 1))
    (Z.min (base + 8192) (max + 1))) by lia.
  rewrite <-Hnext, get_zero_bits_spec by lia.
  set (a := Z.min (base + 32 * i) (max + 1)) in *. assert (a = base + 32 * i) as Ha by lia. rewrite Ha.
  replace (free_count f (base + 32 * i) (base + 32 * i + m)) with (free_count (Z.testbit (word data i)) 0 m); [lia|].
  replace (base + 32 * i + m) with (m + (base + 32 * i)) by lia.
  rewrite <-(Z.add_0_l (base + 32 * i)) at 1. rewrite free_count_shift. apply free_count_ext. intros k Hk.
  unfold f, bbit. replace (k + (base + 32 * i) - base) with (k + i * 32) by lia.
  rewrite Z.div_add, Z.mod_add, Z.div_small, Z.mod_small by lia. by rewrite Z.add_0_l.
Qed.

Lemma count_blocks_spec which sp (s : fs) fuel blk count :
  let p := sb_at s sp in
  (∀ b, 0 <= b < map_len which p → readable (dsk s) (s_dev p) (map_base which p + b) = true) →
  0 <= map_max which p < 8192 * map_len which p → 0 <= blk → 8192 * blk <= map_max which p →
  (Z.to_nat (map_len which p - blk) <= fuel)%nat →
  count_blocks fuel (s_dev p) (map_base which p) (map_len which p) (map_max which p) blk (8192 * blk) count s =
  Ret (0, count + free_count (mapbit which sp s) (8192 * blk) (map_max which p + 1)) s.
Proof.
  intros p Hr Hm. revert blk count. induction fuel as [|fuel IH]; intros blk count Hb Hle Hf; cbn [count_blocks].
  { rewrite (proj2 (Z.ltb_lt _ _)) by lia. lia. }
  rewrite (proj2 (Z.ltb_lt _ _)) by lia. unfold fs_bread. rewrite bind_gets. unfold bread. rewrite Hr by lia.
  set (data := block_at (dsk s) (s_dev p) (map_base which p + blk)).
  pose proof (count_words_spec data 256 0 (8192 * blk) (map_max which p) count ltac:(lia) ltac:(lia) ltac:(lia) Hle) as Hc.
  cbv zeta in Hc. rewrite Z.mul_0_r, Z.add_0_r, Z.min_l in Hc by lia. cbv zeta. rewrite Hc. cbn [fst snd].
  set (e := Z.min (8192 * blk + 8192) (map_max which p + 1)) in *.
  assert (free_count (λ k, bbit data (k - 8192 * blk)) (8192 * blk) e = free_count (mapbit which sp s) (8192 * blk) e) as ->.
  { apply free_count_ext. intros k Hk. unfold mapbit. fold p.
    rewrite <-(Z.div_unique k 8192 blk (k - 8192 * blk)) by lia. fold data.
    by rewrite <-(Z.mod_unique k 8192 blk (k - 8192 * blk)) by lia. }
  cbn [fst snd]. destruct (Z.ltb_spec (map_max which p) e).
  - assert (e = map_max which p + 1) as -> by lia. done.
  - assert (e = 8192 * (blk + 1)) as -> by lia. rewrite IH by lia. do 2 f_equal.
    rewrite (free_count_split _ (8192 * blk) (8192 * (blk + 1)) (map_max which p + 1)) by lia. lia.
Qed.

(** C22. [get_free_bits_nr] returns no error and stores the number of free bits
    of the map, the last one included; it changes only the lock flags. *)
Theorem get_free_bits_nr_counts which sp s : bitmap_ok which sp s → which = IMAP ∨ which = ZMAP →
  get_free_bits_nr sp which s =
    Ret (0, free_count (mapbit which sp s) 0 (map_max which (sb_at s sp) + 1))
      (upd_sblk sp (λ p, set_s_flags (unlocked_flags (s_flags p)) p) s).
Proof.
  intros Hs Hw. pose proof (bm_slot _ _ _ Hs) as Hsp. unfold get_free_bits_nr.
  rewrite (bind_eval _ _ _ _ _ (lock_bitop_eq sp s (bm_unlocked _ _ _ Hs))), bind_gets.
  pose proof (bm_zones _ _ _ Hs) as Hz. pose proof (bm_max _ _ _ Hs) as Hm.
  pose proof (count_blocks_spec which sp (locked sp s) (Z.to_nat (map_len which (sb_at s sp))) 0 0) as Hc.
  cbv zeta in Hc. rewrite locked_at in * by done. set (p := sb_at s sp) in *.
  rewrite Z.mul_0_r, Z.add_0_l in Hc. cbv zeta.
  replace (if which =? ZMAP then s32 (s_zones (set_s_flags _ p) - _) else _) with (map_max which p).
  2:{ unfold map_max in *. destruct Hw as [-> | ->]; cbn in *; rewrite ?s32_small; lia. }
  replace (if which =? ZMAP then SUPER_BLOCK + 1 + _ else _) with (map_base which p) by by destruct Hw as [-> | ->].
  replace (if which =? ZMAP then s_zmblocks _ else _) with (map_len which p) by by destruct Hw as [-> | ->].
  erewrite bind_eval; [|apply Hc].
  2:{ intros b Hb. by apply (bm_blocks _ _ _ Hs). }
  2:{ exact Hm. }
  2:{ lia. }
  2:{ apply Hm. }
  2:{ change (map_len which (set_s_flags _ p)) with (map_len which p). lia. }
  rewrite (bind_eval _ _ _ _ _ (unlock_bitop_eq sp (locked sp s) ltac:(by rewrite zlen_locked))).
  unfold mret, M_ret, locked at 2. rewrite upd_sblk_upd_sblk. do 2 f_equal.
  apply free_count_ext. intros k Hk. by apply mapbit_locked.
Qed.

(** ** Reading super blocks *)

Lemma find_sb_spec l i dev tmp :
  match find_sb l i dev tmp with
  | inl (j, p) => i <= j ∧ zget l (j - i) = Some p ∧ s_dev p = dev ∧
      ∀ k q, 0 <= k < j - i → zget l k = Some q → s_dev q ≠ dev
  | inr r => (∀ k q, 0 <= k → zget l k = Some q → s_dev q ≠ dev) ∧
      match r with
      | None => tmp = None ∧ ∀ k q, 0 <= k → zget l k = Some q → s_count q ≠ 0
      | Some j => tmp = Some j ∨ tmp = None ∧ i <= j ∧ ∃ q, zget l (j - i) = Some q ∧ s_count q = 0
      end
  end.
Proof.
  revert i tmp. induction l as [|p l IH]; intros i tmp; simpl.
  { split; [intros k q Hk; by rewrite (proj2 (zget_None _ _)) by (unfold zlen; simpl; lia)|].
    destruct tmp; [by left|]. split; [done|]. intros k q Hk.
    by rewrite (proj2 (zget_None _ _)) by (unfold zlen; simpl; lia). }
  assert (∀ k, 0 < k → zget (p :: l) k = zget l (k - 1)) as Hcons.
  { intros k Hk. unfold zget. rewrite !(proj2 (Z.leb_le 0 _)) by lia.
    by replace (Z.to_nat k) with (Datatypes.S (Z.to_nat (k - 1))) by lia. }
  destruct (Z.eqb_spec (s_dev p) dev) as [He|Hne].
  { replace (i - i) with 0 by lia. split_and!; [lia|done|done|]. intros k q Hk. lia. }
  set (tmp' := if bool_decide (tmp = None) && (s_count p =? 0) then Some i else tmp). specialize (IH (i + 1) tmp').
  assert (∀ (P : super_block → Prop), P p → (∀ k q, 0 <= k → zget l k = Some q → P q) →
    ∀ k q, 0 <= k → zget (p :: l) k = Some q → P q) as Hall.
  { intros P Hp Hl k q Hk. destruct (decide (k = 0)) as [->|]; [by intros [= <-]|].
    rewrite Hcons by lia. apply Hl. lia. }
  destruct (find_sb l (i + 1) dev tmp') as [[j q]|r].
  - destruct IH as (Hj & Hq & Hd & Hlow). rewrite Hcons by lia.
    replace (j - i - 1) with (j - (i + 1)) by lia. split_and!; [lia|done|done|].
    intros k q' Hk. destruct (decide (k = 0)) as [->|]; [by intros [= <-]|].
    rewrite Hcons by lia. apply Hlow. lia.
  - destruct IH as [Hdev Hr]. split; [by apply (Hall (λ q, s_dev q ≠ dev))|]. unfold tmp' in Hr.
    destruct tmp as [t|]; simpl in Hr.
    + destruct r as [j|]; [destruct Hr as [?|[? _]]; [by left|done]|by destruct Hr].
    + destruct (Z.eqb_spec (s_count p) 0) as [Hc|Hc]; simpl in Hr.
      * destruct r as [j|]; [|by destruct Hr]. destruct Hr as [[= <-]|[? _]]; [right|done].
        replace (i - i) with 0 by lia. eauto with lia.
      * destruct r as [j|].
        -- destruct Hr as [?|(_ & Hj & Hq)]; [done|right]. rewrite Hcons by lia.
           replace (j - i - 1) with (j - (i + 1)) by lia. eauto with lia.
        -- destruct Hr as [_ Hl]. split; [done|]. by apply (Hall (λ q, s_count q ≠ 0)).
Qed.

(** The entry [sread] prepares before it reads the disk. *)
Definition fresh_sb (dev : Z) (p : super_block) : super_block :=
  set_s_flags LOCK_S (set_s_zsearch 0 (set_s_isearch 0 (set_s_roflag 0
    (set_s_nindirs NR_INDIRECTS (set_s_ndzones NR_DZONES (set_s_ipblock INODES_PER_BLOCK
      (set_s_version LM_MAGIC (set_s_dev dev (set_s_count 1
        (set_s_mounti None (set_s_rooti None p))))))))))).
Definition super_valid (p : super_block) : bool :=
  (s_magic p =? LM_MAGIC) && (1 <=? s_imblocks p) && (1 <=? s_zmblocks p) && (1 <=? s_ninodes p)
  && (1 <=? s_zones p) && (s_lzsize p =? 0).

Lemma super_valid_flags f p : super_valid (set_s_flags f p) = super_valid p.
Proof. done. Qed.

Lemma unlock_s_eq i p (s : fs) : 0 <= i < zlen (sb s) → s_flags p = LOCK_S →
  unlock_s i (upd_sblk i (λ _, p) s) = Ret tt (upd_sblk i (λ _, set_s_flags 0 p) s).
Proof.
  intros Hi Hp. unfold unlock_s. rewrite bind_modify, bind_gets, upd_sblk_upd_sblk.
  rewrite sb_at_upd_sblk, decide_True by done. unfold clear_flag. rewrite Hp. done.
Qed.

Lemma sread_fresh dev i (s : fs) : 0 <= i < zlen (sb s) → find_sb (sb s) 0 dev None = inr (Some i) →
  let p := fresh_sb dev (sb_at s i) in
  let failed p := Ret None (upd_sblk i (λ _, set_s_flags 0 (set_s_dev NODEV p)) s) in
  sread dev s =
    match bread dev SUPER_BLOCK (dsk s) with
    | None => failed p
    | Some d =>
        let q := super_from_disk d p in
        if super_valid q then Ret (Some i) (upd_sblk i (λ _, set_s_flags 0 q) s) else failed q
    end.
Proof.
  intros Hi Hf p failed. unfold sread. rewrite bind_gets, Hf, bind_modify.
  assert (∀ f (t : fs), 0 <= i < zlen (sb t) → upd_sblk i f t = upd_sblk i (λ _, f (sb_at t i)) t) as Hc.
  { intros f t [x Hx]%zget_is_Some. apply upd_sblk_ext. intros y Hy. unfold sb_at. by rewrite Hy. }
  rewrite Hc by done. fold (fresh_sb dev (sb_at s i)). fold p.
  assert (∀ q, s_flags q = LOCK_S →
    (modify (upd_sblk i (set_s_dev NODEV));; unlock_s i;; mret (A:=option Z) None) (upd_sblk i (λ _, q) s) = failed q) as Hbad.
  { intros q Hq. rewrite bind_modify, upd_sblk_upd_sblk. by rewrite (bind_eval _ _ _ _ _ (unlock_s_eq i (set_s_dev NODEV q) s Hi Hq)). }
  unfold fs_bread. rewrite bind_gets. change (dsk (upd_sblk i _ s)) with (dsk s).
  destruct (bread dev SUPER_BLOCK (dsk s)) as [d|]; [|by apply Hbad].
  rewrite bind_modify, upd_sblk_upd_sblk, bind_gets, sb_at_upd_sblk, decide_True by done. cbv zeta.
  set (q := super_from_disk d p). assert (s_flags q = LOCK_S) as Hq by done.
  destruct (super_valid q) eqn:Hv.
  - assert (negb (s_magic q =? LM_MAGIC) || ((s_imblocks q <? 1) || (s_zmblocks q <? 1) || (s_ninodes q <? 1)
                 || (s_zones q <? 1) || negb (s_lzsize q =? 0)) = false) as ->.
    { unfold super_valid in Hv. rewrite !andb_true_iff, !Z.leb_le in Hv.
      destruct Hv as (((((-> & ?) & ?) & ?) & ?) & ->). by rewrite !(proj2 (Z.ltb_ge _ _)) by done. }
    by rewrite (bind_eval _ _ _ _ _ (unlock_s_eq i _ s Hi Hq)).
  - assert (negb (s_magic q =? LM_MAGIC) || ((s_imblocks q <? 1) || (s_zmblocks q <? 1) || (s_ninodes q <? 1)
                 || (s_zones q <? 1) || negb (s_lzsize q =? 0)) = true) as ->; [|by apply Hbad].
    apply not_false_iff_true. intros Hn. rewrite !orb_false_iff, !negb_false_iff, !Z.ltb_ge in Hn.
    destruct Hn as (Hm & (((? & ?) & ?) & ?) & Hl). unfold super_valid in Hv.
    by rewrite Hm, Hl, !(proj2 (Z.leb_le _ _)) in Hv by done.
Qed.

Lemma get_sb_loop_spec l i dev j : (∀ k q, 0 <= k < j → zget l k = Some q → s_dev q ≠ dev) → 0 <= j →
  (∃ q, zget l j = Some q ∧ s_dev q = dev) → get_sb_loop l i dev = Some (i + j).
Proof.
  revert i j. induction l as [|p l IH]; intros i j Hlow Hj (q & Hq & Hd); [by rewrite (proj2 (zget_None _ _)) in Hq by (unfold zlen; simpl; lia)|].
  simpl. destruct (Z.eqb_spec (s_dev p) dev) as [He|Hne].
  - destruct (decide (j = 0)) as [->|]; [f_equal; lia|]. by destruct (Hlow 0 p ltac:(lia)).
  - destruct (decide (j = 0)) as [->|]; [by injection Hq as ->|].
    assert (∀ k, 0 <= k → zget (p :: l) (k + 1) = zget l k) as Hcons.
    { intros k Hk. unfold zget. rewrite !(proj2 (Z.leb_le 0 _)) by lia.
      by replace (Z.to_nat (k + 1)) with (Datatypes.S (Z.to_nat k)) by lia. }
    rewrite (IH (i + 1) (j - 1)); [f_equal; lia| |lia|].
    + intros k q' Hk Hz. apply (Hlow (k + 1)); [lia|]. by rewrite Hcons by lia.
    + exists q. rewrite <-Hcons by lia. replace (j - 1 + 1) with j by lia. done.
Qed.

(** C23. A super block that [sread] returns is the one [get_sb] finds for the
    device; one read from the disk passed the checks of its magic number and
    sizes, is in use once, unlocked, writable, and starts its searches at 0. *)
Theorem sread_get_sb dev (s : fs) i s' : dev ≠ NODEV → sread dev s = Ret (Some i) s' →
  get_sb dev s' = Some i ∧
  (get_sb dev s = None → super_valid (sb_at s' i) = true ∧ s_count (sb_at s' i) = 1 ∧
    s_flags (sb_at s' i) = 0 ∧ s_roflag (sb_at s' i) = 0 ∧
    map_hint IMAP (sb_at s' i) = 0 ∧ map_hint ZMAP (sb_at s' i) = 0).
Proof.
  intros Hdev Hr. unfold get_sb. rewrite (proj2 (Z.eqb_neq _ _) Hdev).
  pose proof (find_sb_spec (sb s) 0 dev None) as Hf.
  destruct (find_sb (sb s) 0 dev None) as [[j p]|[j|]] eqn:He.
  - destruct Hf as (Hj & Hp & Hd & Hlow). rewrite Z.sub_0_r in *.
    unfold sread in Hr. rewrite bind_gets, He in Hr. destruct (has _ _); [done|]. injection Hr as <- <-.
    rewrite (get_sb_loop_spec _ 0 dev j) by eauto. done.
  - destruct Hf as (Hno & [?|(_ & Hj & q & Hq & _)]); [done|]. rewrite Z.sub_0_r in Hq.
    assert (0 <= j < zlen (sb s)) as Hlen by (apply zget_is_Some; eauto).
    rewrite (sread_fresh dev j s Hlen He) in Hr. cbv zeta in Hr.
    destruct (bread dev SUPER_BLOCK (dsk s)) as [d|]; [|done].
    destruct (super_valid _) eqn:Hv; [|done]. injection Hr as <- <-.
    rewrite sb_at_upd_sblk, decide_True by done. split; [|intros _; rewrite super_valid_flags; split; [exact Hv|repeat split]].
    rewrite (get_sb_loop_spec _ 0 dev j); [done| |done|].
    + intros k x Hk. unfold upd_sblk. simpl. rewrite zget_zalter, decide_False by lia. apply Hno. lia.
    + exists (set_s_flags 0 (super_from_disk d (fresh_sb dev (sb_at s j)))).
      unfold upd_sblk. simpl. rewrite zget_zalter, decide_True by done. by rewrite Hq.
  - unfold sread in Hr. by rewrite bind_gets, He in Hr.
Qed.

(** When the super block cannot be read or is not valid, [sread] returns
    null but leaves the entry it took with use count 1 and no device: no later
    [sread] can take it again. *)
Theorem sread_failure_loses_entry dev (s : fs) i : find_sb (sb s) 0 dev None = inr (Some i) →
  match bread dev SUPER_BLOCK (dsk s) with
  | None => True
  | Some d => super_valid (super_from_disk d (fresh_sb dev (sb_at s i))) = false
  end →
  ∃ s', sread dev s = Ret None s' ∧ s_count (sb_at s' i) = 1 ∧ s_dev (sb_at s' i) = NODEV ∧
    ∀ dev', find_sb (sb s') 0 dev' None ≠ inr (Some i).
Proof.
  intros Hf Hbad. pose proof (find_sb_spec (sb s) 0 dev None) as Hs. rewrite Hf in Hs.
  destruct Hs as (_ & [?|(_ & Hi & q & Hq & _)]); [done|]. rewrite Z.sub_0_r in Hq.
  assert (0 <= i < zlen (sb s)) as Hlen by (apply zget_is_Some; eauto).
  assert (∀ p, s_count p = 1 → let s' := upd_sblk i (λ _, set_s_flags 0 (set_s_dev NODEV p)) s in
    s_count (sb_at s' i) = 1 ∧ s_dev (sb_at s' i) = NODEV ∧
    ∀ dev', find_sb (sb s') 0 dev' None ≠ inr (Some i)) as Hdone.
  { intros p Hp s'. unfold s'. rewrite sb_at_upd_sblk, decide_True by done. split; [done|]. split; [done|].
    intros dev' Hd. pose proof (find_sb_spec (sb s') 0 dev' None) as Hs. unfold s' in Hs. rewrite Hd in Hs.
    destruct Hs as (_ & [?|(_ & _ & x & Hx & Hc)]); [done|].
    rewrite Z.sub_0_r in Hx. unfold upd_sblk in Hx. simpl in Hx.
    rewrite zget_zalter, decide_True, Hq in Hx by done. injection Hx as <-. simpl in Hc. congruence. }
  rewrite (sread_fresh dev i s Hlen Hf). cbv zeta.
  destruct (bread dev SUPER_BLOCK (dsk s)) as [d|]; [rewrite Hbad|]; eexists; (split; [done|]); by apply Hdone.
Qed.
End bitmap.

(** ** Examples: a file system with 10 inodes and 20 zones on device 1 *)

Definition demo_map : list Z := 3 :: replicate 1023 0.
Definition demo_task : task_fs := TaskFs 1 0 0 0 0 0 0 0 (replicate 32 None) (replicate 32 0) 0.
Definition demo_super : super_block :=
  SuperBlock 10 0 1 1 5 0 0 LM_MAGIC 0 20 None None 1 0 1 0 0 0 LM_MAGIC 16 7 256.
Definition demo_fs : fs_state plain_disk unit :=
  MkFs {[ (1, 2) := demo_map; (1, 3) := demo_map ]} tt
    (demo_super :: replicate 9 (set_s_dev NODEV null_sb))
    [] [] (INull, INull) 0 [] 0 demo_task 0 0.

Lemma demo_map_ok : block_ok demo_map.
Proof. split; [done|]. constructor; [done|]. by apply Forall_replicate. Qed.
Lemma demo_fs_ok which : which = IMAP ∨ which = ZMAP → bitmap_ok which 0 demo_fs.
Proof.
  intros Hw. split; try (destruct Hw as [-> | ->]; done).
  - intros b Hb. split; [done|]. assert (b = 0) as -> by (destruct Hw as [-> | ->]; unfold map_len in Hb; simpl in Hb; lia).
    destruct Hw as [-> | ->]; exact demo_map_ok.
  - split; [by destruct Hw as [-> | ->]|]. intros n Hn Hd.
    assert (0 <= n / 8192) by (apply Z.div_pos; lia).
    destruct Hw as [-> | ->]; unfold map_hint in Hd; cbn -[Z.div] in Hd; rewrite Z.div_0_l in Hd; lia.
Qed.

Lemma bitalloc_first_fit_witness : ∃ s', bitalloc (Some 0) ZMAP demo_fs = Ret 6 s' ∧
  bitmap_ok ZMAP 0 s' ∧ mapbit ZMAP 0 s' 2 = true.
Proof.
  destruct (bitalloc_first_fit ZMAP 0 demo_fs (demo_fs_ok _ (or_intror eq_refl)) (or_intror eq_refl))
    as [(_ & Hall)|(n & s' & He & Hn & Hf & _ & Hok & Hbits & _)].
  - specialize (Hall 2 ltac:(vm_compute; done)). vm_compute in Hall. done.
  - assert (n = 2) as ->.
    { destruct Hf as (Hr & Hfree & Hlow). destruct (decide (n = 1)) as [->|]; [vm_compute in Hfree; done|].
      destruct (decide (n = 2)); [done|]. specialize (Hlow 2 ltac:(lia)). vm_compute in Hlow. done. }
    exists s'. split; [exact He|]. split; [exact Hok|]. rewrite Hbits by (vm_compute; done). done.
Defined.
Lemma bitfree_clears_witness : ∃ s', bitfree (Some 0) 5 ZMAP demo_fs = Ret tt s' ∧ bitmap_ok ZMAP 0 s'.
Proof.
  destruct (bitfree_clears ZMAP 0 1 demo_fs (demo_fs_ok _ (or_intror eq_refl)) (or_intror eq_refl)
    ltac:(vm_compute; done)) as (s' & He & Hok & _).
  exists s'. split; [exact He|exact Hok].
Defined.
Lemma bitfree_last_kept_witness : bitfree (Some 0) 10 IMAP demo_fs = Ret tt demo_fs.
Proof.
  exact (bitfree_last_kept IMAP 0 demo_fs (demo_fs_ok _ (or_introl eq_refl)) (or_introl eq_refl)
    ltac:(vm_compute; done)).
Defined.
Definition demo_fs_taken : fs_state plain_disk unit :=
  match bitalloc (Some 0) IMAP demo_fs with Ret _ s => s | _ => demo_fs end.
Lemma get_free_bits_nr_counts_witness :
  ∃ s', get_free_bits_nr 0 IMAP demo_fs = Ret (0, 9) s' ∧ zlen (sb s') = 10.
Proof.
  eexists. split.
  - rewrite (get_free_bits_nr_counts IMAP 0 demo_fs (demo_fs_ok _ (or_introl eq_refl)) (or_introl eq_refl)).
    do 2 f_equal.
  - vm_compute. reflexivity.
Defined.

(** A device whose block 1 holds a valid super block, and one of zeros. *)
Definition demo_superblock : list Z :=
  [10; 0; 0; 0; 1; 0; 1; 0; 5; 0; 0; 0; 0; 0; 0; 0; 0x78; 0x24; 0; 0; 20; 0; 0; 0] ++ replicate 1000 0.
Definition demo_unmounted : fs_state plain_disk unit :=
  init_super (MkFs {[ (1, 1) := demo_superblock ]} tt (replicate 10 null_sb)
    [] [] (INull, INull) 0 [] 0 demo_task 0 0).
Definition demo_sread : fs_state plain_disk unit :=
  match sread 1 demo_unmounted with Ret _ s => s | _ => demo_unmounted end.
Lemma sread_get_sb_witness : get_sb 1 demo_sread = Some 0 ∧ s_zones (sb_at demo_sread 0) = 20.
Proof.
  split; [|vm_compute; reflexivity].
  apply (sread_get_sb 1 demo_unmounted 0 demo_sread); [done|vm_compute; reflexivity].
Defined.
Lemma sread_failure_loses_entry_witness :
  ∃ s', sread 2 demo_unmounted = Ret None s' ∧ s_count (sb_at s' 0) = 1.
Proof.
  destruct (sread_failure_loses_entry 2 demo_unmounted 0 ltac:(vm_compute; reflexivity)
    ltac:(vm_compute; reflexivity)) as (s' & He & Hc & _).
  exists s'. split; [exact He|exact Hc].
Defined.
