(* ===== verification/Zone.v ===== *)
(** * The zones of a file (fs/util.c, fs/link.c)

    A file's blocks are found through seven direct zones, a single indirect and
    a double indirect block.  [bmap] finds a block, [minode] enters one and
    [truncate] gives them all back. *)

From S2P Require Import Prelude Blocks Pages Dlist FsState Super.
From stdpp Require Import base numbers functions gmap list.

Local Open Scope Z_scope.

Definition zero_block : list Z := replicate 1024 0.

(** [inoptr->i_zone[n]] *)
Definition zone_at (i : inode) (n : Z) : Z := default 0 (zget (i_zone i) n).
Definition set_zone_at (n z : Z) (i : inode) : inode := set_i_zone (zset n z (i_zone i)) i.
(** [inoptr->i_update |= MTIME; inoptr->i_dirty = 1] *)
Definition touch (i : inode) : inode := set_i_dirty 1 (set_i_update (Z.lor (i_update i) MTIME) i).

Definition zone_block (p : super_block) (z : Z) : Z := u32 (Z.shiftl z (s_lzsize p)).

Section zone.
Context {S PS : Type} `{BlockStore S}.
Notation fs := (fs_state S PS).

Definition bmap (ip pos : Z) : M fs Z :=
  i ← gets (λ s, ino_at s ip);
  sp ← deref (i_sp i);
  p ← gets (λ s, sb_at s sp);
  let scale := s_lzsize p in
  let block_pos := u32 (Z.quot pos BLOCKSIZ) in
  let zone_pos := Z.shiftr block_pos scale in
  let block_off := u32 (block_pos - u32 (Z.shiftl zone_pos scale)) in
  let dzones := i_ndzones i in
  let nindirs := i_nindirs i in
  if zone_pos <? dzones then
    let zone := zone_at i zone_pos in
    if zone =? NOZONE then mret NOBLOCK else mret (u32 (zone_block p zone + block_off))
  else
    let excess := zone_pos - dzones in
    r ← (if excess <? nindirs then mret (Some (zone_at i dzones, excess))
         else
           let zone := zone_at i (dzones + 1) in
           if zone =? NOZONE then mret None
           else
             bh ← fs_bread (i_dev i) (zone_block p zone);
             match bh with
             | None => mret None
             | Some data =>
                 let excess := excess - nindirs in
                 mret (Some (word data (excess / nindirs), excess mod nindirs))
             end);
    match r with
    | None => mret NOBLOCK
    | Some (zone, excess) =>
        if zone =? NOZONE then mret NOBLOCK
        else
          bh ← fs_bread (i_dev i) (zone_block p zone);
          match bh with
          | None => mret NOBLOCK
          | Some data =>
              let zone := word data excess in
              if zone =? NOZONE then mret NOBLOCK else mret (u32 (zone_block p zone + block_off))
          end
    end.

(** The single indirect part of [minode]. *)
Definition minode_single (ip sp excess zone : Z) : M fs Z :=
  i ← gets (λ s, ino_at s ip);
  p ← gets (λ s, sb_at s sp);
  let dzones := i_ndzones i in
  let tmpzone := zone_at i dzones in
  r ← (if tmpzone =? NOZONE then
         z ← bitalloc (Some sp) ZMAP;
         if z =? NOZONE then mret None
         else
           modify (upd_ino ip (set_zone_at dzones z));;
           mret (Some (zone_block p z, zero_block))
       else
         bh ← fs_bread (i_dev i) (zone_block p tmpzone);
         mret (pair (zone_block p tmpzone) <$> bh));
  match r with
  | None => mret 0
  | Some (blk, data) =>
      fs_bwrite (i_dev i) blk (set_word data excess zone);;
      modify (upd_ino ip touch);;
      mret 1
  end.

(** The double indirect block, read or allocated and cleared. *)
Definition minode_top (ip sp : Z) : M fs (option (Z * list Z)) :=
  i ← gets (λ s, ino_at s ip);
  p ← gets (λ s, sb_at s sp);
  let dzones := i_ndzones i in
  let tmpzone := zone_at i (dzones + 1) in
  if tmpzone =? NOZONE then
    z ← bitalloc (Some sp) ZMAP;
    if z =? NOZONE then mret None
    else
      modify (upd_ino ip (λ i, touch (set_zone_at (dzones + 1) z i)));;
      fs_bwrite (i_dev i) (zone_block p z) zero_block;;
      mret (Some (zone_block p z, zero_block))
  else
    bh ← fs_bread (i_dev i) (zone_block p tmpzone);
    mret (pair (zone_block p tmpzone) <$> bh).
(** The second-level block entered at [index] of the block [blk]. *)
Definition minode_second (ip sp blk index : Z) (data : list Z) : M fs (option (Z * list Z)) :=
  i ← gets (λ s, ino_at s ip);
  p ← gets (λ s, sb_at s sp);
  let tmpzone := word data index in
  if tmpzone =? NOZONE then
    z ← bitalloc (Some sp) ZMAP;
    if z =? NOZONE then
      modify (upd_ino ip touch);;
      mret None
    else
      fs_bwrite (i_dev i) blk (set_word data index z);;
      mret (Some (zone_block p z, zero_block))
  else
    bh ← fs_bread (i_dev i) (zone_block p tmpzone);
    mret (pair (zone_block p tmpzone) <$> bh).
(** The double indirect part; [excess] counts from its first zone. *)
Definition minode_double (ip sp excess zone : Z) : M fs Z :=
  i ← gets (λ s, ino_at s ip);
  let nindirs := i_nindirs i in
  r ← minode_top ip sp;
  match r with
  | None => mret 0
  | Some (blk, data) =>
      r ← minode_second ip sp blk (excess / nindirs) data;
      match r with
      | None => mret 0
      | Some (blk, data) =>
          let excess := excess mod nindirs in
          die_if (negb (word data excess =? NOZONE));;
          fs_bwrite (i_dev i) blk (set_word data excess zone);;
          modify (upd_ino ip touch);;
          mret 1
      end
  end.

Definition minode (ip pos zone : Z) : M fs Z :=
  i ← gets (λ s, ino_at s ip);
  sp ← deref (i_sp i);
  p ← gets (λ s, sb_at s sp);
  let zone_pos := u32 (Z.shiftr (Z.quot pos BLOCKSIZ) (s_lzsize p)) in
  let dzones := i_ndzones i in
  if zone_pos <? dzones then
    modify (upd_ino ip (λ i, touch (set_zone_at zone_pos zone i)));;
    mret 1
  else
    let nindirs := i_nindirs i in
    let excess := zone_pos - dzones in
    if excess <? nindirs then minode_single ip sp excess zone
    else minode_double ip sp (excess - nindirs) zone.

(** [freezones]: the array in a buffer, emptied. *)
Fixpoint freezones_loop (n : nat) (sp i : Z) (data : list Z) : M fs (list Z) :=
  match n with
  | O => mret data
  | Datatypes.S n =>
      let zone := word data i in
      p ← gets (λ s, sb_at s sp);
      when (negb (zone =? NOZONE))
        (modify (upd_dsk (inval_block (s_dev p) (zone_block p zone)));;
         bitfree (Some sp) zone ZMAP);;
      freezones_loop n sp (i + 1) (set_word data i NOZONE)
  end.
Definition freezones (sp : Z) (data : list Z) (howmuch : Z) : M fs (list Z) :=
  freezones_loop (Z.to_nat howmuch) sp 0 data.

(** The loop over the direct zones. *)
Fixpoint free_direct (n : nat) (ip sp i : Z) : M fs unit :=
  match n with
  | O => mret tt
  | Datatypes.S n =>
      zone ← gets (λ s, zone_at (ino_at s ip) i);
      when (negb (zone =? NOZONE)) (bitfree (Some sp) zone ZMAP);;
      modify (upd_ino ip (set_zone_at i NOZONE));;
      free_direct n ip sp (i + 1)
  end.
(** The loop over a double indirect block; null after a read error. *)
Fixpoint free_double (n : nat) (sp dev i nindirs : Z) (data : list Z) : M fs (option (list Z)) :=
  match n with
  | O => mret (Some data)
  | Datatypes.S n =>
      p ← gets (λ s, sb_at s sp);
      let zone1 := word data i in
      if zone1 =? NOZONE then free_double n sp dev (i + 1) nindirs data
      else
        bh1 ← fs_bread dev (zone_block p zone1);
        match bh1 with
        | None => mret None
        | Some data1 =>
            data1 ← freezones sp data1 nindirs;
            fs_bwrite dev (zone_block p zone1) data1;;
            bitfree (Some sp) zone1 ZMAP;;
            free_double n sp dev (i + 1) nindirs (set_word data i NOZONE)
        end
  end.
(** The single indirect block; whether to go on. *)
Definition free_single_block (ip sp : Z) : M fs bool :=
  i ← gets (λ s, ino_at s ip);
  p ← gets (λ s, sb_at s sp);
  let zone := zone_at i (i_ndzones i) in
  if zone =? NOZONE then mret true
  else
    bh ← fs_bread (i_dev i) (zone_block p zone);
    match bh with
    | None => mret false
    | Some data =>
        data ← freezones sp data (i_nindirs i);
        fs_bwrite (i_dev i) (zone_block p zone) data;;
        bitfree (Some sp) zone ZMAP;;
        modify (upd_ino ip (set_zone_at (i_ndzones i) NOZONE));;
        mret true
    end.
Definition free_double_block (ip sp : Z) : M fs unit :=
  i ← gets (λ s, ino_at s ip);
  p ← gets (λ s, sb_at s sp);
  let zone := zone_at i (i_ndzones i + 1) in
  when (negb (zone =? NOZONE))
    (bh ← fs_bread (i_dev i) (zone_block p zone);
     match bh with
     | None => mret tt
     | Some data =>
         r ← free_double (Z.to_nat (i_nindirs i)) sp (i_dev i) 0 (i_nindirs i) data;
         match r with
         | None => mret tt
         | Some data =>
             fs_bwrite (i_dev i) (zone_block p zone) data;;
             bitfree (Some sp) zone ZMAP;;
             modify (upd_ino ip (set_zone_at (i_ndzones i + 1) NOZONE))
         end
     end).

Definition truncate (ip : Z) : M fs unit :=
  i ← gets (λ s, ino_at s ip);
  if i_size i <=? 0 then mret tt
  else
    sp ← deref (i_sp i);
    p ← gets (λ s, sb_at s sp);
    let zsize := Z.shiftl BLOCKSIZ (s_lzsize p) in
    free_direct (Z.to_nat (i_ndzones i)) ip sp 0;;
    (if i_size i <=? i_ndzones i * zsize then mret tt
     else
       go_on ← free_single_block ip sp;
       if negb go_on || (i_size i <=? (i_ndzones i + i_nindirs i) * zsize) then mret tt
       else free_double_block ip sp);;
    modify (upd_ino ip (λ i,
      set_i_dirty 1 (set_i_size 0 (set_i_update (Z.lor (i_update i) MTIME) i)))).
End zone.

(** The number of 512-byte blocks a file of [length] bytes occupies. *)
Definition ZONE_SIZE : Z := BLOCKSIZ.
Definition DIRNSIZE : Z := NR_DZONES * ZONE_SIZE.
Definition INDIRNSIZE : Z := NR_DZONES * ZONE_SIZE + NR_INDIRECTS * ZONE_SIZE.
Definition BLOCKS : Z := ZONE_SIZE / 512.
Definition calc_block_nr (length : Z) : Z :=
  if length =? 0 then 0
  else if length <=? DIRNSIZE then (length + ZONE_SIZE - 1) / ZONE_SIZE * BLOCKS
  else if length <=? INDIRNSIZE then
    (NR_DZONES + 1 + (length - DIRNSIZE + ZONE_SIZE - 1) / ZONE_SIZE) * BLOCKS
  else if FILESIZE_MAX <? length then FILESIZE_MAX / ZONE_SIZE * BLOCKS
  else
    let tmp := length - INDIRNSIZE in
    (NR_DZONES + 1 + (tmp + NR_INDIRECTS * ZONE_SIZE - 1) / (NR_INDIRECTS * ZONE_SIZE)
     + (tmp + ZONE_SIZE - 1) / ZONE_SIZE) * BLOCKS.

(** ** The tree of zones, as data

    [zones] are the ten zone numbers of the inode and [rd] the contents of the
    blocks. *)

Definition zn (zones : list Z) (n : Z) : Z := default 0 (zget zones n).
Definition ind (rd : Z → list Z) (z n : Z) : Z := if z =? 0 then 0 else word (rd z) n.
Definition zone_of (zones : list Z) (rd : Z → list Z) (k : Z) : Z :=
  if k <? 7 then zn zones k
  else if k <? 263 then ind rd (zn zones 7) (k - 7)
  else ind rd (ind rd (zn zones 8) ((k - 263) / 256)) ((k - 263) mod 256).
Definition NR_FILE_ZONES : Z := 7 + 256 + 256 * 256.

(** The indirect blocks of the tree are pairwise different and satisfy [A];
    all its blocks are blocks of bytes. *)
Record tree_ok (A : Z → Prop) (zones : list Z) (rd : Z → list Z) : Prop := {
  tr_len : zlen zones = 10;
  tr_range : Forall (λ z, 0 <= z < 2 ^ 32) zones;
  tr_A z : A z → z ≠ 0 ∧ block_ok (rd z);
  tr_single : zn zones 7 ≠ 0 → A (zn zones 7) ∧ zn zones 7 ≠ zn zones 8;
  tr_double : zn zones 8 ≠ 0 → A (zn zones 8);
  tr_second n : 0 <= n < 256 → ind rd (zn zones 8) n ≠ 0 →
    A (ind rd (zn zones 8) n) ∧ ind rd (zn zones 8) n ≠ zn zones 7 ∧
    ind rd (zn zones 8) n ≠ zn zones 8;
  tr_inj n m : 0 <= n < 256 → 0 <= m < 256 → ind rd (zn zones 8) n ≠ 0 →
    ind rd (zn zones 8) n = ind rd (zn zones 8) m → n = m;
}.

Lemma zn_zset zones k z n : 0 <= k < zlen zones →
  zn (zset k z zones) n = if decide (n = k) then z else zn zones n.
Proof.
  intros Hk. unfold zn. rewrite zget_zset by done. by case_decide.
Qed.
Lemma ind_ext rd rd' z n : (z ≠ 0 → rd' z = rd z) → ind rd' z n = ind rd z n.
Proof. intros Hz. unfold ind. destruct (Z.eqb_spec z 0); [done|]. by rewrite Hz. Qed.
Lemma ind_nonzero rd z n : z ≠ 0 → ind rd z n = word (rd z) n.
Proof. intros Hz. unfold ind. by rewrite (proj2 (Z.eqb_neq _ _)). Qed.
Lemma zero_block_ok : block_ok zero_block.
Proof. split; [done|]. by apply Forall_replicate. Qed.
Lemma word_zero_block n : 0 <= n < 256 → word zero_block n = 0.
Proof.
  intros Hn. unfold word, load, slice, zero_block. rewrite drop_replicate, take_replicate.
  induction (_ `min` _)%nat as [|k IH]; [done|]. simpl replicate. cbn [le_decode]. lia.
Qed.
Lemma zset_range k z zones : Forall (λ z, 0 <= z < 2 ^ 32) zones → 0 <= z < 2 ^ 32 →
  Forall (λ z, 0 <= z < 2 ^ 32) (zset k z zones).
Proof.
  intros Hf Hz. unfold zset, zalter. destruct (_ <=? _); [|done].
  by apply Forall_alter.
Qed.

Section tree.
Context (A : Z → Prop) (zones : list Z) (rd : Z → list Z) (Hok : tree_ok A zones rd).

Lemma ind_range n : 0 <= n < 256 → 0 <= ind rd (zn zones 8) n < 2 ^ 32.
Proof.
  intros Hn. unfold ind. destruct (Z.eqb_spec (zn zones 8) 0); [lia|].
  apply word_range; [|done]. by apply (tr_A _ _ _ Hok), (tr_double _ _ _ Hok).
Qed.

(** *** Entering a zone *)

(** A direct zone. *)
Lemma tree_direct k z : 0 <= k < 7 → 0 <= z < 2 ^ 32 →
  tree_ok A (zset k z zones) rd ∧
  ∀ j, 0 <= j < NR_FILE_ZONES → zone_of (zset k z zones) rd j = if decide (j = k) then z else zone_of zones rd j.
Proof.
  intros Hk Hz. pose proof (tr_len _ _ _ Hok) as Hlen.
  assert (∀ n, 7 <= n → zn (zset k z zones) n = zn zones n) as Hn.
  { intros n Hn. rewrite zn_zset by lia. by rewrite decide_False by lia. }
  split.
  - destruct Hok. split; rewrite ?zlen_zset, ?(Hn 7), ?(Hn 8) by lia; try done. by apply zset_range.
  - intros j Hj. unfold zone_of. rewrite !(Hn 7), !(Hn 8) by lia.
    destruct (Z.ltb_spec j 7); [apply zn_zset; lia|]. by rewrite decide_False by lia.
Qed.

(** An entry of the single indirect block. *)
Lemma tree_single rd' e z : zn zones 7 ≠ 0 → 0 <= e < 256 → 0 <= z < 2 ^ 32 →
  (∀ x, A x → rd' x = if decide (x = zn zones 7) then set_word (rd (zn zones 7)) e z else rd x) →
  tree_ok A zones rd' ∧
  ∀ j, 0 <= j < NR_FILE_ZONES → zone_of zones rd' j = if decide (j = 7 + e) then z else zone_of zones rd j.
Proof.
  intros H7 He Hz Hrd. destruct (tr_single _ _ _ Hok H7) as [HA7 H78].
  destruct (tr_A _ _ _ Hok _ HA7) as [_ Hok7].
  assert (∀ n, ind rd' (zn zones 8) n = ind rd (zn zones 8) n) as H8.
  { intros n. apply ind_ext. intros H8. rewrite Hrd by by apply (tr_double _ _ _ Hok). by rewrite decide_False. }
  split.
  - destruct Hok as [? ? HA ? ? Hsec Hinj].
    split; try done; [|intros n; rewrite !H8; apply Hsec|intros n m; rewrite !H8; apply Hinj].
    intros x Hx. destruct (HA x Hx) as [Hx0 Hxok]. split; [done|]. rewrite Hrd by done.
    case_decide; [|done]. by apply block_ok_set_word.
  - intros j Hj. unfold zone_of. destruct (Z.ltb_spec j 7); [by rewrite decide_False by lia|].
    destruct (Z.ltb_spec j 263).
    + rewrite !ind_nonzero by done. rewrite Hrd, decide_True by done. rewrite word_set_word by (done || lia).
      repeat case_decide; try lia; done.
    + rewrite decide_False by lia. rewrite H8. apply ind_ext. intros H2.
      assert (0 <= (j - 263) / 256 < 256) as Hd.
      { unfold NR_FILE_ZONES in Hj. split; [apply Z.div_pos; lia|apply Z.div_lt_upper_bound; lia]. }
      destruct (tr_second _ _ _ Hok _ Hd H2) as (HA & Hne & _). rewrite Hrd by done. by rewrite decide_False.
Qed.

(** An entry of a second-level block. *)
Lemma tree_second rd' i e z : 0 <= i < 256 → ind rd (zn zones 8) i ≠ 0 → 0 <= e < 256 → 0 <= z < 2 ^ 32 →
  let b := ind rd (zn zones 8) i in
  (∀ x, A x → rd' x = if decide (x = b) then set_word (rd b) e z else rd x) →
  tree_ok A zones rd' ∧
  ∀ j, 0 <= j < NR_FILE_ZONES →
    zone_of zones rd' j = if decide (j = 263 + 256 * i + e) then z else zone_of zones rd j.
Proof.
  intros Hi Hb0 He Hz b Hrd. destruct (tr_second _ _ _ Hok _ Hi Hb0) as (HAb & Hb7 & Hb8). fold b in Hb0, HAb, Hb7, Hb8.
  destruct (tr_A _ _ _ Hok _ HAb) as [_ Hokb].
  assert (∀ x n, x = 0 ∨ A x → x ≠ b → ind rd' x n = ind rd x n) as Hsame.
  { intros x n HA Hne. apply ind_ext. intros Hx. rewrite Hrd by (by destruct HA). by rewrite decide_False. }
  assert (∀ n, ind rd' (zn zones 8) n = ind rd (zn zones 8) n) as H8.
  { intros n. apply Hsame; [|done]. destruct (decide (zn zones 8 = 0)); [by left|right; by apply (tr_double _ _ _ Hok)]. }
  split.
  - destruct Hok as [? ? HA ? ? Hsec Hinj].
    split; try done; [|intros n; rewrite !H8; apply Hsec|intros n m; rewrite !H8; apply Hinj].
    intros x Hx. destruct (HA x Hx) as [Hx0 Hxok]. split; [done|]. rewrite Hrd by done.
    case_decide; [|done]. by apply block_ok_set_word.
  - intros j Hj. unfold zone_of. destruct (Z.ltb_spec j 7); [by rewrite decide_False by lia|].
    destruct (Z.ltb_spec j 263).
    + rewrite decide_False by lia. apply Hsame; [|done].
      destruct (decide (zn zones 7 = 0)); [by left|right; by apply (tr_single _ _ _ Hok)].
    + rewrite H8. unfold NR_FILE_ZONES in Hj.
      pose proof (Z.div_mod (j - 263) 256 ltac:(lia)). pose proof (Z.mod_pos_bound (j - 263) 256 ltac:(lia)).
      assert (0 <= (j - 263) / 256 < 256) as Hd by lia.
      set (d := (j - 263) / 256) in *. set (m := (j - 263) mod 256) in *. clearbody d m.
      destruct (decide (d = i)) as [->|Hne].
      * fold b. rewrite !ind_nonzero by done. rewrite Hrd, decide_True by done. rewrite word_set_word by (done || lia).
        repeat case_decide; try lia; done.
      * rewrite decide_False by lia. destruct (decide (ind rd (zn zones 8) d = 0)) as [Hd0|Hd0].
        { rewrite Hd0. done. }
        apply Hsame; [right; by apply (tr_second _ _ _ Hok)|]. intros Heq. apply Hne.
        by apply (tr_inj _ _ _ Hok).
Qed.

(** *** Entering an empty indirect block *)

Context (A' : Z → Prop) (n : Z) (HA' : ∀ x, A' x ↔ A x ∨ x = n) (Hn : 0 < n < 2 ^ 32) (Hfresh : ¬ A n).

Lemma fresh_ne x : A x → x ≠ n.
Proof. intros Hx ->. done. Qed.

Lemma tree_new_single rd' : zn zones 7 = 0 → rd' n = zero_block → (∀ x, A x → rd' x = rd x) →
  tree_ok A' (zset 7 n zones) rd' ∧
  ∀ j, 0 <= j < NR_FILE_ZONES → zone_of (zset 7 n zones) rd' j = zone_of zones rd j.
Proof.
  intros H7 Hz Hrd. pose proof (tr_len _ _ _ Hok) as Hlen.
  assert (∀ m, zn (zset 7 n zones) m = if decide (m = 7) then n else zn zones m) as Hzn by (intros; apply zn_zset; lia).
  assert (zn (zset 7 n zones) 7 = n) as Hzn1 by (by rewrite Hzn).
  assert (zn (zset 7 n zones) 8 = zn zones 8) as Hzn2 by (by rewrite Hzn).
  assert (∀ m, ind rd' (zn zones 8) m = ind rd (zn zones 8) m) as H8.
  { intros m. apply ind_ext. intros H8. by apply Hrd, (tr_double _ _ _ Hok). }
  split.
  - split; rewrite ?zlen_zset, ?Hzn1, ?Hzn2.
    + done.
    + apply zset_range; [apply (tr_range _ _ _ Hok)|lia].
    + intros x [Hx| ->]%HA'; [|rewrite Hz; split; [lia|apply zero_block_ok]].
      rewrite Hrd by done. by apply (tr_A _ _ _ Hok).
    + intros _. split; [apply HA'; by right|].
      intros He. destruct (decide (zn zones 8 = 0)); [lia|].
      by apply Hfresh; rewrite He; apply (tr_double _ _ _ Hok).
    + intros H80. apply HA'. left. by apply (tr_double _ _ _ Hok).
    + intros m Hm. rewrite H8. intros Hm0.
      destruct (tr_second _ _ _ Hok m Hm Hm0) as (HAm & _ & Hm8).
      split; [apply HA'; by left|]. split; [by apply fresh_ne|done].
    + intros m m'. rewrite !H8. apply (tr_inj _ _ _ Hok).
  - intros j Hj. unfold zone_of. rewrite ?Hzn1, ?Hzn2. destruct (Z.ltb_spec j 7); [rewrite Hzn; by rewrite decide_False by lia|].
    destruct (Z.ltb_spec j 263).
    + rewrite ind_nonzero, Hz, word_zero_block by lia. unfold ind. by rewrite H7.
    + rewrite H8. apply ind_ext. intros H2. apply Hrd. unfold NR_FILE_ZONES in Hj.
      apply (tr_second _ _ _ Hok); [split; [apply Z.div_pos; lia|apply Z.div_lt_upper_bound; lia]|done].
Qed.

Lemma tree_new_double rd' : zn zones 8 = 0 → rd' n = zero_block → (∀ x, A x → rd' x = rd x) →
  tree_ok A' (zset 8 n zones) rd' ∧
  ∀ j, 0 <= j < NR_FILE_ZONES → zone_of (zset 8 n zones) rd' j = zone_of zones rd j.
Proof.
  intros H8 Hz Hrd. pose proof (tr_len _ _ _ Hok) as Hlen.
  assert (∀ m, zn (zset 8 n zones) m = if decide (m = 8) then n else zn zones m) as Hzn by (intros; apply zn_zset; lia).
  assert (zn (zset 8 n zones) 8 = n) as Hzn1 by (by rewrite Hzn).
  assert (zn (zset 8 n zones) 7 = zn zones 7) as Hzn2 by (by rewrite Hzn).
  assert (∀ m, 0 <= m < 256 → ind rd' n m = 0) as Hzero.
  { intros m Hm. rewrite ind_nonzero, Hz by lia. by apply word_zero_block. }
  split.
  - split; rewrite ?zlen_zset, ?Hzn1, ?Hzn2.
    + done.
    + apply zset_range; [apply (tr_range _ _ _ Hok)|lia].
    + intros x [Hx| ->]%HA'; [|rewrite Hz; split; [lia|apply zero_block_ok]].
      rewrite Hrd by done. by apply (tr_A _ _ _ Hok).
    + intros H7. destruct (tr_single _ _ _ Hok H7) as [HA7 _].
      split; [apply HA'; by left|by apply fresh_ne].
    + intros _. apply HA'. by right.
    + intros m Hm. by rewrite Hzero.
    + intros m m' Hm. by rewrite Hzero.
  - intros j Hj. unfold zone_of. rewrite ?Hzn1, ?Hzn2. destruct (Z.ltb_spec j 7); [rewrite Hzn; by rewrite decide_False by lia|].
    destruct (Z.ltb_spec j 263).
    + apply ind_ext. intros H7. by apply Hrd, (tr_single _ _ _ Hok).
    + unfold NR_FILE_ZONES in Hj. rewrite Hzero by (split; [apply Z.div_pos; lia|apply Z.div_lt_upper_bound; lia]).
      unfold ind. by rewrite H8.
Qed.

Lemma tree_new_second rd' i : zn zones 8 ≠ 0 → 0 <= i < 256 → ind rd (zn zones 8) i = 0 →
  rd' n = zero_block →
  (∀ x, A x → rd' x = if decide (x = zn zones 8) then set_word (rd (zn zones 8)) i n else rd x) →
  tree_ok A' zones rd' ∧ ind rd' (zn zones 8) i = n ∧
  ∀ j, 0 <= j < NR_FILE_ZONES → zone_of zones rd' j = zone_of zones rd j.
Proof.
  intros H8 Hi Hi0 Hz Hrd. pose proof (tr_double _ _ _ Hok H8) as HA8.
  destruct (tr_A _ _ _ Hok _ HA8) as [_ Hok8].
  assert (∀ m, 0 <= m < 256 → ind rd' (zn zones 8) m = if decide (m = i) then n else ind rd (zn zones 8) m) as Hind.
  { intros m Hm. rewrite !ind_nonzero by done. rewrite Hrd, decide_True by done. apply word_set_word; (done || lia). }
  split_and!.
  - split.
    + apply (tr_len _ _ _ Hok).
    + apply (tr_range _ _ _ Hok).
    + intros x [Hx| ->]%HA'; [|rewrite Hz; split; [lia|apply zero_block_ok]].
      rewrite Hrd by done. destruct (tr_A _ _ _ Hok x Hx). split; [done|]. case_decide; [by apply block_ok_set_word|done].
    + intros H7. destruct (tr_single _ _ _ Hok H7). split; [apply HA'; by left|done].
    + intros _. apply HA'. by left.
    + intros m Hm. rewrite Hind by done. case_decide.
      * intros _. split; [apply HA'; by right|]. split; [|apply not_eq_sym; by apply fresh_ne].
        intros He. destruct (decide (zn zones 7 = 0)); [lia|].
        apply Hfresh. rewrite He. by apply (tr_single _ _ _ Hok).
      * intros Hm0. destruct (tr_second _ _ _ Hok m Hm Hm0) as (? & ? & ?). split; [apply HA'; by left|done].
    + intros m m' Hm Hm'. rewrite !Hind by done.
      assert (∀ x, 0 <= x < 256 → ind rd (zn zones 8) x ≠ n) as Hnn.
      { intros x Hx He. apply Hfresh. rewrite <-He. apply (tr_second _ _ _ Hok); [done|lia]. }
      repeat case_decide; subst; intros Hm0 He; try done.
      * symmetry in He. by apply Hnn in He.
      * by apply Hnn in He.
      * by apply (tr_inj _ _ _ Hok).
  - rewrite Hind by done. by rewrite decide_True.
  - intros j Hj. unfold zone_of. destruct (Z.ltb_spec j 7); [done|]. destruct (Z.ltb_spec j 263).
    + apply ind_ext. intros H7. destruct (tr_single _ _ _ Hok H7) as [HA7 H78].
      rewrite Hrd by done. by rewrite decide_False.
    + unfold NR_FILE_ZONES in Hj.
      assert (0 <= (j - 263) / 256 < 256) as Hd by (split; [apply Z.div_pos; lia|apply Z.div_lt_upper_bound; lia]).
      rewrite Hind by done. case_decide as Hdi.
      * rewrite Hdi, Hi0, ind_nonzero, Hz by lia. unfold ind at 1. simpl.
        apply word_zero_block. apply Z.mod_pos_bound. lia.
      * apply ind_ext. intros Hd0. destruct (tr_second _ _ _ Hok _ Hd Hd0) as (? & ? & ?).
        rewrite Hrd by done. by rewrite decide_False.
Qed.
End tree.

(** ** Files on a volume *)

Section volume.
Context {S PS : Type} `{BlockLaws S}.
Context (ip sp dev fd nz : Z) (D : Z → Prop).
Notation fs := (fs_state S PS).

(** Inode [ip] belongs to super block [sp], whose zones are [fd .. nz - 1] of
    device [dev]; every data block can be read. *)
Record volume (s : fs) : Prop := {
  v_map : bitmap_ok ZMAP sp s;
  v_ip : 0 <= ip < zlen (inodes s);
  v_isp : i_sp (ino_at s ip) = Some sp;
  v_idev : i_dev (ino_at s ip) = dev;
  v_ndz : i_ndzones (ino_at s ip) = NR_DZONES;
  v_nin : i_nindirs (ino_at s ip) = NR_INDIRECTS;
  v_sdev : s_dev (sb_at s sp) = dev;
  v_lz : s_lzsize (sb_at s sp) = 0;
  v_fd : s_fdzone (sb_at s sp) = fd;
  v_nz : s_zones (sb_at s sp) = nz;
  v_layout : map_base ZMAP (sb_at s sp) + map_len ZMAP (sb_at s sp) <= fd;
  v_data z : fd <= z < nz →
    readable (dsk s) dev z = true ∧ block_ok (block_at (dsk s) dev z);
}.
(** The zones marked in the bitmap. *)
Definition allocated (s : fs) (z : Z) : Prop :=
  fd <= z < nz ∧ mapbit ZMAP sp s (z - fd + 1) = true.
Definition izones (s : fs) : list Z := i_zone (ino_at s ip).
Definition rdb (s : fs) (z : Z) : list Z := block_at (dsk s) dev z.

(** [D] are zones in use whose contents the file's tree does not touch: the data
    of this file, and anything of other files. *)
Definition owned (s : fs) (z : Z) : Prop := allocated s z ∧ ¬ D z.

Record file_ok (s : fs) : Prop := {
  f_vol : volume s;
  f_res z : D z → allocated s z;
  f_tree : tree_ok (owned s) (izones s) (rdb s);
}.

Lemma vol_range s : volume s → 1 <= fd ∧ nz < 2 ^ 31 ∧ map_max ZMAP (sb_at s sp) = nz - fd ∧ fd <= nz.
Proof.
  intros Hv. destruct (bm_zones _ _ _ (v_map _ Hv)) as [Hf Hz]. rewrite (v_fd _ Hv), (v_nz _ Hv) in *.
  pose proof (bm_max _ _ _ (v_map _ Hv)) as Hm. unfold map_max in *. simpl in *.
  rewrite (v_fd _ Hv), (v_nz _ Hv) in *. lia.
Qed.

(** *** Steps that keep the volume *)

Lemma vol_upd_ino f s : volume s →
  (∀ i, i_sp (f i) = i_sp i ∧ i_dev (f i) = i_dev i ∧ i_ndzones (f i) = i_ndzones i ∧ i_nindirs (f i) = i_nindirs i) →
  volume (upd_ino ip f s).
Proof.
  intros [] Hf. destruct (Hf (ino_at s ip)) as (? & ? & ? & ?).
  split; rewrite ?ino_at_upd_ino by done; rewrite ?decide_True by done; try congruence; try done.
  - match goal with H : bitmap_ok _ _ _ |- _ => destruct H end. by split.
  - unfold upd_ino. simpl. by rewrite zlen_zalter.
Qed.
Lemma mapbit_bwrite s b d k : volume s → fd <= b → 0 <= k <= nz - fd →
  mapbit ZMAP sp (upd_dsk (set_block dev b d) s) k = mapbit ZMAP sp s k.
Proof.
  intros Hv Hb Hk. destruct (vol_range s Hv) as (? & ? & Hmax & ?). unfold mapbit. simpl.
  change (sb_at (upd_dsk _ s) sp) with (sb_at s sp). rewrite block_set, decide_False; [done|].
  intros [_ He]. pose proof (v_layout _ Hv).
  pose proof (div_8192_lt ZMAP sp s k (v_map _ Hv) ltac:(lia)). lia.
Qed.
Lemma vol_bwrite s b d : volume s → fd <= b < nz → block_ok d → volume (upd_dsk (set_block dev b d) s).
Proof.
  intros Hv Hb Hd. pose proof (mapbit_bwrite s b d) as Hbit. destruct (vol_range s Hv) as (? & ? & Hmax & ?).
  pose proof (v_layout _ Hv) as Hlay.
  pose proof Hv as [Hmap ? ? ? ? ? Hsd ? ? ? ? Hdata]. split; try done.
  - destruct Hmap as [? ? ? ? ? ? ? Hblk Hzero [Hh0 Hh]]. split; try done.
    + change (sb_at (upd_dsk _ s) sp) with (sb_at s sp). intros c Hc. destruct (Hblk c Hc). simpl.
      rewrite readable_set, block_set, decide_False by lia. done.
    + rewrite Hbit by (done || lia). done.
    + split; [done|]. intros k Hk Hd' Hle. change (sb_at (upd_dsk _ s) sp) with (sb_at s sp) in *.
      rewrite Hbit by (done || lia). by apply Hh.
  - intros z Hz. simpl. rewrite readable_set, block_set. destruct (Hdata z Hz).
    split; [done|]. by case_decide.
Qed.
Lemma allocated_bwrite s b d z : volume s → fd <= b →
  allocated (upd_dsk (set_block dev b d) s) z ↔ allocated s z.
Proof.
  intros Hv Hb. unfold allocated. split; intros [Hz Hm]; (split; [done|]);
    rewrite mapbit_bwrite in * by (done || lia); done.
Qed.
Lemma rdb_bwrite s b d z : rdb (upd_dsk (set_block dev b d) s) z = if decide (z = b) then d else rdb s z.
Proof.
  unfold rdb. simpl. rewrite block_set. case_decide as H1; case_decide as H2; try done.
  - by destruct H1.
  - exfalso. apply H1. by rewrite H2.
Qed.

(** [bitalloc] as the file layer sees it. *)
Lemma vol_alloc s : volume s →
  (∃ s', bitalloc (Some sp) ZMAP s = Ret NOZONE s' ∧ volume s' ∧ inodes s' = inodes s ∧
     (∀ z, rdb s' z = rdb s z) ∧ (∀ z, allocated s' z ↔ allocated s z) ∧
     ∀ z, fd <= z < nz → allocated s z) ∨
  (∃ z s', bitalloc (Some sp) ZMAP s = Ret z s' ∧ volume s' ∧ inodes s' = inodes s ∧
     fd <= z < nz ∧ ¬ allocated s z ∧ (∀ x, allocated s' x ↔ allocated s x ∨ x = z) ∧
     ∀ x, fd <= x → rdb s' x = rdb s x).
Proof.
  intros Hv. pose proof (vol_range s Hv) as (Hfd & Hnz & Hmax & Hle). pose proof (v_map _ Hv) as Hmap.
  destruct (bitalloc_cases ZMAP sp s Hmap (or_intror eq_refl)) as [(He & Hall)|(n & Hn & H1 & He & Hok)].
  - left. eexists. split; [exact He|]. set (f := λ p, set_s_flags (unlocked_flags (s_flags p)) p).
    assert (sb_at (upd_sblk sp f s) sp = f (sb_at s sp)) as Hsb.
    { rewrite sb_at_upd_sblk by apply (bm_slot _ _ _ Hmap). by rewrite decide_True. }
    assert (∀ k, mapbit ZMAP sp (upd_sblk sp f s) k = mapbit ZMAP sp s k) as Hbit.
    { intros k. unfold mapbit. by rewrite Hsb. }
    split_and!; try done.
    + pose proof (bm_hint _ _ _ Hmap) as [Hh0 Hh].
      destruct Hv. split; rewrite ?Hsb; try done. destruct Hmap. split; rewrite ?Hsb; try done.
      * unfold upd_sblk. simpl. by rewrite zlen_zalter.
      * apply unlocked_flags_unlocked.
      * by rewrite Hbit.
      * split; [done|]. intros k Hk Hd Hkm. rewrite Hbit. by apply Hh.
    + intros z. unfold allocated. by rewrite Hbit.
    + intros z Hz. split; [done|]. apply Hall. lia.
  - right. exists (n + (s_fdzone (sb_at s sp) - 1)), (write_bit ZMAP sp n true (n + 1) s). split; [exact He|].
    destruct Hn as (Hn & Hfree & Hlow). rewrite (v_fd _ Hv).
    pose proof (sb_at_write_bit ZMAP sp n true (n + 1) s Hmap) as Hsb.
    pose proof (λ k, mapbit_write ZMAP sp n true (n + 1) s k Hmap Hn) as Hbit.
    pose proof (div_8192_lt ZMAP sp s n Hmap Hn) as Hdiv.
    assert (∀ x, fd <= x → rdb (write_bit ZMAP sp n true (n + 1) s) x = rdb s x) as Hrd.
    { intros x Hx. unfold rdb, write_bit. simpl. rewrite block_set, decide_False; [done|].
      intros [_ Hx']. pose proof (v_layout _ Hv). lia. }
    split_and!; try lia; try done.
    + pose proof (v_data _ Hv) as Hdata. destruct Hv. split; rewrite ?Hsb; try done.
      intros z Hz. fold (rdb (write_bit ZMAP sp n true (n + 1) s) z). rewrite Hrd by lia.
      unfold write_bit. simpl. rewrite readable_set. by apply Hdata.
    + intros [_ Hb]. replace (n + (fd - 1) - fd + 1) with n in Hb by lia. congruence.
    + intros x. unfold allocated. split.
      * intros [Hx Hb]. rewrite Hbit in Hb by lia. case_decide; [right; lia|by left].
      * intros [[Hx Hb]| ->]; (split; [lia|]); rewrite Hbit by lia; case_decide; [done|done|done|lia].
Qed.

(** [bitfree] of a zone; the last one of the volume is kept. *)
Lemma vol_free s n : volume s → allocated s n →
  ∃ s', bitfree (Some sp) n ZMAP s = Ret tt s' ∧ volume s' ∧ inodes s' = inodes s ∧
    (∀ x, allocated s' x ↔ allocated s x ∧ (x ≠ n ∨ n = nz - 1)) ∧ ∀ x, fd <= x → rdb s' x = rdb s x.
Proof.
  intros Hv [Hn _]. pose proof (vol_range s Hv) as (Hfd & Hnz & Hmax & Hle). pose proof (v_map _ Hv) as Hmap.
  assert (n = bit_number ZMAP (sb_at s sp) (n - fd + 1)) as Hnum.
  { unfold bit_number. simpl. rewrite (v_fd _ Hv). lia. }
  destruct (decide (n = nz - 1)) as [Hlast|Hlast].
  { exists s. rewrite Hnum at 1. replace (n - fd + 1) with (map_max ZMAP (sb_at s sp)) by lia.
    split; [apply bitfree_last; [done|by right|lia]|]. split; [done|]. split; [done|]. split; [|done].
    intros x. split; [intros Hx; split; [done|by right]|by intros [Hx _]]. }
  pose proof (bitfree_eq ZMAP sp (n - fd + 1) s Hmap (or_intror eq_refl) ltac:(lia)) as He. rewrite <-Hnum in He.
  eexists. split; [exact He|]. set (k := n - fd + 1). set (h := free_hint _ _ _).
  pose proof (sb_at_write_bit ZMAP sp k false h s Hmap) as Hsb.
  pose proof (λ x, mapbit_write ZMAP sp k false h s x Hmap ltac:(lia)) as Hbit.
  pose proof (div_8192_lt ZMAP sp s k Hmap ltac:(lia)) as Hdiv.
  assert (∀ x, fd <= x → rdb (write_bit ZMAP sp k false h s) x = rdb s x) as Hrd.
  { intros x Hx. unfold rdb, write_bit. simpl. rewrite block_set, decide_False; [done|].
    intros [_ Hx']. pose proof (v_layout _ Hv). lia. }
  split; [|split; [done|split; [|done]]].
  - pose proof (v_data _ Hv) as Hdata. pose proof (free_bit_ok ZMAP sp k s Hmap ltac:(lia)) as Hok.
    destruct Hv. split; rewrite ?Hsb; try done.
    intros z Hz. fold (rdb (write_bit ZMAP sp k false h s) z). rewrite Hrd by lia.
    unfold write_bit. simpl. rewrite readable_set. by apply Hdata.
  - intros x. unfold allocated. split.
    + intros [Hx Hb]. rewrite Hbit in Hb by lia. case_decide; [done|]. split; [done|]. left. lia.
    + intros [[Hx Hb] Hne]. split; [done|]. rewrite Hbit, decide_False by lia. done.
Qed.

(** *** [bmap] walks the tree *)

Lemma zone_block_eq s z : volume s → 0 <= z < 2 ^ 32 → zone_block (sb_at s sp) z = z.
Proof. intros Hv Hz. unfold zone_block. rewrite (v_lz _ Hv), Z.shiftl_0_r. by apply u32_small. Qed.
Lemma zn_range zones n : Forall (λ z, 0 <= z < 2 ^ 32) zones → 0 <= zn zones n < 2 ^ 32.
Proof.
  intros Hf. unfold zn, zget. destruct (_ <=? _); [|done]. destruct (zones !! Z.to_nat n) eqn:E; [|done].
  simpl. by eapply Forall_lookup_1 in E; [|exact Hf].
Qed.
Lemma allocated_range s z : volume s → allocated s z → 0 < z < 2 ^ 32.
Proof. intros Hv [Hz _]. pose proof (vol_range s Hv). lia. Qed.

(** Reading an allocated block. *)
Lemma fs_bread_zone s z : volume s → allocated s z →
  fs_bread dev (zone_block (sb_at s sp) z) s = Ret (Some (rdb s z)) s.
Proof.
  intros Hv Ha. pose proof (allocated_range s z Hv Ha). rewrite zone_block_eq by (done || lia).
  unfold fs_bread, gets, bread. destruct Ha as [Hz _]. by rewrite (proj1 (v_data _ Hv z Hz)).
Qed.
Lemma quot_1024 pos : 0 <= pos → Z.quot pos BLOCKSIZ = pos / 1024.
Proof. intros Hp. unfold BLOCKSIZ. apply Z.quot_div_nonneg; lia. Qed.

Lemma bmap_leaf s b e : file_ok s → owned s b → 0 <= e < 256 →
  (bh ← fs_bread dev (zone_block (sb_at s sp) b);
   match bh with
   | None => mret NOBLOCK
   | Some data =>
       if word data e =? NOZONE then mret NOBLOCK else mret (u32 (zone_block (sb_at s sp) (word data e) + 0))
   end) s = Ret (word (rdb s b) e) s.
Proof.
  intros [Hv _ Ht] Ha He. rewrite (bind_eval _ _ _ _ _ (fs_bread_zone s b Hv (proj1 Ha))).
  destruct (tr_A _ _ _ Ht _ Ha) as [_ Hok]. pose proof (word_range _ e Hok He) as Hr.
  rewrite zone_block_eq, Z.add_0_r, u32_small by done.
  destruct (Z.eqb_spec (word (rdb s b) e) NOZONE) as [->|]; done.
Qed.

Lemma bmap_eq s pos : file_ok s → 0 <= pos → pos / 1024 < NR_FILE_ZONES →
  bmap ip pos s = Ret (zone_of (izones s) (rdb s) (pos / 1024)) s.
Proof.
  intros Hf Hp Hk. pose proof Hf as [Hv _ Ht]. unfold NR_FILE_ZONES in Hk.
  assert (0 <= pos / 1024) as Hk0 by (apply Z.div_pos; lia).
  unfold bmap. rewrite bind_gets, (v_isp _ Hv). unfold deref, from_opt. rewrite bind_mret_l, bind_gets.
  rewrite (v_lz _ Hv), quot_1024, (v_ndz _ Hv), (v_nin _ Hv), (v_idev _ Hv) by done.
  rewrite (u32_small (pos / 1024)) by lia. cbv zeta. rewrite Z.shiftr_0_r, Z.shiftl_0_r.
  rewrite (u32_small (pos / 1024)), Z.sub_diag by lia. change (u32 0) with 0.
  set (k := pos / 1024) in *. clearbody k. unfold zone_of, NR_DZONES, NR_INDIRECTS.
  change (λ n, zone_at (ino_at s ip) n) with (λ n, zn (izones s) n).
  destruct (Z.ltb_spec k 7).
  { change (zone_at (ino_at s ip) k) with (zn (izones s) k).
    pose proof (zn_range (izones s) k (tr_range _ _ _ Ht)). destruct (Z.eqb_spec (zn (izones s) k) NOZONE) as [->|]; [done|].
    by rewrite zone_block_eq, Z.add_0_r, u32_small by done. }
  change (zone_at (ino_at s ip)) with (zn (izones s)).
  destruct (Z.ltb_spec (k - 7) 256), (Z.ltb_spec k 263); try lia.
  - rewrite bind_mret_l. destruct (Z.eqb_spec (zn (izones s) 7) NOZONE) as [E|E].
    + unfold ind. by rewrite E.
    + rewrite ind_nonzero by done. apply bmap_leaf; [done|by apply (tr_single _ _ _ Ht)|lia].
  - change (7 + 1) with 8. destruct (Z.eqb_spec (zn (izones s) 8) NOZONE) as [E|E].
    + rewrite bind_mret_l. unfold ind. by rewrite E.
    + pose proof (tr_double _ _ _ Ht E) as Ha. rewrite bind_assoc.
      rewrite (bind_eval _ _ _ _ _ (fs_bread_zone s _ Hv (proj1 Ha))). cbv beta iota zeta. rewrite bind_mret_l.
      replace (k - 7 - 256) with (k - 263) by lia.
      rewrite <-(ind_nonzero (rdb s) (zn (izones s) 8)) by done.
      assert (0 <= (k - 263) / 256 < 256) as Hd by (split; [apply Z.div_pos; lia|apply Z.div_lt_upper_bound; lia]).
      destruct (Z.eqb_spec (ind (rdb s) (zn (izones s) 8) ((k - 263) / 256)) NOZONE) as [E2|E2].
      * rewrite E2. done.
      * rewrite (ind_nonzero (rdb s) (ind (rdb s) _ _)) by done.
        apply bmap_leaf; [done|by apply (tr_second _ _ _ Ht)|apply Z.mod_pos_bound; lia].
Qed.

(** *** [minode] enters a zone in the tree *)

Lemma tree_ok_iff (A B : Z → Prop) zones rd : (∀ x, A x ↔ B x) → tree_ok A zones rd → tree_ok B zones rd.
Proof.
  intros HAB [? ? HA H7 H8 H2 ?]. split; try done.
  - intros z Hz. by apply HA, HAB.
  - intros Hz. rewrite <-HAB. by apply H7.
  - intros Hz. rewrite <-HAB. by apply H8.
  - intros n Hn Hz. rewrite <-HAB. by apply H2.
Qed.
Lemma tree_ok_ext (A : Z → Prop) zones rd rd' : (∀ x, A x → rd' x = rd x) → tree_ok A zones rd →
  tree_ok A zones rd' ∧ ∀ j, 0 <= j < NR_FILE_ZONES → zone_of zones rd' j = zone_of zones rd j.
Proof.
  intros Hrd Ht. assert (∀ n, ind rd' (zn zones 8) n = ind rd (zn zones 8) n) as H8.
  { intros n. apply ind_ext. intros Hz. by apply Hrd, (tr_double _ _ _ Ht). }
  split.
  - destruct Ht as [? ? HA ? ? H2 Hi]. split; try done; [|intros n; rewrite !H8; apply H2|intros n m; rewrite !H8; apply Hi].
    intros z Hz. rewrite Hrd by done. by apply HA.
  - intros j Hj. unfold zone_of. destruct (Z.ltb_spec j 7); [done|]. destruct (Z.ltb_spec j 263).
    + apply ind_ext. intros H7. by apply Hrd, (tr_single _ _ _ Ht).
    + rewrite H8. apply ind_ext. intros Hz. apply Hrd. unfold NR_FILE_ZONES in Hj.
      apply (tr_second _ _ _ Ht); [split; [apply Z.div_pos; lia|apply Z.div_lt_upper_bound; lia]|done].
Qed.

(** More zones in use. *)
Lemma tree_ok_mono (A B : Z → Prop) zones rd : (∀ x, A x → B x) → (∀ x, B x → x ≠ 0 ∧ block_ok (rd x)) →
  tree_ok A zones rd → tree_ok B zones rd.
Proof.
  intros HAB HB [? ? HA H7 H8 H2 ?]. split; try done.
  - intros Hz. destruct (H7 Hz). auto.
  - intros Hz. auto.
  - intros n Hn Hz. destruct (H2 n Hn Hz) as (? & ? & ?). auto.
Qed.

(** The last write of [minode]. *)
Definition finish (b : Z) (d : list Z) (s : fs) : fs := upd_ino ip touch (upd_dsk (set_block dev b d) s).
Lemma finish_spec b d s : volume s → fd <= b < nz → block_ok d →
  volume (finish b d s) ∧ izones (finish b d s) = izones s ∧
  (∀ z, rdb (finish b d s) z = if decide (z = b) then d else rdb s z) ∧
  (∀ z, allocated (finish b d s) z ↔ allocated s z).
Proof.
  intros Hv Hb Hd. pose proof (vol_bwrite s b d Hv Hb Hd) as Hv'. split_and!.
  - by apply vol_upd_ino.
  - unfold izones, finish. rewrite ino_at_upd_ino by apply (v_ip _ Hv'). by rewrite decide_True.
  - intros z. apply rdb_bwrite.
  - intros z. apply allocated_bwrite; [done|lia].
Qed.

(** What [minode] promises: [zone] entered at [k] and nothing else moved, or no
    zone left. *)
Definition entered (s s' : fs) (k zone : Z) : Prop :=
  file_ok s' ∧ (∀ z, allocated s z → allocated s' z) ∧ (∀ z, D z → rdb s' z = rdb s z) ∧
  ∀ j, 0 <= j < NR_FILE_ZONES →
    zone_of (izones s') (rdb s') j = if decide (j = k) then zone else zone_of (izones s) (rdb s) j.
Lemma set_zone_spec f n z s : volume s → 0 <= n < zlen (izones s) →
  (∀ i, f i = set_zone_at n z i ∨ f i = touch (set_zone_at n z i)) →
  volume (upd_ino ip f s) ∧ izones (upd_ino ip f s) = zset n z (izones s) ∧
  (∀ x, rdb (upd_ino ip f s) x = rdb s x) ∧ (∀ x, allocated (upd_ino ip f s) x ↔ allocated s x).
Proof.
  intros Hv Hn Hf. split_and!; try done.
  - apply vol_upd_ino; [done|]. intros i. by destruct (Hf i) as [-> | ->].
  - unfold izones. rewrite ino_at_upd_ino by apply (v_ip _ Hv). rewrite decide_True by done.
    by destruct (Hf (ino_at s ip)) as [-> | ->].
Qed.

(** Nothing moved in the file, only indirect blocks were added. *)
Definition same_file (s s' : fs) : Prop :=
  file_ok s' ∧ (∀ z, allocated s z → allocated s' z) ∧ (∀ z, D z → rdb s' z = rdb s z) ∧
  ∀ j, 0 <= j < NR_FILE_ZONES → zone_of (izones s') (rdb s') j = zone_of (izones s) (rdb s) j.
Definition refused (s s' : fs) : Prop :=
  same_file s s' ∧ ∀ z, fd <= z < nz → allocated s' z.

Lemma same_file_trans s1 s2 s3 : same_file s1 s2 → same_file s2 s3 → same_file s1 s3.
Proof.
  intros (_ & Ha & Hd & Hj) (Hf & Ha' & Hd' & Hj'). split; [done|]. split; [naive_solver|].
  split; [intros z Hz; by rewrite Hd', Hd|]. intros j Hr. by rewrite Hj', Hj.
Qed.
Lemma same_file_entered s1 s2 s3 k z : same_file s1 s2 → entered s2 s3 k z → entered s1 s3 k z.
Proof.
  intros (_ & Ha & Hd & Hj) (Hf & Ha' & Hd' & Hj'). split; [done|]. split; [naive_solver|].
  split; [intros x Hx; by rewrite Hd', Hd|]. intros j Hr. rewrite Hj' by done. case_decide; [done|by apply Hj].
Qed.

Lemma owned_same s s' zones rd : (∀ x, allocated s' x ↔ allocated s x) →
  tree_ok (owned s) zones rd → tree_ok (owned s') zones rd.
Proof. intros Ha. apply tree_ok_iff. intros x. unfold owned. by rewrite Ha. Qed.
Lemma owned_new s s' n : file_ok s → ¬ allocated s n → (∀ x, allocated s' x ↔ allocated s x ∨ x = n) →
  ∀ x, owned s' x ↔ owned s x ∨ x = n.
Proof.
  intros Hf Hn Ha x. unfold owned. rewrite Ha. pose proof (f_res _ Hf n). naive_solver.
Qed.

(** The zones and blocks of a file decide whether it is well formed. *)
Lemma same_file_intro s s' : file_ok s → volume s' → izones s' = izones s →
  (∀ x, allocated s x → rdb s' x = rdb s x) → (∀ x, allocated s' x ↔ allocated s x) → same_file s s'.
Proof.
  intros [Hv Hres Ht] Hv' Hz Hr Ha.
  destruct (tree_ok_ext _ _ _ (rdb s') (λ x Hx, Hr x (proj1 Hx)) Ht) as [Ht' Hj].
  split; [split; [done|intros z ?; by apply Ha, Hres|]; rewrite Hz; by apply (owned_same s)|].
  split; [intros z ?; by apply Ha|]. split; [intros z Hz'; by apply Hr, Hres|]. by rewrite Hz.
Qed.

Lemma file_alloc s : file_ok s →
  (∃ s', bitalloc (Some sp) ZMAP s = Ret NOZONE s' ∧ refused s s') ∨
  (∃ n s', bitalloc (Some sp) ZMAP s = Ret n s' ∧ volume s' ∧ izones s' = izones s ∧
     fd <= n < nz ∧ n ≠ NOZONE ∧ 0 < n < 2 ^ 32 ∧ ¬ allocated s n ∧
     (∀ x, allocated s' x ↔ allocated s x ∨ x = n) ∧ ∀ x, fd <= x → rdb s' x = rdb s x).
Proof.
  intros Hf. pose proof Hf as [Hv _ Ht]. pose proof (vol_range s Hv).
  assert (∀ s', inodes s' = inodes s → izones s' = izones s) as Hz by (intros s' Hi; unfold izones, ino_at; by rewrite Hi).
  destruct (vol_alloc s Hv) as [(s1 & Ha & Hv1 & Hi1 & Hr1 & Hal & Hfull)|(n & s1 & Ha & Hv1 & Hi1 & Hn & Hfree & Hal & Hr1)].
  - left. exists s1. split; [done|]. split; [apply same_file_intro; auto|]. intros z Hz'. by apply Hal, Hfull.
  - right. exists n, s1. split_and!; auto; unfold NOZONE; lia.
Qed.

(** A block of the tree is written in place. *)
Lemma write_leaf s b e zone : file_ok s → owned s b → 0 <= e < 256 →
  (bh ← mret (Some (b, rdb s b));
   match bh with
   | None => mret 0
   | Some (blk, data) =>
       fs_bwrite dev blk (set_word data e zone);; modify (upd_ino ip touch);; mret 1
   end) s = Ret 1 (finish b (set_word (rdb s b) e zone) s) ∧
  let s' := finish b (set_word (rdb s b) e zone) s in
  volume s' ∧ izones s' = izones s ∧
  (∀ z, rdb s' z = if decide (z = b) then set_word (rdb s b) e zone else rdb s z) ∧
  (∀ z, allocated s' z ↔ allocated s z).
Proof.
  intros [Hv _ Ht] Ha He. split; [done|]. apply finish_spec; [done|by apply Ha|].
  apply block_ok_set_word; [by apply (tr_A _ _ _ Ht)|done].
Qed.

Lemma minode_single_spec s e zone : file_ok s → 0 <= e < 256 → 0 <= zone < 2 ^ 32 →
  (∃ s', minode_single ip sp e zone s = Ret 1 s' ∧ entered s s' (7 + e) zone) ∨
  (∃ s', minode_single ip sp e zone s = Ret 0 s' ∧ refused s s').
Proof.
  intros Hf He Hz. pose proof Hf as [Hv Hres Ht]. unfold minode_single. rewrite !bind_gets, (v_ndz _ Hv), (v_idev _ Hv). cbv zeta.
  change (zone_at (ino_at s ip) NR_DZONES) with (zn (izones s) 7). unfold NR_DZONES.
  pose proof (tr_len _ _ _ Ht) as Hlen.
  destruct (Z.eqb_spec (zn (izones s) 7) NOZONE) as [E|E].
  - rewrite bind_assoc.
    destruct (file_alloc s Hf) as [(s1 & Ha & Href)|(n & s1 & Ha & Hv1 & Hz1 & Hn & Hn0 & Hn32 & Hfree & Hal & Hr1)].
    { right. exists s1. by rewrite (bind_eval _ _ _ _ _ Ha), Z.eqb_refl, bind_mret_l. }
    left. eexists. rewrite (bind_eval _ _ _ _ _ Ha), (proj2 (Z.eqb_neq n NOZONE)) by done.
    rewrite bind_assoc, bind_modify, bind_mret_l, zone_block_eq by (done || lia).
    unfold fs_bwrite. rewrite !bind_modify. split; [done|].
    destruct (set_zone_spec (set_zone_at 7 n) 7 n s1 Hv1 ltac:(rewrite Hz1; lia) ltac:(by left)) as (Hv2 & Hz2 & Hr2 & Hal2).
    set (s2 := upd_ino ip (set_zone_at 7 n) s1) in *. clearbody s2.
    assert (block_ok (set_word zero_block e zone)) as Hbok by (apply block_ok_set_word; [apply zero_block_ok|done]).
    destruct (finish_spec n _ s2 Hv2 Hn Hbok) as (Hv3 & Hz3 & Hr3 & Hal3). fold (finish n (set_word zero_block e zone) s2).
    set (s3 := finish n (set_word zero_block e zone) s2) in *. clearbody s3.
    assert (∀ x, allocated s3 x ↔ allocated s x ∨ x = n) as HalE by (intros x; by rewrite Hal3, Hal2, Hal).
    destruct (tree_new_single (owned s) (izones s) (rdb s) Ht (owned s3) n (owned_new s s3 n Hf Hfree HalE)
      ltac:(lia) (λ Hx, Hfree (proj1 Hx)) (λ x, if decide (x = n) then zero_block else rdb s x)) as [Ht1 Hj1]; [done|by rewrite decide_True| |].
    { intros x [Hx _]. rewrite decide_False; [done|]. intros ->. done. }
    assert (zn (zset 7 n (izones s)) 7 = n) as Hzn by (rewrite zn_zset by lia; by rewrite decide_True).
    destruct (tree_single (owned s3) _ _ Ht1 (rdb s3) e zone) as [Ht2 Hj2]; [by rewrite Hzn|done|done| |].
    { intros x Hx. rewrite Hzn, Hr3, (decide_True (P:=n = n)) by done. case_decide; [done|].
      rewrite Hr2, Hr1; [done|]. apply Hx. }
    rewrite <-Hz1, <-Hz2, <-Hz3 in Ht2, Hj2.
    split; [split; [done|intros z ?; apply HalE; left; by apply Hres|done]|].
    split; [intros z ?; apply HalE; by left|].
    split; [intros z Hdz%Hres; rewrite Hr3, decide_False, Hr2, Hr1; [done|apply Hdz|intros ->; done]|]. intros j Hj. rewrite Hj2 by done. case_decide; [done|].
    rewrite Hz3, Hz2, Hz1. by apply Hj1.
  - destruct (tr_single _ _ _ Ht E) as [Ha _]. pose proof (allocated_range s _ Hv (proj1 Ha)).
    left. rewrite bind_assoc, (bind_eval _ _ _ _ _ (fs_bread_zone s _ Hv (proj1 Ha))), zone_block_eq by (done || lia).
    destruct (write_leaf s _ e zone Hf Ha He) as (Hw & Hv3 & Hz3 & Hr3 & Hal3). eexists. split; [exact Hw|].
    set (s3 := finish _ _ s) in *. clearbody s3.
    destruct (tree_single (owned s) _ _ Ht (rdb s3) e zone) as [Ht2 Hj2]; [done|done|done|by intros; apply Hr3|].
    rewrite <-Hz3 in Ht2, Hj2. split; [split; [done|intros z ?; by apply Hal3, Hres|by apply (owned_same s)]|].
    split; [intros z ?; by apply Hal3|].
    split; [intros z Hdz; rewrite Hr3, decide_False; [done|]; intros ->; by apply Ha|]. intros j Hj. rewrite Hj2 by done. by rewrite Hz3.
Qed.

(** The double indirect block is there afterwards. *)
Lemma minode_top_spec s : file_ok s →
  (∃ s', minode_top ip sp s = Ret (Some (zn (izones s') 8, rdb s' (zn (izones s') 8))) s' ∧
     zn (izones s') 8 ≠ 0 ∧ same_file s s') ∨
  (∃ s', minode_top ip sp s = Ret None s' ∧ refused s s').
Proof.
  intros Hf. pose proof Hf as [Hv Hres Ht]. unfold minode_top. rewrite !bind_gets, (v_ndz _ Hv), (v_idev _ Hv). cbv zeta.
  change (zone_at (ino_at s ip) (NR_DZONES + 1)) with (zn (izones s) 8). change (NR_DZONES + 1) with 8.
  pose proof (tr_len _ _ _ Ht) as Hlen.
  destruct (Z.eqb_spec (zn (izones s) 8) NOZONE) as [E|E].
  - destruct (file_alloc s Hf) as [(s1 & Ha & Href)|(n & s1 & Ha & Hv1 & Hz1 & Hn & Hn0 & Hn32 & Hfree & Hal & Hr1)].
    { right. exists s1. by rewrite (bind_eval _ _ _ _ _ Ha), Z.eqb_refl. }
    left. rewrite (bind_eval _ _ _ _ _ Ha), (proj2 (Z.eqb_neq n NOZONE)) by done.
    unfold fs_bwrite. rewrite !bind_modify, zone_block_eq by (done || lia).
    destruct (set_zone_spec (λ i, touch (set_zone_at 8 n i)) 8 n s1 Hv1 ltac:(rewrite Hz1; lia) ltac:(by right)) as (Hv2 & Hz2 & Hr2 & Hal2).
    set (s2 := upd_ino ip _ s1) in *. clearbody s2.
    pose proof (vol_bwrite s2 n zero_block Hv2 Hn zero_block_ok) as Hv3.
    pose proof (λ z, rdb_bwrite s2 n zero_block z) as Hr3.
    assert (∀ z, allocated (upd_dsk (set_block dev n zero_block) s2) z ↔ allocated s z ∨ z = n) as Hal3.
    { intros z. rewrite allocated_bwrite by (done || lia). by rewrite Hal2, Hal. }
    assert (izones (upd_dsk (set_block dev n zero_block) s2) = zset 8 n (izones s)) as Hz3 by (by rewrite <-Hz1, <-Hz2).
    set (s3 := upd_dsk _ s2) in *. clearbody s3. exists s3.
    assert (zn (zset 8 n (izones s)) 8 = n) as Hzn by (rewrite zn_zset by lia; by rewrite decide_True).
    rewrite Hz3, Hzn, Hr3, decide_True by done. split; [done|]. split; [done|].
    destruct (tree_new_double (owned s) (izones s) (rdb s) Ht (owned s3) n (owned_new s s3 n Hf Hfree Hal3)
      ltac:(lia) (λ Hx, Hfree (proj1 Hx)) (rdb s3))
      as [Ht3 Hj3]; [done|by rewrite Hr3, decide_True| |].
    { intros x [Hx _]. rewrite Hr3, decide_False, Hr2, Hr1; [done|by apply Hx|]. intros ->. done. }
    split; [split; [done|intros z ?; apply Hal3; left; by apply Hres|by rewrite Hz3]|].
    split; [intros z ?; apply Hal3; by left|].
    split; [intros z Hdz%Hres; rewrite Hr3, decide_False, Hr2, Hr1; [done|apply Hdz|intros ->; done]|].
    intros j Hj. rewrite Hz3. by apply Hj3.
  - left. exists s. pose proof (tr_double _ _ _ Ht E) as [Ha _]. pose proof (allocated_range s _ Hv Ha).
    rewrite (bind_eval _ _ _ _ _ (fs_bread_zone s _ Hv Ha)), zone_block_eq by (done || lia).
    split; [done|]. split; [done|]. by apply same_file_intro.
Qed.

Lemma refused_touch s s' : refused s s' → refused s (upd_ino ip touch s').
Proof.
  intros [(Hf & Ha & Hd & Hj) Hfull]. pose proof Hf as [Hv _ _]. split; [|exact Hfull].
  apply (same_file_trans _ s'); [done|]. apply same_file_intro; try done; [by apply vol_upd_ino|].
  unfold izones. rewrite ino_at_upd_ino by apply (v_ip _ Hv). by rewrite decide_True.
Qed.

(** The second-level block and the entry in it. *)
Lemma minode_double_from s e zone : file_ok s → zn (izones s) 8 ≠ 0 → 0 <= e < 65536 → 0 <= zone < 2 ^ 32 →
  zone_of (izones s) (rdb s) (263 + e) = 0 →
  let r := (r ← minode_second ip sp (zn (izones s) 8) (e / 256) (rdb s (zn (izones s) 8));
     match r with
     | None => mret 0
     | Some (blk, data) =>
         die_if (negb (word data (e mod 256) =? NOZONE));;
         fs_bwrite dev blk (set_word data (e mod 256) zone);;
         modify (upd_ino ip touch);;
         mret 1
     end) s in
  (∃ s', r = Ret 1 s' ∧ entered s s' (263 + e) zone) ∨ (∃ s', r = Ret 0 s' ∧ refused s s').
Proof.
  intros Hf H8 He Hz Hhole. pose proof Hf as [Hv Hres Ht]. cbv zeta. unfold minode_second.
  rewrite bind_assoc, bind_gets, bind_assoc, bind_gets, (v_idev _ Hv). cbv zeta.
  rewrite <-(ind_nonzero (rdb s) _ (e / 256)) by done.
  assert (0 <= e / 256 < 256) as Hi by (split; [apply Z.div_pos; lia|apply Z.div_lt_upper_bound; lia]).
  pose proof (Z.mod_pos_bound e 256 ltac:(lia)) as Hm. pose proof (Z.div_mod e 256 ltac:(lia)) as Hdm.
  unfold zone_of in Hhole. rewrite (proj2 (Z.ltb_ge _ 7)), (proj2 (Z.ltb_ge _ 263)) in Hhole by lia.
  replace (263 + e - 263) with e in Hhole by lia.
  set (i := e / 256) in *. set (m := e mod 256) in *. clearbody i m. pose proof (tr_double _ _ _ Ht H8) as Ha8.
  destruct (Z.eqb_spec (ind (rdb s) (zn (izones s) 8) i) NOZONE) as [E|E].
  - rewrite bind_assoc.
    destruct (file_alloc s Hf) as [(s1 & Ha & Href)|(n & s1 & Ha & Hv1 & Hz1 & Hn & Hn0 & Hn32 & Hfree & Hal & Hr1)].
    { right. eexists. rewrite (bind_eval _ _ _ _ _ Ha), Z.eqb_refl, bind_assoc, bind_modify, bind_mret_l.
      split; [done|]. by apply refused_touch. }
    left. eexists. rewrite (bind_eval _ _ _ _ _ Ha), (proj2 (Z.eqb_neq n NOZONE)) by done.
    unfold fs_bwrite. rewrite bind_assoc, bind_modify, bind_mret_l, zone_block_eq by (done || lia).
    rewrite word_zero_block by done. unfold die_if. cbn [Z.eqb NOZONE negb]. rewrite bind_mret_l, !bind_modify. split; [done|].
    set (d8 := set_word (rdb s (zn (izones s) 8)) i n).
    assert (block_ok d8) as Hd8 by (apply block_ok_set_word; [by apply (tr_A _ _ _ Ht)|done]).
    assert (fd <= zn (izones s) 8 < nz) as Hr8 by apply Ha8.
    pose proof (vol_bwrite s1 (zn (izones s) 8) d8 Hv1 Hr8 Hd8) as Hv2.
    pose proof (λ z, rdb_bwrite s1 (zn (izones s) 8) d8 z) as Hr2.
    assert (∀ z, allocated (upd_dsk (set_block dev (zn (izones s) 8) d8) s1) z ↔ allocated s z ∨ z = n) as Hal2.
    { intros z. rewrite allocated_bwrite by (done || lia). by rewrite Hal. }
    assert (izones (upd_dsk (set_block dev (zn (izones s) 8) d8) s1) = izones s) as Hz2 by (by rewrite <-Hz1).
    set (s2 := upd_dsk _ s1) in *. clearbody s2.
    assert (block_ok (set_word zero_block m zone)) as Hbok by (apply block_ok_set_word; [apply zero_block_ok|done]).
    destruct (finish_spec n _ s2 Hv2 Hn Hbok) as (Hv3 & Hz3 & Hr3 & Hal3). fold (finish n (set_word zero_block m zone) s2).
    set (s3 := finish n (set_word zero_block m zone) s2) in *. clearbody s3.
    assert (∀ x, allocated s3 x ↔ allocated s x ∨ x = n) as HalE by (intros x; by rewrite Hal3, Hal2).
    set (rd1 := λ x, if decide (x = n) then zero_block else if decide (x = zn (izones s) 8) then d8 else rdb s x).
    destruct (tree_new_second (owned s) (izones s) (rdb s) Ht (owned s3) n (owned_new s s3 n Hf Hfree HalE)
      ltac:(lia) (λ Hx, Hfree (proj1 Hx)) rd1 i)
      as (Ht1 & Hi1 & Hj1); [done|done|done|unfold rd1; by rewrite decide_True| |].
    { intros x [Hx _]. unfold rd1. rewrite (decide_False (P:=x = n)) by (intros ->; done). done. }
    destruct (tree_second (owned s3) _ _ Ht1 (rdb s3) i m zone) as [Ht2 Hj2]; [done|by rewrite Hi1|done|done| |].
    { intros x Hx. rewrite Hi1, Hr3, Hr2. unfold rd1. rewrite (decide_True (P:=n = n)) by done.
      repeat case_decide; try done. rewrite Hr1; [done|]. apply Hx. }
    rewrite <-Hz2, <-Hz3 in Ht2, Hj2.
    split; [split; [done|intros z ?; apply HalE; left; by apply Hres|done]|].
    split; [intros z ?; apply HalE; by left|].
    split; [intros z Hdz; rewrite Hr3, decide_False, Hr2, decide_False, Hr1; [done|apply (Hres _ Hdz)| |];
      [intros ->; by apply Ha8|intros ->; by apply Hfree, Hres]|].
    intros j Hj. rewrite Hj2 by done. replace (263 + 256 * i + m) with (263 + e) by lia. case_decide; [done|].
    rewrite Hz3, Hz2. by apply Hj1.
  - destruct (tr_second _ _ _ Ht i Hi E) as (Ha & _). pose proof (allocated_range s _ Hv (proj1 Ha)).
    left. rewrite bind_assoc, (bind_eval _ _ _ _ _ (fs_bread_zone s _ Hv (proj1 Ha))), zone_block_eq by (done || lia).
    rewrite bind_mret_l. cbn [fmap option_fmap option_map].
    rewrite ind_nonzero in Hhole by done. rewrite Hhole. unfold die_if. cbn [Z.eqb NOZONE negb]. rewrite bind_mret_l.
    set (b := ind (rdb s) (zn (izones s) 8) i) in *.
    destruct (write_leaf s b m zone Hf Ha Hm) as (Hw & Hv3 & Hz3 & Hr3 & Hal3). eexists. split; [exact Hw|].
    set (s3 := finish _ _ s) in *. clearbody s3.
    destruct (tree_second (owned s) _ _ Ht (rdb s3) i m zone) as [Ht2 Hj2]; [done|done|done|done|by intros; apply Hr3|].
    rewrite <-Hz3 in Ht2, Hj2. split; [split; [done|intros z ?; by apply Hal3, Hres|by apply (owned_same s)]|].
    split; [intros z ?; by apply Hal3|].
    split; [intros z Hdz; rewrite Hr3, decide_False; [done|]; intros ->; by apply Ha|]. intros j Hj. rewrite Hj2 by done. rewrite Hz3.
    by replace (263 + 256 * i + m) with (263 + e) by lia.
Qed.

Lemma minode_double_spec s e zone : file_ok s → 0 <= e < 65536 → 0 <= zone < 2 ^ 32 →
  zone_of (izones s) (rdb s) (263 + e) = 0 →
  (∃ s', minode_double ip sp e zone s = Ret 1 s' ∧ entered s s' (263 + e) zone) ∨
  (∃ s', minode_double ip sp e zone s = Ret 0 s' ∧ refused s s').
Proof.
  intros Hf He Hz Hhole. unfold minode_double.
  rewrite bind_gets, (v_nin _ (f_vol _ Hf)), (v_idev _ (f_vol _ Hf)). unfold NR_INDIRECTS. cbv zeta.
  destruct (minode_top_spec s Hf) as [(s1 & Ht & H8 & Hs)|(s1 & Ht & Href)]; rewrite (bind_eval _ _ _ _ _ Ht).
  - assert (zone_of (izones s1) (rdb s1) (263 + e) = 0) as Hh1.
    { destruct Hs as (_ & _ & _ & Hj). rewrite Hj; [done|]. unfold NR_FILE_ZONES. lia. }
    destruct (minode_double_from s1 e zone (proj1 Hs) H8 He Hz Hh1) as [(s2 & Hr & Hen)|(s2 & Hr & Href)].
    + left. exists s2. split; [exact Hr|]. by apply (same_file_entered _ s1).
    + right. exists s2. split; [exact Hr|]. destruct Href as [Hs2 ?]. split; [by apply (same_file_trans _ s1)|done].
  - right. by exists s1.
Qed.
End volume.

Section claims.
Context {S PS : Type} `{BlockLaws S}.
Notation fs := (fs_state S PS).

Lemma minode_spec ip sp dev fd nz D (s : fs) pos zone : file_ok ip sp dev fd nz D s →
  0 <= pos → pos / 1024 < NR_FILE_ZONES → 0 <= zone < 2 ^ 32 → bmap ip pos s = Ret NOBLOCK s →
  (∃ s', minode ip pos zone s = Ret 1 s' ∧ entered ip sp dev fd nz D s s' (pos / 1024) zone) ∨
  (∃ s', minode ip pos zone s = Ret 0 s' ∧ refused ip sp dev fd nz D s s').
Proof.
  intros Hf Hp Hk Hz Hhole. rewrite (bmap_eq ip sp dev fd nz D) in Hhole by done. injection Hhole as Hhole.
  pose proof Hf as [Hv Hres Ht]. assert (0 <= pos / 1024) as Hk0 by (apply Z.div_pos; lia).
  unfold minode. rewrite bind_gets, (v_isp _ _ _ _ _ _ Hv). unfold deref, from_opt. rewrite bind_mret_l, bind_gets.
  rewrite (v_lz _ _ _ _ _ _ Hv), quot_1024, Z.shiftr_0_r, (v_ndz _ _ _ _ _ _ Hv), (v_nin _ _ _ _ _ _ Hv) by done.
  unfold NR_FILE_ZONES in Hk. rewrite u32_small by lia. cbv zeta. unfold NR_DZONES, NR_INDIRECTS.
  set (k := pos / 1024) in *. clearbody k. destruct (Z.ltb_spec k 7); [|destruct (Z.ltb_spec (k - 7) 256)].
  - left. eexists. rewrite bind_modify. split; [done|].
    destruct (set_zone_spec ip sp dev fd nz (λ i, touch (set_zone_at k zone i)) k zone s Hv) as (Hv2 & Hz2 & Hr2 & Hal2);
      [pose proof (tr_len _ _ _ Ht); lia|by right|].
    destruct (tree_direct _ _ _ Ht k zone ltac:(lia) Hz) as [Ht1 Hj1].
    set (s2 := upd_ino ip _ s) in *. clearbody s2.
    destruct (tree_ok_ext _ _ _ (rdb dev s2) (λ x _, Hr2 x) Ht1) as [Ht2 Hj2].
    split; [split; [done|intros z ?; by apply Hal2, Hres|]; rewrite Hz2; by apply (owned_same sp fd nz D s)|].
    split; [intros z ?; by apply Hal2|]. split; [intros z _; apply Hr2|]. intros j Hj. rewrite Hz2, Hj2 by done. by apply Hj1.
  - destruct (minode_single_spec ip sp dev fd nz D s (k - 7) zone Hf ltac:(lia) Hz) as [(s' & He & Hen)|(s' & He & Href)].
    + left. exists s'. split; [done|]. by replace (7 + (k - 7)) with k in Hen by lia.
    + right. by exists s'.
  - replace (k - 7 - 256) with (k - 263) by lia.
    destruct (minode_double_spec ip sp dev fd nz D s (k - 263) zone Hf ltac:(lia) Hz) as [(s' & He & Hen)|(s' & He & Href)].
    + by replace (263 + (k - 263)) with k by lia.
    + left. exists s'. split; [done|]. by replace (263 + (k - 263)) with k in Hen by lia.
    + right. by exists s'.
Qed.

(** C19. [minode] and [bmap] are the update and the lookup of one map from file
    positions to blocks.  Entering a zone at a hole makes [bmap] return it there
    and changes no other position, through direct, single and double indirect
    zones; when it fails, no zone of the volume is free and the file is as it
    was.  Both keep the tree of indirect blocks well formed and leave the
    contents of the zones [D] alone: the file's data and any other file's. *)
Theorem minode_bmap ip sp dev fd nz D (s : fs) pos zone : file_ok ip sp dev fd nz D s →
  0 <= pos → pos / 1024 < NR_FILE_ZONES → 0 <= zone < 2 ^ 32 → bmap ip pos s = Ret NOBLOCK s →
  ∃ r s', minode ip pos zone s = Ret r s' ∧ file_ok ip sp dev fd nz D s' ∧ (r = 0 ∨ r = 1) ∧
    (r = 0 → ∀ z, fd <= z < nz → allocated sp fd nz s' z) ∧
    (∀ z, D z → block_at (dsk s') dev z = block_at (dsk s) dev z) ∧
    ∀ pos', 0 <= pos' → pos' / 1024 < NR_FILE_ZONES →
      ∃ b, bmap ip pos' s = Ret b s ∧
        bmap ip pos' s' = Ret (if decide (r = 1 ∧ pos' / 1024 = pos / 1024) then zone else b) s'.
Proof.
  intros Hf Hp Hk Hz Hhole.
  destruct (minode_spec ip sp dev fd nz D s pos zone Hf Hp Hk Hz Hhole)
    as [(s' & He & Hok & _ & Hd & Hj)|(s' & He & (Hok & _ & Hd & Hj) & Hfull)]; eexists _, s';
    (split; [exact He|]); (split; [done|]); (split; [lia|]); (split; [done || lia|]); (split; [exact Hd|]); intros pos' Hp' Hk';
    exists (zone_of (izones ip s) (rdb dev s) (pos' / 1024));
    (split; [by apply (bmap_eq ip sp dev fd nz D)|]);
    rewrite (bmap_eq ip sp dev fd nz D) by done; f_equal;
    rewrite Hj by (split; [apply Z.div_pos; lia|done]); repeat case_decide; naive_solver.
Qed.
End claims.

(** ** Example: the root directory's inode on the volume of Super.v *)

Definition demo_inode : inode :=
  set_i_zone [5; 0; 0; 0; 0; 0; 0; 0; 0; 0]
    (set_i_sp (Some 0) (set_i_nindirs 256 (set_i_ndzones 7 (set_i_num 1 (set_i_dev 1 (set_i_count 1
      (set_i_size 64 (set_i_nlinks 2 (set_i_mode 0x41ed null_inode))))))))).
Definition demo_file_fs : fs_state plain_disk unit :=
  upd_inodes (λ _, [demo_inode]) demo_fs.

(** Its data is in zone 5. *)
Definition demo_data (z : Z) : Prop := z = 5.

Lemma demo_file_ok : file_ok 0 0 1 5 20 demo_data demo_file_fs.
Proof.
  assert (∀ z, block_ok (block_at (dsk demo_file_fs) 1 z)) as Hblk.
  { intros z. simpl. destruct (_ !! _) as [d|] eqn:E; [|apply zero_block_ok].
    apply lookup_insert_Some in E as [[_ <-]|[_ E]]; [exact demo_map_ok|].
    apply lookup_singleton_Some in E as [_ <-]. exact demo_map_ok. }
  split; [split; try done|intros z ->; by split|split; try done].
  - destruct (demo_fs_ok ZMAP (or_intror eq_refl)). by split.
  - repeat constructor; done.
  - intros z [[Hz _] _]. split; [lia|apply Hblk].
Qed.
Lemma minode_bmap_witness :
  ∃ s', minode 0 (20 * 1024) 9 demo_file_fs = Ret 1 s' ∧ file_ok 0 0 1 5 20 demo_data s' ∧
    bmap 0 (20 * 1024) s' = Ret 9 s' ∧ bmap 0 0 s' = Ret 5 s'.
Proof.
  destruct (minode_bmap 0 0 1 5 20 demo_data demo_file_fs (20 * 1024) 9 demo_file_ok ltac:(lia) ltac:(done) ltac:(done)
    ltac:(vm_compute; reflexivity)) as (r & s' & He & Hok & Hr & _ & _ & Hmap).
  destruct Hr as [-> | ->].
  { exfalso. assert (minode 0 (20 * 1024) 9 demo_file_fs ≠ Ret 0 s') as Hn by (vm_compute; discriminate). by apply Hn. }
  exists s'. split; [exact He|]. split; [exact Hok|]. split.
  - destruct (Hmap (20 * 1024) ltac:(lia) ltac:(done)) as (b & _ & ->). done.
  - destruct (Hmap 0 ltac:(lia) ltac:(done)) as (b & Hb & ->). vm_compute in Hb. injection Hb as <-. done.
Defined.
