(* ===== verification/Inode.v ===== *)
(** * The inode cache (fs/inode.c)

    In-memory inodes are found through 64 hash lists and recycled through a
    free list; both are threaded through the inodes.  [iget] returns a locked
    inode with one more user, [iput] drops a user. *)

From S2P Require Import Prelude Blocks Pages Dlist FsState Super Zone.
From stdpp Require Import base numbers functions gmap list.

Local Open Scope Z_scope.

(** ** Inodes on the disk *)

Definition s8 (z : Z) : Z := (z + 2 ^ 7) mod 2 ^ 8 - 2 ^ 7.

(** [icopy(inoptr, tmp)] from the 64 bytes at [off] of a block. *)
Definition inode_from_disk (d : list Z) (off : Z) (i : inode) : inode :=
  set_i_zone ((λ k, load 4 (off + 24 + 4 * k) d) <$> seqZ 0 NR_ZONES)
    (set_i_ctime (load 4 (off + 20) d) (set_i_mtime (load 4 (off + 16) d)
      (set_i_atime (load 4 (off + 12) d) (set_i_size (s32 (load 4 (off + 8) d))
        (set_i_gid (s8 (load 1 (off + 6) d)) (set_i_uid (s16 (load 2 (off + 4) d))
          (set_i_nlinks (s8 (load 1 (off + 2) d)) (set_i_mode (load 2 off d) i)))))))).
(** [icopy(tmp, inoptr)] *)
Definition inode_to_disk (i : inode) (off : Z) (d : list Z) : list Z :=
  let d := store 2 off (u16 (i_mode i)) d in
  let d := store 1 (off + 2) (u8 (i_nlinks i)) d in
  let d := store 2 (off + 4) (u16 (i_uid i)) d in
  let d := store 1 (off + 6) (u8 (i_gid i)) d in
  let d := store 4 (off + 8) (u32 (i_size i)) d in
  let d := store 4 (off + 12) (u32 (i_atime i)) d in
  let d := store 4 (off + 16) (u32 (i_mtime i)) d in
  let d := store 4 (off + 20) (u32 (i_ctime i)) d in
  foldl (λ d k, store 4 (off + 24 + 4 * k) (u32 (zone_at i k)) d) d (seqZ 0 NR_ZONES).

(** [ihashfn] *)
Definition ihashfn (dev ino : Z) : Z := Z.rem (Z.lxor dev ino) NR_INODE_HASH.

Section inode.
Context {S PS : Type} `{BlockStore S, PageAlloc PS}.
Notation fs := (fs_state S PS).
(** [socket_close] of net/socket.c. *)
Context (socket_close : Z → M fs unit).

Definition lift_pg {A} (c : M PS A) : M fs A := λ s,
  match c (pgs s) with
  | Ret a g => Ret a (upd_pgs (λ _, g) s)
  | Die => Die
  | Sleep g => Sleep (upd_pgs (λ _, g) s)
  end.

(** ** Initialisation *)

(** [memset] clears the inode; the counters are set and it joins the lists. *)
Definition init_one (i : Z) (s : fs) : fs :=
  let s := upd_ino i (λ _, set_i_count 0 (set_i_dev NODEV null_inode)) s in
  let s := list_add_head IFreeHead (IFreeN i) s in
  list_head_init (IHashN i) s.
Definition init_inode (s : fs) : fs :=
  let s := list_head_init IFreeHead s in
  let s := upd_inode_free_num (λ _, NR_INODE) s in
  let s := foldl (λ s i, init_one i s) s (seqZ 0 NR_INODE) in
  foldl (λ s h, list_head_init (IHead h) s) s (seqZ 0 NR_INODE_HASH).

(** ** The hash lists *)

(** [list_foreach(tmp, pos, hash)]; the list has at most [fuel] nodes. *)
Fixpoint get_ihash_loop (fuel : nat) (hash dev ino : Z) (tmp : iptr) : M fs (option Z) :=
  if decide (tmp = IHead hash) then mret None
  else
    match fuel, tmp with
    | Datatypes.S fuel, IHashN i =>
        pos ← gets (λ s, nxt s tmp);
        die_if (bool_decide (pos = tmp));;
        p ← gets (λ s, ino_at s i);
        if (i_dev p =? dev) && (i_num p =? ino) then mret (Some i)
        else get_ihash_loop fuel hash dev ino pos
    | _, _ => die
    end.
Definition get_ihash (dev ino : Z) : M fs (option Z) :=
  let hash := ihashfn dev ino in
  tmp ← gets (λ s, nxt s (IHead hash));
  get_ihash_loop (Z.to_nat NR_INODE) hash dev ino tmp.
Definition put_ihash (ip : Z) (s : fs) : fs :=
  let p := ino_at s ip in
  list_add_head (IHead (ihashfn (i_dev p) (i_num p))) (IHashN ip) s.

Definition set_flag (f : Z) (i : inode) : inode := set_i_flags (Z.lor (i_flags i) f) i.
Definition clear_iflag (f : Z) (i : inode) : inode := set_i_flags (Z.land (i_flags i) (u16 (Z.lnot f))) i.

(** [ilock] *)
Definition ilock (ip : Z) : M fs unit :=
  p ← gets (λ s, ino_at s ip);
  me ← gets (λ s, pid (current s));
  if has (i_flags p) LOCK_I then
    die_if (i_lockowner p =? me);;
    modify (upd_ino ip (set_flag WANT_I));;
    sleepon
  else modify (upd_ino ip (λ i, set_i_lockowner me (set_flag LOCK_I i))).

(** ** Reading and writing inodes *)

(** The block of an inode and its offset there. *)
Definition inode_block (p : super_block) (ino : Z) : Z :=
  u32 (2 + s_imblocks p + s_zmblocks p + u32 (ino - 1) / s_ipblock p).
Definition inode_off (p : super_block) (ino : Z) : Z := (u32 (ino - 1) mod s_ipblock p) * INODE_SIZE.

Definition iread (ip : Z) : M fs unit :=
  i ← gets (λ s, ino_at s ip);
  sp ← sread (i_dev i);
  sp ← deref sp;
  p ← gets (λ s, sb_at s sp);
  bh ← fs_bread (i_dev i) (inode_block p (i_num i));
  match bh with
  | None => die
  | Some d =>
      modify (upd_ino ip (λ j, set_i_sp (Some sp) (inode_from_disk d (inode_off p (i_num i)) j)))
  end.

(** The time stamps that [i_update] asks for. *)
Definition stamp (now : Z) (i : inode) : inode :=
  let i := if has (i_update i) ATIME then set_i_atime now i else i in
  let i := if has (i_update i) MTIME then set_i_mtime now i else i in
  if has (i_update i) CTIME then set_i_ctime now i else i.

Definition iwrite (ip : Z) : M fs unit :=
  i ← gets (λ s, ino_at s ip);
  sp ← sread (i_dev i);
  sp ← deref sp;
  p ← gets (λ s, sb_at s sp);
  bh ← fs_bread (i_dev i) (inode_block p (i_num i));
  match bh with
  | None => die
  | Some d =>
      now ← gets curclock;
      modify (upd_ino ip (stamp now));;
      i ← gets (λ s, ino_at s ip);
      fs_bwrite (i_dev i) (inode_block p (i_num i)) (inode_to_disk i (inode_off p (i_num i)) d);;
      modify (upd_ino ip (λ i, set_i_update 0 (set_i_dirty 0 i)))
  end.

(** ** [iget] *)

(** The inode is in the cache, or left in [tmp] by a turn that wrote it out. *)
Definition iget_found (tmp ino : Z) : M fs (Z + Z) :=
  t ← gets (λ s, ino_at s tmp);
  if has (i_flags t) LOCK_I then
    modify (upd_ino tmp (set_flag WANT_I));;
    sleepon
  else
    again ← (if has (i_flags t) MOUNT_I then
       sp ← deref (i_mounts t);
       p ← gets (λ s, sb_at s sp);
       r ← deref (s_rooti p);
       rooti ← gets (λ s, ino_at s r);
       mret (if i_num rooti =? ino then None else Some (i_num rooti))
     else mret None);
    match again with
    | Some ino => mret (inr ino)
    | None =>
        when (i_count t =? 0)
          (modify (list_del1 (IFreeN tmp));;
           modify (upd_inode_free_num (λ n, n - 1)));;
        me ← gets (λ s, pid (current s));
        modify (upd_ino tmp (λ i,
          set_i_count (i_count i + 1) (set_i_lockowner me (set_flag LOCK_I i))));;
        mret (inl tmp)
    end.

(** The first inode of the free list is emptied and filled again. *)
Definition iget_fill (tmp dev ino : Z) : M fs unit :=
  modify (upd_ino tmp (set_i_dev dev));;
  when (negb (dev =? NODEV))
    (modify (upd_ino tmp (set_i_num ino));;
     iread tmp;;
     modify (upd_ino tmp (λ i, set_i_nindirs NR_INDIRECTS (set_i_ndzones NR_DZONES i))));;
  me ← gets (λ s, pid (current s));
  modify (upd_ino tmp (λ i,
    set_i_update 0 (set_i_mounts None (set_i_lockowner me (set_i_flags LOCK_I
      (set_i_dirty 0 (set_i_count 1 i)))))));;
  when (negb (dev =? NODEV)) (modify (put_ihash tmp));;
  modify (upd_inode_free_num (λ n, n - 1)).

Fixpoint iget_loop (fuel : nat) (dev ino : Z) (tmp : option Z) : M fs Z :=
  match fuel with
  | O => die
  | Datatypes.S fuel =>
      tmp ← (if dev =? NODEV then mret tmp else get_ihash dev ino);
      match tmp with
      | Some tmp =>
          r ← iget_found tmp ino;
          match r with
          | inl i => mret i
          | inr ino => iget_loop fuel dev ino (Some tmp)
          end
      | None =>
          empty ← gets (list_empty IFreeHead);
          if empty : bool then sleepon
          else
            first ← gets (λ s, nxt s IFreeHead);
            match first with
            | IFreeN tmp =>
                t ← gets (λ s, ino_at s tmp);
                when (negb (i_dev t =? NODEV)) (modify (list_del1 (IHashN tmp)));;
                modify (list_del1 (IFreeN tmp));;
                if truth (i_dirty t) then
                  when (negb (i_dev t =? NODEV)) (iwrite tmp);;
                  iget_loop fuel dev ino (Some tmp)
                else
                  iget_fill tmp dev ino;;
                  mret tmp
            | _ => die
            end
      end
  end.
(** A turn that is repeated took an inode off the free list or followed a
    mount. *)
Definition iget (dev ino : Z) : M fs Z := iget_loop (Z.to_nat (NR_INODE + 3)) dev ino None.

(** ** [iput] *)

(** The last user is gone. *)
Definition iput_last (ip : Z) : M fs unit :=
  i ← gets (λ s, ino_at s ip);
  (if negb (i_dev i =? NODEV) then
     unhashed ← gets (list_empty (IHashN ip));
     die_if unhashed;;
     when (i_nlinks i =? 0)
       (truncate ip;;
        sp ← sread (i_dev i);
        bitfree sp (i_num i) IMAP;;
        modify (upd_ino ip (set_i_mode 0));;
        modify (list_del1 (IHashN ip)))
   else if has (i_flags i) PIPE_I then
     when (truth (i_buffer i))
       (lift_pg (put_page (i_buffer i));;
        modify (upd_ino ip (set_i_buffer 0)))
   else when (S_ISSOCK (i_mode i)) (socket_close ip));;
  modify (list_add_tail IFreeHead (IFreeN ip));;
  modify (upd_inode_free_num (λ n, n + 1)).

Definition iput (inoptr : option Z) : M fs unit :=
  ip ← deref inoptr;
  i ← gets (λ s, ino_at s ip);
  me ← gets (λ s, pid (current s));
  when (negb (has (i_flags i) LOCK_I) || negb (i_lockowner i =? me)) (ilock ip);;
  modify (upd_ino ip (λ i, set_i_count (i_count i - 1) i));;
  i ← gets (λ s, ino_at s ip);
  (if i_count i =? 1 then
     when (has (i_flags i) PIPE_I) (modify (upd_ino ip (set_i_buddy 0)))
   else if i_count i =? 0 then iput_last ip
   else die_if (i_count i <? 0));;
  i ← gets (λ s, ino_at s ip);
  when (truth (i_dirty i) && negb (i_dev i =? NODEV)) (iwrite ip);;
  modify (upd_ino ip (λ i, set_i_lockowner 0 (clear_iflag LOCK_I i)));;
  i ← gets (λ s, ino_at s ip);
  when (has (i_flags i) WANT_I) (modify (upd_ino ip (clear_iflag WANT_I))).

(** ** [ialloc] *)

(** The inode, or null and the error. *)
Definition ialloc (dev mode : Z) : M fs (Z + Z) :=
  sp ← sread dev;
  spi ← deref sp;
  p ← gets (λ s, sb_at s spi);
  if truth (s_roflag p) then mret (inr (- EROFS))
  else
    bit ← bitalloc sp IMAP;
    let ino := u16 bit in
    if ino =? NOBIT then mret (inr (- ENOSPC))
    else
      tmp ← iget NODEV ino;
      modify (upd_ino tmp (λ i, set_i_nindirs NR_INDIRECTS (set_i_ndzones NR_DZONES
        (set_i_num ino (set_i_dev dev i)))));;
      modify (put_ihash tmp);;
      me ← gets current;
      modify (upd_ino tmp (λ i,
        set_i_update (Z.lor (Z.lor ATIME MTIME) CTIME) (set_i_sp (Some spi) (set_i_dirty 1
          (set_i_zone (replicate 10 0) (set_i_size 0 (set_i_gid (egid me) (set_i_uid (euid me)
            (set_i_nlinks 1 (set_i_mode mode i))))))))));;
      mret (inl tmp).

Definition get_iiucount (dev : Z) (s : fs) : Z :=
  zlen (filter (λ i, 0 < i_count i ∧ i_dev i = dev) (inodes s)).
End inode.

(** ** The disk format *)

(** The fields fit the types of [struct inode]. *)
Record inode_wf (i : inode) : Prop := {
  wf_mode : 0 <= i_mode i < 2 ^ 16;
  wf_nlinks : - 2 ^ 7 <= i_nlinks i < 2 ^ 7;
  wf_uid : - 2 ^ 15 <= i_uid i < 2 ^ 15;
  wf_gid : - 2 ^ 7 <= i_gid i < 2 ^ 7;
  wf_size : - 2 ^ 31 <= i_size i < 2 ^ 31;
  wf_atime : 0 <= i_atime i < 2 ^ 32;
  wf_mtime : 0 <= i_mtime i < 2 ^ 32;
  wf_ctime : 0 <= i_ctime i < 2 ^ 32;
  wf_zones : zlen (i_zone i) = NR_ZONES ∧ Forall (λ z, 0 <= z < 2 ^ 32) (i_zone i);
}.

(** The fields of [i] that go to disk, the others of [j]. *)
Definition icopy (i j : inode) : inode :=
  set_i_zone (i_zone i) (set_i_ctime (i_ctime i) (set_i_mtime (i_mtime i) (set_i_atime (i_atime i)
    (set_i_size (i_size i) (set_i_gid (i_gid i) (set_i_uid (i_uid i) (set_i_nlinks (i_nlinks i)
      (set_i_mode (i_mode i) j)))))))).

Lemma s8_u8 z : - 2 ^ 7 <= z < 2 ^ 7 → s8 (u8 z) = z.
Proof. intros. unfold s8, u8. rewrite Zplus_mod_idemp_l, Z.mod_small by lia. lia. Qed.
Lemma s16_u16 z : - 2 ^ 15 <= z < 2 ^ 15 → s16 (u16 z) = z.
Proof. intros. unfold s16, u16. rewrite Zplus_mod_idemp_l, Z.mod_small by lia. lia. Qed.
Lemma s32_u32 z : - 2 ^ 31 <= z < 2 ^ 31 → s32 (u32 z) = z.
Proof. intros. unfold s32, u32. rewrite Zplus_mod_idemp_l, Z.mod_small by lia. lia. Qed.

(** The stores of [inode_to_disk] as a list. *)
Definition fields (i : inode) : list (nat * Z * Z) :=
  [(2%nat, 0, u16 (i_mode i)); (1%nat, 2, u8 (i_nlinks i)); (2%nat, 4, u16 (i_uid i)); (1%nat, 6, u8 (i_gid i));
   (4%nat, 8, u32 (i_size i)); (4%nat, 12, u32 (i_atime i)); (4%nat, 16, u32 (i_mtime i)); (4%nat, 20, u32 (i_ctime i))]
  ++ ((λ k, (4%nat, 24 + 4 * k, u32 (zone_at i k))) <$> seqZ 0 NR_ZONES).
Definition store_all (l : list (nat * Z * Z)) (off : Z) (d : list Z) : list Z :=
  foldl (λ d '(n, o, v), store n (off + o) v d) d l.

Lemma inode_to_disk_eq i off d : inode_to_disk i off d = store_all (fields i) off d.
Proof.
  unfold inode_to_disk, store_all, fields. rewrite foldl_app. cbn [foldl]. rewrite Z.add_0_r.
  generalize (store 4 (off + 20) (u32 (i_ctime i)) (store 4 (off + 16) (u32 (i_mtime i)) (store 4 (off + 12) (u32 (i_atime i))
    (store 4 (off + 8) (u32 (i_size i)) (store 1 (off + 6) (u8 (i_gid i)) (store 2 (off + 4) (u16 (i_uid i))
      (store 1 (off + 2) (u8 (i_nlinks i)) (store 2 off (u16 (i_mode i)) d)))))))) as x.
  induction (seqZ 0 NR_ZONES) as [|k l IH]; intros x; [done|]. cbn [foldl fmap list_fmap].
  rewrite IH. by rewrite Z.add_assoc.
Qed.

Lemma zlen_store_all l off d : zlen (store_all l off d) = zlen d.
Proof.
  revert d. induction l as [|[[n o] v] l IH]; intros d; [done|]. unfold store_all in *. cbn [foldl].
  rewrite IH. apply zlen_store.
Qed.

(** Stores elsewhere do not change what is loaded. *)
Lemma load_store_all_other l off d n o : 0 <= o →
  Forall (λ '(m, o', _), 0 <= off + o' ∧ off + o' + Z.of_nat m <= zlen d ∧
    (o + Z.of_nat n <= off + o' ∨ off + o' + Z.of_nat m <= o)) l →
  load n o (store_all l off d) = load n o d.
Proof.
  intros Ho. revert d. induction l as [|[[m o'] v] l IH]; intros d Hf; [done|].
  apply Forall_cons in Hf as [(H1 & H2 & H3) Hf]. unfold store_all in *. cbn [foldl]. rewrite IH.
  - by apply load_store_other.
  - eapply Forall_impl; [exact Hf|]. intros [[? ?] ?]. by rewrite zlen_store.
Qed.

(** The fields lie in the 64 bytes of an inode and do not overlap. *)
Fixpoint apart (l : list (nat * Z * Z)) : bool :=
  match l with
  | [] => true
  | (n, o, _) :: l =>
      forallb (λ '(m, o', _), (o + Z.of_nat n <=? o') || (o' + Z.of_nat m <=? o)) l
      && (0 <=? o) && (o + Z.of_nat n <=? INODE_SIZE) && apart l
  end.
Lemma fields_apart i : apart (fields i) = true.
Proof. reflexivity. Qed.

Lemma apart_range l : apart l = true → Forall (λ '(m, o, _), 0 <= o ∧ o + Z.of_nat m <= INODE_SIZE) l.
Proof.
  induction l as [|[[n o] v] l IH]; [by constructor|]. cbn [apart]. rewrite !andb_true_iff, !Z.leb_le.
  intros [[[_ H1] H2] Hl]. constructor; [done|by apply IH].
Qed.

Lemma load_field l off d n o v : apart l = true → 0 <= off → off + INODE_SIZE <= zlen d →
  (n, o, v) ∈ l → 0 <= v < 256 ^ Z.of_nat n → load n (off + o) (store_all l off d) = v.
Proof.
  intros Ha H0' Hd Hin Hv. revert d Hd. induction l as [|[[m o'] w] l IH]; intros d Hd; [by apply elem_of_nil in Hin|].
  pose proof (apart_range _ Ha) as Hr. apply Forall_cons in Hr as [[Ho1 Ho2] Hr]. cbn [apart] in Ha.
  rewrite !andb_true_iff, forallb_forall in Ha. destruct Ha as [[[Hdis _] _] Ha].
  unfold store_all. cbn [foldl]. fold (store_all l off (store m (off + o') w d)).
  apply elem_of_cons in Hin as [[= -> -> ->]|Hin]; [|apply IH; [done|done|by rewrite zlen_store]].
  rewrite load_store_all_other; [apply load_store; (done || lia)|lia|].
  apply Forall_forall. intros [[k ok] vk] Hk. rewrite Forall_forall in Hr. specialize (Hr _ Hk) as [Hk1 Hk2].
  specialize (Hdis (k, ok, vk) ltac:(by apply list_elem_of_In)). simpl in Hdis. rewrite orb_true_iff, !Z.leb_le in Hdis.
  rewrite zlen_store. split; [lia|]. split; lia.
Qed.

(** C33. An inode written to its place in a block is read back unchanged, and no
    other inode of the block is touched. *)
Theorem inode_disk_roundtrip i off d : inode_wf i → 0 <= off → off + INODE_SIZE <= zlen d →
  (∀ j, inode_from_disk (inode_to_disk i off d) off j = icopy i j) ∧
  (∀ j off', 0 <= off' → off' + INODE_SIZE <= off ∨ off + INODE_SIZE <= off' →
    inode_from_disk (inode_to_disk i off d) off' j = inode_from_disk d off' j) ∧
  zlen (inode_to_disk i off d) = zlen d.
Proof.
  intros Hwf Hoff Hd. rewrite inode_to_disk_eq. split; [|split; [|apply zlen_store_all]].
  - intros j. pose proof (λ n o v, load_field (fields i) off d n o v (fields_apart i) Hoff Hd) as Hload.
    assert (∀ z, 0 <= u32 z < 256 ^ 4) as H32 by (intros z; pose proof (u32_range z); lia).
    assert (∀ z, 0 <= u16 z < 256 ^ 2) as H16 by (intros z; apply Z.mod_pos_bound; lia).
    assert (∀ z, 0 <= u8 z < 256 ^ 1) as H8 by (intros z; apply Z.mod_pos_bound; lia).
    assert (∀ k, 0 <= k < 10 → load 4 (off + 24 + 4 * k) (store_all (fields i) off d) = u32 (zone_at i k)) as Hz.
    { intros k Hk. rewrite <-Z.add_assoc. apply Hload; [|apply H32]. unfold fields. apply elem_of_app. right.
      apply list_elem_of_fmap. exists k. split; [done|]. apply elem_of_seqZ. unfold NR_ZONES. lia. }
    destruct Hwf as [Hmode Hnl Huid Hgid Hsz Hat Hmt Hct [Hzl Hzr]]. unfold inode_from_disk, icopy.
    assert (∀ n o v, (n, o, v) ∈ take 8 (fields i) → 0 <= v < 256 ^ Z.of_nat n →
      load n (off + o) (store_all (fields i) off d) = v) as Hfld.
    { intros n o v Hin. apply Hload. rewrite <-(take_drop 8 (fields i)). apply elem_of_app. by left. }
    assert (load 2 off (store_all (fields i) off d) = u16 (i_mode i)) as ->.
    { replace off with (off + 0) at 1 by lia. apply Hfld; [left|apply H16]. }
    rewrite (Hfld 1%nat 2 (u8 (i_nlinks i))), (Hfld 2%nat 4 (u16 (i_uid i))), (Hfld 1%nat 6 (u8 (i_gid i))),
      (Hfld 4%nat 8 (u32 (i_size i))), (Hfld 4%nat 12 (u32 (i_atime i))), (Hfld 4%nat 16 (u32 (i_mtime i))),
      (Hfld 4%nat 20 (u32 (i_ctime i))) by (apply H32 || apply H16 || apply H8 || (simpl; set_solver)).
    rewrite s8_u8, s16_u16, s8_u8, s32_u32, !u32_small by done. unfold u16. rewrite Z.mod_small by done.
    f_equal. apply zget_ext. intros k Hk. rewrite zget_fmap_seqZ. unfold NR_ZONES in *. case_decide.
    + rewrite Z.add_0_l, Hz by done. unfold zone_at. destruct (zget (i_zone i) k) as [z|] eqn:E; [|apply zget_None in E; lia].
      simpl. f_equal. apply u32_small. unfold zget in E. destruct (0 <=? k); [|done]. by eapply Forall_lookup_1 in E; [|exact Hzr].
    + symmetry. apply zget_None. lia.
  - intros j off' H0' Hdis. assert (∀ n o, 0 <= o → o + Z.of_nat n <= INODE_SIZE →
      load n (off' + o) (store_all (fields i) off d) = load n (off' + o) d) as Hload.
    { intros n o Ho Hn. apply load_store_all_other; [lia|]. eapply Forall_impl; [apply apart_range, (fields_apart i)|].
      intros [[m o'] v] [? ?]. lia. }
    unfold inode_from_disk. pose proof (Hload 2%nat 0 ltac:(lia) ltac:(done)) as H2. rewrite Z.add_0_r in H2. rewrite H2.
    rewrite !(Hload 2%nat), !(Hload 1%nat), !(Hload 4%nat) by (unfold INODE_SIZE; lia).
    f_equal. apply list_fmap_ext. intros ? k Hk. apply lookup_seqZ in Hk as [-> Hk]. unfold NR_ZONES in Hk.
    rewrite <-!Z.add_assoc. apply Hload; unfold INODE_SIZE; lia.
Qed.

Lemma demo_inode_wf : inode_wf demo_inode.
Proof.
  split; cbn [i_mode i_nlinks i_uid i_gid i_size i_atime i_mtime i_ctime i_zone demo_inode null_inode set_i_zone set_i_sp
    set_i_nindirs set_i_ndzones set_i_num set_i_dev set_i_count set_i_size set_i_nlinks set_i_mode]; try lia.
  split; [done|]. repeat (apply Forall_cons; split; [lia|]). by apply Forall_nil.
Qed.

Lemma inode_disk_roundtrip_witness :
  inode_from_disk (inode_to_disk demo_inode 64 (replicate 1024 0)) 64 null_inode = icopy demo_inode null_inode.
Proof. apply (inode_disk_roundtrip demo_inode 64 (replicate 1024 0)); [apply demo_inode_wf|lia|by vm_compute]. Defined.
