(* ===== verification/Dir.v ===== *)
(** * Directories and permissions (fs/util.c)

    A directory is a file of 32-byte entries: a 16-bit inode number and thirty
    bytes of name.  [iinsert], [idelete] and [ifind] enter, remove and look up
    a name; [admit] decides access. *)

From S2P Require Import Prelude Cstring Blocks Pages Dlist FsState Super Zone Inode.
From stdpp Require Import base numbers functions gmap list.

Local Open Scope Z_scope.

Definition DIRECT_SIZE : Z := 32.
Definition NR_DIRECTS : Z := BLOCKSIZ / DIRECT_SIZE.

(** [dirptr[i].d_ino] and [dirptr[i].d_name] of a block. *)
Definition d_ino (data : list Z) (i : Z) : Z := load 2 (DIRECT_SIZE * i) data.
Definition d_name (data : list Z) (i : Z) : list Z := slice (DIRECT_SIZE * i + 2) NAME_MAX data.
Definition set_d_ino (i v : Z) (data : list Z) : list Z := store 2 (DIRECT_SIZE * i) (u16 v) data.
(** [strncpy(dirptr->d_name, name, NAME_MAX)] *)
Definition set_d_name (i : Z) (name data : list Z) : list Z :=
  kstrncpy data (DIRECT_SIZE * i + 2) name 30.

Definition dot : list Z := [46].
Definition dotdot : list Z := [46; 46].

(** The first entry from [i] on that satisfies [P], among [n]. *)
Fixpoint find_entry (n : nat) (i : Z) (P : Z → bool) : option Z :=
  match n with
  | O => None
  | S n => if P i then Some i else find_entry n (i + 1) P
  end.

(** An entry in use whose name agrees with [name] in [NAME_MAX] bytes. *)
Definition entry_is (name data : list Z) (i : Z) : bool :=
  negb (d_ino data i =? 0) && (kstrncmp name (d_name data i) 30 =? 0).

Section dir.
Context {S PS : Type} `{BlockStore S, PageAlloc PS}.
Notation fs := (fs_state S PS).
Context (socket_close : Z → M fs unit).
Notation iput := (iput socket_close).

Definition admits (ip expect : Z) : M fs bool :=
  i ← gets (λ s, ino_at s ip);
  me ← gets current;
  let mode := i_mode i in
  mret (
    if euid me =? SU_UID then
      negb (truth (Z.land expect 1) && negb (truth (Z.land mode (1 + 8 + 64))))
    else if (euid me =? i_uid i) && truth (Z.land (Z.shiftl expect 6) mode) then true
    else if (egid me =? i_gid i) && truth (Z.land (Z.shiftl expect 3) mode) then true
    else truth (Z.land expect mode)).

(** The turns of [for(pos = 0; pos < i_size; pos += BLOCKSIZ)]. *)
Definition dir_turns (i : inode) : nat := Z.to_nat (i_size i / BLOCKSIZ + 1).

(** [bmap] and [bread] at [pos]; null when either fails. *)
Definition dir_block (ip pos : Z) : M fs (option (Z * list Z)) :=
  blk ← bmap ip pos;
  if blk =? NOBLOCK then mret None
  else
    i ← gets (λ s, ino_at s ip);
    bh ← fs_bread (i_dev i) blk;
    mret (pair blk <$> bh).

Fixpoint iempty_loop (fuel : nat) (ip pos : Z) : M fs bool :=
  i ← gets (λ s, ino_at s ip);
  match fuel with
  | O => mret true
  | Datatypes.S fuel =>
      if pos <? i_size i then
        b ← dir_block ip pos;
        match b with
        | None => mret false
        | Some (_, data) =>
            match find_entry 32 0 (λ k, negb (d_ino data k =? 0)
                    && negb (kstrncmp dot (d_name data k) 30 =? 0)
                    && negb (kstrncmp dotdot (d_name data k) 30 =? 0)) with
            | Some _ => mret false
            | None => iempty_loop fuel ip (pos + BLOCKSIZ)
            end
        end
      else mret true
  end.
Definition iempty (ip : Z) : M fs bool :=
  i ← gets (λ s, ino_at s ip);
  die_if (negb (S_ISDIR (i_mode i)));;
  iempty_loop (dir_turns i) ip 0.

(** ** [iinsert] *)

(** [nowdoit]: the entry [k] of the block at [pos] is filled in. *)
Definition iinsert_at (ip blk pos k : Z) (data name : list Z) (ino : Z) : M fs unit :=
  i ← gets (λ s, ino_at s ip);
  fs_bwrite (i_dev i) blk (set_d_ino k ino (set_d_name k name data));;
  when (i_size i <? pos + (k + 1) * DIRECT_SIZE)
    (modify (upd_ino ip (λ i, set_i_size (i_size i + DIRECT_SIZE) i)));;
  modify (upd_ino ip touch).

(** The loop over the blocks: null when no entry is free, otherwise the result
    of the function. *)
Fixpoint iinsert_loop (fuel : nat) (ip : Z) (name : list Z) (mode error ino pos : Z)
    : M fs (option (option Z * Z)) :=
  i ← gets (λ s, ino_at s ip);
  match fuel with
  | O => mret None
  | Datatypes.S fuel =>
      if pos <? i_size i then
        b ← dir_block ip pos;
        match b with
        | None => mret (Some (None, - EIO))
        | Some (blk, data) =>
            match find_entry 32 0 (λ k, d_ino data k =? 0) with
            | None => iinsert_loop fuel ip name mode error ino (pos + BLOCKSIZ)
            | Some k =>
                if (i_size i <? pos + (k + 1) * DIRECT_SIZE)
                   && negb (pos + k * DIRECT_SIZE =? i_size i)
                then mret (Some (None, - EIO))
                else if ino =? 0 then
                  r ← ialloc (i_dev i) mode;
                  match r with
                  | inr _ => mret (Some (None, - ENOSPC))
                  | inl tmp =>
                      t ← gets (λ s, ino_at s tmp);
                      iinsert_at ip blk pos k data name (i_num t);;
                      mret (Some (Some tmp, error))
                  end
                else
                  iinsert_at ip blk pos k data name ino;;
                  mret (Some (None, error))
            end
        end
      else mret None
  end.

(** A block is added to the directory. *)
Definition iinsert_grow (ip : Z) (name : list Z) (mode error ino : Z) : M fs (option Z * Z) :=
  i ← gets (λ s, ino_at s ip);
  let pos := (i_size i + BLOCKSIZ - 1) / BLOCKSIZ * BLOCKSIZ in
  if FILESIZE_MAX <=? u32 (i_size i) then mret (None, - EFBIG)
  else
    blk ← bitalloc (i_sp i) ZMAP;
    if blk =? NOZONE then mret (None, - ENOSPC)
    else
      r ← (if ino =? 0 then
             r ← ialloc (i_dev i) mode;
             mret (match r with inl tmp => Some (Some tmp) | inr _ => None end)
           else mret (Some None));
      match r with
      | None =>
          bitfree (i_sp i) blk ZMAP;;
          mret (None, - ENOSPC)
      | Some tmp =>
          sp ← deref (i_sp i);
          p ← gets (λ s, sb_at s sp);
          ok ← minode ip pos (Z.shiftr blk (s_lzsize p));
          if ok =? 0 then
            bitfree (i_sp i) blk ZMAP;;
            when (ino =? 0) (iput tmp);;
            mret (None, - ENOSPC)
          else
            n ← (match tmp with
                 | Some t => gets (λ s, i_num (ino_at s t))
                 | None => mret ino
                 end);
            iinsert_at ip blk pos 0 zero_block name n;;
            mret (tmp, error)
      end.

(** The inode entered when [ino] is 0, otherwise null; and [*error]. *)
Definition iinsert (ip : Z) (name : list Z) (mode error ino : Z) : M fs (option Z * Z) :=
  i ← gets (λ s, ino_at s ip);
  die_if (negb (S_ISDIR (i_mode i)));;
  sp ← deref (i_sp i);
  p ← gets (λ s, sb_at s sp);
  if truth (s_roflag p) then mret (None, - EROFS)
  else if NAME_MAX <? kstrlen name then mret (None, - ENAMETOOLONG)
  else
    r ← iinsert_loop (dir_turns i) ip name mode error ino 0;
    match r with
    | Some r => mret r
    | None => iinsert_grow ip name mode error ino
    end.

(** ** [idelete] *)

Fixpoint idelete_loop (fuel : nat) (ip : Z) (name : list Z) (error pos : Z) : M fs (bool * Z) :=
  i ← gets (λ s, ino_at s ip);
  match fuel with
  | O => mret (false, - ENOENT)
  | Datatypes.S fuel =>
      if pos <? i_size i then
        b ← dir_block ip pos;
        match b with
        | None => mret (false, - EIO)
        | Some (blk, data) =>
            match find_entry 32 0 (entry_is name data) with
            | None => idelete_loop fuel ip name error (pos + BLOCKSIZ)
            | Some k =>
                fs_bwrite (i_dev i) blk (set_d_ino k 0 data);;
                mret (true, error)
            end
        end
      else mret (false, - ENOENT)
  end.
(** Whether the name was removed, and [*error]. *)
Definition idelete (ip : Z) (name : list Z) (error : Z) : M fs (bool * Z) :=
  i ← gets (λ s, ino_at s ip);
  die_if (negb (S_ISDIR (i_mode i)));;
  sp ← deref (i_sp i);
  p ← gets (λ s, sb_at s sp);
  if truth (s_roflag p) then mret (false, - EROFS)
  else if NAME_MAX <? kstrlen name then mret (false, - ENAMETOOLONG)
  else if (kstrncmp name dot 30 =? 0) || (kstrncmp name dotdot 30 =? 0) then mret (false, - EPERM)
  else idelete_loop (dir_turns i) ip name error 0.

(** ** [ifind] *)

(** The loop over the blocks: the inode number, 0 when the name is not there,
    null after a read error. *)
Fixpoint ifind_loop (fuel : nat) (ip : Z) (name : list Z) (pos : Z) : M fs (option Z) :=
  i ← gets (λ s, ino_at s ip);
  match fuel with
  | O => mret (Some 0)
  | Datatypes.S fuel =>
      if pos <? i_size i then
        b ← dir_block ip pos;
        match b with
        | None => mret None
        | Some (_, data) =>
            let count := if i_size i - pos <? BLOCKSIZ then (i_size i - pos) / DIRECT_SIZE else NR_DIRECTS in
            match find_entry (Z.to_nat count) 0 (entry_is name data) with
            | Some k => mret (Some (d_ino data k))
            | None => ifind_loop fuel ip name (pos + BLOCKSIZ)
            end
        end
      else mret (Some 0)
  end.
(** Looking the name up in [workino], which is put. *)
Definition ifind_in (workino : Z) (name : list Z) : M fs (option Z) :=
  w ← gets (λ s, ino_at s workino);
  r ← ifind_loop (dir_turns w) workino name 0;
  match r with
  | None =>
      iput (Some workino);;
      mret None
  | Some ino =>
      iput (Some workino);;
      if ino =? 0 then mret None
      else
        w ← gets (λ s, ino_at s workino);
        tmp ← iget (i_dev w) ino;
        t ← gets (λ s, ino_at s tmp);
        if has (i_flags t) MOUNT_I then
          sp ← deref (i_mounts t);
          iput (Some tmp);;
          p ← gets (λ s, sb_at s sp);
          tmp ← deref (s_rooti p);
          modify (upd_ino tmp (λ i, set_i_count (i_count i + 1) i));;
          ilock tmp;;
          mret (Some tmp)
        else mret (Some tmp)
  end.
Definition ifind (ip : Z) (name : list Z) : M fs (option Z) :=
  i ← gets (λ s, ino_at s ip);
  if negb (S_ISDIR (i_mode i)) then
    iput (Some ip);;
    mret None
  else if (i_num i =? ROOT_INODE) && (kstrcmp dotdot name =? 0) then
    top ← gets init_root;
    if ip =? top then mret (Some ip)
    else
      sp ← deref (i_sp i);
      p ← gets (λ s, sb_at s sp);
      workino ← deref (s_mounti p);
      modify (upd_ino workino (λ i, set_i_count (i_count i + 1) i));;
      ilock workino;;
      iput (Some ip);;
      ifind_in workino name
  else ifind_in ip name.

(** ** [get_name_of_son] *)

(** The loop of [get_name_of_son]: the bytes stored at [name], or the error. *)
Fixpoint son_loop (fuel : nat) (ip inum pos size : Z) : M fs (list Z + Z) :=
  i ← gets (λ s, ino_at s ip);
  match fuel with
  | O => mret (inr (- ENOENT))
  | Datatypes.S fuel =>
      if pos <? i_size i then
        b ← dir_block ip pos;
        match b with
        | None => mret (inr (- EIO))
        | Some (_, data) =>
            match find_entry 32 0 (λ k, d_ino data k =? inum) with
            | Some k => mret (inl (kstrncpy_bytes (slice (DIRECT_SIZE * k + 2) BLOCKSIZ data) (Z.to_nat size)))
            | None => son_loop fuel ip inum (pos + BLOCKSIZ) size
            end
        end
      else mret (inr (- ENOENT))
  end.
Definition get_name_of_son (fino inum size : Z) : M fs (list Z + Z) :=
  i ← gets (λ s, ino_at s fino);
  son_loop (dir_turns i) fino inum 0 size.
End dir.
