(* ===== verification/Namei.v ===== *)
(** * Path names (fs/util.c)

    [__namei] walks a path from the root or the working directory, follows
    symbolic links, and returns a locked inode: that of the name or of its
    parent. *)

From S2P Require Import Prelude Cstring Blocks Pages Dlist FsState Super Zone Inode Dir.
From stdpp Require Import base numbers functions gmap list.

Local Open Scope Z_scope.

Definition SLASH : Z := 47.
Definition MAX_SYMLINK_DEPTH : Z := 32.

(** [while(nextch[0] == '/') nextch++] *)
Fixpoint skip_slashes (s : list Z) : list Z :=
  match s with
  | [] => []
  | c :: s' => if c =? SLASH then skip_slashes s' else s
  end.

(** What [get_next_name] returns: null, -1, or the rest of the path with the
    component in [part]. *)
Inductive next_name := NEnd | NTooLong | NNext (part rest : list Z).

Definition get_next_name (nextch : list Z) (flag : bool) : next_name :=
  if default 0 (head nextch) =? 0 then NEnd
  else
    let r := match kstrchr nextch SLASH with
             | Some (a, b) => (a, skip_slashes b)
             | None => (cstr nextch, [])
             end in
    if zlen r.1 =? 0 then NEnd
    else if NAME_MAX <? zlen r.1 then NTooLong
    else if flag && (default 0 (head r.2) =? 0) then NEnd
    else NNext r.1 r.2.

(** [get_tail]: the last component, walking left from the end. *)
Fixpoint take_name (rev : list Z) : list Z :=
  match rev with
  | [] => []
  | c :: rev => if c =? SLASH then [] else c :: take_name rev
  end.
Definition get_tail (pathname : list Z) : option (list Z) :=
  let r := skip_slashes (reverse (cstr pathname)) in
  let part := reverse (take_name r) in
  if zlen r =? 0 then None
  else if NAME_MAX <? zlen part then None
  else Some part.

Section namei.
Context {S PS : Type} `{BlockStore S, PageAlloc PS}.
Notation fs := (fs_state S PS).
Context (socket_close : Z → M fs unit).
Notation iput := (iput socket_close).
Notation ifind := (ifind socket_close).

(** The page filled block by block; holes read as zeros. *)
Fixpoint real_filename_loop (fuel : nat) (ip off : Z) (page : list Z) : M fs (list Z + Z) :=
  i ← gets (λ s, ino_at s ip);
  match fuel with
  | O => mret (inl page)
  | Datatypes.S fuel =>
      if (off <? PAGE_SIZE) && (off <? i_size i) then
        blk ← bmap ip off;
        if blk =? NOBLOCK then real_filename_loop fuel ip (off + BLOCKSIZ) (page ++ zero_block)
        else
          bh ← fs_bread (i_dev i) blk;
          match bh with
          | None => mret (inr (- EIO))
          | Some data => real_filename_loop fuel ip (off + BLOCKSIZ) (page ++ data)
          end
      else mret (inl page)
  end.
(** The name in the page, or the error. *)
Definition real_filename (ip : Z) : M fs (list Z + Z) :=
  i ← gets (λ s, ino_at s ip);
  if PAGE_SIZE <=? u32 (i_size i) then mret (inr (- ENAMETOOLONG))
  else
    r ← real_filename_loop 5 ip 0 [];
    mret (match r with
          | inl page => inl (take (Z.to_nat (i_size i)) page)
          | inr e => inr e
          end).

(** The result of walking one path: an inode or null and [*error], or a
    symbolic link to step into. *)
Inductive walk :=
  | WDone (r : option Z) (error : Z)
  | WLink (path : list Z) (prevdev previno : Z).

(** [errout]: the inode is put. *)
Definition walk_fail (workino error : Z) : M fs walk :=
  iput (Some workino);;
  mret (WDone None error).

(** The path to go on with at a symbolic link, [prevch] being what is left. *)
Definition link_path (page1 prevch : list Z) (more : bool) : option (list Z) :=
  if more then
    if PAGE_SIZE - kstrlen page1 <? kstrlen prevch + 1 + 1 then None
    else Some (cstr page1 ++ [SLASH] ++ cstr prevch)
  else Some (cstr page1).

(** The [do ... while(1)] loop.  Every turn consumes a character of [nextch]. *)
Fixpoint walk_path (fuel : nat) (flag into_link : bool) (inoptr : option Z) (level : Z)
    (end_with_slash : bool) (nextch : list Z) (workino prevdev previno : Z) : M fs walk :=
  if bool_decide (inoptr = Some workino) then mret (WDone (Some workino) 0)
  else
    let prevch := nextch in
    let nx := get_next_name nextch flag in
    let ended := match nx with NEnd => true | _ => false end in
    w ← gets (λ s, ino_at s workino);
    if S_ISLNK (i_mode w) then
      if ended && negb into_link then mret (WDone (Some workino) 0)
      else if MAX_SYMLINK_DEPTH <? level then walk_fail workino (- EMLINK)
      else
        r ← real_filename workino;
        match r with
        | inr e => walk_fail workino e
        | inl page1 =>
            match link_path page1 prevch (negb ended) with
            | None => walk_fail workino (- ENAMETOOLONG)
            | Some path =>
                iput (Some workino);;
                mret (WLink path prevdev previno)
            end
        end
    else
      match nx with
      | NEnd =>
          if end_with_slash && negb (S_ISDIR (i_mode w)) then walk_fail workino (- ENOTDIR)
          else mret (WDone (Some workino) 0)
      | NTooLong => walk_fail workino (- ENAMETOOLONG)
      | NNext part rest =>
          ok ← admits workino I_XB;
          if negb ok then walk_fail workino (- EACCES)
          else
            let prevdev := i_dev w in
            let previno := i_num w in
            foundino ← ifind workino part;
            match foundino, fuel with
            | None, _ => mret (WDone None (- ENOENT))
            | Some _, O => die
            | Some foundino, Datatypes.S fuel =>
                walk_path fuel flag into_link inoptr level end_with_slash rest foundino prevdev previno
            end
      end.

(** [step_into_link]; the links followed are limited by [level]. *)
Fixpoint namei_steps (fuel : nat) (flag into_link : bool) (inoptr : option Z) (level : Z)
    (end_with_slash : bool) (nextch : list Z) (prevdev previno error : Z) : M fs (option Z * Z) :=
  if default 0 (head nextch) =? 0 then mret (None, error)
  else
    let end_with_slash :=
      if default 0 (last (cstr nextch)) =? SLASH then true else end_with_slash in
    r ← gets (λ s, ino_at s (root (current s)));
    let absolute := default 0 (head nextch) =? SLASH in
    let prevdev := if absolute then i_dev r else prevdev in
    let previno := if absolute then i_num r else previno in
    let nextch := if absolute then skip_slashes nextch else nextch in
    workino ← iget prevdev previno;
    w ← walk_path (length nextch) flag into_link inoptr level end_with_slash nextch workino prevdev previno;
    match w, fuel with
    | WDone r e, _ => mret (r, e)
    | WLink path prevdev previno, Datatypes.S fuel =>
        namei_steps fuel flag into_link inoptr (level + 1) end_with_slash path prevdev previno 0
    | WLink _ _ _, O => die
    end.

(** [flag]: find the parent.  Two pages are taken for link names and given
    back. *)
Definition __namei (filename : list Z) (error : Z) (flag into_link : bool) (inoptr : option Z)
    : M fs (option Z * Z) :=
  w ← gets (λ s, ino_at s (pwd (current s)));
  page ← lift_pg (get_pages 0 0);
  if page =? 0 then mret (None, - ENOMEM)
  else
    page1 ← lift_pg (get_pages 0 0);
    if page1 =? 0 then
      lift_pg (put_page page);;
      mret (None, - ENOMEM)
    else
      r ← namei_steps 34 flag into_link inoptr 0 false filename (i_dev w) (i_num w) error;
      lift_pg (put_page page);;
      lift_pg (put_page page1);;
      mret r.

Definition namei (filename : list Z) (error : Z) (flag : bool) : M fs (option Z * Z) :=
  __namei filename error flag true None.
Definition namei0 (filename : list Z) (error : Z) (flag : bool) : M fs (option Z * Z) :=
  __namei filename error flag false None.

Definition bypass (filename : list Z) (error : Z) (flag into_link : bool) (inoptr : Z) : M fs (bool * Z) :=
  r ← __namei filename error flag true (Some inoptr);
  match r with
  | (Some inoptr1, error) =>
      iput (Some inoptr1);;
      mret (inoptr =? inoptr1, error)
  | (None, error) => mret (false, error)
  end.
End namei.

(** ** The components of a path *)

(** The reference: the maximal runs of characters between slashes. *)
Definition cons_ne (w : list Z) (ws : list (list Z)) : list (list Z) :=
  match w with [] => ws | _ => w :: ws end.
Fixpoint words (s : list Z) : list Z * list (list Z) :=
  match s with
  | [] => ([], [])
  | c :: s =>
      if c =? SLASH then ([], cons_ne (words s).1 (words s).2)
      else (c :: (words s).1, (words s).2)
  end.
Definition components (s : list Z) : list (list Z) := cons_ne (words s).1 (words s).2.

(** The names the loop of [__namei] looks up. *)
Fixpoint names (fuel : nat) (flag : bool) (nextch : list Z) : list (list Z) :=
  match get_next_name nextch flag, fuel with
  | NNext part rest, Datatypes.S fuel => part :: names fuel flag rest
  | _, _ => []
  end.

Definition no_nul (s : list Z) : Prop := Forall (λ c, c ≠ 0) s.
Definition no_slash (s : list Z) : Prop := Forall (λ c, c ≠ SLASH) s.

Lemma cstr_no_nul s : no_nul s → cstr s = s.
Proof.
  induction 1 as [|c s Hc Hs IH]; [done|]. rewrite cstr_cons, IH.
  by apply Z.eqb_neq in Hc as ->.
Qed.

Lemma components_slash a b : components (a ++ SLASH :: b) = components a ++ components b.
Proof.
  assert (∀ w (x y : list (list Z)), cons_ne w (x ++ y) = cons_ne w x ++ y) as Hc by (by intros []).
  assert (words (a ++ SLASH :: b) = ((words a).1, (words a).2 ++ components b)) as Hw.
  { induction a as [|c a IH]; [done|]. cbn [words app]. rewrite IH. simpl.
    destruct (c =? SLASH); simpl; [by rewrite Hc|done]. }
  unfold components at 1. rewrite Hw. simpl. rewrite Hc. done.
Qed.

Lemma components_word w : no_slash w → w ≠ [] → components w = [w].
Proof.
  intros Hw Hne. assert (words w = (w, [])) as Hws.
  { clear Hne. induction Hw as [|c w Hc Hw IH]; [done|]. cbn [words].
    apply Z.eqb_neq in Hc as ->. by rewrite IH. }
  unfold components. rewrite Hws. by destruct w.
Qed.

Lemma components_skip s : components (skip_slashes s) = components s.
Proof.
  induction s as [|c s IH]; [done|]. cbn [skip_slashes]. destruct (Z.eqb_spec c SLASH) as [->|]; [|done].
  by rewrite IH.
Qed.

Lemma skip_slashes_spec s : ∃ k, s = replicate k SLASH ++ skip_slashes s ∧
  head (skip_slashes s) ≠ Some SLASH.
Proof.
  induction s as [|c s (k & He & Hh)]; [by exists O|]. cbn [skip_slashes].
  destruct (Z.eqb_spec c SLASH) as [->|Hne].
  - exists (Datatypes.S k). split; [|done]. simpl. by rewrite <-He.
  - exists O. split; [done|]. intros [=]. done.
Qed.

Lemma kstrchr_slash s : no_nul s →
  match kstrchr s SLASH with
  | Some (a, b) => no_slash a ∧ ∃ b', b = SLASH :: b' ∧ s = a ++ b
  | None => no_slash s
  end.
Proof.
  induction 1 as [|c s Hc Hs IH]; [by constructor|]. cbn [kstrchr].
  destruct (Z.eqb_spec c SLASH) as [->|Hne].
  - split; [constructor|]. by exists s.
  - apply Z.eqb_neq in Hc as ->. destruct (kstrchr s SLASH) as [[a b]|].
    + destruct IH as (Ha & b' & Hb & ->). split; [by constructor|]. by exists b'.
    + by constructor.
Qed.

Lemma no_nul_skip s : no_nul s → no_nul (skip_slashes s).
Proof.
  destruct (skip_slashes_spec s) as (k & He & _). intros Hn. rewrite He in Hn.
  by apply Forall_app in Hn as [_ ?].
Qed.

Lemma head_zero s : no_nul s → (default 0 (head s) =? 0) = bool_decide (s = []).
Proof.
  intros [|c t Hc Ht]; [done|]. rewrite bool_decide_eq_false_2 by done. by apply Z.eqb_neq.
Qed.

Lemma zlen_ne (w : list Z) : w ≠ [] → (zlen w =? 0) = false.
Proof. by destruct w. Qed.

(** One turn of the loop takes one component off the path. *)
Lemma get_next_name_spec s flag : no_nul s → head s ≠ Some SLASH →
  match components s with
  | [] => get_next_name s flag = NEnd ∧ s = []
  | w :: ws => ∃ rest, no_nul rest ∧ head rest ≠ Some SLASH ∧ components rest = ws ∧
      (length rest < length s)%nat ∧ (ws = [] ↔ rest = []) ∧
      get_next_name s flag =
        if NAME_MAX <? zlen w then NTooLong
        else if flag && bool_decide (ws = []) then NEnd else NNext w rest
  end.
Proof.
  intros Hnul Hhd. pose proof (kstrchr_slash s Hnul) as Hk.
  destruct (decide (s = [])) as [->|Hne]; [done|].
  assert (∃ w rest, w ≠ [] ∧ no_slash w ∧ no_nul rest ∧ head rest ≠ Some SLASH ∧
    (length rest < length s)%nat ∧ components s = w :: components rest ∧
    match kstrchr s SLASH with
    | Some (a, b) => (a, skip_slashes b) | None => (cstr s, []) end = (w, rest))
    as (w & rest & Hw & Hws & Hr & Hrh & Hlt & Hcs & Hx).
  { destruct (kstrchr s SLASH) as [[a b]|].
    - destruct Hk as (Ha & b' & -> & ->). exists a, (skip_slashes (SLASH :: b')).
      assert (a ≠ []) as Hane by (intros ->; done).
      split; [done|]. split; [done|].
      apply Forall_app in Hnul as [_ Hb]. split; [by apply no_nul_skip|].
      destruct (skip_slashes_spec (SLASH :: b')) as (k & He & Hh). split; [done|].
      split; [|split; [|done]].
      + apply (f_equal length) in He. rewrite length_app in He. rewrite length_app.
        destruct a; [done|]. simpl length at 2. lia.
      + rewrite components_slash, components_word by done. by rewrite components_skip.
    - exists s, []. rewrite cstr_no_nul by done. split; [done|]. split; [done|]. split; [constructor|].
      split; [done|]. split; [destruct s; simpl; [done|lia]|]. split; [|done]. by rewrite components_word. }
  rewrite Hcs. exists rest. split; [done|]. split; [done|]. split; [done|]. split; [done|].
  assert (components rest = [] ↔ rest = []) as Hnil.
  { split; [|by intros ->]. intros Hc. destruct rest as [|c rest]; [done|]. exfalso.
    unfold components in Hc. cbn [words] in Hc. simpl in Hrh.
    destruct (Z.eqb_spec c SLASH); [congruence|]. done. }
  split; [done|]. unfold get_next_name. rewrite head_zero by done.
  rewrite bool_decide_eq_false_2 by done. rewrite Hx. simpl.
  rewrite zlen_ne by done.
  rewrite head_zero by done. destruct (_ <? _); [done|]. by rewrite (bool_decide_ext _ _ Hnil).
Qed.

Lemma names_components fuel flag s : no_nul s → head s ≠ Some SLASH → (length s <= fuel)%nat →
  Forall (λ w, zlen w <= NAME_MAX) (components s) →
  names fuel flag s = if flag then removelast (components s) else components s.
Proof.
  revert s. induction fuel as [|fuel IH]; intros s Hn Hh Hl Hf;
    pose proof (get_next_name_spec s flag Hn Hh) as Hg;
    destruct (components s) as [|w ws] eqn:Hc; cbn [names].
  - destruct Hg as [-> _]. by destruct flag.
  - destruct Hg as (rest & _ & _ & _ & Hlt & _). lia.
  - destruct Hg as [-> _]. by destruct flag.
  - destruct Hg as (rest & Hr & Hrh & Hrc & Hlt & Hnil & ->). apply Forall_cons in Hf as [Hw Hf].
    rewrite (proj2 (Z.ltb_ge _ _) Hw).
    assert (names fuel flag rest = if flag then removelast ws else ws) as Hn'.
    { rewrite IH by (done || lia || by rewrite Hrc). by rewrite Hrc. }
    destruct flag; simpl.
    + destruct ws as [|w' ws]; [done|]. rewrite bool_decide_eq_false_2 by done. by rewrite Hn'.
    + by rewrite Hn'.
Qed.

Lemma take_name_spec r : ∃ r', no_slash (take_name r) ∧
  (r = take_name r ∨ r = take_name r ++ SLASH :: r').
Proof.
  induction r as [|c r (r' & Hs & Hr)]; [by exists []; split; [constructor|left]|]. cbn [take_name].
  destruct (Z.eqb_spec c SLASH) as [->|Hne].
  - exists r. split; [constructor|by right].
  - exists r'. split; [by constructor|]. destruct Hr as [Hr|Hr]; [left|right]; simpl; by f_equal.
Qed.

Lemma no_slash_reverse w : no_slash w → no_slash (reverse w).
Proof. unfold no_slash. by rewrite Forall_reverse. Qed.

(** The last component, if there is one and it is not too long. *)
Lemma get_tail_spec s : no_nul s →
  get_tail s = match last (components s) with
               | Some t => if NAME_MAX <? zlen t then None else Some t
               | None => None
               end.
Proof.
  intros Hn. unfold get_tail. rewrite cstr_no_nul by done.
  destruct (skip_slashes_spec (reverse s)) as (k & He & Hh).
  set (r := skip_slashes (reverse s)) in *.
  assert (components s = components (reverse r)) as ->.
  { apply (f_equal reverse) in He. rewrite reverse_involutive, reverse_app, reverse_replicate in He.
    rewrite He. clear. induction k as [|k IH]; [by rewrite app_nil_r|].
    rewrite replicate_S_end, app_assoc. rewrite components_slash, IH. by rewrite app_nil_r. }
  destruct (take_name_spec r) as (r' & Hs & Hr).
  destruct (decide (r = [])) as [->|Hne]; [done|].
  assert (take_name r ≠ []) as Ht.
  { destruct r as [|c r]; [done|]. cbn [take_name]. simpl in Hh. by destruct (Z.eqb_spec c SLASH); [congruence|]. }
  rewrite zlen_ne by done.
  assert (reverse (take_name r) ≠ []) as Ht'.
  { intros Hx. apply Ht. rewrite <-(reverse_involutive (take_name r)), Hx. done. }
  assert (last (components (reverse r)) = Some (reverse (take_name r))) as ->; [|done].
  destruct Hr as [Hr|Hr]; rewrite Hr at 1.
  - rewrite components_word by (done || by apply no_slash_reverse). done.
  - rewrite reverse_app, reverse_cons, <-app_assoc. cbn [app]. rewrite components_slash.
    rewrite (components_word (reverse (take_name r))) by (done || by apply no_slash_reverse).
    by rewrite last_snoc.
Qed.


(** "//usr/a/" *)
Definition demo_path : list Z := [47; 47; 117; 115; 114; 47; 97; 47].
