(* ===== verification/File.v ===== *)
(** * Open files, reading and writing (fs/file.c, read.c, write.c, pipe.c, ...)

    A descriptor of a process refers to an entry of the table [filps], which
    holds the mode, the position and the inode.  [do_read] and [do_write]
    dispatch on the kind of inode: devices, sockets, pipes and files.

    What a read stores in the caller's buffer is returned as a list of bytes
    from the start of the buffer. *)

From S2P Require Import Prelude Cstring Blocks Pages Dlist FsState Super Zone Inode Dir Namei.
From stdpp Require Import base numbers functions gmap list.

Local Open Scope Z_scope.

Definition ckfdlimit (fd : Z) : bool := (fd <? 0) || (OPEN_MAX <=? fd).
Definition SEEK_SET : Z := 0.
Definition SEEK_CUR : Z := 1.
Definition SEEK_END : Z := 2.

(** The code of other subsystems the file system calls: the entries of
    [dev_table], the sockets and [sendsig(current, SIGPIPE)].  A read returns
    the count, the bytes stored and [*error]; a write the count and [*error]. *)
Record dev_struct (ST : Type) := Dev {
  dev_open : option (Z → Z → M ST Z);
  dev_readf : option (Z → Z → Z → Z → M ST (Z * list Z * Z));
  dev_writef : option (Z → list Z → Z → Z → M ST (Z * Z));
  dev_close : option (Z → Z → M ST Z);
}.
Arguments Dev {ST}.
Arguments dev_open {ST}. Arguments dev_readf {ST}. Arguments dev_writef {ST}. Arguments dev_close {ST}.

Record outside (ST : Type) := Outside {
  dev_table : list (dev_struct ST);
  socket_close : Z → M ST unit;
  socket_read : Z → Z → Z → M ST (Z * list Z * Z);
  socket_write : Z → list Z → Z → M ST (Z * Z);
  sendsig_pipe : M ST unit;
}.
Arguments Outside {ST}.
Arguments dev_table {ST}. Arguments socket_close {ST}. Arguments socket_read {ST}.
Arguments socket_write {ST}. Arguments sendsig_pipe {ST}.

Section file.
Context {S PS : Type} `{BlockStore S, PageAlloc PS}.
Notation fs := (fs_state S PS).
Context (X : outside fs).
Notation iput := (iput (socket_close X)).

(** ** The table of open files *)

Definition init_filp (s : fs) : fs :=
  upd_from_filp (λ _, 0) (upd_filps (fmap (set_f_count 0)) s).

(** [do ... while(i != from_filp)] over the table of [n] entries. *)
Fixpoint get_filp_loop (fuel : nat) (i : Z) : M fs (option Z) :=
  f ← gets (λ s, filp_at s i);
  from ← gets from_filp;
  if f_count f =? 0 then
    modify (upd_filp i (λ f, set_f_count (f_count f + 1) f));;
    modify (upd_from_filp (λ _, (i + 1) mod NR_FILP));;
    mret (Some i)
  else
    let i := (i + 1) mod NR_FILP in
    if i =? from then mret None
    else match fuel with O => mret None | Datatypes.S fuel => get_filp_loop fuel i end.
Definition get_filp : M fs (option Z) :=
  i ← gets from_filp;
  get_filp_loop (Z.to_nat NR_FILP) i.

Definition fget (fd : Z) : M fs (option Z) :=
  die_if (ckfdlimit fd);;
  gets (λ s, default None (zget (file (current s)) fd)).

(** [dev_table[MAJOR]], when there is one. *)
Definition device (dev : Z) : option (dev_struct fs) := zget (dev_table X) (MAJOR dev).

Definition ffree (fp : Z) : M fs unit :=
  modify (upd_filp fp (λ f, set_f_count (f_count f - 1) f));;
  f ← gets (λ s, filp_at s fp);
  when (f_count f =? 0)
    (ip ← deref (f_ino f);
     iput (Some ip);;
     i ← gets (λ s, ino_at s ip);
     when (S_ISBLK (i_mode i) || S_ISCHR (i_mode i))
       (match device (zone_at i 0) ≫= dev_close with
        | Some close => close (MINOR (zone_at i 0)) (f_mode f) ≫= λ _, mret tt
        | None => die
        end)).

Definition fuse (fp : Z) : fs → fs := upd_filp fp (λ f, set_f_count (f_count f + 1) f).

Definition set_fd (fd : Z) (fp : option Z) : fs → fs :=
  upd_current (λ t, set_file (zset fd fp (file t)) t).
Definition set_fd_flags (fd v : Z) : fs → fs :=
  upd_current (λ t, set_fflags (zset fd v (fflags t)) t).

Fixpoint fdget_loop (n : nat) (i mode ip error : Z) : M fs (Z * Z) :=
  match n with
  | O => mret (-1, - ENFILE)
  | Datatypes.S n =>
      cur ← gets (λ s, default None (zget (file (current s)) i));
      match cur with
      | Some _ => fdget_loop n (i + 1) mode ip error
      | None =>
          tmp ← get_filp;
          match tmp with
          | None => mret (-1, - ENOMEM)
          | Some tmp =>
              modify (upd_filp tmp (λ _, Filp (u16 mode) 1 (Some ip) 0));;
              modify (set_fd i (Some tmp));;
              modify (set_fd_flags i O_CLOEXEC);;
              mret (i, error)
          end
      end
  end.
(** The descriptor or -1, and [*error]; [mode] is a [mode_t]. *)
Definition fdget (start mode ip error : Z) : M fs (Z * Z) :=
  fdget_loop (Z.to_nat (OPEN_MAX - start)) start mode ip error.

Definition do_close (fd : Z) : M fs Z :=
  fp ← fget fd;
  fp ← deref fp;
  ffree fp;;
  modify (set_fd fd None);;
  mret 0.

(** [for(i = 0, j = startfd; i < OPEN_MAX; i++, j++)] *)
Fixpoint dup_loop (n : nat) (j fd fp : Z) : M fs Z :=
  match n with
  | O => mret (- EMFILE)
  | Datatypes.S n =>
      let j := Z.rem j OPEN_MAX in
      cur ← gets (λ s, default None (zget (file (current s)) j));
      match cur with
      | Some _ => dup_loop n (j + 1) fd fp
      | None =>
          modify (set_fd j (Some fp));;
          modify (fuse fp);;
          fl ← gets (λ s, default 0 (zget (fflags (current s)) fd));
          modify (set_fd_flags j fl);;
          mret j
      end
  end.
Definition do_dup0 (startfd fd : Z) : M fs Z :=
  if ckfdlimit startfd then mret (- EINVAL)
  else if ckfdlimit fd then mret (- EINVAL)
  else
    fp ← fget fd;
    match fp with
    | None => mret (- EBADF)
    | Some fp => dup_loop (Z.to_nat OPEN_MAX) startfd fd fp
    end.
Definition do_dup (fd : Z) : M fs Z :=
  if ckfdlimit fd then mret (- EINVAL) else do_dup0 0 fd.
Definition do_dup2 (oldfd newfd : Z) : M fs Z :=
  if ckfdlimit oldfd then mret (- EINVAL)
  else if ckfdlimit newfd then mret (- EINVAL)
  else if oldfd =? newfd then mret newfd
  else
    fp ← fget oldfd;
    match fp with
    | None => mret (- EBADF)
    | Some fp =>
        fp1 ← fget newfd;
        match fp1 with Some _ => do_close newfd ≫= λ _, mret tt | None => mret tt end;;
        fl ← gets (λ s, default 0 (zget (fflags (current s)) oldfd));
        modify (set_fd_flags newfd fl);;
        modify (set_fd newfd (Some fp));;
        modify (fuse fp);;
        mret newfd
    end.

Definition do_lseek (fd offset whence : Z) : M fs Z :=
  fp ← fget fd;
  fp ← deref fp;
  f ← gets (λ s, filp_at s fp);
  ip ← deref (f_ino f);
  i ← gets (λ s, ino_at s ip);
  if has (i_flags i) PIPE_I then mret (- ESPIPE)
  else
    let pos := if whence =? SEEK_SET then Some 0
               else if whence =? SEEK_CUR then Some (f_pos f)
               else if whence =? SEEK_END then Some (i_size i)
               else None in
    match pos with
    | None => mret (- EINVAL)
    | Some pos =>
        if (offset <? 0) && (pos <? s32 (pos + offset)) then mret (- EINVAL)
        else if (0 <? offset) && (s32 (pos + offset) <? pos) then mret (- EINVAL)
        else
          let pos := s32 (pos + offset) in
          when (negb (pos =? f_pos f)) (modify (upd_ino ip (set_flag SEEK_I)));;
          modify (upd_filp fp (set_f_pos pos));;
          mret pos
    end.
End file.
