(* ===== verification/ReadWrite.v ===== *)
(** * Reading and writing (fs/read.c, write.c, pipe.c)

    What a read stores in the caller's buffer is returned as a list of bytes
    from the start of the buffer.  A call that blocks on a pipe ends as
    [Sleep]. *)

From S2P Require Import Prelude Cstring Blocks Pages Dlist FsState Super Zone Inode Dir Namei File.
From stdpp Require Import base numbers functions gmap list.

Local Open Scope Z_scope.

Definition PIPE_SIZE : Z := 4096.

Section readwrite.
Context {S PS : Type} `{BlockStore S, PageAlloc PS}.
Notation fs := (fs_state S PS).
Context (X : outside fs).
Notation iput := (iput (socket_close X)).

(** ** Devices *)

(** The count, the bytes and [*error]. *)
Definition dev_read (ip count pos flags : Z) : M fs (Z * list Z * Z) :=
  i ← gets (λ s, ino_at s ip);
  let dev := s16 (zone_at i 0) in
  match device X dev ≫= dev_readf with
  | Some read => read (MINOR dev) count pos flags
  | None => mret (0, [], 0)
  end.
Definition dev_write (ip : Z) (buffer : list Z) (pos flags : Z) : M fs (Z * Z) :=
  i ← gets (λ s, ino_at s ip);
  let dev := s16 (zone_at i 0) in
  match device X dev ≫= dev_writef with
  | Some write => write (MINOR dev) buffer pos flags
  | None => mret (0, 0)
  end.

(** ** Pipes *)

(** [while(count > 0)]: at most two copies around the end of the page. *)
Fixpoint pipe_copy_out (fuel : nat) (ip readp count : Z) (out : list Z) : M fs (list Z) :=
  if 0 <? count then
    match fuel with
    | O => die
    | Datatypes.S fuel =>
        i ← gets (λ s, ino_at s ip);
        let reading := if count <? PIPE_SIZE - readp then count else PIPE_SIZE - readp in
        let out := out ++ slice readp reading (i_bytes i) in
        let readp := if PIPE_SIZE <=? readp + reading then 0 else readp + reading in
        modify (upd_ino ip (λ i, set_i_size (i_size i - reading) (set_i_readp readp i)));;
        pipe_copy_out fuel ip readp (count - reading) out
    end
  else mret out.
(** [check_again]: reading goes on until [count1] bytes, an [int], are there. *)
Fixpoint pipe_read (fuel : nat) (ip fd count count1 : Z) (out : list Z) : M fs (Z * list Z) :=
  i ← gets (λ s, ino_at s ip);
  if i_size i =? 0 then
    fl ← gets (λ s, default 0 (zget (fflags (current s)) fd));
    if has fl O_NDELAY then mret (zlen out, out)
    else if truth (i_buddy i) then sleepon
    else mret (zlen out, out)
  else
    let n := if i_size i <? count then i_size i else count in
    out ← pipe_copy_out 2 ip (i_readp i) n out;
    if zlen out <? count1 then
      match fuel with
      | O => die
      | Datatypes.S fuel => pipe_read fuel ip fd (count1 - zlen out) count1 out
      end
    else mret (zlen out, out).

Fixpoint pipe_copy_in (fuel : nat) (ip writep : Z) (bytes : list Z) : M fs unit :=
  if 0 <? zlen bytes then
    match fuel with
    | O => die
    | Datatypes.S fuel =>
        let writing := if zlen bytes <? PIPE_SIZE - writep then zlen bytes else PIPE_SIZE - writep in
        let writep' := if PIPE_SIZE <=? writep + writing then 0 else writep + writing in
        modify (upd_ino ip (λ i,
          set_i_size (i_size i + writing) (set_i_writep writep'
            (set_i_bytes (memcpy (i_bytes i) writep (slice 0 writing bytes)) i))));;
        pipe_copy_in fuel ip writep' (drop (Z.to_nat writing) bytes)
    end
  else mret tt.
Fixpoint pipe_write (fuel : nat) (ip : Z) (bytes : list Z) (count1 writed : Z) : M fs Z :=
  i ← gets (λ s, ino_at s ip);
  if negb (truth (i_buddy i)) then
    sendsig_pipe X;;
    mret (- EPIPE)
  else if PIPE_SIZE <=? i_size i then sleepon
  else
    let room := PIPE_SIZE - i_size i in
    let n := if room <? zlen bytes then room else zlen bytes in
    pipe_copy_in 2 ip (i_writep i) (take (Z.to_nat n) bytes);;
    if writed + n <? count1 then
      match fuel with
      | O => die
      | Datatypes.S fuel => pipe_write fuel ip (drop (Z.to_nat n) bytes) count1 (writed + n)
      end
    else mret (writed + n).

Definition do_pipe : M fs (Z * (Z * Z)) :=
  buffer ← lift_pg (get_pages 0 0);
  if buffer =? 0 then mret (- EAGAIN, (0, 0))
  else
    ip ← iget NODEV 0;
    modify (upd_ino ip (λ i, set_i_writep 0 (set_i_readp 0 (set_i_buffer 0 (set_i_buddy 1
      (set_i_size 0 (set_i_nlinks 0 (set_i_mode 0 i))))))));;
    r0 ← fdget 0 O_RDONLY ip 0;
    if r0.1 <? 0 then
      lift_pg (put_page buffer);;
      iput (Some ip);;
      mret (r0.2, (0, 0))
    else
      r1 ← fdget 0 O_WRONLY ip 0;
      if r1.1 <? 0 then
        lift_pg (put_page buffer);;
        fp ← fget r0.1;
        fp ← deref fp;
        ffree X fp;;
        modify (set_fd r0.1 None);;
        iput (Some ip);;
        mret (r1.2, (0, 0))
      else
        modify (upd_ino ip (λ i, set_i_count (i_count i + 2) (set_flag PIPE_I
          (set_i_bytes (replicate 4096 0) (set_i_buffer buffer i)))));;
        iput (Some ip);;
        mret (0, (r0.1, r1.1)).

(** ** Files *)

(** [reading] bytes at [inblock] of the block at [pos]; a hole reads as zeros.
    A negative [inblock] (of a negative position) would copy the memory before
    the block's data, of which the model has no value. *)
Definition read_at (ip pos inblock reading : Z) : M fs (option (list Z)) :=
  blk ← bmap ip pos;
  if blk =? NOBLOCK then mret (Some (replicate (Z.to_nat reading) 0))
  else
    i ← gets (λ s, ino_at s ip);
    bh ← fs_bread (i_dev i) blk;
    die_if (bool_decide (is_Some bh) && (inblock <? 0));;
    mret (slice inblock reading <$> bh).

(** [while(count > readed)]; whether the end was reached without an error. *)
Fixpoint read_loop (fuel : nat) (ip pos count : Z) (out : list Z) : M fs (bool * list Z) :=
  let readed := zlen out in
  if readed <? count then
    match fuel with
    | O => die
    | Datatypes.S fuel =>
        i ← gets (λ s, ino_at s ip);
        let reading := if BLOCKSIZ <? count - readed then BLOCKSIZ else count - readed in
        let reading := if i_size i - pos <? reading then i_size i - pos else reading in
        if reading <=? 0 then mret (true, out)
        else
          b ← read_at ip pos 0 reading;
          match b with
          | None => mret (false, out)
          | Some bytes => read_loop fuel ip (pos + reading) count (out ++ bytes)
          end
    end
  else mret (true, out).
(** The part of [do_read] for files. *)
Definition file_read (ip pos count : Z) : M fs (bool * list Z) :=
  i ← gets (λ s, ino_at s ip);
  let inblock := Z.rem pos BLOCKSIZ in
  if inblock =? 0 then read_loop (Z.to_nat (count / BLOCKSIZ + 2)) ip pos count []
  else
    let reading := BLOCKSIZ - inblock in
    let reading := if count <? reading then count else reading in
    let reading := if i_size i - pos <? reading then i_size i - pos else reading in
    if reading <=? 0 then mret (true, [])
    else
      b ← read_at ip pos inblock reading;
      match b with
      | None => mret (false, [])
      | Some bytes => read_loop (Z.to_nat (count / BLOCKSIZ + 2)) ip (pos + reading) count bytes
      end.

(** The result and the bytes stored in the buffer. *)
Definition do_read (fd count : Z) : M fs (Z * list Z) :=
  fp ← fget fd;
  fp ← deref fp;
  if count =? 0 then mret (0, [])
  else
    f ← gets (λ s, filp_at s fp);
    ip ← deref (f_ino f);
    i ← gets (λ s, ino_at s ip);
    me ← gets current;
    let flags := Z.lor (f_mode f) (default 0 (zget (fflags me) fd)) in
    let advance n := modify (upd_filp fp (λ f, set_f_pos (f_pos f + n) f)) in
    if S_ISBLK (i_mode i) || S_ISCHR (i_mode i) then
      r ← dev_read ip count (f_pos f) flags;
      advance r.1.1;;
      mret (if r.2 <? 0 then r.2 else r.1.1, r.1.2)
    else if S_ISSOCK (i_mode i) then
      r ← socket_read X ip count flags;
      mret (if r.2 <? 0 then r.2 else r.1.1, r.1.2)
    else if S_ISDIR (i_mode i) && truth (check me) then mret (- EISDIR, [])
    else if S_ISFIFO (i_mode i) then mret (- EINVAL, [])
    else if has (i_flags i) PIPE_I then pipe_read 1 ip fd count (s32 count) []
    else
      r ← file_read ip (f_pos f) count;
      advance (zlen r.2);;
      mret (if r.1 : bool then zlen r.2 else - EIO, r.2).

(** [bytes] are stored at [inblock] of the block at [pos], which is allocated
    when there is none; false is [goto errout]. *)
Definition write_at (ip pos inblock : Z) (bytes : list Z) : M fs bool :=
  blk ← bmap ip pos;
  i ← gets (λ s, ino_at s ip);
  r ← (if blk =? NOBLOCK then
         blk ← bitalloc (i_sp i) ZMAP;
         if blk =? NOBLOCK then mret None
         else
           sp ← deref (i_sp i);
           p ← gets (λ s, sb_at s sp);
           ok ← minode ip pos (Z.shiftr blk (s_lzsize p));
           if ok =? 0 then
             bitfree (i_sp i) blk ZMAP;;
             mret None
           else mret (Some (blk, zero_block))
       else
         bh ← fs_bread (i_dev i) blk;
         mret (pair blk <$> bh));
  match r with
  | None => mret false
  | Some (blk, data) =>
      fs_bwrite (i_dev i) blk (memcpy data inblock bytes);;
      modify (upd_ino ip (λ i,
        if i_size i <? pos + zlen bytes then set_i_size (pos + zlen bytes) i else i));;
      mret true
  end.

(** [return -EFBIG], [goto errout] and the end of the loop. *)
Inductive write_end := WTooBig | WError (pos : Z) | WEnd (pos : Z).

Fixpoint write_loop (fuel : nat) (ip pos : Z) (bytes : list Z) : M fs write_end :=
  if 0 <? zlen bytes then
    match fuel with
    | O => die
    | Datatypes.S fuel =>
        if FILESIZE_MAX <=? u32 pos then mret WTooBig
        else
          let writing := if BLOCKSIZ <? zlen bytes then BLOCKSIZ else zlen bytes in
          ok ← write_at ip pos 0 (take (Z.to_nat writing) bytes);
          if ok : bool then write_loop fuel ip (pos + writing) (drop (Z.to_nat writing) bytes)
          else mret (WError pos)
    end
  else mret (WEnd pos).
Definition file_write (ip pos : Z) (bytes : list Z) : M fs write_end :=
  let inblock := Z.rem pos BLOCKSIZ in
  let fuel := Z.to_nat (zlen bytes / BLOCKSIZ + 2) in
  if inblock =? 0 then write_loop fuel ip pos bytes
  else if FILESIZE_MAX <=? u32 pos then mret WTooBig
  else
    let writing := BLOCKSIZ - inblock in
    let writing := if zlen bytes <? writing then zlen bytes else writing in
    ok ← write_at ip pos inblock (take (Z.to_nat writing) bytes);
    if ok : bool then write_loop fuel ip (pos + writing) (drop (Z.to_nat writing) bytes)
    else mret (WError pos).

Definition do_write (fd : Z) (buffer : list Z) : M fs Z :=
  fp ← fget fd;
  fp ← deref fp;
  f ← gets (λ s, filp_at s fp);
  if Z.land (f_mode f) O_ACCMODE =? O_RDONLY then mret (- EINVAL)
  else
    ip ← deref (f_ino f);
    i ← gets (λ s, ino_at s ip);
    me ← gets current;
    if S_ISDIR (i_mode i) then mret (- EISDIR)
    else if zlen buffer =? 0 then mret 0
    else
      let flags := Z.lor (f_mode f) (default 0 (zget (fflags me) fd)) in
      let release := modify (upd_ino ip (λ i, set_i_count (i_count i + 1) i));; iput (Some ip) in
      if S_ISBLK (i_mode i) || S_ISCHR (i_mode i) then
        r ← dev_write ip buffer (f_pos f) flags;
        modify (upd_filp fp (λ f, set_f_pos (f_pos f + r.1) f));;
        mret (if r.2 <? 0 then r.2 else r.1)
      else if S_ISSOCK (i_mode i) then
        r ← socket_write X ip buffer flags;
        mret (if r.2 <? 0 then r.2 else r.1)
      else if S_ISFIFO (i_mode i) then
        release;;
        mret (- EINVAL)
      else if has (i_flags i) PIPE_I then pipe_write 1 ip buffer (s32 (zlen buffer)) 0
      else
        r ← file_write ip (f_pos f) buffer;
        let finish_at pos :=
          modify (upd_filp fp (set_f_pos pos));;
          modify (upd_ino ip (λ i, if i_size i <? pos then set_i_size pos i else i));;
          modify (upd_ino ip (λ i,
            if S_ISREG (i_mode i) || S_ISDIR (i_mode i) then touch i else i));;
          release in
        match r with
        | WTooBig => mret (- EFBIG)
        | WError pos =>
            finish_at pos;;
            mret (- EIO)
        | WEnd pos =>
            finish_at pos;;
            mret (zlen buffer)
        end.
End readwrite.
