(* ===== verification/Pipe.v ===== *)
(** * Pipes are queues

    The page of a pipe with its two indices is a queue of at most 4096 bytes:
    the pipe parts of [do_read] and [do_write] (ReadWrite.v) take bytes from
    its front and add bytes at its end, in order, without loss. *)

From S2P Require Import Prelude Cstring Blocks Pages Dlist FsState Super Zone Inode Dir Namei File ReadWrite.
From stdpp Require Import base numbers functions gmap list.

Local Open Scope Z_scope.

(** The inode [i] is a pipe that holds the bytes [q]. *)
Record pipe_ok (i : inode) (q : list Z) : Prop := {
  po_size : i_size i = zlen q;
  po_cap : zlen q <= PIPE_SIZE;
  po_readp : 0 <= i_readp i < PIPE_SIZE;
  po_writep : i_writep i = (i_readp i + zlen q) mod PIPE_SIZE;
  po_page : zlen (i_bytes i) = PIPE_SIZE;
  po_bytes k : 0 <= k < zlen q → zget q k = zget (i_bytes i) ((i_readp i + k) mod PIPE_SIZE);
}.

(** An index moved on by [c], back to 0 at the end of the page. *)
Lemma wrap_index p c : 0 <= p < PIPE_SIZE → 0 <= c <= PIPE_SIZE - p →
  (if PIPE_SIZE <=? p + c then 0 else p + c) = (p + c) mod PIPE_SIZE.
Proof.
  unfold PIPE_SIZE. intros. destruct (Z.leb_spec 4096 (p + c)).
  - replace (p + c) with 4096 by lia. done.
  - by rewrite Z.mod_small by lia.
Qed.

Lemma mod_once x : 0 <= x < 2 * PIPE_SIZE →
  x mod PIPE_SIZE = x ∧ x < PIPE_SIZE ∨ x mod PIPE_SIZE = x - PIPE_SIZE ∧ PIPE_SIZE <= x.
Proof.
  unfold PIPE_SIZE. intros. destruct (decide (x < 4096)); [left|right].
  - by rewrite Z.mod_small by lia.
  - split; [|lia]. symmetry. apply (Z.mod_unique_pos _ _ 1); lia.
Qed.

(** Taking a chunk that does not cross the end of the page. *)
Lemma pipe_advance i q c : pipe_ok i q → 0 <= c <= zlen q → c <= PIPE_SIZE - i_readp i →
  slice (i_readp i) c (i_bytes i) = take (Z.to_nat c) q ∧
  pipe_ok (set_i_size (i_size i - c)
    (set_i_readp (if PIPE_SIZE <=? i_readp i + c then 0 else i_readp i + c) i)) (drop (Z.to_nat c) q).
Proof.
  intros [Hs Hc Hr Hw Hb Hq] Hcq Hcp. split.
  - apply zget_ext. intros k Hk. rewrite zget_take by lia. unfold slice. rewrite zget_take, zget_drop by lia.
    case_decide; [|done]. rewrite Hq by lia. f_equal. rewrite Z.mod_small; lia.
  - rewrite wrap_index by lia.
    pose proof (zlen_drop c q Hcq) as Hl.
    split; unfold PIPE_SIZE in *; simpl; rewrite ?Hl; try lia; try done.
    + apply Z.mod_pos_bound. lia.
    + rewrite Hw, Zplus_mod_idemp_l. f_equal. lia.
    + intros k Hk. rewrite zget_drop by lia. rewrite Hq by lia. rewrite Zplus_mod_idemp_l.
      do 2 f_equal. lia.
Qed.

(** Adding a chunk that does not cross the end of the page. *)
Lemma pipe_append i q b : pipe_ok i q → zlen q + zlen b <= PIPE_SIZE → zlen b <= PIPE_SIZE - i_writep i →
  pipe_ok (set_i_size (i_size i + zlen b)
    (set_i_writep (if PIPE_SIZE <=? i_writep i + zlen b then 0 else i_writep i + zlen b)
      (set_i_bytes (memcpy (i_bytes i) (i_writep i) b) i))) (q ++ b).
Proof.
  intros [Hs Hc Hr Hw Hb Hq] Hcap Hcp. pose proof (zlen_nonneg b). pose proof (zlen_nonneg q).
  assert (0 <= i_writep i < PIPE_SIZE) as Hwr by (rewrite Hw; apply Z.mod_pos_bound; done).
  rewrite wrap_index by lia.
  split; unfold PIPE_SIZE in *; simpl; rewrite ?zlen_app, ?zlen_memcpy; try lia; try done.
  - rewrite Hw, Zplus_mod_idemp_l. f_equal. lia.
  - intros k Hk. rewrite zget_memcpy by lia. rewrite zget_app by lia. rewrite Hw in *.
    pose proof (mod_once (i_readp i + zlen q)) as Hm1. pose proof (mod_once (i_readp i + k)) as Hm2.
    unfold PIPE_SIZE in *.
    case_decide as Hin; case_decide as Hkq.
    + lia.
    + apply Hq. lia.
    + apply (f_equal (zget b)). lia.
    + lia.
Qed.

Section pipe.
Context {S PS : Type} `{BlockStore S, PageAlloc PS}.
Notation fs := (fs_state S PS).
Context (X : outside fs).

(** [s'] differs from [s] in the pipe [ip] only, which holds [q]. *)
Definition pipe_now (ip : Z) (q : list Z) (s s' : fs) : Prop :=
  ∃ i, s' = upd_ino ip (λ _, i) s ∧ pipe_ok i q ∧
    i_buddy i = i_buddy (ino_at s ip) ∧ i_flags i = i_flags (ino_at s ip).

Lemma pipe_now_refl ip q s : pipe_ok (ino_at s ip) q → 0 <= ip < zlen (inodes s) → pipe_now ip q s s.
Proof.
  intros Hp Hip. exists (ino_at s ip). split; [|done]. symmetry. by apply upd_ino_same.
Qed.

(** A step that changes only the queue. *)
Lemma pipe_now_step ip q q' s s1 f : 0 <= ip < zlen (inodes s) → pipe_now ip q s s1 →
  (∀ i, i_buddy (f i) = i_buddy i) → (∀ i, i_flags (f i) = i_flags i) →
  pipe_ok (f (ino_at s1 ip)) q' → pipe_now ip q' s (upd_ino ip f s1).
Proof.
  intros Hip (i & -> & Hi & Hb & Hf) Hfb Hff Hok. rewrite ino_at_upd_ino, decide_True in Hok by done.
  exists (f i). rewrite upd_ino_upd_ino. split; [done|]. by rewrite Hfb, Hff.
Qed.

Lemma pipe_now_at ip q s s1 : 0 <= ip < zlen (inodes s) → pipe_now ip q s s1 →
  pipe_ok (ino_at s1 ip) q ∧ i_buddy (ino_at s1 ip) = i_buddy (ino_at s ip).
Proof. intros Hip (i & -> & Hi & Hb & Hf). by rewrite ino_at_upd_ino, decide_True by done. Qed.

Lemma pipe_now_valid ip q s s1 : 0 <= ip < zlen (inodes s) → pipe_now ip q s s1 →
  0 <= ip < zlen (inodes s1).
Proof. intros Hip (i & -> & _). by rewrite zlen_inodes_upd_ino. Qed.

(** At most one turn reaches the end of the page, so two turns are enough. *)
Lemma pipe_copy_out_spec fuel ip n q out s s1 : 0 <= ip < zlen (inodes s) →
  pipe_now ip q s s1 → 0 <= n <= zlen q →
  (fuel = 2%nat ∨ (fuel = 1%nat ∧ n <= PIPE_SIZE - i_readp (ino_at s1 ip)) ∨ n = 0) →
  ∃ s2, pipe_copy_out fuel ip (i_readp (ino_at s1 ip)) n out s1 = Ret (out ++ take (Z.to_nat n) q) s2 ∧
    pipe_now ip (drop (Z.to_nat n) q) s s2.
Proof.
  intros Hip. revert n q out s1. induction fuel as [|fuel IH]; intros n q out s1 Hnow Hn Hfuel;
    destruct (pipe_now_at _ _ _ _ Hip Hnow) as [Hok _]; cbn [pipe_copy_out].
  - assert (n = 0) as -> by lia. simpl. rewrite app_nil_r. by exists s1.
  - destruct (Z.ltb_spec 0 n) as [Hpos|Hz].
    2:{ assert (n = 0) as -> by lia. simpl. rewrite app_nil_r. by exists s1. }
    mstep. set (i := ino_at s1 ip) in *. set (c := if n <? _ then _ else _).
    assert (0 <= c <= n ∧ c <= PIPE_SIZE - i_readp i ∧ (c = n ∨ c = PIPE_SIZE - i_readp i)) as (Hc & Hcp & Hce).
    { pose proof (po_readp _ _ Hok). unfold c. destruct (Z.ltb_spec n (PIPE_SIZE - i_readp i)); lia. }
    destruct (pipe_advance i q c Hok) as [-> Hok']; [lia..|].
    set (r' := if PIPE_SIZE <=? _ then _ else _) in *.
    set (s2 := upd_ino ip _ s1).
    assert (pipe_now ip (drop (Z.to_nat c) q) s s2) as Hnow2
      by (by eapply pipe_now_step; [|exact Hnow| | |]).
    assert (i_readp (ino_at s2 ip) = r') as Hr2.
    { unfold s2. by rewrite ino_at_upd_ino, decide_True by (done || by eapply pipe_now_valid). }
    destruct (IH (n - c) (drop (Z.to_nat c) q) (out ++ take (Z.to_nat c) q) s2) as (s3 & He & Hnow3); [done| | |].
    + unfold zlen in *. rewrite length_drop. lia.
    + rewrite Hr2. destruct (decide (n - c = 0)); [by right; right|]. right; left.
      assert (c = PIPE_SIZE - i_readp i) as Hcc by lia. destruct Hfuel as [?|[[? ?]|?]]; [|lia..].
      split; [lia|]. assert (r' = 0) as -> by (unfold r'; rewrite (proj2 (Z.leb_le _ _)) by lia; done).
      pose proof (po_cap _ _ Hok). pose proof (po_readp _ _ Hok). lia.
    + rewrite Hr2 in He. rewrite He. exists s3. split.
      * rewrite <-app_assoc, take_take_drop. by replace (Z.to_nat c + Z.to_nat (n - c))%nat with (Z.to_nat n) by lia.
      * rewrite drop_drop in Hnow3. by replace (Z.to_nat c + Z.to_nat (n - c))%nat with (Z.to_nat n) in Hnow3 by lia.
Qed.

(** The same for the bytes of a write. *)
Lemma pipe_copy_in_spec fuel ip b q s s1 : 0 <= ip < zlen (inodes s) →
  pipe_now ip q s s1 → zlen q + zlen b <= PIPE_SIZE →
  (fuel = 2%nat ∨ (fuel = 1%nat ∧ zlen b <= PIPE_SIZE - i_writep (ino_at s1 ip)) ∨ b = []) →
  ∃ s2, pipe_copy_in fuel ip (i_writep (ino_at s1 ip)) b s1 = Ret tt s2 ∧ pipe_now ip (q ++ b) s s2.
Proof.
  intros Hip. revert b q s1. induction fuel as [|fuel IH]; intros b q s1 Hnow Hb Hfuel;
    destruct (pipe_now_at _ _ _ _ Hip Hnow) as [Hok _]; cbn [pipe_copy_in].
  - assert (b = []) as -> by (destruct Hfuel as [?|[[? ?]|?]]; [lia..|done]).
    rewrite app_nil_r. by exists s1.
  - destruct (Z.ltb_spec 0 (zlen b)) as [Hpos|Hz].
    2:{ assert (b = []) as -> by (apply nil_length_inv; unfold zlen in Hz; lia).
        rewrite app_nil_r. by exists s1. }
    set (i := ino_at s1 ip) in *. set (c := if zlen b <? _ then _ else _).
    assert (0 <= i_writep i < PIPE_SIZE) as Hwr.
    { rewrite (po_writep _ _ Hok). apply Z.mod_pos_bound. done. }
    assert (0 <= c <= zlen b ∧ c <= PIPE_SIZE - i_writep i ∧ (c = zlen b ∨ c = PIPE_SIZE - i_writep i))
      as (Hc & Hcp & Hce).
    { unfold c. destruct (Z.ltb_spec (zlen b) (PIPE_SIZE - i_writep i)); lia. }
    pose proof (zlen_take c b Hc) as Hlc. pose proof (zlen_drop c b Hc) as Hld. unfold slice. rewrite drop_0.
    pose proof (pipe_append i q (take (Z.to_nat c) b) Hok) as Hok'. rewrite Hlc in Hok'.
    specialize (Hok' ltac:(lia) Hcp). set (w' := if PIPE_SIZE <=? _ then _ else _) in *. rewrite bind_modify.
    set (s2 := upd_ino ip _ s1).
    assert (pipe_now ip (q ++ take (Z.to_nat c) b) s s2) as Hnow2
      by (by eapply pipe_now_step; [|exact Hnow| | |]).
    assert (i_writep (ino_at s2 ip) = w') as Hw2.
    { unfold s2. by rewrite ino_at_upd_ino, decide_True by (done || by eapply pipe_now_valid). }
    destruct (IH (drop (Z.to_nat c) b) (q ++ take (Z.to_nat c) b) s2) as (s3 & He & Hnow3); [done| | |].
    + rewrite zlen_app. lia.
    + rewrite Hw2. destruct (decide (c = zlen b)) as [Hcb|].
      { right; right. apply nil_length_inv. unfold zlen in Hld, Hcb. lia. }
      right; left. destruct Hfuel as [?|[[? ?]| ->]]; [|lia|done]. split; [lia|].
      assert (w' = 0) as -> by (unfold w'; rewrite (proj2 (Z.leb_le _ _)) by lia; done). pose proof (zlen_nonneg q). lia.
    + rewrite Hw2 in He. rewrite He. exists s3. split; [done|].
      by rewrite <-app_assoc, take_drop in Hnow3.
Qed.

Lemma pipe_now_frame ip q s s1 : pipe_now ip q s s1 → current s1 = current s.
Proof. by intros (i & -> & _). Qed.

(** [check_again] on an empty pipe. *)
Lemma pipe_read_empty fuel ip fd count count1 out s s1 : 0 <= ip < zlen (inodes s) → pipe_now ip [] s s1 →
  pipe_read fuel ip fd count count1 out s1 =
    if has (default 0 (zget (fflags (current s)) fd)) O_NDELAY || negb (truth (i_buddy (ino_at s ip)))
    then Ret (zlen out, out) s1 else Sleep s1.
Proof.
  intros Hip Hnow. destruct (pipe_now_at _ _ _ _ Hip Hnow) as [Hok Hbd].
  rewrite <-(pipe_now_frame _ _ _ _ Hnow), <-Hbd.
  destruct fuel; cbn [pipe_read]; mstep; rewrite (po_size _ _ Hok); simpl; mstep;
    destruct (has _ _); simpl; try done; by destruct (truth _).
Qed.

Lemma pipe_read_queue fuel ip fd count q s :
  0 <= ip < zlen (inodes s) → pipe_ok (ino_at s ip) q → 0 < count < 2 ^ 31 →
  ∃ s', pipe_now ip (drop (Z.to_nat count) q) s s' ∧
    pipe_read (Datatypes.S fuel) ip fd count (s32 count) [] s =
      if decide (count <= zlen q) then Ret (count, take (Z.to_nat count) q) s'
      else if has (default 0 (zget (fflags (current s)) fd)) O_NDELAY || negb (truth (i_buddy (ino_at s ip)))
      then Ret (zlen q, q) s' else Sleep s'.
Proof.
  intros Hip Hok Hc. pose proof (pipe_now_refl ip q s Hok Hip) as Hnow. rewrite s32_small by lia.
  destruct (decide (q = [])) as [->|Hne].
  { exists s. rewrite drop_nil. split; [done|]. rewrite decide_False by (unfold zlen; simpl; lia).
    by rewrite (pipe_read_empty _ _ _ _ _ _ s). }
  assert (0 < zlen q) as Hpos by (destruct q; [done|]; unfold zlen; simpl; lia).
  set (n := Z.min (zlen q) count).
  destruct (pipe_copy_out_spec 2 ip n q [] s s) as (s1 & He & Hnow1); [done|done|lia|by left|].
  exists s1. cbn [pipe_read]. mstep. rewrite (po_size _ _ Hok). rewrite (proj2 (Z.eqb_neq _ _)) by lia.
  replace (if zlen q <? count then zlen q else count) with n
    by (unfold n; destruct (Z.ltb_spec (zlen q) count); lia).
  rewrite (bind_eval _ _ _ _ _ He). cbv beta. rewrite app_nil_l. rewrite zlen_take by lia.
  case_decide as Hcase.
  - assert (n = count) as Hn by lia. rewrite Hn in *. by rewrite Z.ltb_irrefl.
  - assert (n = zlen q) as Hn by lia. rewrite (proj2 (Z.ltb_lt _ _)) by lia.
    rewrite Hn in *. unfold zlen in Hnow1. rewrite Nat2Z.id, drop_all in Hnow1.
    rewrite drop_ge by (unfold zlen in *; lia). split; [done|].
    rewrite (pipe_read_empty _ _ _ _ _ _ s) by done. unfold zlen. by rewrite Nat2Z.id, firstn_all.
Qed.

Lemma pipe_write_queue fuel ip b q s :
  0 <= ip < zlen (inodes s) → pipe_ok (ino_at s ip) q → 0 < zlen b < 2 ^ 31 → i_buddy (ino_at s ip) ≠ 0 →
  ∃ s', pipe_now ip (q ++ take (Z.to_nat (PIPE_SIZE - zlen q)) b) s s' ∧
    pipe_write X (Datatypes.S fuel) ip b (s32 (zlen b)) 0 s =
      if decide (zlen q + zlen b <= PIPE_SIZE) then Ret (zlen b) s' else Sleep s'.
Proof.
  intros Hip Hok Hb Hbd. pose proof (pipe_now_refl ip q s Hok Hip) as Hnow. rewrite s32_small by lia.
  apply truth_true in Hbd. pose proof (po_cap _ _ Hok) as Hcap. pose proof (po_size _ _ Hok) as Hsz.
  pose proof (zlen_nonneg q).
  assert (∀ fuel q b c w s1, pipe_now ip q s s1 → zlen q = PIPE_SIZE →
    pipe_write X fuel ip b c w s1 = Sleep s1) as Hfull.
  { clear fuel. intros fuel q' b' c w s1 Hn1 Hq1. destruct (pipe_now_at _ _ _ _ Hip Hn1) as [Hok1 Hbd1].
    destruct fuel; cbn [pipe_write]; mstep; rewrite Hbd1, Hbd; simpl;
      rewrite (po_size _ _ Hok1), Hq1; done. }
  destruct (decide (zlen q = PIPE_SIZE)) as [Hq|Hq].
  { exists s. rewrite Hq, Z.sub_diag, app_nil_r. split; [done|]. rewrite decide_False by lia. by apply (Hfull _ q). }
  set (n := Z.min (PIPE_SIZE - zlen q) (zlen b)).
  assert (take (Z.to_nat (PIPE_SIZE - zlen q)) b = take (Z.to_nat n) b) as ->.
  { destruct (decide (zlen b <= PIPE_SIZE - zlen q)).
    - rewrite !take_ge by (unfold zlen in *; lia). done.
    - unfold n. by rewrite Z.min_l by lia. }
  pose proof (zlen_take n b ltac:(lia)) as Hln.
  destruct (pipe_copy_in_spec 2 ip (take (Z.to_nat n) b) q s s) as (s1 & He & Hnow1); [done|done|lia|by left|].
  exists s1. split; [done|]. cbn [pipe_write]. mstep. rewrite Hbd, Hsz. cbn [negb].
  rewrite (proj2 (Z.leb_gt _ _)) by lia.
  replace (if PIPE_SIZE - zlen q <? zlen b then PIPE_SIZE - zlen q else zlen b) with n
    by (unfold n; destruct (Z.ltb_spec (PIPE_SIZE - zlen q) (zlen b)); lia).
  rewrite (bind_eval _ _ _ _ _ He). cbv beta. rewrite Z.add_0_l. case_decide as Hcase.
  - rewrite (proj2 (Z.ltb_ge _ _)) by lia. unfold n. rewrite Z.min_r by lia. done.
  - rewrite (proj2 (Z.ltb_lt _ _)) by lia.
    eapply Hfull; [done|]. rewrite zlen_app, Hln. lia.
Qed.
End pipe.

(** ** The claims *)

(** C27. Reading a pipe takes bytes from the front of its queue, in order, and
    changes nothing else: [count] bytes when there are as many; otherwise all
    of them, and the call returns if it must not block or no writer is left,
    and waits for the rest if there is one. *)
Theorem pipe_read_dequeues {S PS} (ip fd count : Z) (q : list Z) (s : fs_state S PS) :
  0 <= ip < zlen (inodes s) → pipe_ok (ino_at s ip) q → 0 < count < 2 ^ 31 →
  ∃ s', pipe_now ip (drop (Z.to_nat count) q) s s' ∧
    pipe_read 1 ip fd count (s32 count) [] s =
      if decide (count <= zlen q) then Ret (count, take (Z.to_nat count) q) s'
      else if has (default 0 (zget (fflags (current s)) fd)) O_NDELAY || negb (truth (i_buddy (ino_at s ip)))
      then Ret (zlen q, q) s' else Sleep s'.
Proof. apply pipe_read_queue. Qed.

(** C28. Writing to a pipe that has a reader adds the bytes at the end of its
    queue, in order, and changes nothing else: all of them when there is room;
    otherwise as many as fit, and the call waits. *)
Theorem pipe_write_enqueues {S PS} (X : outside (fs_state S PS)) (ip : Z) (b q : list Z) (s : fs_state S PS) :
  0 <= ip < zlen (inodes s) → pipe_ok (ino_at s ip) q → 0 < zlen b < 2 ^ 31 → i_buddy (ino_at s ip) ≠ 0 →
  ∃ s', pipe_now ip (q ++ take (Z.to_nat (PIPE_SIZE - zlen q)) b) s s' ∧
    pipe_write X 1 ip b (s32 (zlen b)) 0 s =
      if decide (zlen q + zlen b <= PIPE_SIZE) then Ret (zlen b) s' else Sleep s'.
Proof. apply pipe_write_queue. Qed.

(** A pipe whose three bytes lie across the end of the page. *)
Definition demo_pipe : inode :=
  set_i_flags PIPE_I (set_i_buddy 1 (set_i_size 3 (set_i_readp 4094 (set_i_writep 1
    (set_i_bytes ([9] ++ replicate 4093 0 ++ [7; 8]) null_inode))))).
Definition demo_pipe_fs : fs_state plain_disk unit := upd_inodes (λ _, [demo_pipe]) demo_fs.
Definition demo_outside : outside (fs_state plain_disk unit) :=
  Outside [] (λ _, mret tt) (λ _ _ _, mret (0, [], 0)) (λ _ _ _, mret (0, 0)) (mret tt).

Lemma demo_pipe_ok : pipe_ok demo_pipe [7; 8; 9].
Proof.
  split; try done; try (unfold PIPE_SIZE; simpl; lia).
  intros k Hk. assert (k = 0 ∨ k = 1 ∨ k = 2) as [->|[->| ->]] by (unfold zlen in Hk; simpl in Hk; lia);
    vm_compute; reflexivity.
Qed.

Lemma pipe_read_dequeues_witness :
  ∃ s', pipe_read 1 0 0 2 2 [] demo_pipe_fs = Ret (2, [7; 8]) s' ∧ pipe_ok (ino_at s' 0) [9].
Proof.
  destruct (pipe_read_dequeues 0 0 2 [7; 8; 9] demo_pipe_fs) as (s' & (i & -> & Hok & _) & He).
  - by split.
  - exact demo_pipe_ok.
  - by split.
  - rewrite decide_True in He by done. eexists. split; [exact He|].
    rewrite ino_at_upd_ino, decide_True by (done || by split). exact Hok.
Defined.

Lemma pipe_write_enqueues_witness :
  ∃ s', pipe_write demo_outside 1 0 [5] 1 0 demo_pipe_fs = Ret 1 s' ∧ pipe_ok (ino_at s' 0) [7; 8; 9; 5].
Proof.
  destruct (pipe_write_enqueues demo_outside 0 [5] [7; 8; 9] demo_pipe_fs) as (s' & (i & -> & Hok & _) & He).
  - by split.
  - exact demo_pipe_ok.
  - by split.
  - done.
  - rewrite decide_True in He by (vm_compute; discriminate). eexists. split; [exact He|].
    rewrite ino_at_upd_ino, decide_True by (done || by split). exact Hok.
Defined.
