(* ===== verification/Content.v ===== *)
(** * The contents of a file

    A file is the sequence of bytes its zones hold, a hole counting as zeros.
    The file parts of [do_read] and [do_write] (ReadWrite.v) return and replace
    bytes of this sequence, on any mix of direct, single and double indirect
    zones. *)

From S2P Require Import Prelude Cstring Blocks Pages Dlist FsState Super Zone Inode Dir Namei File ReadWrite.
From stdpp Require Import base numbers functions gmap list.

Local Open Scope Z_scope.

Section content.
Context {S PS : Type} `{BlockLaws S}.
Notation fs := (fs_state S PS).
(** [O] are zones of other files. *)
Context (ip sp dev fd nz : Z) (O : Z → Prop).
Notation allocated := (allocated sp fd nz).
Notation volume := (volume ip sp dev fd nz).
Notation file_ok := (file_ok ip sp dev fd nz).
Notation izones := (izones ip).
Notation rdb := (rdb dev).
Implicit Types s : fs.

(** The zone of the [k]-th block; the zones whose contents matter. *)
Definition zblk (s : fs) (k : Z) : Z := zone_of (izones s) (rdb s) k.
Definition in_use (s : fs) (z : Z) : Prop :=
  O z ∨ ∃ k, 0 <= k < NR_FILE_ZONES ∧ zblk s k = z ∧ z ≠ 0.

(** The file's zones are its own. *)
Record data_ok (s : fs) : Prop := {
  d_file : file_ok (in_use s) s;
  d_inj k m : 0 <= k < NR_FILE_ZONES → 0 <= m < NR_FILE_ZONES →
    zblk s k ≠ 0 → zblk s k = zblk s m → k = m;
  d_own k : 0 <= k < NR_FILE_ZONES → ¬ O (zblk s k);
}.

Definition byte_at (s : fs) (j : Z) : Z :=
  let z := zblk s (j / 1024) in
  if z =? 0 then 0 else default 0 (zget (rdb s z) (j mod 1024)).

Lemma file_ok_iff (D D' : Z → Prop) (s : fs) : (∀ z, D z ↔ D' z) → file_ok D s → file_ok D' s.
Proof.
  intros HD [Hv Hr Ht]. split; [done|intros z Hz; by apply Hr, HD|].
  eapply tree_ok_iff; [|done]. intros z. unfold owned. by rewrite HD.
Qed.

(** The same zones in another state. *)
Lemma data_ok_same s s' : data_ok s → file_ok (in_use s) s' →
  (∀ k, 0 <= k < NR_FILE_ZONES → zblk s' k = zblk s k) → data_ok s'.
Proof.
  intros [_ Hi Ho] Hf Hz. split.
  - eapply file_ok_iff; [|exact Hf]. intros z. unfold in_use.
    split; intros [?|(k & Hk & He & Hne)]; [by left| |by left|]; right; exists k; rewrite Hz in * by done; done.
  - intros k m Hk Hm. rewrite !Hz by done. by apply Hi.
  - intros k Hk. rewrite Hz by done. by apply Ho.
Qed.

Lemma zblk_alloc s k : data_ok s → 0 <= k < NR_FILE_ZONES → zblk s k ≠ 0 → allocated s (zblk s k).
Proof. intros Hd Hk Hz. apply (f_res _ _ _ _ _ _ _ (d_file _ Hd)). right. by exists k. Qed.

(** ** Reading *)

Lemma read_at_spec s pos n : data_ok s → 0 <= pos → pos / 1024 < NR_FILE_ZONES → 0 <= n →
  pos mod 1024 + n <= 1024 →
  read_at ip pos (pos mod 1024) n s = Ret (Some (byte_at s <$> seqZ pos n)) s.
Proof.
  intros Hd Hp Hk Hn Hb. pose proof (Z.mod_pos_bound pos 1024 ltac:(lia)). pose proof (Z.div_mod pos 1024 ltac:(lia)).
  assert (∀ i, 0 <= i < n → (pos + i) / 1024 = pos / 1024 ∧ (pos + i) mod 1024 = pos mod 1024 + i) as Hdm.
  { intros i Hi. split; symmetry; [apply (Z.div_unique_pos _ _ _ (pos mod 1024 + i))|apply (Z.mod_unique_pos _ _ (pos / 1024))]; lia. }
  unfold read_at. rewrite (bind_eval _ _ _ _ _ (bmap_eq _ _ _ _ _ _ s pos (d_file _ Hd) Hp Hk)).
  fold (zblk s (pos / 1024)). assert (0 <= pos / 1024) as Hk0 by (apply Z.div_pos; lia).
  destruct (Z.eqb_spec (zblk s (pos / 1024)) NOBLOCK) as [E|E].
  - unfold mret, M_ret. do 2 f_equal. apply zget_ext. intros i Hi. rewrite zget_replicate, zget_fmap_seqZ.
    case_decide as Hin; [|done]. unfold byte_at. destruct (Hdm i Hin) as [-> _]. by rewrite E.
  - mstep. pose proof (d_file _ Hd) as [Hv _ _]. rewrite (v_idev _ _ _ _ _ _ Hv).
    pose proof (zblk_alloc s _ Hd (conj Hk0 Hk) E) as [Hz _]. destruct (v_data _ _ _ _ _ _ Hv _ Hz) as [Hr [Hl _]].
    unfold fs_bread, bread. mstep. rewrite Hr. simpl bool_decide.
    rewrite (proj2 (Z.ltb_ge _ _)) by lia. simpl andb. unfold die_if. mstep. unfold mret, M_ret. do 2 f_equal.
    cbn [fmap option_fmap option_map]. f_equal. apply zget_ext. intros i Hi. rewrite zget_slice, zget_fmap_seqZ by lia. case_decide as Hin; [|done].
    unfold byte_at. destruct (Hdm i Hin) as [-> ->]. rewrite (proj2 (Z.eqb_neq _ _)) by done. fold (rdb s (zblk s (pos / 1024))) in *.
    destruct (zget (rdb s (zblk s (pos / 1024))) (pos mod 1024 + i)) as [x|] eqn:Ex; [done|].
    apply zget_None in Ex. unfold BLOCKSIZ in Hl. lia.
Qed.

Notation size s := (i_size (ino_at s ip)).

(** How much there is to read at [pos]. *)
Definition readable_at (s : fs) (pos count : Z) : Z := Z.max 0 (Z.min count (size s - pos)).

Lemma zlen_bytes s pos n : 0 <= n → zlen (byte_at s <$> seqZ pos n) = n.
Proof. intros. unfold zlen. rewrite length_fmap, length_seqZ. lia. Qed.

Lemma pos_block pos : 0 <= pos < FILESIZE_MAX → 0 <= pos / 1024 < NR_FILE_ZONES.
Proof.
  unfold FILESIZE_MAX, NR_FILE_ZONES. intros. split; [apply Z.div_pos; lia|apply Z.div_lt_upper_bound; lia].
Qed.

(** Every turn but the last two reads a whole block. *)
Lemma read_loop_spec fuel s pos count out : data_ok s → 0 <= pos → size s <= FILESIZE_MAX →
  zlen out <= count → (zlen out = count ∨ size s <= pos ∨ pos mod 1024 = 0) →
  readable_at s pos (count - zlen out) + 1024 <= 1024 * Z.of_nat fuel →
  read_loop fuel ip pos count out s =
    Ret (true, out ++ (byte_at s <$> seqZ pos (readable_at s pos (count - zlen out)))) s.
Proof.
  intros Hd. revert pos out. induction fuel as [|fuel IH]; intros pos out Hp Hsz Hout Hcase Hfuel; [unfold readable_at in *; lia|].
  cbn [read_loop]. destruct (Z.ltb_spec (zlen out) count) as [Hlt|Hge].
  2:{ unfold readable_at. rewrite Z.max_l by lia. by rewrite seqZ_nil, app_nil_r by lia. }
  mstep. unfold BLOCKSIZ. set (a := if 1024 <? _ then _ else _). set (n := if _ <? a then _ else _).
  assert (n = Z.min (Z.min 1024 (count - zlen out)) (size s - pos)) as Hn.
  { unfold n, a. destruct (Z.ltb_spec 1024 (count - zlen out)); case_match eqn:E;
      rewrite ?Z.ltb_lt, ?Z.ltb_ge in E; lia. }
  clearbody n. clear a. destruct (Z.leb_spec n 0) as [Hn0|Hn0].
  { unfold readable_at. rewrite Z.max_l by lia. by rewrite seqZ_nil, app_nil_r by lia. }
  assert (pos mod 1024 = 0) as Hmod by lia. pose proof (pos_block pos ltac:(lia)) as Hk.
  pose proof (read_at_spec s pos n Hd Hp ltac:(lia) ltac:(lia) ltac:(lia)) as Hr. rewrite Hmod in Hr.
  rewrite (bind_eval _ _ _ _ _ Hr). cbv beta iota.
  assert (zlen (out ++ (byte_at s <$> seqZ pos n)) = zlen out + n) as Hl by (rewrite zlen_app, zlen_bytes by lia; done).
  assert (readable_at s pos (count - zlen out) = n + readable_at s (pos + n) (count - (zlen out + n))) as Hsplit
    by (unfold readable_at; lia).
  rewrite IH; rewrite ?Hl; try lia.
  - do 2 f_equal. rewrite Hsplit, seqZ_app, fmap_app, app_assoc by (unfold readable_at; lia). done.
  - destruct (decide (n = 1024)) as [->|]; [|lia]. right; right. by rewrite Zplus_mod, Hmod.
  - unfold readable_at in *. lia.
Qed.

Lemma file_read_spec s pos count : data_ok s → 0 <= pos → 0 <= size s <= FILESIZE_MAX → 0 <= count →
  file_read ip pos count s = Ret (true, byte_at s <$> seqZ pos (readable_at s pos count)) s.
Proof.
  intros Hd Hp Hsz Hc. unfold file_read. mstep. unfold BLOCKSIZ.
  rewrite Z.rem_mod_nonneg by lia. pose proof (Z.mod_pos_bound pos 1024 ltac:(lia)).
  pose proof (Z.div_mod count 1024 ltac:(lia)). pose proof (Z.mod_pos_bound count 1024 ltac:(lia)).
  destruct (Z.eqb_spec (pos mod 1024) 0) as [E|E].
  { rewrite read_loop_spec; change (zlen (@nil Z)) with 0; rewrite ?Z.sub_0_r; [done|done|lia..|by right; right|].
    unfold readable_at. lia. }
  set (a := if count <? _ then _ else _). set (n := if _ <? a then _ else _).
  assert (n = Z.min (Z.min (1024 - pos mod 1024) count) (size s - pos)) as Hn.
  { unfold n, a. destruct (Z.ltb_spec count (1024 - pos mod 1024)); case_match eqn:E';
      rewrite ?Z.ltb_lt, ?Z.ltb_ge in E'; lia. }
  clearbody n. clear a. destruct (Z.leb_spec n 0) as [Hn0|Hn0].
  { unfold readable_at. rewrite Z.max_l by lia. by rewrite seqZ_nil by lia. }
  pose proof (pos_block pos ltac:(lia)) as Hk.
  rewrite (bind_eval _ _ _ _ _ (read_at_spec s pos n Hd Hp ltac:(lia) ltac:(lia) ltac:(lia))). cbv beta iota.
  assert (readable_at s pos count = n + readable_at s (pos + n) (count - n)) as Hsplit by (unfold readable_at; lia).
  rewrite read_loop_spec; rewrite ?zlen_bytes by lia; [|done|lia..| |].
  - rewrite Hsplit, seqZ_app, fmap_app by (unfold readable_at; lia). done.
  - destruct (decide (n = 1024 - pos mod 1024)) as [->|]; [|lia]. right; right.
    apply Z.mod_divide; [lia|]. exists (pos / 1024 + 1). pose proof (Z.div_mod pos 1024). lia.
  - unfold readable_at. lia.
Qed.

(** ** Writing *)

(** The bytes [b] were written at [pos], and nothing else changed. *)
Record written (s s' : fs) (pos : Z) (b : list Z) : Prop := {
  w_ok : data_ok s';
  w_bytes j : 0 <= j < FILESIZE_MAX → byte_at s' j = default (byte_at s j) (zget b (j - pos));
  w_size : size s' = if decide (b = []) then size s else Z.max (size s) (pos + zlen b);
  w_other z : O z → rdb s' z = rdb s z;
}.

(** Changes of the inode outside its zones. *)
Lemma data_ok_upd_ino f s : data_ok s →
  (∀ i, i_sp (f i) = i_sp i ∧ i_dev (f i) = i_dev i ∧ i_ndzones (f i) = i_ndzones i ∧
    i_nindirs (f i) = i_nindirs i ∧ i_zone (f i) = i_zone i) →
  data_ok (upd_ino ip f s) ∧ (∀ j, byte_at (upd_ino ip f s) j = byte_at s j) ∧
  (∀ z, allocated (upd_ino ip f s) z ↔ allocated s z) ∧
  size (upd_ino ip f s) = i_size (f (ino_at s ip)).
Proof.
  intros Hd Hf. pose proof (d_file _ Hd) as [Hv Hr Ht].
  pose proof (ino_at_upd_ino ip f s ip (v_ip _ _ _ _ _ _ Hv)) as He. rewrite decide_True in He by done.
  assert (izones (upd_ino ip f s) = izones s) as Hz.
  { unfold Zone.izones. rewrite He. by apply (Hf (ino_at s ip)). }
  assert (∀ k, zblk (upd_ino ip f s) k = zblk s k) as Hzb by (intros k; unfold zblk; by rewrite Hz).
  split; [|split; [|split; [done|by rewrite He]]].
  - apply (data_ok_same s); [done| |by intros]. split; [|done|by rewrite Hz].
    apply vol_upd_ino; [done|]. intros i. by destruct (Hf i) as (? & ? & ? & ? & ?).
  - intros j. unfold byte_at. by rewrite Hzb.
Qed.

(** A block of the file is replaced. *)
Lemma data_ok_bwrite k d s : data_ok s → 0 <= k < NR_FILE_ZONES → zblk s k ≠ 0 → block_ok d →
  let s' := upd_dsk (set_block dev (zblk s k) d) s in
  data_ok s' ∧ (∀ m, 0 <= m < NR_FILE_ZONES → zblk s' m = zblk s m) ∧
  (∀ z, rdb s' z = if decide (z = zblk s k) then d else rdb s z).
Proof.
  intros Hd Hk Hz Hok s'. pose proof (d_file _ Hd) as [Hv Hr Ht]. pose proof (zblk_alloc s k Hd Hk Hz) as Ha.
  pose proof (rdb_bwrite dev s (zblk s k) d) as Hrd. fold s' in Hrd.
  assert (∀ z, allocated s' z ↔ allocated s z) as Hal
    by (intros z; apply (allocated_bwrite ip sp dev fd nz); [done|apply Ha]).
  destruct (tree_ok_ext (owned sp fd nz (in_use s) s) (izones s) (rdb s) (rdb s')) as [Ht' Hj]; [|done|].
  { intros x [_ Hx]. rewrite Hrd, decide_False; [done|]. intros ->. apply Hx. right. by exists k. }
  split; [|split; [exact Hj|exact Hrd]]. apply (data_ok_same s); [done| |exact Hj]. split.
  - apply (vol_bwrite ip sp dev fd nz); [done|apply Ha|done].
  - intros z Hz'. by apply Hal, Hr.
  - by apply (owned_same sp fd nz (in_use s) s).
Qed.

(** The bytes of a block with [b] copied in. *)
Lemma byte_memcpy d b off i : block_ok d → 0 <= off → off + zlen b <= 1024 → 0 <= i < 1024 →
  default 0 (zget (memcpy d off b) i) = default (default 0 (zget d i)) (zget b (i - off)).
Proof.
  intros [Hl _] Hoff Hle Hi. unfold BLOCKSIZ in Hl. rewrite zget_memcpy by lia. case_decide as Hin.
  - destruct (proj2 (zget_is_Some b (i - off)) ltac:(lia)) as [x ->]. done.
  - by rewrite (proj2 (zget_None b (i - off)) ltac:(lia)).
Qed.

(** A position inside or outside the block of [pos]. *)
Lemma zget_block (b : list Z) pos j : 0 <= pos → 0 <= j → pos mod 1024 + zlen b <= 1024 →
  zget b (j - pos) = if decide (j / 1024 = pos / 1024) then zget b (j mod 1024 - pos mod 1024) else None.
Proof.
  intros Hp Hj Hb. pose proof (Z.div_mod pos 1024 ltac:(lia)). pose proof (Z.div_mod j 1024 ltac:(lia)).
  pose proof (Z.mod_pos_bound pos 1024 ltac:(lia)). pose proof (Z.mod_pos_bound j 1024 ltac:(lia)).
  case_decide as Hc; [f_equal; lia|]. apply zget_None. lia.
Qed.

(** The write into the block at hand and the new size. *)
Definition put_bytes (pos : Z) (b d : list Z) (s : fs) : fs :=
  upd_ino ip (λ i, if i_size i <? pos + zlen b then set_i_size (pos + zlen b) i else i)
    (upd_dsk (set_block dev (zblk s (pos / 1024)) (memcpy d (pos mod 1024) b)) s).

Lemma put_bytes_spec s pos b d : data_ok s → 0 <= pos < FILESIZE_MAX → b ≠ [] → bytes_ok b →
  pos mod 1024 + zlen b <= 1024 → zblk s (pos / 1024) ≠ 0 → block_ok d →
  let s' := put_bytes pos b d s in
  data_ok s' ∧ size s' = Z.max (size s) (pos + zlen b) ∧ (∀ z, O z → rdb s' z = rdb s z) ∧
  ∀ j, 0 <= j < FILESIZE_MAX → byte_at s' j =
    if decide (j / 1024 = pos / 1024) then default (default 0 (zget d (j mod 1024))) (zget b (j - pos)) else byte_at s j.
Proof.
  intros Hd Hp Hne Hbok Hle Hz Hdok s'. pose proof (pos_block pos Hp) as Hk.
  pose proof (Z.mod_pos_bound pos 1024 ltac:(lia)) as Hm.
  assert (block_ok (memcpy d (pos mod 1024) b)) as Hok.
  { destruct Hdok as [Hl Hb]. split; [by rewrite zlen_memcpy|]. apply bytes_ok_memcpy; try done; [lia|].
    unfold BLOCKSIZ in Hl. lia. }
  destruct (data_ok_bwrite _ _ s Hd Hk Hz Hok) as (Hd1 & Hz1 & Hr1).
  unfold s', put_bytes. set (s1 := upd_dsk _ s) in *.
  destruct (data_ok_upd_ino (λ i, if i_size i <? pos + zlen b then set_i_size (pos + zlen b) i else i) s1 Hd1)
    as (Hd2 & Hb2 & _ & Hs2); [by intros i; case_match|].
  split; [done|]. split; [|split].
  - rewrite Hs2. change (ino_at s1 ip) with (ino_at s ip).
    destruct (Z.ltb_spec (size s) (pos + zlen b)); simpl; lia.
  - intros z HO. change (rdb s1 z = rdb s z). rewrite Hr1, decide_False; [done|]. intros ->.
    by apply (d_own _ Hd _ Hk).
  - intros j Hj. rewrite Hb2. unfold byte_at. pose proof (pos_block j Hj) as Hkj. rewrite Hz1, Hr1 by done.
    destruct (decide (j / 1024 = pos / 1024)) as [Hc|Hc].
    + rewrite Hc. rewrite (proj2 (Z.eqb_neq _ 0)) by done. rewrite (decide_True (P:=zblk s _ = _)) by done.
      rewrite byte_memcpy by (done || lia || apply Z.mod_pos_bound; lia).
      by rewrite (zget_block b pos j), decide_True by (done || lia).
    + destruct (Z.eqb_spec (zblk s (j / 1024)) 0) as [E|E]; [done|]. rewrite decide_False; [done|].
      intros He. apply Hc. by apply (d_inj _ Hd).
Qed.

(** *** A zone for a hole *)

(** [minode] does not touch the size. *)
Lemma upd_ino_field {B} (p : inode → B) f j s : (∀ i, p (f i) = p i) → p (ino_at (upd_ino j f s) ip) = p (ino_at s ip).
Proof.
  intros Hf. unfold ino_at, upd_ino. simpl. rewrite zget_zalter. case_decide; [|done].
  destruct (zget (inodes s) ip); [apply Hf|done].
Qed.
Lemma keeps_size_alloc o which : keeps (λ s, size s) (bitalloc o which).
Proof.
  assert (∀ fuel a b c d e f, keeps (λ s, size s) (scan_map fuel a b c d e f)) as Hs.
  { induction fuel as [|fuel IH]; intros; cbn [scan_map]; keep. }
  unfold bitalloc, lock_bitop, unlock_bitop. keep.
Qed.
Lemma keeps_size_minode pos zone : keeps (λ s, size s) (minode ip pos zone).
Proof.
  pose proof keeps_size_alloc as Hb. pose proof (λ f s, upd_ino_field i_size f ip s) as Hu.
  unfold minode, minode_single, minode_double, minode_top, minode_second, deref, fs_bread, fs_bwrite.
  repeat (intros; first [apply Hb | apply keeps_modify; intros; (done || by apply Hu) | progress keep]).
Qed.

(** Nothing of what matters changed. *)
Record same_data (s s' : fs) : Prop := {
  sd_ok : data_ok s';
  sd_zones k : 0 <= k < NR_FILE_ZONES → zblk s' k = zblk s k;
  sd_blocks z : in_use s z → rdb s' z = rdb s z;
  sd_size : size s' = size s;
}.
Lemma written_nil s s' pos : same_data s s' → written s s' pos [].
Proof.
  intros [Hd' Hz Hr Hs]. split; [done| |done|intros z HO; apply Hr; by left].
  intros j Hj. pose proof (pos_block j Hj) as Hk. rewrite (proj2 (zget_None (@nil Z) _)) by (unfold zlen; simpl; lia).
  simpl. unfold byte_at. rewrite Hz by done. destruct (Z.eqb_spec (zblk s (j / 1024)) 0); [done|].
  rewrite Hr; [done|]. right. by exists (j / 1024).
Qed.

(** At most the zone that was given back is free. *)
Definition full (s : fs) : Prop := ∃ n, ∀ z, fd <= z < nz → z ≠ n → allocated s z.

(** The zones in use after [bitalloc] took [n]. *)
Lemma take_zone s s1 n : data_ok s → volume s1 → inodes s1 = inodes s → fd <= n < nz → ¬ allocated s n →
  (∀ x, allocated s1 x ↔ allocated s x ∨ x = n) → (∀ x, fd <= x → rdb s1 x = rdb s x) →
  file_ok (λ z, in_use s z ∨ z = n) s1 ∧ (∀ k, 0 <= k < NR_FILE_ZONES → zblk s1 k = zblk s k).
Proof.
  intros Hd Hv1 Hi Hn Hfree Ha Hr. pose proof (d_file _ Hd) as [Hv Hres Ht].
  assert (izones s1 = izones s) as Hz by (unfold Zone.izones, ino_at; by rewrite Hi).
  destruct (tree_ok_ext _ _ _ (rdb s1) (λ x Hx, Hr x (proj1 (proj1 (proj1 Hx)))) Ht) as [Ht' Hj].
  split; [split; [done| |]|unfold zblk; by rewrite Hz].
  - intros z [Hz'| ->]; apply Ha; [left; by apply Hres|by right].
  - rewrite Hz. eapply tree_ok_iff; [|exact Ht']. intros x. unfold owned. rewrite Ha.
    split; [intros [Hx HD]; split; [by left|]; intros [?| ->]; done|]. intros [[Hx| ->] HD]; [|by destruct HD; right].
    split; [done|]. intros ?. apply HD. by left.
Qed.

(** ... and after it was entered at [k]. *)
Lemma enter_zone s s1 s2 n k : data_ok s → 0 <= k < NR_FILE_ZONES → zblk s k = 0 → n ≠ 0 → ¬ allocated s n →
  (∀ j, 0 <= j < NR_FILE_ZONES → zblk s1 j = zblk s j) →
  entered ip sp dev fd nz (λ z, in_use s z ∨ z = n) s1 s2 k n →
  data_ok s2 ∧ zblk s2 k = n ∧ ∀ j, 0 <= j < NR_FILE_ZONES → j ≠ k → zblk s2 j = zblk s j.
Proof.
  intros Hd Hk Hz Hn0 Hfree Hz1 (Hf & _ & _ & Hj). pose proof (d_file _ Hd) as [_ Hres _].
  assert (∀ j, 0 <= j < NR_FILE_ZONES → zblk s2 j = if decide (j = k) then n else zblk s j) as Hz2.
  { intros j Hr. unfold zblk at 1. rewrite Hj by done. case_decide; [done|by apply Hz1]. }
  assert (∀ j, 0 <= j < NR_FILE_ZONES → zblk s j ≠ n) as Hnn.
  { intros j Hr He. apply Hfree, Hres. right. exists j. by rewrite He. }
  split; [split|split; [by rewrite Hz2, decide_True by done|intros j Hr Hne; by rewrite Hz2, decide_False by done]].
  - eapply file_ok_iff; [|exact Hf]. intros z. unfold in_use. split.
    + intros [[HO|(j & Hr & He & H0z)]| ->]; [by left| |].
      * right. exists j. rewrite Hz2 by done. case_decide; [by subst; congruence|done].
      * right. exists k. by rewrite Hz2, decide_True by done.
    + intros [HO|(j & Hr & He & H0z)]; [by left; left|]. rewrite Hz2 in He by done. case_decide; [by right|].
      left; right. by exists j.
  - intros j m Hj' Hm. rewrite !Hz2 by done. repeat case_decide; subst; try done.
    + intros _ He. symmetry in He. by apply Hnn in He.
    + intros _ He. by apply Hnn in He.
    + by apply (d_inj _ Hd).
  - intros j Hr. rewrite Hz2 by done. case_decide; [|by apply (d_own _ Hd)].
    intros HO. apply Hfree, Hres. by left.
Qed.

(** ... or given back. *)
Lemma give_back s s2 n : data_ok s → volume s2 → ¬ allocated s n → allocated s2 n →
  file_ok (λ z, in_use s z ∨ z = n) s2 → (∀ j, 0 <= j < NR_FILE_ZONES → zblk s2 j = zblk s j) →
  ∃ s3, bitfree (Some sp) n ZMAP s2 = Ret tt s3 ∧ data_ok s3 ∧ inodes s3 = inodes s2 ∧
    (∀ j, 0 <= j < NR_FILE_ZONES → zblk s3 j = zblk s j) ∧ (∀ x, fd <= x → rdb s3 x = rdb s2 x) ∧
    (∀ z, allocated s2 z → z ≠ n → allocated s3 z).
Proof.
  intros Hd Hv2 Hfree Ha2 [_ Hres2 Ht2] Hz2. pose proof (d_file _ Hd) as [_ Hres _].
  destruct (vol_free ip sp dev fd nz s2 n Hv2 Ha2) as (s3 & He & Hv3 & Hi3 & Ha3 & Hr3).
  assert (izones s3 = izones s2) as Hz by (unfold Zone.izones, ino_at; by rewrite Hi3).
  destruct (tree_ok_ext _ _ _ (rdb s3) (λ x Hx, Hr3 x (proj1 (proj1 (proj1 Hx)))) Ht2) as [Ht3 Hj].
  assert (∀ j, 0 <= j < NR_FILE_ZONES → zblk s3 j = zblk s j) as Hzb.
  { intros j Hr. rewrite <-Hz2 by done. unfold zblk. rewrite Hz. by apply Hj. }
  exists s3. split; [done|]. split; [|split; [done|split; [done|split; [done|]]]].
  - apply (data_ok_same s); [done| |done]. split; [done| |].
    + intros z Hu. apply Ha3. split; [by apply Hres2; left|]. left. intros ->. by apply Hfree, Hres.
    + rewrite Hz. eapply tree_ok_mono; [| |exact Ht3].
      * intros x [Hx HD]. split; [|intros ?; apply HD; by left]. apply Ha3. split; [done|]. left. intros ->. apply HD. by right.
      * intros x [[Hx _] _]. pose proof (vol_range ip sp dev fd nz s3 Hv3). split; [lia|].
        by apply (v_data _ _ _ _ _ _ Hv3).
  - intros z Hz' Hne. apply Ha3. split; [done|by left].
Qed.

(** The hole branch of [write_at]. *)
Definition alloc_block (pos : Z) : M fs (option (Z * list Z)) :=
  blk ← bitalloc (Some sp) ZMAP;
  if blk =? NOBLOCK then mret None
  else
    sp' ← deref (Some sp);
    p ← gets (λ s, sb_at s sp');
    ok ← minode ip pos (Z.shiftr blk (s_lzsize p));
    if ok =? 0 then
      bitfree (Some sp) blk ZMAP;;
      mret None
    else mret (Some (blk, zero_block)).

Lemma alloc_block_spec s pos : data_ok s → 0 <= pos < FILESIZE_MAX → zblk s (pos / 1024) = 0 →
  (∃ n s', alloc_block pos s = Ret (Some (n, zero_block)) s' ∧ data_ok s' ∧ n ≠ 0 ∧ zblk s' (pos / 1024) = n ∧
    (∀ j, 0 <= j < NR_FILE_ZONES → j ≠ pos / 1024 → zblk s' j = zblk s j) ∧
    (∀ z, in_use s z → rdb s' z = rdb s z) ∧ size s' = size s) ∨
  (∃ s', alloc_block pos s = Ret None s' ∧ same_data s s' ∧ full s').
Proof.
  intros Hd Hp Hz. pose proof (pos_block pos Hp) as Hk. pose proof (d_file _ Hd) as [Hv Hres Ht].
  unfold alloc_block. pose proof (vol_range ip sp dev fd nz s Hv) as (Hfd & Hnz & _ & _).
  destruct (vol_alloc ip sp dev fd nz s Hv) as [(s1 & He & Hv1 & Hi1 & Hr1 & Ha1 & Hfull)
    |(n & s1 & He & Hv1 & Hi1 & Hn & Hfree & Ha1 & Hr1)]; rewrite (bind_eval _ _ _ _ _ He); cbv beta.
  { right. exists s1. split; [done|].
    assert (same_file ip sp dev fd nz (in_use s) s s1) as (Hf1 & _ & Hd1 & Hj1).
    { apply same_file_intro; try done. unfold Zone.izones, ino_at. by rewrite Hi1. }
    split; [split; try done; [by apply (data_ok_same s)|unfold ino_at; by rewrite Hi1]|].
    exists 0. intros z Hz' _. by apply Ha1, Hfull. }
  assert (n ≠ 0) as Hn0 by lia. rewrite (proj2 (Z.eqb_neq n NOBLOCK)) by done.
  unfold deref, from_opt. mstep. rewrite (v_lz _ _ _ _ _ _ Hv1), Z.shiftr_0_r.
  destruct (take_zone s s1 n Hd Hv1 Hi1 Hn Hfree Ha1 Hr1) as [Hf1 Hz1].
  assert (bmap ip pos s1 = Ret NOBLOCK s1) as Hhole.
  { rewrite (bmap_eq _ _ _ _ _ _ s1 pos Hf1) by lia. fold (zblk s1 (pos / 1024)). by rewrite Hz1, Hz. }
  assert (∀ z, in_use s z → rdb s1 z = rdb s z) as Hu1 by (intros z Hu; apply Hr1, (Hres z Hu)).
  assert (size s1 = size s) as Hs1 by (unfold ino_at; by rewrite Hi1).
  destruct (minode_spec ip sp dev fd nz _ s1 pos n Hf1 ltac:(lia) ltac:(lia) ltac:(lia) Hhole)
    as [(s2 & Hm & Hen)|(s2 & Hm & Href)]; rewrite (bind_eval _ _ _ _ _ Hm); cbv beta;
    pose proof (keeps_Ret _ _ _ _ _ (keeps_size_minode pos n) Hm) as Hs2; simpl in Hs2.
  - left. exists n, s2. destruct (enter_zone s s1 s2 n _ Hd Hk Hz Hn0 Hfree Hz1 Hen) as (Hd2 & Hzk & Hzj).
    destruct Hen as (_ & _ & Hu2 & _). repeat (split; [done|]). split; [|congruence].
    intros z Hu. rewrite Hu2 by (by left). by apply Hu1.
  - right. destruct Href as [(Hf2 & Ham & Hu2 & Hj2) Hall].
    assert (∀ j, 0 <= j < NR_FILE_ZONES → zblk s2 j = zblk s j) as Hz2.
    { intros j Hr. unfold zblk at 1. rewrite Hj2 by done. by apply Hz1. }
    destruct (give_back s s2 n Hd (f_vol _ _ _ _ _ _ _ Hf2) Hfree (Hall n Hn) Hf2 Hz2)
      as (s3 & He3 & Hd3 & Hi3 & Hz3 & Hr3 & Ha3).
    exists s3. simpl. rewrite (bind_eval _ _ _ _ _ He3). split; [done|]. split.
    + split; [done|done| |unfold ino_at; rewrite Hi3; unfold ino_at in *; congruence].
      intros z Hu. rewrite Hr3, Hu2 by ((by left) || apply (Hres z Hu)). by apply Hu1.
    + exists n. intros z Hz' Hne. apply Ha3; [by apply Hall|done].
Qed.

Lemma write_at_spec s pos b : data_ok s → 0 <= pos < FILESIZE_MAX → b ≠ [] → bytes_ok b →
  pos mod 1024 + zlen b <= 1024 →
  (∃ s', write_at ip pos (pos mod 1024) b s = Ret true s' ∧ written s s' pos b) ∨
  (∃ s', write_at ip pos (pos mod 1024) b s = Ret false s' ∧ written s s' pos [] ∧ full s').
Proof.
  intros Hd Hp Hne Hbok Hle. pose proof (pos_block pos Hp) as Hk. pose proof (d_file _ Hd) as [Hv Hres Ht].
  unfold write_at. rewrite (bind_eval _ _ _ _ _ (bmap_eq _ _ _ _ _ _ s pos (d_file _ Hd) (proj1 Hp) (proj2 Hk))).
  fold (zblk s (pos / 1024)). mstep. rewrite (v_isp _ _ _ _ _ _ Hv), (v_idev _ _ _ _ _ _ Hv).
  destruct (Z.eqb_spec (zblk s (pos / 1024)) NOBLOCK) as [E|E].
  - change (λ blk, if blk =? NOBLOCK then mret None else _) with (λ blk : Z, if blk =? NOBLOCK then @mret (M fs) _ (option (Z * list Z)) None else
      sp' ← deref (Some sp); p ← gets (λ s, sb_at s sp'); ok ← minode ip pos (Z.shiftr blk (s_lzsize p));
      if ok =? 0 then bitfree (Some sp) blk ZMAP;; mret None else mret (Some (blk, zero_block))).
    fold (alloc_block pos).
    destruct (alloc_block_spec s pos Hd Hp E) as [(n & s1 & He & Hd1 & Hn & Hzk & Hzj & Hu1 & Hs1)|(s1 & He & Hw & Hfull)].
    2:{ right. exists s1. rewrite (bind_eval _ _ _ _ _ He). split; [done|]. split; [by apply written_nil|done]. }
    left. rewrite (bind_eval _ _ _ _ _ He). cbv beta iota. unfold fs_bwrite. mstep. subst n.
    destruct (put_bytes_spec s1 pos b zero_block Hd1 Hp Hne Hbok Hle) as (Hd2 & Hs2 & Ho2 & Hb2);
      [done|apply zero_block_ok|].
    exists (put_bytes pos b zero_block s1). split; [done|].
    split; [done| |by rewrite decide_False, Hs2, Hs1|intros z HO; rewrite Ho2 by done; apply Hu1; by left].
    intros j Hj. rewrite Hb2 by done. pose proof (pos_block j Hj) as Hkj. case_decide as Hc.
    + assert (byte_at s j = 0) as -> by (unfold byte_at; by rewrite Hc, E).
      destruct (zget b (j - pos)); [done|]. simpl. unfold zero_block. change 1024%nat with (Z.to_nat 1024). rewrite zget_replicate. by case_decide.
    + rewrite (zget_block b pos j), decide_False by (done || lia). simpl. unfold byte_at. rewrite Hzj by done.
      destruct (Z.eqb_spec (zblk s (j / 1024)) 0); [done|]. rewrite Hu1; [done|]. right. by exists (j / 1024).
  - left. pose proof (zblk_alloc s _ Hd Hk E) as [Hz _]. destruct (v_data _ _ _ _ _ _ Hv _ Hz) as [Hr Hok].
    unfold fs_bread, bread, fs_bwrite. mstep. rewrite Hr. cbn [fmap option_fmap option_map]. mstep.
    destruct (put_bytes_spec s pos b (rdb s (zblk s (pos / 1024))) Hd Hp Hne Hbok Hle E Hok) as (Hd2 & Hs2 & Ho2 & Hb2).
    exists (put_bytes pos b (rdb s (zblk s (pos / 1024))) s). split; [done|].
    split; [done| |by rewrite decide_False, Hs2|done].
    intros j Hj. rewrite Hb2 by done. case_decide as Hc.
    + unfold byte_at. by rewrite Hc, (proj2 (Z.eqb_neq _ _)) by done.
    + by rewrite (zget_block b pos j), decide_False by (done || lia).
Qed.

(** *** The whole write *)

Lemma written_app s s1 s2 pos b c : 0 <= pos → written s s1 pos b → written s1 s2 (pos + zlen b) c →
  written s s2 pos (b ++ c).
Proof.
  intros Hp [_ Hb Hs Ho] [Hd' Hb' Hs' Ho']. pose proof (zlen_nonneg b). pose proof (zlen_nonneg c).
  split; [done| | |intros z HO; by rewrite Ho', Ho].
  - intros j Hj. rewrite Hb', Hb by done. destruct (decide (j - pos < 0)) as [Hneg|Hnn].
    { rewrite (proj2 (zget_None c _)), (proj2 (zget_None b _)), (proj2 (zget_None (b ++ c) _)) by lia. done. }
    rewrite zget_app by lia. destruct (decide (j - pos < zlen b)).
    + rewrite (proj2 (zget_None c _)) by lia. done.
    + rewrite (proj2 (zget_None b _)) by lia. simpl. do 2 f_equal. lia.
  - rewrite Hs', Hs, zlen_app. destruct c as [|x c].
    { rewrite (decide_True (P:=@nil Z = [])) by done. rewrite app_nil_r. change (zlen (@nil Z)) with 0. by rewrite Z.add_0_r. }
    rewrite !(decide_False (P:=_ :: _ = [])) by done. rewrite (decide_False (P:=b ++ _ = [])) by (by destruct b).
    destruct (decide (b = [])) as [Hc|Hc]; [|lia]. rewrite Hc. change (zlen (@nil Z)) with 0. f_equal. lia.
Qed.

(** What [file_write] answers after [n] bytes. *)
Definition write_outcome (s s' : fs) (pos : Z) (b : list Z) (r : write_end) : Prop :=
  (r = WEnd (pos + zlen b) ∧ written s s' pos b) ∨
  (∃ n, 0 <= n < zlen b ∧ r = WError (pos + n) ∧ written s s' pos (take (Z.to_nat n) b) ∧ full s').

Lemma write_outcome_app s s1 s2 pos b c r : 0 <= pos → c ≠ [] → written s s1 pos b →
  write_outcome s1 s2 (pos + zlen b) c r → write_outcome s s2 pos (b ++ c) r.
Proof.
  intros Hp Hc Hw [[-> Hw']|(n & Hn & -> & Hw' & Hf)].
  - left. split; [rewrite zlen_app; f_equal; lia|by eapply written_app].
  - pose proof (zlen_nonneg b). right. exists (zlen b + n). rewrite zlen_app. split; [lia|]. split; [f_equal; lia|]. split; [|done].
    replace (take (Z.to_nat (zlen b + n)) (b ++ c)) with (b ++ take (Z.to_nat n) c); [by eapply written_app|].
    unfold zlen. rewrite Z2Nat.inj_add, Nat2Z.id by lia. by rewrite take_app_add.
Qed.

Lemma take_ne c (b : list Z) : b ≠ [] → 0 < c → take (Z.to_nat c) b ≠ [].
Proof. intros Hb Hc. destruct b; [done|]. by destruct (Z.to_nat c) eqn:E; [lia|]. Qed.

(** One block of a longer write. *)
Lemma write_step (k : M fs write_end) s pos c b : data_ok s → 0 <= pos → pos + zlen b <= FILESIZE_MAX →
  0 < c <= zlen b → pos mod 1024 + c <= 1024 → bytes_ok b →
  (∀ s1, data_ok s1 → ∃ r s2, k s1 = Ret r s2 ∧
    (c = zlen b → r = WEnd (pos + c) ∧ s2 = s1) ∧
    (c < zlen b → write_outcome s1 s2 (pos + c) (drop (Z.to_nat c) b) r)) →
  ∃ r s2, (ok ← write_at ip pos (pos mod 1024) (take (Z.to_nat c) b);
    if ok : bool then k else mret (WError pos)) s = Ret r s2 ∧ write_outcome s s2 pos b r.
Proof.
  intros Hd Hp Hmax Hc Hm Hbok Hk. pose proof (zlen_take c b ltac:(lia)) as Hl.
  assert (b ≠ []) as Hbne by (intros ->; change (zlen (@nil Z)) with 0 in *; lia).
  destruct (write_at_spec s pos (take (Z.to_nat c) b)) as [(s1 & He & Hw)|(s1 & He & Hw & Hf)];
    [done|lia|apply take_ne; [done|lia]|by apply Forall_take|lia| |]; rewrite (bind_eval _ _ _ _ _ He); cbv beta iota.
  2:{ exists (WError pos), s1. split; [done|]. right. exists 0. split; [lia|]. rewrite Z.add_0_r. done. }
  destruct (Hk s1 (w_ok _ _ _ _ Hw)) as (r & s2 & Hr & Heq & Hlt). exists r, s2. split; [done|].
  destruct (decide (c = zlen b)) as [Hcb|Hcb].
  - destruct (Heq Hcb) as [-> ->]. left. rewrite Hcb. split; [done|].
    unfold zlen in Hw, Hcb. by rewrite Hcb, Nat2Z.id, firstn_all in Hw.
  - rewrite <-(take_drop (Z.to_nat c) b). apply (write_outcome_app _ s1); [done| |done|].
    + intros Hdn. apply (f_equal zlen) in Hdn. rewrite zlen_drop in Hdn by lia. change (zlen (@nil Z)) with 0 in Hdn. lia.
    + rewrite Hl. apply Hlt. lia.
Qed.

Lemma zlen_pos (b : list Z) : b ≠ [] → 0 < zlen b.
Proof. destruct b; [done|]. unfold zlen. simpl. lia. Qed.
Lemma zlen_nil_inv (b : list Z) : zlen b = 0 → b = [].
Proof. by destruct b. Qed.

Lemma write_loop_nil fuel pos s : write_loop fuel ip pos [] s = Ret (WEnd pos) s.
Proof. by destruct fuel. Qed.

Lemma write_loop_spec fuel s pos b : data_ok s → 0 <= pos → pos + zlen b <= FILESIZE_MAX →
  pos mod 1024 = 0 → b ≠ [] → bytes_ok b → zlen b <= 1024 * Z.of_nat fuel →
  ∃ r s2, write_loop fuel ip pos b s = Ret r s2 ∧ write_outcome s s2 pos b r.
Proof.
  revert s pos b. induction fuel as [|fuel IH]; intros s pos b Hd Hp Hmax Hmod Hne Hbok Hfuel;
    pose proof (zlen_pos b Hne) as Hpos; [lia|].
  cbn [write_loop]. rewrite (proj2 (Z.ltb_lt _ _)) by lia.
  rewrite u32_small by (unfold FILESIZE_MAX in *; lia). rewrite (proj2 (Z.leb_gt _ _)) by lia. unfold BLOCKSIZ.
  set (c := if _ <? _ then _ else _). assert (c = Z.min 1024 (zlen b)) as Hc.
  { unfold c. destruct (Z.ltb_spec 1024 (zlen b)); lia. }
  clearbody c.
  pose proof (write_step (write_loop fuel ip (pos + c) (drop (Z.to_nat c) b)) s pos c b) as Hstep.
  rewrite Hmod in Hstep. apply Hstep; [done|done|lia|lia|lia|done|]. clear Hstep.
  intros s1 Hd1. destruct (decide (c = zlen b)) as [Hcb|Hcb].
  - exists (WEnd (pos + c)), s1. split; [|split; [done|lia]].
    rewrite (zlen_nil_inv (drop (Z.to_nat c) b)) by (rewrite zlen_drop by lia; lia). apply write_loop_nil.
  - pose proof (zlen_drop c b ltac:(lia)) as Hl. assert (c = 1024) as Hc' by lia.
    destruct (IH s1 (pos + c) (drop (Z.to_nat c) b)) as (r & s2 & He & Ho); [done|lia|lia| | |by apply Forall_drop|lia|].
    + rewrite Hc', Zplus_mod, Hmod. done.
    + intros Hn. apply (f_equal zlen) in Hn. rewrite Hl in Hn. change (zlen (@nil Z)) with 0 in Hn. lia.
    + exists r, s2. split; [done|]. split; [lia|done].
Qed.

Lemma file_write_spec s pos b : data_ok s → 0 <= pos → pos + zlen b <= FILESIZE_MAX → b ≠ [] → bytes_ok b →
  ∃ r s2, file_write ip pos b s = Ret r s2 ∧ write_outcome s s2 pos b r.
Proof.
  intros Hd Hp Hmax Hne Hbok. pose proof (zlen_pos b Hne) as Hpos. unfold file_write. unfold BLOCKSIZ.
  rewrite Z.rem_mod_nonneg by lia. pose proof (Z.mod_pos_bound pos 1024 ltac:(lia)).
  pose proof (Z.div_mod (zlen b) 1024 ltac:(lia)). pose proof (Z.mod_pos_bound (zlen b) 1024 ltac:(lia)).
  destruct (Z.eqb_spec (pos mod 1024) 0) as [E|E]; [apply write_loop_spec; (done || lia)|].
  rewrite u32_small by (unfold FILESIZE_MAX in *; lia). rewrite (proj2 (Z.leb_gt _ _)) by lia. cbv zeta.
  set (c := if _ <? _ then _ else _). assert (c = Z.min (1024 - pos mod 1024) (zlen b)) as Hc.
  { unfold c. destruct (Z.ltb_spec (zlen b) (1024 - pos mod 1024)); lia. }
  clearbody c. apply write_step; [done|done|lia|lia|lia|done|].
  intros s1 Hd1. destruct (decide (c = zlen b)) as [Hcb|Hcb].
  - exists (WEnd (pos + c)), s1. split; [|split; [done|lia]].
    rewrite (zlen_nil_inv (drop (Z.to_nat c) b)) by (rewrite zlen_drop by lia; lia). apply write_loop_nil.
  - pose proof (zlen_drop c b ltac:(lia)) as Hl.
    destruct (write_loop_spec (Z.to_nat (zlen b / 1024 + 2)) s1 (pos + c) (drop (Z.to_nat c) b))
      as (r & s2 & He & Ho); [done|lia|lia| | |by apply Forall_drop|lia|].
    + apply Z.mod_divide; [lia|]. exists (pos / 1024 + 1). pose proof (Z.div_mod pos 1024). lia.
    + intros Hn. apply (f_equal zlen) in Hn. rewrite Hl in Hn. change (zlen (@nil Z)) with 0 in Hn. lia.
    + exists r, s2. split; [done|]. split; [lia|done].
Qed.
End content.

(** ** The claims *)

(** C25. Reading a file returns its bytes: [file_read] at a position delivers
    exactly the bytes of the file from there, as many as asked for and as there
    are, holes as zeros; it terminates and changes nothing. *)
Theorem file_read_contents {S PS} `{BlockLaws S} ip sp dev fd nz O (s : fs_state S PS) pos count :
  data_ok ip sp dev fd nz O s → 0 <= pos → 0 <= i_size (ino_at s ip) <= FILESIZE_MAX → 0 <= count →
  file_read ip pos count s =
    Ret (true, byte_at ip dev s <$> seqZ pos (Z.max 0 (Z.min count (i_size (ino_at s ip) - pos)))) s.
Proof. apply file_read_spec. Qed.



(** ** Example: the directory of Zone.v, one block with a hole after it *)

Lemma demo_zblk k : 0 <= k < NR_FILE_ZONES → zblk 0 1 demo_file_fs k = if decide (k = 0) then 5 else 0.
Proof.
  intros Hk. unfold zblk, zone_of, izones. change (i_zone (ino_at demo_file_fs 0)) with [5; 0; 0; 0; 0; 0; 0; 0; 0; 0].
  destruct (Z.ltb_spec k 7); [|destruct (k <? 263); by rewrite decide_False by lia].
  assert (k = 0 ∨ k = 1 ∨ k = 2 ∨ k = 3 ∨ k = 4 ∨ k = 5 ∨ k = 6) as Hc by lia.
  by destruct Hc as [->|[->|[->|[->|[->|[->| ->]]]]]].
Qed.
Lemma demo_data_ok : data_ok 0 0 1 5 20 (λ _, False) demo_file_fs.
Proof.
  split; [|intros k m Hk Hm; rewrite !demo_zblk by done; by repeat case_decide; subst|by intros k _ []].
  eapply file_ok_iff; [|exact demo_file_ok]. intros z. unfold in_use, demo_data. split.
  - intros ->. right. by exists 0.
  - intros [[]|(k & Hk & He & Hz)]. rewrite demo_zblk in He by done. case_decide; lia.
Qed.

Lemma file_read_contents_witness :
  file_read 0 62 100 demo_file_fs = Ret (true, byte_at 0 1 demo_file_fs <$> seqZ 62 2) demo_file_fs.
Proof.
  apply (file_read_contents 0 0 1 5 20 (λ _, False) demo_file_fs 62 100 demo_data_ok);
    vm_compute; (split; discriminate) || discriminate.
Defined.
Definition demo_written : fs_state plain_disk unit :=
  match file_write 0 1022 [1; 2; 3; 4] demo_file_fs with Ret _ s => s | _ => demo_file_fs end.
