(* ===== verification/Dirmap.v ===== *)
(** * Directories are finite maps

    A well-formed directory represents a finite map from names to inode
    numbers.  [ifind] looks a name up in it, [iinsert] inserts and [idelete]
    deletes (Dir.v), for names of at most 28 characters; a longer one damages
    the entry that follows. *)

From S2P Require Import Prelude Cstring Blocks Pages Dlist FsState Super Zone Inode Dir Namei File ReadWrite Content.
From stdpp Require Import base numbers functions gmap list.

Local Open Scope Z_scope.

(** ** Searching entries *)

Lemma find_entry_Some n i P k : find_entry n i P = Some k ↔
  i <= k < i + Z.of_nat n ∧ P k = true ∧ ∀ j, i <= j < k → P j = false.
Proof.
  revert i. induction n as [|n IH]; intros i; cbn [find_entry]; [split; [done|lia]|].
  destruct (P i) eqn:E.
  - split; [intros [= <-]; split; [lia|]; split; [done|lia]|]. intros (Hk & HP & Hj).
    destruct (decide (k = i)) as [->|]; [done|]. rewrite Hj in E by lia. done.
  - rewrite IH. split; intros (Hk & HP & Hj).
    + split; [lia|]. split; [done|]. intros j Hj'. destruct (decide (j = i)) as [->|]; [done|]. apply Hj. lia.
    + assert (k ≠ i) by congruence. split; [lia|]. split; [done|]. intros j Hj'. apply Hj. lia.
Qed.
Lemma find_entry_None n i P : find_entry n i P = None ↔ ∀ j, i <= j < i + Z.of_nat n → P j = false.
Proof.
  revert i. induction n as [|n IH]; intros i; cbn [find_entry]; [split; [lia|done]|].
  destruct (P i) eqn:E.
  - split; [done|]. intros Hj. rewrite Hj in E by lia. done.
  - rewrite IH. split; intros Hj j Hj'; [destruct (decide (j = i)) as [->|]; [done|]|]; apply Hj; lia.
Qed.

(** ** Entries of a block *)

(** The name an entry holds, and the part of a name that counts. *)
Definition key (name : list Z) : list Z := take 30 (cstr name).
Definition slot (data : list Z) (e : Z) : option (Z * list Z) :=
  if d_ino data e =? 0 then None else Some (d_ino data e, key (d_name data e)).

Lemma entry_is_slot name data e : entry_is name data e = true ↔ ∃ i, slot data e = Some (i, key name).
Proof.
  unfold entry_is, slot. destruct (Z.eqb_spec (d_ino data e) 0) as [E|E]; cbn [negb andb].
  - split; [done|]. by intros [i Hi].
  - rewrite Z.eqb_eq, kstrncmp_eq. fold (key name) (key (d_name data e)). split.
    + intros ->. by eexists.
    + by intros [i [= _ ->]].
Qed.

(** Where a short name and its terminators go. *)
Lemma zlen_short name : kstrlen name <= 28 → zlen (kstrncpy_bytes name 30) <= 30.
Proof. intros. rewrite kstrncpy_bytes_len. lia. Qed.

Lemma kstrncpy_short src n : kstrlen src < Z.of_nat n → kstrncpy_bytes src n = cstr src ++ [0; 0].
Proof.
  revert n. induction src as [|c src IH]; intros n Hl; (destruct n as [|n]; [exfalso|]).
  { simpl in Hl. lia. }
  { done. }
  { pose proof (kstrlen_nonneg (c :: src)). lia. }
  rewrite cstr_cons. cbn [kstrncpy_bytes kstrlen head tail default from_option id] in *. simpl default.
  destruct (Z.eqb_spec c 0) as [->|]; [done|]. simpl. f_equal. apply IH. lia.
Qed.
Lemma cstr_stop x y : no_nul x → cstr (x ++ 0 :: y) = x.
Proof.
  induction 1 as [|c x Hc Hx IH]; simpl; rewrite cstr_cons; [done|]. by rewrite IH, (proj2 (Z.eqb_neq _ _)).
Qed.
Lemma no_nul_cstr s : no_nul (cstr s).
Proof.
  induction s as [|c s IH]; [constructor|]. rewrite cstr_cons. destruct (Z.eqb_spec c 0); by constructor.
Qed.
Lemma slice_memcpy_prefix (l b : list Z) off n : 0 <= off → zlen b <= n → off + n <= zlen l →
  slice off n (memcpy l off b) = b ++ slice (off + zlen b) (n - zlen b) l.
Proof.
  intros. pose proof (zlen_nonneg b). apply zget_ext. intros i Hi. rewrite zget_slice, zget_app by lia.
  destruct (decide (i < zlen b)).
  - rewrite decide_True, zget_memcpy, decide_True by lia. f_equal. lia.
  - rewrite zget_slice by lia. destruct (decide (0 <= i < n)).
    + rewrite decide_True, zget_memcpy, decide_False by lia. f_equal. lia.
    + by rewrite decide_False by lia.
Qed.

Section block.
Context (data name : list Z) (e ino : Z).
Context (Hok : block_ok data) (He : 0 <= e < 32) (Hname : kstrlen name <= 28) (Hino : 0 <= ino < 2 ^ 16).
Notation data' := (set_d_ino e ino (set_d_name e name data)).

Lemma zlen_block : zlen data = 1024.
Proof. apply Hok. Qed.

Lemma set_name_len : zlen (set_d_name e name data) = 1024.
Proof. unfold set_d_name, kstrncpy. rewrite zlen_memcpy. apply zlen_block. Qed.

Lemma d_ino_set k : 0 <= k < 32 → d_ino data' k = if decide (k = e) then ino else d_ino data k.
Proof.
  intros Hk. unfold d_ino, set_d_ino, DIRECT_SIZE. pose proof set_name_len as Hl. case_decide as Hc.
  - rewrite Hc. rewrite load_store; [|lia|lia|]; unfold u16; rewrite Z.mod_small by lia; [done|].
    change (256 ^ Z.of_nat 2) with (2 ^ 16). lia.
  - rewrite load_store_other by lia. unfold load, set_d_name, kstrncpy, DIRECT_SIZE. f_equal.
    pose proof zlen_block. pose proof (zlen_short name Hname). pose proof (zlen_nonneg (kstrncpy_bytes name 30)).
    apply slice_memcpy_other; lia.
Qed.

Lemma d_name_other k : 0 <= k < 32 → k ≠ e → d_name data' k = d_name data k.
Proof.
  intros Hk Hne. unfold d_name, set_d_ino, set_d_name, kstrncpy, store, DIRECT_SIZE, NAME_MAX.
  pose proof set_name_len as Hl. unfold set_d_name, kstrncpy, DIRECT_SIZE in Hl.
  pose proof zlen_block. pose proof (zlen_short name Hname). pose proof (zlen_nonneg (kstrncpy_bytes name 30)).
  rewrite slice_memcpy_other by (rewrite ?zlen_le_encode; lia). apply slice_memcpy_other; lia.
Qed.

Lemma d_name_set : key (d_name data' e) = key name.
Proof.
  unfold d_name, set_d_ino, set_d_name, kstrncpy, store, DIRECT_SIZE, NAME_MAX.
  pose proof set_name_len as Hl. unfold set_d_name, kstrncpy, DIRECT_SIZE in Hl.
  pose proof zlen_block. pose proof (zlen_short name Hname).
  rewrite slice_memcpy_other by (rewrite ?zlen_le_encode; lia). rewrite slice_memcpy_prefix by lia.
  unfold key. f_equal. rewrite kstrncpy_short, <-app_assoc by lia. apply cstr_stop, no_nul_cstr.
Qed.

Lemma slot_set k : 0 <= k < 32 → ino ≠ 0 →
  slot data' k = if decide (k = e) then Some (ino, key name) else slot data k.
Proof.
  intros Hk Hne. unfold slot. rewrite d_ino_set by done. case_decide as Hc.
  - by rewrite Hc, d_name_set, (proj2 (Z.eqb_neq _ _)).
  - by rewrite d_name_other.
Qed.

Lemma block_ok_set : bytes_ok name → block_ok data'.
Proof.
  intros Hb. pose proof set_name_len as Hl. pose proof zlen_block. pose proof (zlen_short name Hname).
  unfold set_d_ino, DIRECT_SIZE. split; [by rewrite zlen_store|]. apply bytes_ok_store; [|lia|lia].
  unfold set_d_name, kstrncpy, DIRECT_SIZE. apply bytes_ok_memcpy; [apply Hok| |lia|lia].
  rewrite kstrncpy_short by lia. apply Forall_app. split; [by apply Forall_take|]. repeat constructor; done.
Qed.
End block.

(** Clearing an entry. *)
Lemma slot_clear data e k : block_ok data → 0 <= e < 32 → 0 <= k < 32 →
  slot (set_d_ino e 0 data) k = if decide (k = e) then None else slot data k.
Proof.
  intros [Hl _] He Hk. unfold BLOCKSIZ in Hl. unfold slot, d_ino, set_d_ino, DIRECT_SIZE. case_decide as Hc.
  - rewrite Hc, load_store; [done|lia|lia|]. by split.
  - rewrite !load_store_other by lia.
    assert (d_name (store 2 (32 * e) (u16 0) data) k = d_name data k) as ->; [|done].
    unfold d_name, DIRECT_SIZE, NAME_MAX, store. apply slice_memcpy_other; rewrite ?zlen_le_encode; lia.
Qed.
Lemma block_ok_clear data e : block_ok data → 0 <= e < 32 → block_ok (set_d_ino e 0 data).
Proof.
  intros [Hl Hb] He. unfold BLOCKSIZ in Hl. unfold set_d_ino, DIRECT_SIZE.
  split; [by rewrite zlen_store|]. apply bytes_ok_store; [done|lia|lia].
Qed.

(** ** Directories *)

Section dirs.
Context {S PS : Type} `{BlockLaws S, PageAlloc PS}.
Notation fs := (fs_state S PS).
Context (ip sp dev fd nz : Z) (O : Z → Prop) (socket_close : Z → M fs unit).
Notation data_ok := (data_ok ip sp dev fd nz O).
Notation zblk := (zblk ip dev).
Notation rdb := (rdb dev).
Notation size s := (i_size (ino_at s ip)).
Implicit Types s : fs.

Definition nblocks (s : fs) : Z := (size s + 1023) / 1024.
Definition dblk (s : fs) (k : Z) : list Z := rdb s (zblk s k).
(** The [n]-th entry; null when it is unused. *)
Definition dent (s : fs) (n : Z) : option (Z * list Z) :=
  if decide (0 <= n < 32 * nblocks s) then slot (dblk s (n / 32)) (n mod 32) else None.

Record dir_ok (s : fs) : Prop := {
  dir_data : data_ok s;
  dir_size : 0 <= size s <= FILESIZE_MAX;
  dir_align : size s mod 32 = 0;
  dir_blocks k : 0 <= k < nblocks s → zblk s k ≠ 0;
  dir_beyond k : nblocks s <= k < NR_FILE_ZONES → zblk s k = 0;
  dir_tail n : size s <= 32 * n → dent s n = None;
}.

(** The directory holds the map [m], each name once. *)
Record dir_is (s : fs) (m : gmap (list Z) Z) : Prop := {
  di_ok : dir_ok s;
  di_map nm i : m !! nm = Some i ↔ ∃ n, dent s n = Some (i, nm);
  di_once n n' i i' nm : dent s n = Some (i, nm) → dent s n' = Some (i', nm) → n = n';
}.

Lemma nblocks_range s : dir_ok s → 0 <= nblocks s <= NR_FILE_ZONES.
Proof.
  intros Hd. pose proof (dir_size _ Hd) as Hs. unfold nblocks, FILESIZE_MAX, NR_FILE_ZONES in *.
  split; [apply Z.div_pos; lia|]. apply Z.lt_succ_r. apply Z.div_lt_upper_bound; lia.
Qed.
(** The block at a position is there iff the position is below the size. *)
Lemma nblocks_lt s k : 0 <= size s → 0 <= k → k < nblocks s ↔ 1024 * k < size s.
Proof.
  intros. unfold nblocks. pose proof (Z.div_mod (size s + 1023) 1024 ltac:(lia)).
  pose proof (Z.mod_pos_bound (size s + 1023) 1024 ltac:(lia)). lia.
Qed.
Lemma dblk_ok s k : dir_ok s → 0 <= k < nblocks s → block_ok (dblk s k).
Proof.
  intros Hd Hk. pose proof (nblocks_range s Hd). pose proof (dir_data _ Hd) as Hdd.
  pose proof (zblk_alloc ip sp dev fd nz O s k Hdd ltac:(lia) (dir_blocks _ Hd k Hk)) as [Hz _].
  by apply (v_data _ _ _ _ _ _ (f_vol _ _ _ _ _ _ _ (d_file _ _ _ _ _ _ _ Hdd))).
Qed.

Lemma dent_at s k e : 0 <= k < nblocks s → 0 <= e < 32 → dent s (32 * k + e) = slot (dblk s k) e.
Proof.
  intros Hk He. unfold dent. rewrite decide_True by lia.
  rewrite <-(Z.div_unique_pos (32 * k + e) 32 k e) by lia.
  by rewrite <-(Z.mod_unique_pos (32 * k + e) 32 k e) by lia.
Qed.
Lemma dent_split n : n = 32 * (n / 32) + n mod 32 ∧ 0 <= n mod 32 < 32.
Proof. split; [by apply Z.div_mod|by apply Z.mod_pos_bound]. Qed.

Lemma dir_block_spec s k : dir_ok s → 0 <= k < nblocks s →
  dir_block ip (1024 * k) s = Ret (Some (zblk s k, dblk s k)) s.
Proof.
  intros Hd Hk. pose proof (nblocks_range s Hd). pose proof (dir_data _ Hd) as Hdd.
  pose proof (d_file _ _ _ _ _ _ _ Hdd) as Hf. pose proof (f_vol _ _ _ _ _ _ _ Hf) as Hv.
  assert (1024 * k / 1024 = k) as Hk' by (rewrite Z.mul_comm, Z.div_mul; lia).
  unfold dir_block. rewrite (bind_eval _ _ _ _ _ (bmap_eq _ _ _ _ _ _ s (1024 * k) Hf ltac:(lia) ltac:(lia))).
  rewrite Hk'. fold (zblk s k). rewrite (proj2 (Z.eqb_neq _ NOBLOCK)) by (by apply (dir_blocks _ Hd)).
  mstep. rewrite (v_idev _ _ _ _ _ _ Hv).
  pose proof (zblk_alloc ip sp dev fd nz O s k Hdd ltac:(lia) (dir_blocks _ Hd k Hk)) as [Hz _].
  unfold fs_bread, bread. mstep. by rewrite (proj1 (v_data _ _ _ _ _ _ Hv _ Hz)).
Qed.

(** *** Lookup *)

Lemma ifind_loop_spec fuel s name k : dir_ok s → 0 <= k → nblocks s - k <= Z.of_nat fuel →
  ∃ ino, ifind_loop fuel ip name (1024 * k) s = Ret (Some ino) s ∧
    (ino ≠ 0 ∧ (∃ n, dent s n = Some (ino, key name)) ∨
     ino = 0 ∧ ∀ n i, 32 * k <= n → dent s n ≠ Some (i, key name)).
Proof.
  intros Hd. revert k. induction fuel as [|fuel IH]; intros k Hk Hfuel; cbn [ifind_loop]; mstep.
  { exists 0. split; [done|]. right. split; [done|]. intros n i Hn. unfold dent. by rewrite decide_False by lia. }
  pose proof (dir_size _ Hd). pose proof (nblocks_lt s k ltac:(lia) Hk) as Hlt.
  destruct (Z.ltb_spec (1024 * k) (size s)) as [Hin|Hout].
  2:{ exists 0. split; [done|]. right. split; [done|]. intros n i Hn. unfold dent. by rewrite decide_False by lia. }
  rewrite (bind_eval _ _ _ _ _ (dir_block_spec s k Hd ltac:(lia))). cbv beta iota.
  set (c := if _ <? _ then _ else _).
  assert (0 <= c <= 32 ∧ ∀ e, c <= e < 32 → size s <= 32 * (32 * k + e)) as [Hc Htail].
  { pose proof (dir_align _ Hd). unfold c, BLOCKSIZ, NR_DIRECTS, DIRECT_SIZE.
    destruct (Z.ltb_spec (size s - 1024 * k) 1024); [|split; [done|intros e He; change (BLOCKSIZ / 32) with 32 in He; lia]].
    pose proof (Z.div_mod (size s - 1024 * k) 32 ltac:(lia)). pose proof (Z.mod_pos_bound (size s - 1024 * k) 32 ltac:(lia)).
    assert ((size s - 1024 * k) mod 32 = 0).
    { replace (size s - 1024 * k) with (size s + (- 32 * k) * 32) by lia. by rewrite Z.mod_add. }
    split; [lia|]. intros e He. lia. }
  clearbody c. destruct (find_entry _ 0 (entry_is name (dblk s k))) as [e|] eqn:E.
  - apply find_entry_Some in E as (He & HP & _). apply entry_is_slot in HP as [i Hi].
    exists (d_ino (dblk s k) e). split; [done|]. left. unfold slot in Hi.
    destruct (Z.eqb_spec (d_ino (dblk s k) e) 0) as [|Hne]; [done|]. split; [done|].
    exists (32 * k + e). rewrite dent_at by lia. unfold slot. rewrite (proj2 (Z.eqb_neq _ _)) by done. congruence.
  - unfold BLOCKSIZ. replace (1024 * k + 1024) with (1024 * (k + 1)) by lia.
    destruct (IH (k + 1) ltac:(lia) ltac:(lia)) as (ino & He & Hr). exists ino. split; [done|].
    destruct Hr as [Hr|[-> Hr]]; [by left|]. right. split; [done|]. intros n i Hn.
    destruct (decide (32 * (k + 1) <= n)); [by apply Hr|]. destruct (dent_split n) as [Hsplit Hm].
    assert (n / 32 = k) as Hnk by lia. intros Hx. destruct (decide (n mod 32 < c)) as [Hcm|Hcm].
    + rewrite Hsplit, Hnk, dent_at in Hx by lia. rewrite find_entry_None in E.
      assert (entry_is name (dblk s k) (n mod 32) = true) as Ht by (apply entry_is_slot; by exists i).
      rewrite E in Ht by lia. done.
    + rewrite (dir_tail _ Hd) in Hx; [done|]. rewrite Hsplit, Hnk. apply Htail. lia.
Qed.

(** *** Removal *)

Lemma dblk_bwrite s k d : data_ok s → 0 <= k < NR_FILE_ZONES → zblk s k ≠ 0 → block_ok d →
  let s' := upd_dsk (set_block dev (zblk s k) d) s in
  data_ok s' ∧ (∀ m, 0 <= m < NR_FILE_ZONES → zblk s' m = zblk s m) ∧
  ∀ m, 0 <= m < NR_FILE_ZONES → dblk s' m = if decide (m = k) then d else dblk s m.
Proof.
  intros Hd Hk Hz Hok s'. destruct (data_ok_bwrite ip sp dev fd nz O k d s Hd Hk Hz Hok) as (Hd' & Hz' & Hr').
  split; [done|]. split; [done|]. intros m Hm. unfold dblk. rewrite Hz', Hr' by done.
  destruct (decide (m = k)) as [->|Hne]; [by rewrite decide_True|]. rewrite decide_False; [done|].
  intros He. apply Hne. symmetry in He. symmetry. by apply (d_inj _ _ _ _ _ _ _ Hd).
Qed.

Definition clear_entry (n : Z) (s : fs) : fs :=
  upd_dsk (set_block dev (zblk s (n / 32)) (set_d_ino (n mod 32) 0 (dblk s (n / 32)))) s.

Lemma clear_entry_spec s n : dir_ok s → 0 <= n < 32 * nblocks s →
  dir_ok (clear_entry n s) ∧ ∀ m, dent (clear_entry n s) m = if decide (m = n) then None else dent s m.
Proof.
  intros Hd Hn. pose proof (nblocks_range s Hd) as Hr. destruct (dent_split n) as [Hsn Hmn].
  assert (0 <= n / 32 < nblocks s) as Hk by lia. pose proof (dblk_ok s _ Hd Hk) as Hok.
  destruct (dblk_bwrite s (n / 32) (set_d_ino (n mod 32) 0 (dblk s (n / 32)))) as (Hd' & Hz' & Hb');
    [apply Hd|lia|by apply (dir_blocks _ Hd)|by apply block_ok_clear|]. fold (clear_entry n s) in *.
  assert (nblocks (clear_entry n s) = nblocks s) as Hnb by done.
  assert (∀ m, dent (clear_entry n s) m = if decide (m = n) then None else dent s m) as He.
  { intros m. unfold dent. rewrite Hnb. destruct (dent_split m) as [Hsm Hmm].
    destruct (decide (0 <= m < 32 * nblocks s)); [|by case_decide]. rewrite Hb' by lia.
    destruct (decide (m / 32 = n / 32)) as [Heq|Hne]; [|by rewrite decide_False by congruence].
    rewrite slot_clear, Heq by (done || lia). repeat case_decide; (done || lia). }
  split; [|exact He]. destruct Hd. split; try done.
  - intros k' Hk'. rewrite Hnb in Hk'. rewrite Hz' by lia. auto.
  - intros k' Hk'. rewrite Hnb in Hk'. rewrite Hz' by lia. auto.
  - intros m Hm. rewrite He. case_decide; auto.
Qed.

Lemma idelete_loop_spec fuel s name error k : dir_ok s → 0 <= k → nblocks s - k <= Z.of_nat fuel →
  (∃ n i, dent s n = Some (i, key name) ∧ idelete_loop fuel ip name error (1024 * k) s = Ret (true, error) (clear_entry n s)) ∨
  (idelete_loop fuel ip name error (1024 * k) s = Ret (false, - ENOENT) s ∧
   ∀ n i, 32 * k <= n → dent s n ≠ Some (i, key name)).
Proof.
  intros Hd. revert k. induction fuel as [|fuel IH]; intros k Hk Hfuel; cbn [idelete_loop]; mstep.
  { right. split; [done|]. intros n i Hn. unfold dent. by rewrite decide_False by lia. }
  pose proof (dir_size _ Hd). pose proof (nblocks_lt s k ltac:(lia) Hk) as Hlt.
  destruct (Z.ltb_spec (1024 * k) (size s)) as [Hin|Hout].
  2:{ right. split; [done|]. intros n i Hn. unfold dent. by rewrite decide_False by lia. }
  rewrite (bind_eval _ _ _ _ _ (dir_block_spec s k Hd ltac:(lia))). cbv beta iota.
  destruct (find_entry 32 0 (entry_is name (dblk s k))) as [e|] eqn:E.
  - left. apply find_entry_Some in E as (He & HP & _). apply entry_is_slot in HP as [i Hi].
    exists (32 * k + e), i. rewrite dent_at by lia. split; [done|].
    rewrite (v_idev _ _ _ _ _ _ (f_vol _ _ _ _ _ _ _ (d_file _ _ _ _ _ _ _ (dir_data _ Hd)))).
    unfold clear_entry. rewrite <-(Z.div_unique_pos (32 * k + e) 32 k e) by lia.
    by rewrite <-(Z.mod_unique_pos (32 * k + e) 32 k e) by lia.
  - unfold BLOCKSIZ. replace (1024 * k + 1024) with (1024 * (k + 1)) by lia.
    destruct (IH (k + 1) ltac:(lia) ltac:(lia)) as [?|[He Hr]]; [by left|]. right. split; [done|]. intros n i Hn.
    destruct (decide (32 * (k + 1) <= n)); [by apply Hr|]. destruct (dent_split n) as [Hsplit Hm].
    assert (n / 32 = k) as Hnk by lia. intros Hx. rewrite Hsplit, Hnk, dent_at in Hx by lia.
    rewrite find_entry_None in E.
    assert (entry_is name (dblk s k) (n mod 32) = true) as Ht by (apply entry_is_slot; by exists i).
    rewrite E in Ht by lia. done.
Qed.

(** *** Insertion *)

(** What [iinsert_at] leaves: entry [e] of block [k] filled in, the size at
    least up to it. *)
Definition put_entry (k e : Z) (d name : list Z) (ino : Z) (s : fs) : fs :=
  upd_ino ip touch
    ((if size s <? 1024 * k + (e + 1) * 32 then upd_ino ip (λ i, set_i_size (i_size i + 32) i) else id)
      (upd_dsk (set_block dev (zblk s k) (set_d_ino e ino (set_d_name e name d))) s)).

Lemma iinsert_at_eq k e d name ino s : i_dev (ino_at s ip) = dev →
  iinsert_at ip (zblk s k) (1024 * k) e d name ino s = Ret tt (put_entry k e d name ino s).
Proof.
  intros Hdev. unfold iinsert_at, put_entry, DIRECT_SIZE. rewrite bind_gets, Hdev. unfold fs_bwrite. rewrite bind_modify.
  unfold when. by destruct (_ <? _).
Qed.

Lemma put_entry_spec k e d name ino s : data_ok s → 0 <= k < NR_FILE_ZONES → zblk s k ≠ 0 → block_ok d →
  0 <= e < 32 → kstrlen name <= 28 → bytes_ok name → 0 <= ino < 2 ^ 16 →
  let s' := put_entry k e d name ino s in
  data_ok s' ∧ (∀ m, 0 <= m < NR_FILE_ZONES → zblk s' m = zblk s m) ∧
  (∀ m, 0 <= m < NR_FILE_ZONES → dblk s' m = if decide (m = k) then set_d_ino e ino (set_d_name e name d) else dblk s m) ∧
  size s' = if size s <? 1024 * k + (e + 1) * 32 then size s + 32 else size s.
Proof.
  intros Hd Hk Hz Hok He Hn Hb Hi s'.
  destruct (dblk_bwrite s k (set_d_ino e ino (set_d_name e name d)) Hd Hk Hz) as (Hd1 & Hz1 & Hb1); [by apply block_ok_set|].
  unfold s', put_entry. set (s1 := upd_dsk _ s) in *. change (size s) with (size s1).
  set (g := λ i, touch (if i_size (ino_at s1 ip) <? 1024 * k + (e + 1) * 32 then set_i_size (i_size i + 32) i else i)).
  assert (upd_ino ip touch ((if size s1 <? 1024 * k + (e + 1) * 32 then upd_ino ip (λ i, set_i_size (i_size i + 32) i)
    else id) s1) = upd_ino ip g s1) as ->.
  { unfold g. destruct (_ <? _); [by rewrite upd_ino_upd_ino|done]. }
  destruct (data_ok_upd_ino ip sp dev fd nz O g s1 Hd1) as (Hd2 & _ & _ & Hs2); [intros i; unfold g; by case_match|].
  assert (∀ m, zblk (upd_ino ip g s1) m = zblk s1 m) as Hz2.
  { intros m. unfold Content.zblk. f_equal. unfold izones. apply (upd_ino_field ip i_zone). intros i. unfold g. by case_match. }
  split; [done|]. split; [intros m Hm; rewrite Hz2; by apply Hz1|]. split.
  - intros m Hm. unfold dblk. rewrite Hz2. by apply Hb1.
  - rewrite Hs2. unfold g. by case_match.
Qed.

Context (name : list Z) (ino : Z).
Context (Hname : kstrlen name <= 28) (Hbytes : bytes_ok name) (Hino : 0 < ino < 2 ^ 16).

(** Entry [n] is new, the others are as they were. *)
Definition inserted (s s' : fs) (n : Z) : Prop :=
  dir_ok s' ∧ dent s n = None ∧ ∀ m, dent s' m = if decide (m = n) then Some (ino, key name) else dent s m.

Lemma div_mod_32 k e : 0 <= e < 32 → (32 * k + e) / 32 = k ∧ (32 * k + e) mod 32 = e.
Proof.
  intros He. split; symmetry; [apply (Z.div_unique_pos _ _ _ e)|apply (Z.mod_unique_pos _ _ k)]; lia.
Qed.

(** A free entry of a block that is there. *)
Lemma insert_in_block s k e : dir_ok s → 0 <= k < nblocks s → 0 <= e < 32 → dent s (32 * k + e) = None →
  1024 * k + 32 * e <= size s → inserted s (put_entry k e (dblk s k) name ino s) (32 * k + e).
Proof.
  intros Hd Hk He Hfree Hle. pose proof (nblocks_range s Hd) as Hr. pose proof (dir_size _ Hd) as Hsz.
  destruct (put_entry_spec k e (dblk s k) name ino s) as (Hd' & Hz' & Hb' & Hs');
    [apply Hd|lia|by apply (dir_blocks _ Hd)|by apply dblk_ok|done|done|done|lia|].
  set (s' := put_entry _ _ _ _ _ s) in *. clearbody s'.
  pose proof (proj1 (nblocks_lt s k ltac:(lia) ltac:(lia)) ltac:(lia)) as Hlt.
  pose proof (dir_align _ Hd) as Hal. pose proof (Z.div_mod (size s) 32 ltac:(lia)) as Hdm.
  assert (size s' = size s ∧ 1024 * k + 32 * e + 32 <= size s ∨ size s' = size s + 32 ∧ size s = 1024 * k + 32 * e ∧ 0 < e) as Hs''.
  { rewrite Hs'. destruct (Z.ltb_spec (size s) (1024 * k + (e + 1) * 32)); [right|left; split; [done|lia]]. split; [done|].
    assert (size s = 1024 * k + 32 * e) by lia. lia. }
  assert (nblocks s' = nblocks s) as Hnb.
  { destruct Hs'' as [[Hq _]|(Hq & Hq' & He0)]; unfold nblocks; rewrite Hq; [done|]. rewrite Hq'.
    transitivity (k + 1); [symmetry; apply (Z.div_unique_pos _ _ _ (32 * e + 31)); lia|].
    apply (Z.div_unique_pos _ _ _ (32 * e - 1)); lia. }
  assert (∀ m, dent s' m = if decide (m = 32 * k + e) then Some (ino, key name) else dent s m) as Hdent.
  { intros m. unfold dent. rewrite Hnb. destruct (dent_split m) as [Hsm Hmm]. destruct (div_mod_32 k e He) as [Hdk Hme].
    destruct (decide (0 <= m < 32 * nblocks s)); [|by rewrite decide_False by lia]. rewrite Hb' by lia.
    destruct (decide (m / 32 = k)) as [Heq|Hne].
    - rewrite slot_set, Heq by (done || lia || by apply dblk_ok). repeat case_decide; (done || lia).
    - rewrite decide_False; [done|]. intros ->. by apply Hne. }
  split; [|split; [done|exact Hdent]]. split; try done.
  - unfold FILESIZE_MAX, NR_FILE_ZONES in *. lia.
  - destruct Hs'' as [[-> _]|[-> _]]; [done|]. by rewrite <-(Z.mul_1_l 32) at 1; rewrite Z.mod_add.
  - intros j Hj. rewrite Hnb in Hj. rewrite Hz' by lia. by apply (dir_blocks _ Hd).
  - intros j Hj. rewrite Hnb in Hj. rewrite Hz' by lia. by apply (dir_beyond _ Hd).
  - intros m Hm. rewrite Hdent. rewrite decide_False by lia. apply (dir_tail _ Hd). lia.
Qed.

(** The first entry of a new block. *)
Lemma insert_new_block s s1 : dir_ok s → size s = 1024 * nblocks s → size s < FILESIZE_MAX →
  data_ok s1 → zblk s1 (nblocks s) ≠ 0 →
  (∀ j, 0 <= j < NR_FILE_ZONES → j ≠ nblocks s → zblk s1 j = zblk s j) →
  (∀ z, in_use ip dev O s z → rdb s1 z = rdb s z) → size s1 = size s →
  inserted s (put_entry (nblocks s) 0 zero_block name ino s1) (32 * nblocks s).
Proof.
  intros Hd Hsz Hmax Hd1 Hz1 Hzj Hu1 Hs1. pose proof (nblocks_range s Hd) as Hr. pose proof (dir_size _ Hd) as Hs0.
  assert (nblocks s < NR_FILE_ZONES) as Hlt by (unfold FILESIZE_MAX, NR_FILE_ZONES in *; lia).
  destruct (put_entry_spec (nblocks s) 0 zero_block name ino s1) as (Hd' & Hz' & Hb' & Hs');
    [done|lia|done|apply zero_block_ok|lia|done|done|lia|].
  set (s' := put_entry _ _ _ _ _ s1) in *. clearbody s'. rewrite Hs1, (proj2 (Z.ltb_lt _ _)) in Hs' by lia.
  assert (nblocks s' = nblocks s + 1) as Hnb.
  { unfold nblocks at 1. rewrite Hs'. symmetry. apply (Z.div_unique_pos _ _ _ 31); lia. }
  assert (∀ j, 0 <= j < nblocks s → dblk s1 j = dblk s j) as Hdb.
  { intros j Hj. unfold dblk. rewrite Hzj by lia. apply Hu1. right. exists j. split; [lia|].
    split; [done|]. by apply (dir_blocks _ Hd). }
  assert (∀ m, dent s' m = if decide (m = 32 * nblocks s) then Some (ino, key name) else dent s m) as Hdent.
  { intros m. unfold dent. rewrite Hnb. destruct (dent_split m) as [Hsm Hmm].
    destruct (decide (0 <= m < 32 * (nblocks s + 1))); [|by rewrite !decide_False by lia]. rewrite Hb' by lia.
    destruct (decide (m / 32 = nblocks s)) as [Heq|Hne].
    - rewrite (decide_False (P:=0 <= m < _)) by lia. rewrite slot_set by (done || lia || apply zero_block_ok).
      destruct (decide (m mod 32 = 0)); [by rewrite decide_True by lia|]. rewrite decide_False by lia.
      unfold slot. assert (d_ino zero_block (m mod 32) = 0) as ->; [|done].
      assert (∀ e, e ∈ seqZ 0 32 → d_ino zero_block e = 0) as Hzero.
      { apply Forall_forall. vm_compute. repeat constructor. }
      apply Hzero, elem_of_seqZ. lia.
    - rewrite (decide_False (P:=m = _)) by (intros ->; lia). rewrite decide_True by lia. by rewrite Hdb by lia. }
  split; [|split; [by apply (dir_tail _ Hd); lia|exact Hdent]]. split; try done.
  - rewrite Hs'. unfold FILESIZE_MAX, NR_FILE_ZONES in *. lia.
  - rewrite Hs', Hsz. replace (1024 * nblocks s + 32) with ((32 * nblocks s + 1) * 32) by lia. by rewrite Z.mod_mul.
  - intros j Hj. rewrite Hz' by lia. destruct (decide (j = nblocks s)) as [->|]; [done|].
    rewrite Hzj by lia. apply (dir_blocks _ Hd). lia.
  - intros j Hj. rewrite Hz', Hzj by lia. apply (dir_beyond _ Hd). lia.
  - intros m Hm. rewrite Hdent. rewrite decide_False by lia. apply (dir_tail _ Hd). lia.
Qed.

Lemma iinsert_loop_spec fuel s mode error k : dir_ok s → 0 <= k → nblocks s - k <= Z.of_nat fuel →
  (∀ m, 0 <= m < 32 * k → dent s m ≠ None) →
  (∃ n s', iinsert_loop fuel ip name mode error ino (1024 * k) s = Ret (Some (None, error)) s' ∧ inserted s s' n) ∨
  (iinsert_loop fuel ip name mode error ino (1024 * k) s = Ret None s ∧
   ∀ m, 0 <= m < 32 * nblocks s → dent s m ≠ None).
Proof.
  intros Hd. revert k. induction fuel as [|fuel IH]; intros k Hk Hfuel Hused; cbn [iinsert_loop]; mstep.
  { right. split; [done|]. intros m Hm. apply Hused. lia. }
  pose proof (dir_size _ Hd). pose proof (nblocks_lt s k ltac:(lia) Hk) as Hlt.
  destruct (Z.ltb_spec (1024 * k) (size s)) as [Hin|Hout].
  2:{ right. split; [done|]. intros m Hm. apply Hused. lia. }
  rewrite (bind_eval _ _ _ _ _ (dir_block_spec s k Hd ltac:(lia))). cbv beta iota.
  destruct (find_entry 32 0 (λ k0, d_ino (dblk s k) k0 =? 0)) as [e|] eqn:E.
  - left. apply find_entry_Some in E as (He & HP & Hbefore).
    assert (dent s (32 * k + e) = None) as Hfree by (rewrite dent_at by lia; unfold slot; by rewrite HP).
    assert (1024 * k + 32 * e <= size s) as Hle.
    { destruct (decide (size s < 1024 * k + 32 * e)) as [Hbad|]; [|lia]. exfalso.
      pose proof (dir_align _ Hd) as Hal. pose proof (Z.div_mod (size s) 32 ltac:(lia)) as Hdm.
      pose proof (dir_tail _ Hd (32 * k + (size s / 32 - 32 * k)) ltac:(lia)) as Hnone.
      rewrite dent_at in Hnone by lia. unfold slot in Hnone. by rewrite (Hbefore (size s / 32 - 32 * k)) in Hnone by lia. }
    assert ((size s <? 1024 * k + (e + 1) * DIRECT_SIZE) && negb (1024 * k + e * DIRECT_SIZE =? size s) = false) as ->.
    { unfold DIRECT_SIZE. pose proof (dir_align _ Hd) as Hal. pose proof (Z.div_mod (size s) 32 ltac:(lia)) as Hdm.
      destruct (Z.ltb_spec (size s) (1024 * k + (e + 1) * 32)); [|done]. rewrite (proj2 (Z.eqb_eq _ _)) by lia. done. }
    rewrite (proj2 (Z.eqb_neq ino 0)) by lia.
    rewrite (bind_eval _ _ _ _ _ (iinsert_at_eq k e (dblk s k) name ino s
      (v_idev _ _ _ _ _ _ (f_vol _ _ _ _ _ _ _ (d_file _ _ _ _ _ _ _ (dir_data _ Hd)))))).
    eexists (32 * k + e), _. split; [done|]. apply insert_in_block; (done || lia).
  - unfold BLOCKSIZ. replace (1024 * k + 1024) with (1024 * (k + 1)) by lia. apply IH; [lia|lia|].
    intros m Hm. destruct (decide (m < 32 * k)); [apply Hused; lia|]. rewrite find_entry_None in E.
    destruct (dent_split m) as [Hsm Hmm]. assert (m / 32 = k) as Hmk by lia.
    rewrite Hsm, Hmk, dent_at by lia. unfold slot. by rewrite E by lia.
Qed.

(** Without an inode to allocate, growing is [alloc_block] and [iinsert_at]. *)
Lemma iinsert_grow_eq s mode error : i_sp (ino_at s ip) = Some sp → 0 <= size s < FILESIZE_MAX →
  let pos := (size s + BLOCKSIZ - 1) / BLOCKSIZ * BLOCKSIZ in
  iinsert_grow socket_close ip name mode error ino s =
    (r ← alloc_block ip sp pos;
     match r with
     | None => mret (None, - ENOSPC)
     | Some (blk, z) => iinsert_at ip blk pos 0 z name ino;; mret (None, error)
     end) s.
Proof.
  intros Hsp Hsz pos. unfold iinsert_grow, alloc_block. rewrite bind_gets, u32_small by (unfold FILESIZE_MAX in *; lia).
  rewrite (proj2 (Z.leb_gt _ _)), Hsp, (proj2 (Z.eqb_neq ino 0)) by lia. fold pos.
  unfold deref, from_opt, mbind, M_bind. destruct (bitalloc (Some sp) ZMAP s) as [blk s1| |s1]; [|done|done].
  change NOZONE with NOBLOCK. destruct (blk =? NOBLOCK); [done|]. unfold mret, M_ret, gets.
  destruct (minode _ _ _ s1) as [ok s2| |s2]; [|done|done]. destruct (ok =? 0); [|done].
  by destruct (bitfree _ _ _ s2).
Qed.

Lemma iinsert_grow_spec s mode error : dir_ok s → size s < FILESIZE_MAX →
  (∀ m, 0 <= m < 32 * nblocks s → dent s m ≠ None) →
  (∃ n s', iinsert_grow socket_close ip name mode error ino s = Ret (None, error) s' ∧ inserted s s' n) ∨
  (∃ s', iinsert_grow socket_close ip name mode error ino s = Ret (None, - ENOSPC) s' ∧
    same_data ip sp dev fd nz O s s' ∧ full sp fd nz s').
Proof.
  intros Hd Hmax Hused. pose proof (dir_size _ Hd) as Hsz. pose proof (nblocks_range s Hd) as Hnb.
  assert (size s = 1024 * nblocks s) as Hs.
  { destruct (decide (size s = 1024 * nblocks s)) as [|Hne]; [done|]. exfalso. unfold nblocks in *.
    pose proof (Z.div_mod (size s + 1023) 1024 ltac:(lia)) as Hdm. pose proof (Z.mod_pos_bound (size s + 1023) 1024 ltac:(lia)).
    pose proof (dir_align _ Hd) as Hal. pose proof (Z.div_mod (size s) 32 ltac:(lia)) as Hdm'.
    apply (Hused (size s / 32)); [|apply (dir_tail _ Hd)]; lia. }
  pose proof (f_vol _ _ _ _ _ _ _ (d_file _ _ _ _ _ _ _ (dir_data _ Hd))) as Hv.
  assert (0 <= size s < FILESIZE_MAX ∧ size s / 1024 = nblocks s) as [Hp Hk].
  { split; [lia|]. rewrite Hs at 1. rewrite Z.mul_comm, Z.div_mul; lia. }
  assert (zblk s (size s / 1024) = 0) as Hhole by (rewrite Hk; apply (dir_beyond _ Hd); unfold FILESIZE_MAX, NR_FILE_ZONES in *; lia).
  rewrite iinsert_grow_eq by (done || apply (v_isp _ _ _ _ _ _ Hv)).
  replace ((size s + BLOCKSIZ - 1) / BLOCKSIZ * BLOCKSIZ) with (size s)
    by (unfold BLOCKSIZ; replace (size s + 1024 - 1) with (size s + 1023) by lia; fold (nblocks s); lia).
  destruct (alloc_block_spec ip sp dev fd nz O s (size s) (dir_data _ Hd) Hp Hhole)
    as [(n & s1 & He & Hd1 & Hn & Hzk & Hzj & Hu1 & Hs1)|(s1 & He & Hw & Hfull)];
    rewrite (bind_eval _ _ _ _ _ He); cbv beta iota.
  - left. rewrite Hk in Hzk, Hzj. subst n. exists (32 * nblocks s), (put_entry (nblocks s) 0 zero_block name ino s1).
    split; [|by apply (insert_new_block s s1)]. rewrite Hs.
    by rewrite (bind_eval _ _ _ _ _ (iinsert_at_eq (nblocks s) 0 zero_block name ino s1
      (v_idev _ _ _ _ _ _ (f_vol _ _ _ _ _ _ _ (d_file _ _ _ _ _ _ _ Hd1))))).
  - right. by exists s1.
Qed.

(** *** The map *)

Lemma same_data_dir s s' m : dir_is s m → same_data ip sp dev fd nz O s s' → dir_is s' m.
Proof.
  intros [Hok Hm Ho] [Hd Hz Hr Hs]. assert (nblocks s' = nblocks s) as Hnb by (unfold nblocks; by rewrite Hs).
  pose proof (nblocks_range s Hok) as Hrange.
  assert (∀ n, dent s' n = dent s n) as He.
  { intros n. unfold dent. rewrite Hnb. destruct (dent_split n) as [Hsn Hmn]. case_decide; [|done]. f_equal. unfold dblk.
    rewrite Hz by lia. apply Hr. right. exists (n / 32). split; [lia|]. split; [done|]. apply (dir_blocks _ Hok). lia. }
  split.
  - destruct Hok. split; rewrite ?Hs; try done.
    + intros k Hk. rewrite Hnb in Hk. rewrite Hz by lia. auto.
    + intros k Hk. rewrite Hnb in Hk. rewrite Hz by lia. auto.
    + intros n Hn. rewrite He. auto.
  - intros nm i. rewrite Hm. by setoid_rewrite He.
  - intros n n' i i' nm. rewrite !He. apply Ho.
Qed.

Lemma inserted_dir s s' n m : dir_is s m → m !! key name = None → inserted s s' n → dir_is s' (<[key name := ino]> m).
Proof.
  intros [Hok Hm Ho] Hnew (Hok' & Hfree & He).
  assert (∀ k i, dent s k ≠ Some (i, key name)) as Hno.
  { intros k i Hk. assert (m !! key name = Some i) as Hx by (apply Hm; by exists k). congruence. }
  split; [done| |].
  - intros nm i. rewrite lookup_insert_Some, Hm. setoid_rewrite He. split.
    + intros [[<- <-]|[Hne [k Hk]]]; [exists n; by rewrite decide_True|].
      exists k. rewrite decide_False; [done|]. intros ->. congruence.
    + intros [k Hk]. case_decide; [left; by simplify_eq|]. right. split; [|by exists k]. intros <-. by apply Hno in Hk.
  - intros k k' i i' nm. rewrite !He. repeat case_decide; subst; try done.
    + intros [= <- <-] Hk. by apply Hno in Hk.
    + intros Hk [= <- <-]. by apply Hno in Hk.
    + apply Ho.
Qed.

Lemma cleared_dir s n i nm m : dir_is s m → dent s n = Some (i, nm) → dir_is (clear_entry n s) (delete nm m).
Proof.
  intros [Hok Hm Ho] Hn.
  assert (0 <= n < 32 * nblocks s) as Hr by (unfold dent in Hn; by case_decide).
  destruct (clear_entry_spec s n Hok Hr) as [Hok' He]. split; [done| |].
  - intros nm' i'. rewrite lookup_delete_Some, Hm. setoid_rewrite He. split.
    + intros [Hne [k Hk]]. exists k. rewrite decide_False; [done|]. intros ->. congruence.
    + intros [k Hk]. case_decide; [done|]. split; [|by exists k]. intros <-. by pose proof (Ho _ _ _ _ _ Hn Hk).
  - intros k k' j j' nm'. rewrite !He. repeat case_decide; try done. apply Ho.
Qed.

Lemma dir_turns_enough s : dir_ok s → nblocks s - 0 <= Z.of_nat (dir_turns (ino_at s ip)).
Proof.
  intros Hd. pose proof (dir_size _ Hd). unfold dir_turns, nblocks, BLOCKSIZ.
  pose proof (Z.div_mod (size s) 1024 ltac:(lia)). pose proof (Z.mod_pos_bound (size s) 1024 ltac:(lia)).
  assert ((size s + 1023) / 1024 < size s / 1024 + 2) by (apply Z.div_lt_upper_bound; lia). lia.
Qed.
End dirs.

(** ** The claims *)

Section claims.
Context {S PS : Type} `{BlockLaws S, PageAlloc PS}.
Notation fs := (fs_state S PS).



(** C32. [idelete] deletes: the directory holds the map without the name
    afterwards, and a name that is not there gives [-ENOENT] and changes
    nothing. *)
Theorem idelete_deletes ip sp dev fd nz O (s : fs) m name error :
  dir_is ip sp dev fd nz O s m → S_ISDIR (i_mode (ino_at s ip)) = true → kstrlen name <= NAME_MAX →
  key name ≠ key dot → key name ≠ key dotdot →
  match m !! key name with
  | Some _ => ∃ s', idelete ip name error s = Ret (true, error) s' ∧ dir_is ip sp dev fd nz O s' (delete (key name) m)
  | None => idelete ip name error s = Ret (false, - ENOENT) s
  end.
Proof.
  intros Hdir Hmode Hname Hdot Hdd. pose proof Hdir as [Hok Hm Ho].
  pose proof (f_vol _ _ _ _ _ _ _ (d_file _ _ _ _ _ _ _ (dir_data _ _ _ _ _ _ _ Hok))) as Hv.
  unfold idelete. rewrite bind_gets, Hmode. unfold die_if, negb, deref. rewrite bind_mret_l, (v_isp _ _ _ _ _ _ Hv).
  unfold from_opt. rewrite bind_mret_l, bind_gets, (bm_rw _ _ _ (v_map _ _ _ _ _ _ Hv)). change (truth 0) with false. cbv iota.
  rewrite (proj2 (Z.ltb_ge _ _)) by lia.
  rewrite !(proj2 (Z.eqb_neq _ 0)) by (by rewrite kstrncmp_eq). cbn [orb].
  destruct (idelete_loop_spec ip sp dev fd nz O (dir_turns (ino_at s ip)) s name error 0 Hok ltac:(lia)
    (dir_turns_enough _ _ _ _ _ _ s Hok)) as [(n & i & Hn & He)|[He Hno]]; rewrite Z.mul_0_r in He; rewrite He.
  - assert (m !! key name = Some i) as -> by (apply Hm; by exists n). eexists. split; [done|]. by eapply cleared_dir.
  - destruct (m !! key name) as [i|] eqn:E; [|done]. apply Hm in E as [n Hn]. exfalso. apply (Hno n i); [|done].
    unfold dent in Hn. case_decide; [lia|done].
Qed.
End claims.

(** *** Long names *)

Lemma kstrncpy_last src n : zget (kstrncpy_bytes src n) (zlen (kstrncpy_bytes src n) - 1) = Some 0.
Proof.
  assert (last (kstrncpy_bytes src n) = Some 0) as Hl.
  { revert src. induction n as [|n IH]; intros src; [done|]. cbn [kstrncpy_bytes]. cbv zeta.
    destruct (_ =? 0); [done|]. specialize (IH (tail src)). by destruct (kstrncpy_bytes (tail src) n). }
  apply last_Some in Hl as [l ->]. rewrite zlen_app. pose proof (zlen_nonneg l).
  change (zlen [0]) with 1. rewrite zget_app, decide_False by lia. by replace (zlen l + 1 - 1 - zlen l) with 0 by lia.
Qed.

(** C36. A name of 29 or 30 characters, which [iinsert] accepts, damages its
    neighbour: storing it writes one byte more than the entry has and clears
    the low byte of the next entry's inode number. *)
Theorem long_name_clobbers data name e : block_ok data → 0 <= e < 31 → 29 <= kstrlen name →
  d_ino (set_d_name e name data) (e + 1) = 256 * (d_ino data (e + 1) / 256).
Proof.
  intros [Hl Hb] He Hn. unfold BLOCKSIZ in Hl. pose proof (kstrncpy_bytes_len name 30) as Hlen.
  replace (Z.min (Z.of_nat 30) (kstrlen name + 1) + 1) with 31 in Hlen by lia.
  unfold d_ino, load, set_d_name, kstrncpy, DIRECT_SIZE. change (Z.of_nat 2) with 2.
  destruct (proj2 (zget_is_Some data (32 * e + 32)) ltac:(lia)) as [b0 Hb0].
  destruct (proj2 (zget_is_Some data (32 * e + 33)) ltac:(lia)) as [b1 Hb1].
  assert (∀ x y (d : list Z), zget d (32 * e + 32) = Some x → zget d (32 * e + 33) = Some y →
    slice (32 * (e + 1)) 2 d = [x; y]) as Hslice.
  { intros x y d Hx Hy. apply zget_ext. intros i Hi. rewrite zget_slice by lia. case_decide as Hi2.
    - assert (i = 0 ∨ i = 1) as [->| ->] by lia;
        [transitivity (Some x); [rewrite <-Hx; f_equal; lia|done]|transitivity (Some y); [rewrite <-Hy; f_equal; lia|done]].
    - symmetry. apply zget_None. change (zlen [x; y]) with 2. lia. }
  rewrite (Hslice b0 b1 data) by done. rewrite (Hslice 0 b1).
  2:{ rewrite zget_memcpy, decide_True by lia.
      replace (32 * e + 32 - (32 * e + 2)) with (zlen (kstrncpy_bytes name 30) - 1) by lia. apply kstrncpy_last. }
  2:{ by rewrite zget_memcpy, decide_False by lia. }
  cbn [le_decode]. pose proof (proj1 (bytes_ok_zget data) Hb _ _ Hb0) as Hr. unfold byte_ok in Hr.
  replace (b0 + 256 * (b1 + 256 * 0)) with (b0 + b1 * 256) by lia.
  rewrite Z.div_add, Z.div_small by lia. lia.
Qed.

(** ** Example: the directory of Zone.v is empty *)

Lemma demo_dent n : dent 0 1 demo_file_fs n = None.
Proof.
  unfold dent. change (nblocks 0 demo_file_fs) with 1. case_decide as Hn; [|done].
  assert (n / 32 = 0) as -> by (apply Z.div_small; lia). rewrite Z.mod_small by lia.
  assert (∀ e, e ∈ seqZ 0 32 → slot (dblk 0 1 demo_file_fs 0) e = None) as Hs.
  { apply Forall_forall. vm_compute. repeat constructor. }
  apply Hs, elem_of_seqZ. lia.
Qed.
Lemma demo_dir_is : dir_is 0 0 1 5 20 (λ _, False) demo_file_fs ∅.
Proof.
  split; [split| |].
  - exact demo_data_ok.
  - by vm_compute.
  - done.
  - change (nblocks 0 demo_file_fs) with 1. intros k Hk. rewrite demo_zblk by (unfold NR_FILE_ZONES; lia).
    by rewrite decide_True by lia.
  - change (nblocks 0 demo_file_fs) with 1. intros k Hk. rewrite demo_zblk by lia. by rewrite decide_False by lia.
  - intros n _. apply demo_dent.
  - intros nm i. rewrite lookup_empty. split; [done|]. intros [n Hn]. by rewrite demo_dent in Hn.
  - intros n n' i i' nm Hn. by rewrite demo_dent in Hn.
Qed.

Lemma idelete_deletes_witness : idelete 0 [97] 0 demo_file_fs = Ret (false, - ENOENT) demo_file_fs.
Proof.
  exact (idelete_deletes 0 0 1 5 20 (λ _, False) demo_file_fs ∅ [97] 0 demo_dir_is eq_refl ltac:(by vm_compute)
    ltac:(by vm_compute) ltac:(by vm_compute)).
Defined.
(** Entry 1 has inode number 7 before, and 0 after a name of 29 characters is
    stored in entry 0. *)
Lemma long_name_clobbers_witness :
  d_ino (set_d_ino 1 7 zero_block) 1 = 7 ∧
  d_ino (set_d_name 0 (replicate 29 97) (set_d_ino 1 7 zero_block)) 1 = 0.
Proof.
  split; [by vm_compute|].
  transitivity (256 * (d_ino (set_d_ino 1 7 zero_block) 1 / 256)); [|by vm_compute].
  apply (long_name_clobbers (set_d_ino 1 7 zero_block) (replicate 29 97) 0); [|done|by vm_compute].
  split; [by vm_compute|]. apply bytes_ok_store; [apply zero_block_ok|by vm_compute|by vm_compute].
Defined.
