(* ===== verification/Open.v ===== *)
(** * Opening files and mounting (fs/open.c, mount.c)

    [checkname] and the clean-up [iputs] that the early returns of all calls
    share; [do_open], [do_creat], [do_mknod], [do_mount] and [do_umount]. *)

From S2P Require Import Prelude Cstring Blocks Pages Dlist FsState Super Zone Inode Dir Namei File.
From stdpp Require Import base numbers functions gmap list.

Local Open Scope Z_scope.

Definition ENOTSUP : Z := 95.

(** [tobits] *)
Definition tobits : list Z := [I_RB; I_WB; Z.lor I_RB I_WB].

(** [((mode & I_UGRWX) & (~(current->umask))) | type] *)
Definition new_mode (mode umask type : Z) : Z :=
  Z.lor (Z.land (Z.land mode I_UGRWX) (Z.lnot umask)) type.

(** [inoptr->i_count++] *)
Definition hold (i : inode) : inode := set_i_count (i_count i + 1) i.

(** [inoptr->i_update |= what; inoptr->i_dirty = 1] *)
Definition mark (what : Z) (i : inode) : inode :=
  set_i_dirty 1 (set_i_update (Z.lor (i_update i) what) i).

Section open.
Context {S PS : Type} `{BlockStore S, PageAlloc PS}.
Notation fs := (fs_state S PS).
Context (X : outside fs).
Notation iput := (iput (socket_close X)).
Notation ifind := (ifind (socket_close X)).
Notation iinsert := (iinsert (socket_close X)).
Notation namei := (namei (socket_close X)).

Definition checkname (name : list Z) : M fs unit := die_if (default 0 (head name) =? 0).

(** [iput] of each inode in turn, then [return v]. *)
Fixpoint iputs {A} (l : list Z) (v : A) : M fs A :=
  match l with
  | [] => mret v
  | ip :: l => iput (Some ip);; iputs l v
  end.

(** The part of [do_open] that creates the file: the inode or the result. *)
Definition open_creat (filename : list Z) (mode error : Z) : M fs (Z + Z) :=
  r ← namei filename error true;
  match r with
  | (None, error) => mret (inr error)
  | (Some fino, error) =>
      f ← gets (λ s, ino_at s fino);
      if negb (S_ISDIR (i_mode f)) then iputs [fino] (inr (- ENOTDIR))
      else match get_tail filename with
      | None => iputs [fino] (inr (- ENAMETOOLONG))
      | Some part =>
          ok ← admits fino I_WB;
          if negb ok then iputs [fino] (inr (- EACCES))
          else
            mask ← gets (λ s, umask (current s));
            r ← iinsert fino part (new_mode mode mask I_REG) error 0;
            iputs [fino] (match r.1 with Some ip => inl ip | None => inr r.2 end)
      end
  end.

(** [dev_table[major].open], or [-ENODEV]. *)
Definition open_device (ip flags error : Z) : M fs Z :=
  i ← gets (λ s, ino_at s ip);
  if S_ISBLK (i_mode i) || S_ISCHR (i_mode i) then
    match device X (zone_at i 0) ≫= dev_open with
    | None => mret (- ENODEV)
    | Some open => open (MINOR (zone_at i 0)) flags
    end
  else mret error.

Definition at_end (fd ip flags : Z) : M fs unit :=
  when (has flags O_APPEND)
    (fp ← fget fd;
     fp ← deref fp;
     n ← gets (λ s, i_size (ino_at s ip));
     modify (upd_filp fp (set_f_pos n))).

(** From the inode on: permission, kind, truncation, device, descriptor. *)
Definition open_inode (ip flags error : Z) : M fs Z :=
  bits ← from_opt (zget tobits (Z.land flags O_ACCMODE));
  ok ← admits ip bits;
  i ← gets (λ s, ino_at s ip);
  let acc := Z.land flags O_ACCMODE in
  if negb ok then iputs [ip] (- EACCES)
  else if S_ISFIFO (i_mode i) then iputs [ip] (- ENOTSUP)
  else if S_ISDIR (i_mode i) && negb (acc =? O_RDONLY) then iputs [ip] (- EISDIR)
  else
    when (has flags O_TRUNC && truth acc && S_ISREG (i_mode i)) (truncate ip);;
    error ← open_device ip flags error;
    if (S_ISBLK (i_mode i) || S_ISCHR (i_mode i)) && (error <? 0) then iputs [ip] error
    else
      r ← fdget 0 flags ip error;
      if r.1 <? 0 then iputs [ip] r.2
      else
        at_end r.1 ip flags;;
        modify (upd_ino ip (λ i, hold (mark ATIME i)));;
        iputs [ip] r.1.

Definition do_open (filename : list Z) (flags mode : Z) : M fs Z :=
  checkname filename;;
  r ← namei filename 0 false;
  let '(inoptr, error) := r in
  if has flags O_CREAT then
    match inoptr with
    | Some ip =>
        i ← gets (λ s, ino_at s ip);
        if has flags O_EXCL && negb (S_ISCHR (i_mode i)) then iputs [ip] (- EEXIST)
        else open_inode ip flags error
    | None =>
        r ← open_creat filename mode error;
        match r with
        | inl ip => open_inode ip flags 0
        | inr e => mret e
        end
    end
  else
    match inoptr with
    | Some ip => open_inode ip flags error
    | None => mret (- ENOENT)
    end.

Definition do_creat (filename : list Z) (mode : Z) : M fs Z :=
  do_open filename (Z.lor (Z.lor O_WRONLY O_CREAT) O_TRUNC) mode.

Definition do_inode_open (ip flags : Z) : M fs Z :=
  r ← fdget 0 flags ip 0;
  if r.1 <? 0 then mret r.2
  else
    at_end r.1 ip flags;;
    modify (upd_ino ip (λ i, hold (mark ATIME i)));;
    mret r.1.

Definition do_mknod (filename : list Z) (mode dev : Z) : M fs Z :=
  checkname filename;;
  r ← namei filename 0 true;
  match r with
  | (None, error) => mret error
  | (Some fino, error) =>
      f ← gets (λ s, ino_at s fino);
      ok ← admits fino I_WB;
      if negb (S_ISDIR (i_mode f)) then iputs [fino] (- ENOTDIR)
      else if negb ok then iputs [fino] (- EACCES)
      else match get_tail filename with
      | None => iputs [fino] (- ENAMETOOLONG)
      | Some part =>
          modify (upd_ino fino hold);;
          found ← ifind fino part;
          match found with
          | Some ip => iputs [ip; fino] (- EEXIST)
          | None =>
              ilock fino;;
              mask ← gets (λ s, umask (current s));
              r ← iinsert fino part (new_mode mode mask (Z.land mode I_TYPE)) error 0;
              match r with
              | (None, error) => iputs [fino] error
              | (Some ip, _) =>
                  iput (Some fino);;
                  modify (upd_ino ip (set_zone_at 0 (u32 dev)));;
                  iputs [ip] 0
              end
          end
      end
  end.

(** ** mount.c *)

(** From the point where both inodes are there. *)
Definition mount_on (ip dirino flag : Z) : M fs Z :=
  i ← gets (λ s, ino_at s ip);
  let dev := s16 (zone_at i 0) in
  tmp ← sread dev;
  d ← gets (λ s, ino_at s dirino);
  rooti ← (if (dev =? i_dev d) && (i_num d =? ROOT_INODE) then
             modify (upd_ino dirino hold);;
             mret dirino
           else iget dev ROOT_INODE);
  tmp ← deref tmp;
  modify (upd_sblk tmp (set_s_rooti (Some rooti)));;
  modify (upd_ino rooti hold);;
  iput (Some rooti);;
  modify (upd_sblk tmp (set_s_mounti (Some dirino)));;
  modify (upd_ino dirino (λ d, hold (set_flag MOUNT_I (set_i_mounts (Some tmp) d))));;
  iput (Some dirino);;
  modify (upd_sblk tmp
    (set_s_roflag (if Z.land flag O_ACCMODE =? O_RDONLY then 1 else 0)));;
  iputs [ip] 0.

Definition do_mount (specfile dirname : list Z) (flag : Z) : M fs Z :=
  checkname specfile;;
  checkname dirname;;
  me ← gets current;
  if negb (euid me =? SU_UID) then mret (- EPERM)
  else
    r ← namei specfile 0 false;
    match r with
    | (None, error) => mret error
    | (Some ip, error) =>
        i ← gets (λ s, ino_at s ip);
        if negb (S_ISBLK (i_mode i)) then iputs [ip] (- EPERM)
        else
          r ← namei dirname error false;
          match r with
          | (None, error) => iputs [ip] error
          | (Some dirino, _) =>
              d ← gets (λ s, ino_at s dirino);
              if negb (S_ISDIR (i_mode d)) then iputs [dirino; ip] (- ENOTDIR)
              else if has (i_flags d) MOUNT_I then iputs [dirino; ip] (- EBUSY)
              else mount_on ip dirino flag
          end
    end.

(** [bsync] and [inval_dev] write the dirty buffers and drop them, which leaves
    the contents of the blocks as they are. *)
Definition do_umount (specfile : list Z) : M fs Z :=
  checkname specfile;;
  me ← gets current;
  if negb (euid me =? SU_UID) then mret (- EPERM)
  else
    r ← namei specfile 0 false;
    match r with
    | (None, error) => mret error
    | (Some ip, _) =>
        i ← gets (λ s, ino_at s ip);
        if negb (S_ISBLK (i_mode i)) then iputs [ip] (- EPERM)
        else
          let dev := s16 (zone_at i 0) in
          n ← gets (get_iiucount dev);
          if 1 <? n then iputs [ip] (- EBUSY)
          else
            tmp ← sread dev;
            tmp ← deref tmp;
            rooti ← gets (λ s, s_rooti (sb_at s tmp));
            iput rooti;;
            dirino ← gets (λ s, s_mounti (sb_at s tmp));
            dirino ← deref dirino;
            modify (upd_ino dirino (clear_iflag MOUNT_I));;
            iput (Some dirino);;
            modify (sfree tmp);;
            mret 0
    end.
End open.
