(* ===== verification/Link.v ===== *)
(** * Links (fs/link.c)

    [do_link], [do_unlink], [do_rename], [do_symlink] and [do_readlink].
    [i_nlinks] is a signed byte. *)

From S2P Require Import Prelude Cstring Blocks Pages Dlist FsState Super Zone Inode Dir Namei File ReadWrite Open.
From stdpp Require Import base numbers functions gmap list.

Local Open Scope Z_scope.

(** [inoptr->i_nlinks += n] *)
Definition add_links (n : Z) (i : inode) : inode := set_i_nlinks (s8 (i_nlinks i + n)) i.

Section link.
Context {S PS : Type} `{BlockStore S, PageAlloc PS}.
Notation fs := (fs_state S PS).
Context (X : outside fs).
Notation iput := (iput (socket_close X)).
Notation iputs := (iputs X).
Notation ifind := (ifind (socket_close X)).
Notation iinsert := (iinsert (socket_close X)).
Notation namei := (namei (socket_close X)).
Notation namei0 := (namei0 (socket_close X)).

(** The part of [do_link] that holds both inodes. *)
Definition link_in (ip fino error : Z) (destname : list Z) : M fs Z :=
  i ← gets (λ s, ino_at s ip);
  f ← gets (λ s, ino_at s fino);
  if negb (S_ISDIR (i_mode f)) then iputs [fino; ip] (- ENOTDIR)
  else if negb (i_dev i =? i_dev f) then iputs [fino; ip] (- EPERM)
  else match get_tail destname with
  | None => iputs [fino; ip] (- ENAMETOOLONG)
  | Some part =>
      ok ← admits fino I_WB;
      if negb ok then iputs [fino; ip] (- EACCES)
      else
        r ← iinsert fino part 0 error (i_num i);
        if r.2 <? 0 then iputs [fino; ip] r.2
        else
          modify (upd_ino ip (λ i, set_i_dirty 1 (add_links 1 i)));;
          iputs [ip; fino] 0
  end.

Definition do_link (srcname destname : list Z) : M fs Z :=
  checkname srcname;;
  checkname destname;;
  r ← namei0 srcname 0 false;
  match r with
  | (None, error) => mret error
  | (Some ip, error) =>
      i ← gets (λ s, ino_at s ip);
      if S_ISDIR (i_mode i) then iputs [ip] (- EPERM)
      else
        modify (upd_ino ip hold);;
        iput (Some ip);;
        r ← namei destname error false;
        match r with
        | (Some inoptr1, _) => iputs [inoptr1; ip] (- EEXIST)
        | (None, error) =>
            r ← namei destname error true;
            match r with
            | (None, error) => iputs [ip] error
            | (Some fino, error) => link_in ip fino error destname
            end
        end
  end.

(** The part of [do_unlink] that holds the inode and its directory. *)
Definition unlink_from (ip fino error : Z) (part : list Z) : M fs Z :=
  i ← gets (λ s, ino_at s ip);
  ok ← admits ip I_WB;
  if negb ok then iputs [ip; fino] (- EPERM)
  else if S_ISDIR (i_mode i) then iputs [ip; fino] (- EISDIR)
  else
    modify (upd_ino ip (add_links (-1)));;
    i ← gets (λ s, ino_at s ip);
    die_if (i_nlinks i <? 0);;
    modify (upd_ino ip (set_i_dirty 1));;
    iput (Some ip);;
    ilock fino;;
    r ← idelete fino part error;
    iputs [fino] (if r.1 : bool then 0 else r.2).

Definition do_unlink (pathname : list Z) : M fs Z :=
  checkname pathname;;
  r ← namei pathname 0 true;
  match r with
  | (None, error) => mret error
  | (Some fino, error) =>
      f ← gets (λ s, ino_at s fino);
      if negb (S_ISDIR (i_mode f)) then iputs [fino] (- ENOTDIR)
      else match get_tail pathname with
      | None => iputs [fino] (- ENAMETOOLONG)
      | Some part =>
          modify (upd_ino fino hold);;
          found ← ifind fino part;
          match found with
          | None => iputs [fino] (- ENOENT)
          | Some ip => unlink_from ip fino error part
          end
      end
  end.

(** ** [do_rename] *)

(** The new entry is made, the old one removed. *)
Definition rename_move (ip fino fino1 error : Z) (part part1 : list Z) : M fs Z :=
  i ← gets (λ s, ino_at s ip);
  ilock fino1;;
  r ← iinsert fino1 part1 0 error (i_num i);
  let error := r.2 in
  if error <? 0 then iputs [fino1; fino; ip] error
  else
    when (negb (fino1 =? fino))
      (modify (upd_ino fino1 hold);;
       iput (Some fino1);;
       ilock fino);;
    r ← idelete fino part error;
    if negb r.1 then
      when (negb (fino1 =? fino)) (ilock fino1);;
      idelete fino1 part1 0;;
      iputs [fino1; fino; ip] r.2
    else
      i ← gets (λ s, ino_at s ip);
      when (S_ISDIR (i_mode i))
        (modify (upd_ino fino1 (λ i, mark MTIME (add_links 1 i)));;
         modify (upd_ino fino (λ i, mark MTIME (add_links (-1) i))));;
      iputs [fino1; fino; ip] 0.

(** The part of [do_rename] from the parent of the new name on. *)
Definition rename_to (ip fino fino1 error : Z) (part newpath : list Z) : M fs Z :=
  f1 ← gets (λ s, ino_at s fino1);
  if negb (S_ISDIR (i_mode f1)) then iputs [fino1; fino; ip] (- ENOTDIR)
  else match get_tail newpath with
  | None => mret (- ENAMETOOLONG)
  | Some part1 =>
      modify (upd_ino fino1 hold);;
      found ← ifind fino1 part1;
      match found with
      | Some inoptr1 => iputs [inoptr1; fino1; fino; ip] (- EEXIST)
      | None =>
          i ← gets (λ s, ino_at s ip);
          r ← (if S_ISDIR (i_mode i) then bypass (socket_close X) newpath error true true ip
               else mret (false, error));
          let error := r.2 in
          i ← gets (λ s, ino_at s ip);
          f1 ← gets (λ s, ino_at s fino1);
          ok ← admits fino I_WB;
          ok1 ← admits fino1 I_WB;
          if r.1 : bool then iputs [fino1; fino; ip] (- EPERM)
          else if negb (i_dev i =? i_dev f1) then iputs [fino1; fino; ip] (- EPERM)
          else if negb ok || negb ok1 then iputs [fino1; fino; ip] (- EACCES)
          else rename_move ip fino fino1 error part part1
      end
  end.

Definition do_rename (oldpath newpath : list Z) : M fs Z :=
  checkname oldpath;;
  checkname newpath;;
  match get_tail oldpath with
  | None => mret (- ENAMETOOLONG)
  | Some part =>
      if (kstrcmp part dot =? 0) || (kstrcmp part dotdot =? 0) then mret (- EINVAL)
      else
        r ← namei oldpath 0 true;
        match r with
        | (None, error) => mret error
        | (Some fino, error) =>
            f ← gets (λ s, ino_at s fino);
            if negb (S_ISDIR (i_mode f)) then iputs [fino] (- ENOTDIR)
            else
              modify (upd_ino fino hold);;
              found ← ifind fino part;
              match found with
              | None => iputs [fino] error
              | Some ip =>
                  modify (upd_ino ip hold);;
                  iput (Some ip);;
                  r ← namei newpath error true;
                  match r with
                  | (None, error) => iputs [fino; ip] error
                  | (Some fino1, error) => rename_to ip fino fino1 error part newpath
                  end
              end
        end
  end.

(** ** Symbolic links *)

(** The name is written through a descriptor of the caller. *)
Definition write_link (ip : Z) (oldpath : list Z) : M fs Z :=
  ret ← do_inode_open ip O_WRONLY;
  if ret <? 0 then mret ret
  else
    let fd := ret in
    ret ← do_write X fd (cstr oldpath);
    do_close X fd;;
    mret (if ret =? kstrlen oldpath then 0 else ret).

Definition do_symlink (oldpath newpath : list Z) : M fs Z :=
  checkname oldpath;;
  checkname newpath;;
  if 4096 <=? kstrlen oldpath then mret (- ENAMETOOLONG)
  else
    r ← namei newpath 0 false;
    match r with
    | (Some ip, _) => iputs [ip] (- EEXIST)
    | (None, error) =>
        r ← namei newpath error true;
        match r with
        | (None, error) => mret error
        | (Some fino, error) =>
            f ← gets (λ s, ino_at s fino);
            if negb (S_ISDIR (i_mode f)) then iputs [fino] (- ENOTDIR)
            else match get_tail newpath with
            | None => iputs [fino] (- ENAMETOOLONG)
            | Some part =>
                ok ← admits fino I_WB;
                if negb ok then iputs [fino] (- EACCES)
                else
                  mask ← gets (λ s, umask (current s));
                  r ← iinsert fino part (Z.lor (Z.land 0x1ed (Z.lnot mask)) I_LNK) error 0;
                  match r with
                  | (None, error) => iputs [fino] error
                  | (Some ip, _) =>
                      ret ← write_link ip oldpath;
                      iputs [ip; fino] ret
                  end
            end
        end
    end.

(** [buff] from its start; a hole stores a whole block of zeros. *)
Fixpoint readlink_loop (fuel : nat) (ip off buf_size : Z) (buff : list Z) : M fs (Z * list Z) :=
  i ← gets (λ s, ino_at s ip);
  if (off <? buf_size) && (off <? i_size i) then
    match fuel with
    | O => die
    | Datatypes.S fuel =>
        let len := if i_size i - off <? BLOCKSIZ then i_size i - off else BLOCKSIZ in
        let len := if buf_size - off <? len then buf_size - off else len in
        let stored b := take (Z.to_nat off) buff ++ b in
        blk ← bmap ip off;
        if blk =? NOBLOCK then readlink_loop fuel ip (off + len) buf_size (stored zero_block)
        else
          bh ← fs_bread (i_dev i) blk;
          match bh with
          | None => iputs [ip] (- EIO, buff)
          | Some data => readlink_loop fuel ip (off + len) buf_size (stored (slice 0 len data))
          end
    end
  else iputs [ip] (off, buff).

Definition do_readlink (path : list Z) (buf_size : Z) : M fs (Z * list Z) :=
  checkname path;;
  r ← namei0 path 0 false;
  match r with
  | (None, error) => mret (error, [])
  | (Some ip, _) =>
      i ← gets (λ s, ino_at s ip);
      ok ← admits ip I_RB;
      if negb (S_ISLNK (i_mode i)) then iputs [ip] (- EPERM, [])
      else if negb ok then iputs [ip] (- EACCES, [])
      else
        modify (upd_ino ip hold);;
        iput (Some ip);;
        readlink_loop (Z.to_nat (i_size i / BLOCKSIZ + 1)) ip 0 buf_size []
  end.
End link.
