(* ===== verification/Dirent.v ===== *)
(** * Directory calls, permissions and status (fs/dirent.c, access.c, stat.c) *)

From S2P Require Import Prelude Cstring Blocks Pages Dlist FsState Super Zone Inode Dir Namei File Open Link.
From stdpp Require Import base numbers functions gmap list.

Local Open Scope Z_scope.

Definition F_OK : Z := 0.

(** The fields of [struct stat] the calls fill in. *)
Record stat := Stat {
  st_dev : Z; st_ino : Z; st_mode : Z; st_nlink : Z; st_uid : Z; st_gid : Z; st_rdev : Z;
  st_size : Z; st_blksize : Z; st_blocks : Z; st_atime : Z; st_mtime : Z; st_ctime : Z;
}.

(** The bits [expect] asked for, in the owner, group and other positions. *)
Definition granted (uid gid expect : Z) (i : inode) : bool :=
  ((uid =? i_uid i) && truth (Z.land (Z.shiftl expect 6) (i_mode i)))
  || ((gid =? i_gid i) && truth (Z.land (Z.shiftl expect 3) (i_mode i)))
  || truth (Z.land expect (i_mode i)).

(** [can_write] *)
Definition can_write (t : task_fs) (i : inode) : bool := granted (uid t) (gid t) I_WB i.

Section dirent.
Context {S PS : Type} `{BlockStore S, PageAlloc PS}.
Notation fs := (fs_state S PS).
Context (X : outside fs).
Notation iput := (iput (socket_close X)).
Notation iputs := (iputs X).
Notation ifind := (ifind (socket_close X)).
Notation iinsert := (iinsert (socket_close X)).
Notation namei := (namei (socket_close X)).
Notation namei0 := (namei0 (socket_close X)).

(** ** dirent.c *)

Definition do_mkdir (pathname : list Z) (mode : Z) : M fs Z :=
  checkname pathname;;
  r ← namei pathname 0 true;
  match r with
  | (None, error) => mret error
  | (Some fino, error) =>
      f ← gets (λ s, ino_at s fino);
      ok ← admits fino I_WB;
      if negb (S_ISDIR (i_mode f)) then iputs [fino] (- ENOTDIR)
      else if negb ok then iputs [fino] (- EACCES)
      else match get_tail pathname with
      | None => iputs [fino] (- ENAMETOOLONG)
      | Some part =>
          modify (upd_ino fino hold);;
          found ← ifind fino part;
          match found with
          | Some ip => iputs [fino; ip] (- EEXIST)
          | None =>
              ilock fino;;
              mask ← gets (λ s, umask (current s));
              let mode1 := new_mode mode mask I_DIR in
              r ← iinsert fino part mode1 error 0;
              match r with
              | (None, error) => iputs [fino] error
              | (Some ip, error) =>
                  n ← gets (λ s, i_num (ino_at s ip));
                  r ← iinsert ip dot mode1 error n;
                  n ← gets (λ s, i_num (ino_at s fino));
                  iinsert ip dotdot mode1 r.2 n;;
                  modify (upd_ino ip (λ i, set_i_dirty 1 (add_links 1 i)));;
                  iput (Some ip);;
                  modify (upd_ino fino (λ i, mark MTIME (add_links 1 i)));;
                  iputs [fino] 0
              end
          end
      end
  end.

(** The part of [do_rmdir] that holds the directory and its parent. *)
Definition rmdir_from (ip fino error : Z) (part : list Z) : M fs Z :=
  me ← gets current;
  i ← gets (λ s, ino_at s ip);
  if (ip =? pwd me) || (ip =? root me) then iputs [ip; fino] (- EBUSY)
  else if negb (S_ISDIR (i_mode i)) then iputs [ip; fino] (- ENOTDIR)
  else
    empty ← iempty ip;
    if negb empty then iputs [ip; fino] (- ENOTEMPTY)
    else
      die_if (negb (i_nlinks i =? 2));;
      modify (upd_ino ip (λ i, set_i_dirty 1 (add_links (-2) i)));;
      iput (Some ip);;
      ilock fino;;
      r ← idelete fino part error;
      if negb r.1 then iputs [fino] r.2
      else
        modify (upd_ino fino (λ i, mark MTIME (add_links (-1) i)));;
        iputs [fino] 0.

Definition do_rmdir (pathname : list Z) : M fs Z :=
  checkname pathname;;
  match get_tail pathname with
  | None => mret (- ENAMETOOLONG)
  | Some part =>
      if (kstrcmp part dot =? 0) || (kstrcmp part dotdot =? 0) then mret (- EINVAL)
      else
        r ← namei pathname 0 true;
        match r with
        | (None, error) => mret error
        | (Some fino, error) =>
            f ← gets (λ s, ino_at s fino);
            ok ← admits fino I_WB;
            if negb (S_ISDIR (i_mode f)) then iputs [fino] (- ENOTDIR)
            else if negb ok then iputs [fino] (- EACCES)
            else if NAME_MAX <? kstrlen part then iputs [fino] (- ENAMETOOLONG)
            else
              modify (upd_ino fino hold);;
              found ← ifind fino part;
              match found with
              | None => iputs [fino] (- ENOENT)
              | Some ip => rmdir_from ip fino error part
              end
        end
  end.

Definition do_chdir (pathname : list Z) : M fs Z :=
  checkname pathname;;
  r ← namei pathname 0 false;
  match r with
  | (None, error) => mret error
  | (Some ip, _) =>
      i ← gets (λ s, ino_at s ip);
      ok ← admits ip I_RB;
      old ← gets (λ s, pwd (current s));
      if negb (S_ISDIR (i_mode i)) then iputs [ip] (- ENOTDIR)
      else if negb ok then iputs [ip] (- EPERM)
      else if old =? ip then iputs [ip] 0
      else
        iput (Some old);;
        modify (upd_current (set_pwd ip));;
        modify (upd_ino ip hold);;
        iputs [ip] 0
  end.

Definition do_chroot (pathname : list Z) : M fs Z :=
  checkname pathname;;
  r ← namei pathname 0 false;
  match r with
  | (None, error) => mret error
  | (Some ip, _) =>
      ok ← admits ip I_RB;
      old ← gets (λ s, root (current s));
      if negb ok then iputs [ip] (- EPERM)
      else if old =? ip then iputs [ip] 0
      else
        iput (Some old);;
        modify (upd_current (set_root ip));;
        modify (upd_ino ip hold);;
        iputs [ip] 0
  end.

(** Climbing to the root: [path] is what the buffer holds from [idx] on. *)
Fixpoint getcwd_loop (fuel : nat) (tmp idx : Z) (path : list Z) : M fs (Z * Z * list Z) :=
  inum ← gets (λ s, i_num (ino_at s tmp));
  fino ← ifind tmp dotdot;
  match fino with
  | None => mret (- EIO, idx, path)
  | Some fino =>
      n ← gets (λ s, i_num (ino_at s fino));
      if inum =? n then iputs [fino] (0, idx, path)
      else
        num ← gets (λ s, i_num (ino_at s tmp));
        r ← get_name_of_son fino num 31;
        match r with
        | inr error => iputs [fino] (error, idx, path)
        | inl name =>
            let len := kstrlen name in
            if idx - (len + 1) <? 0 then iputs [fino] (- ERANGE, idx, path)
            else match fuel with
            | O => die
            | Datatypes.S fuel =>
                getcwd_loop fuel fino (idx - len - 1) (SLASH :: cstr name ++ path)
            end
        end
  end.
(** The result and the string left in the buffer of [size] bytes. *)
Definition do_getcwd (size : Z) : M fs (Z * list Z) :=
  tmp ← gets (λ s, pwd (current s));
  modify (upd_ino tmp hold);;
  ilock tmp;;
  die_if (size <=? 0);;
  r ← getcwd_loop (Z.to_nat size) tmp (size - 1) [];
  let '(error, idx, path) := r in
  mret (error, if (error =? 0) && (size - 1 <=? idx) then [SLASH] else path).

(** ** access.c *)

Definition do_access (pathname : list Z) (expect : Z) : M fs Z :=
  checkname pathname;;
  r ← namei pathname 0 false;
  match r with
  | (None, error) => mret error
  | (Some ip, _) =>
      i ← gets (λ s, ino_at s ip);
      me ← gets current;
      iputs [ip]
        (if expect =? F_OK then 0
         else if uid me =? SU_UID then
           if truth (Z.land expect 1) && negb (truth (Z.land (i_mode i) (1 + 8 + 64)))
           then - EACCES else 0
         else if granted (uid me) (gid me) expect i then 0
         else - EACCES)
  end.

Definition do_chmod (path : list Z) (mode : Z) : M fs Z :=
  checkname path;;
  r ← namei path 0 false;
  match r with
  | (None, error) => mret error
  | (Some ip, _) =>
      i ← gets (λ s, ino_at s ip);
      me ← gets current;
      if negb (euid me =? SU_UID) && negb (euid me =? i_uid i) then iputs [ip] (- EACCES)
      else
        modify (upd_ino ip (λ i,
          mark CTIME (set_i_mode (Z.lor (i_mode i) (Z.land mode I_UGRWX)) i)));;
        iputs [ip] 0
  end.

Definition do_chown (path : list Z) (owner group : Z) : M fs Z :=
  checkname path;;
  r ← namei path 0 false;
  match r with
  | (None, error) => mret error
  | (Some ip, error) =>
      i ← gets (λ s, ino_at s ip);
      me ← gets current;
      if negb (euid me =? SU_UID)
         && ((negb (euid me =? i_uid i) && negb (i_uid i =? owner)) || negb (egid me =? group))
      then iputs [ip] (- EACCES)
      else
        when (euid me =? SU_UID) (modify (upd_ino ip (set_i_uid owner)));;
        when (0 <? group) (modify (upd_ino ip (set_i_gid group)));;
        modify (upd_ino ip (mark CTIME));;
        iputs [ip] error
  end.

(** [buf] is null or holds [actime] and [modtime]. *)
Definition do_utime (path : list Z) (buf : option (Z * Z)) : M fs Z :=
  checkname path;;
  r ← namei path (- EACCES) false;
  match r with
  | (None, error) => mret error
  | (Some ip, _) =>
      i ← gets (λ s, ino_at s ip);
      me ← gets current;
      if negb (euid me =? SU_UID) && negb (euid me =? i_uid i)
         && (bool_decide (is_Some buf) || negb (can_write me i))
      then iputs [ip] (- EACCES)
      else
        modify (upd_ino ip (λ i,
          mark CTIME (match buf with
                      | Some (actime, modtime) => set_i_mtime modtime (set_i_atime actime i)
                      | None => set_i_update (Z.lor (i_update i) (Z.lor ATIME MTIME)) i
                      end)));;
        iputs [ip] 0
  end.

(** ** stat.c *)

(** The assignments to [statbuf]; [st_rdev] is only set for a device. *)
Definition fill_stat (num mode : Z) (i : inode) (st : stat) : stat :=
  Stat (u32 (i_dev i)) num mode (u16 (i_nlinks i)) (u16 (i_uid i)) (u16 (i_gid i))
    (if S_ISCHR (i_mode i) || S_ISBLK (i_mode i) then u32 (s16 (zone_at i 0)) else st_rdev st)
    (u32 (i_size i)) BLOCKSIZ (calc_block_nr (i_size i)) (u32 (i_atime i)) (u32 (i_mtime i)) (u32 (i_ctime i)).

Definition stat_of (r : option Z * Z) (st : stat) : M fs (Z * stat) :=
  match r with
  | (None, error) => mret (error, st)
  | (Some ip, _) =>
      i ← gets (λ s, ino_at s ip);
      iputs [ip] (0, fill_stat (i_num i) (i_mode i) i st)
  end.
Definition do_stat (pathname : list Z) (st : stat) : M fs (Z * stat) :=
  checkname pathname;;
  r ← namei pathname 0 false;
  stat_of r st.
Definition do_lstat (pathname : list Z) (st : stat) : M fs (Z * stat) :=
  checkname pathname;;
  r ← namei0 pathname 0 false;
  stat_of r st.
(** For a pipe [i_num] is the first half of [i_buddy], which shares its place. *)
Definition do_fstat (fd : Z) (st : stat) : M fs (Z * stat) :=
  fp ← fget fd;
  fp ← deref fp;
  f ← gets (λ s, filp_at s fp);
  ip ← deref (f_ino f);
  i ← gets (λ s, ino_at s ip);
  mret (0,
    if has (i_flags i) PIPE_I
    then fill_stat (u16 (i_buddy i)) (Z.lor I_FIFO 0x1ff) i st
    else fill_stat (i_num i) (i_mode i) i st).
End dirent.
