(* ===== verification/IoState.v ===== *)
(** * Buffers, requests and the disk controller (fs/buffer.c, driver/ide.c)

    The state the buffer cache and the IDE driver share: the buffer heads with
    the free list and the hash lists, the request table with its free list and
    the queue that starts at [cur_req], and the controller.  A pointer to a
    buffer or a request is its index.  One process runs; while it sleeps the
    disk goes on, and it runs again when it was woken. *)

From S2P Require Import Prelude Dlist Blocks.
From stdpp Require Import base numbers functions gmap list.

Local Open Scope Z_scope.

Definition NR_BUF_PAGES : Z := 4096.
Definition NR_BUF : Z := 4 * NR_BUF_PAGES.
Definition NR_HASH : Z := NR_BUF / 8.
Definition WRITE : Z := 0.
Definition READ : Z := 1.

Definition B_READ : Z := 1.
Definition B_BUSY : Z := 2.
Definition B_DIRTY : Z := 4.
Definition B_DONE : Z := 8.
Definition B_WANTED : Z := 16.
Definition B_ERROR : Z := 32.
Definition B_ASY : Z := 64.

Definition REQQ_SIZE : Z := 1024.

(** A [list_t *] of the cache: the free list, a hash list, or the [b_rel] or
    [b_rel_free] of a buffer; of the driver: the free list or a request. *)
Inductive bptr := BFree | BHash (h : Z) | BRel (k : Z) | BRelFree (k : Z).
Inductive rptr := RFree | RNode (r : Z).
#[export] Instance bptr_eq_dec : EqDecision bptr.
Proof. solve_decision. Defined.
#[export] Instance rptr_eq_dec : EqDecision rptr.
Proof. solve_decision. Defined.

(** A wait queue holds the running process or nobody. *)
Record buf_head := BufHead {
  b_dev : Z;
  b_blocknr : Z;
  b_flags : Z;
  b_count : Z;
  b_wait : bool;
  b_data : list Z;
}.
Definition set_b_dev (v : Z) (x : buf_head) : buf_head :=
  BufHead v (b_blocknr x) (b_flags x) (b_count x) (b_wait x) (b_data x).
Definition set_b_blocknr (v : Z) (x : buf_head) : buf_head :=
  BufHead (b_dev x) v (b_flags x) (b_count x) (b_wait x) (b_data x).
Definition set_b_flags (v : Z) (x : buf_head) : buf_head :=
  BufHead (b_dev x) (b_blocknr x) v (b_count x) (b_wait x) (b_data x).
Definition set_b_count (v : Z) (x : buf_head) : buf_head :=
  BufHead (b_dev x) (b_blocknr x) (b_flags x) v (b_wait x) (b_data x).
Definition set_b_wait (v : bool) (x : buf_head) : buf_head :=
  BufHead (b_dev x) (b_blocknr x) (b_flags x) (b_count x) v (b_data x).
Definition set_b_data (v : list Z) (x : buf_head) : buf_head :=
  BufHead (b_dev x) (b_blocknr x) (b_flags x) (b_count x) (b_wait x) v.

Record request := Request {
  r_sec : Z;
  r_nsec : Z;
  r_rw : Z;
  r_buf : Z;
}.
Definition set_r_sec (v : Z) (x : request) : request :=
  Request v (r_nsec x) (r_rw x) (r_buf x).
Definition set_r_nsec (v : Z) (x : request) : request :=
  Request (r_sec x) v (r_rw x) (r_buf x).
Definition set_r_rw (v : Z) (x : request) : request :=
  Request (r_sec x) (r_nsec x) v (r_buf x).
Definition set_r_buf (v : Z) (x : request) : request :=
  Request (r_sec x) (r_nsec x) (r_rw x) v.

(** A partition: in use, first sector, number of sectors. *)
Record dev_info := DevInfo {
  di_flag : bool;
  di_start : Z;
  di_num : Z;
}.

Section io.
Context {C : Type}.

Record io := Io {
  bufs : list buf_head;
  bnext : bptr → bptr;
  bprev : bptr → bptr;
  buf_wait : bool;
  reqq : list request;
  rnext : rptr → rptr;
  rprev : rptr → rptr;
  cur_req : option Z;
  req_wait : bool;
  errs : Z;
  need_reset : bool;
  dev_infos : list dev_info;
  dma_ide_flag : bool;
  prdbuff : list Z;
  first_intr : bool;
  ctl : C;
  woken : bool;
}.
Definition upd_bufs (f : list buf_head → list buf_head) (x : io) : io :=
  Io (f (bufs x)) (bnext x) (bprev x) (buf_wait x) (reqq x) (rnext x) (rprev x) (cur_req x) (req_wait x) (errs x) (need_reset x) (dev_infos x) (dma_ide_flag x) (prdbuff x) (first_intr x) (ctl x) (woken x).
Definition upd_bnext (f : (bptr → bptr) → (bptr → bptr)) (x : io) : io :=
  Io (bufs x) (f (bnext x)) (bprev x) (buf_wait x) (reqq x) (rnext x) (rprev x) (cur_req x) (req_wait x) (errs x) (need_reset x) (dev_infos x) (dma_ide_flag x) (prdbuff x) (first_intr x) (ctl x) (woken x).
Definition upd_bprev (f : (bptr → bptr) → (bptr → bptr)) (x : io) : io :=
  Io (bufs x) (bnext x) (f (bprev x)) (buf_wait x) (reqq x) (rnext x) (rprev x) (cur_req x) (req_wait x) (errs x) (need_reset x) (dev_infos x) (dma_ide_flag x) (prdbuff x) (first_intr x) (ctl x) (woken x).
Definition upd_buf_wait (f : bool → bool) (x : io) : io :=
  Io (bufs x) (bnext x) (bprev x) (f (buf_wait x)) (reqq x) (rnext x) (rprev x) (cur_req x) (req_wait x) (errs x) (need_reset x) (dev_infos x) (dma_ide_flag x) (prdbuff x) (first_intr x) (ctl x) (woken x).
Definition upd_reqq (f : list request → list request) (x : io) : io :=
  Io (bufs x) (bnext x) (bprev x) (buf_wait x) (f (reqq x)) (rnext x) (rprev x) (cur_req x) (req_wait x) (errs x) (need_reset x) (dev_infos x) (dma_ide_flag x) (prdbuff x) (first_intr x) (ctl x) (woken x).
Definition upd_rnext (f : (rptr → rptr) → (rptr → rptr)) (x : io) : io :=
  Io (bufs x) (bnext x) (bprev x) (buf_wait x) (reqq x) (f (rnext x)) (rprev x) (cur_req x) (req_wait x) (errs x) (need_reset x) (dev_infos x) (dma_ide_flag x) (prdbuff x) (first_intr x) (ctl x) (woken x).
Definition upd_rprev (f : (rptr → rptr) → (rptr → rptr)) (x : io) : io :=
  Io (bufs x) (bnext x) (bprev x) (buf_wait x) (reqq x) (rnext x) (f (rprev x)) (cur_req x) (req_wait x) (errs x) (need_reset x) (dev_infos x) (dma_ide_flag x) (prdbuff x) (first_intr x) (ctl x) (woken x).
Definition upd_cur_req (f : option Z → option Z) (x : io) : io :=
  Io (bufs x) (bnext x) (bprev x) (buf_wait x) (reqq x) (rnext x) (rprev x) (f (cur_req x)) (req_wait x) (errs x) (need_reset x) (dev_infos x) (dma_ide_flag x) (prdbuff x) (first_intr x) (ctl x) (woken x).
Definition upd_req_wait (f : bool → bool) (x : io) : io :=
  Io (bufs x) (bnext x) (bprev x) (buf_wait x) (reqq x) (rnext x) (rprev x) (cur_req x) (f (req_wait x)) (errs x) (need_reset x) (dev_infos x) (dma_ide_flag x) (prdbuff x) (first_intr x) (ctl x) (woken x).
Definition upd_errs (f : Z → Z) (x : io) : io :=
  Io (bufs x) (bnext x) (bprev x) (buf_wait x) (reqq x) (rnext x) (rprev x) (cur_req x) (req_wait x) (f (errs x)) (need_reset x) (dev_infos x) (dma_ide_flag x) (prdbuff x) (first_intr x) (ctl x) (woken x).
Definition upd_need_reset (f : bool → bool) (x : io) : io :=
  Io (bufs x) (bnext x) (bprev x) (buf_wait x) (reqq x) (rnext x) (rprev x) (cur_req x) (req_wait x) (errs x) (f (need_reset x)) (dev_infos x) (dma_ide_flag x) (prdbuff x) (first_intr x) (ctl x) (woken x).
Definition upd_prdbuff (f : list Z → list Z) (x : io) : io :=
  Io (bufs x) (bnext x) (bprev x) (buf_wait x) (reqq x) (rnext x) (rprev x) (cur_req x) (req_wait x) (errs x) (need_reset x) (dev_infos x) (dma_ide_flag x) (f (prdbuff x)) (first_intr x) (ctl x) (woken x).
Definition upd_first_intr (f : bool → bool) (x : io) : io :=
  Io (bufs x) (bnext x) (bprev x) (buf_wait x) (reqq x) (rnext x) (rprev x) (cur_req x) (req_wait x) (errs x) (need_reset x) (dev_infos x) (dma_ide_flag x) (prdbuff x) (f (first_intr x)) (ctl x) (woken x).
Definition upd_ctl (f : C → C) (x : io) : io :=
  Io (bufs x) (bnext x) (bprev x) (buf_wait x) (reqq x) (rnext x) (rprev x) (cur_req x) (req_wait x) (errs x) (need_reset x) (dev_infos x) (dma_ide_flag x) (prdbuff x) (first_intr x) (f (ctl x)) (woken x).
Definition upd_woken (f : bool → bool) (x : io) : io :=
  Io (bufs x) (bnext x) (bprev x) (buf_wait x) (reqq x) (rnext x) (rprev x) (cur_req x) (req_wait x) (errs x) (need_reset x) (dev_infos x) (dma_ide_flag x) (prdbuff x) (first_intr x) (ctl x) (f (woken x)).

Definition null_buf : buf_head := BufHead NODEV 0 0 0 false [].
Definition null_req : request := Request 0 0 0 0.
Definition buf_at (s : io) (k : Z) : buf_head := default null_buf (zget (bufs s) k).
Definition req_at (s : io) (r : Z) : request := default null_req (zget (reqq s) r).
Definition upd_buf (k : Z) (f : buf_head → buf_head) : io → io := upd_bufs (zalter f k).
Definition upd_req (r : Z) (f : request → request) : io → io := upd_reqq (zalter f r).
(** [bh->b_flags |= m] and [bh->b_flags &= ~m] *)
Definition set_flags (k m : Z) : io → io := upd_buf k (λ b, set_b_flags (Z.lor (b_flags b) m) b).
Definition clear_flags (k m : Z) : io → io := upd_buf k (λ b, set_b_flags (Z.land (b_flags b) (Z.lnot m)) b).

#[export] Instance buf_links : LinkStore io bptr := {
  nxt s p := bnext s p;
  prv s p := bprev s p;
  set_nxt p v := upd_bnext <[p := v]>;
  set_prv p v := upd_bprev <[p := v]>;
  linkable _ _ := True;
}.
#[export] Instance req_links : LinkStore io rptr := {
  nxt s p := rnext s p;
  prv s p := rprev s p;
  set_nxt p v := upd_rnext <[p := v]>;
  set_prv p v := upd_rprev <[p := v]>;
  linkable _ _ := True;
}.
#[export] Instance buf_links_laws : LinkLaws io bptr.
Proof.
  split; try done; intros s p v q _; simpl; (destruct (decide (q = p)) as [->|];
    [by rewrite fn_lookup_insert|by rewrite fn_lookup_insert_ne]).
Qed.
#[export] Instance req_links_laws : LinkLaws io rptr.
Proof.
  split; try done; intros s p v q _; simpl; (destruct (decide (q = p)) as [->|];
    [by rewrite fn_lookup_insert|by rewrite fn_lookup_insert_ne]).
Qed.

(** ** Wait queues: of a buffer, of the free list, of the requests *)
Inductive wq := WBuf (k : Z) | WFree | WReq.
#[export] Instance wq_eq_dec : EqDecision wq.
Proof. solve_decision. Defined.

Definition queued (q : wq) (s : io) : bool :=
  match q with
  | WBuf k => b_wait (buf_at s k)
  | WFree => buf_wait s
  | WReq => req_wait s
  end.
Definition set_queued (q : wq) (v : bool) : io → io :=
  match q with
  | WBuf k => upd_buf k (set_b_wait v)
  | WFree => upd_buf_wait (λ _, v)
  | WReq => upd_req_wait (λ _, v)
  end.

(** [wakeup]: the process runs again; it leaves the queue itself. *)
Definition wakeup (q : wq) (s : io) : io :=
  if queued q s then upd_woken (λ _, true) s else s.
End io.
Arguments io : clear implicits.

(** ** The disk controller

    [ct_cmd cmd sec nsec] issues a command, with whether it was accepted and
    whether the wait for the controller timed out, which sets [need_reset];
    [ct_in] and [ct_out] move a sector through the data port; [ct_irq] is the
    next interrupt, if one is due, with the memory at [ide_prdbuff] as it is
    then.  [platter] are the sectors of the disk, [job] the command under way
    with its next sector and the number of sectors left, [outbuf] the sector
    last sent for writing. *)
Class Controller (C : Type) := {
  ct_cmd : Z → Z → Z → C → C * bool * bool;
  ct_reset : C → C * bool;
  ct_in : C → C * list Z;
  ct_out : list Z → C → C;
  ct_irq : list Z → C → option (C * list Z);
  platter : C → Z → list Z;
  job : C → option (Z * Z * Z);
  outbuf : C → list Z;
}.

(** What the code relies on of the hardware. *)
Definition lba_ok (sec n : Z) : Prop := 0 <= sec ∧ sec + n <= 2 ^ 28.
Definition job_left (cmd sec n : Z) : option (Z * Z * Z) :=
  if n =? 1 then None else Some (cmd, sec + 1, n - 1).

Class ControllerLaws (C : Type) `{Controller C} := {
  sector_len c i : zlen (platter c i) = 512;
  (** A command given to an idle controller is accepted and leaves the sectors
      alone. *)
  cmd_ok cmd sec n c : job c = None → lba_ok sec n →
    ∃ c' t, ct_cmd cmd sec n c = (c', true, t) ∧ job c' = Some (cmd, sec, n) ∧
      ∀ i, platter c' i = platter c i;
  out_ok d c : job (ct_out d c) = job c ∧ outbuf (ct_out d c) = d ∧ ∀ i, platter (ct_out d c) i = platter c i;
  (** Reading through the port: an interrupt, then the data of a sector. *)
  irq_read p c sec n : job c = Some (0x20, sec, n) → 0 < n →
    ∃ c1 c2, ct_irq p c = Some (c1, p) ∧ ct_in c1 = (c2, platter c sec) ∧
      job c2 = job_left 0x20 sec n ∧ ∀ i, platter c2 i = platter c i;
  (** Writing through the port: the sector sent is on the disk when the
      interrupt comes. *)
  irq_write p c sec n : job c = Some (0x30, sec, n) → 0 < n → zlen (outbuf c) = 512 →
    ∃ c1, ct_irq p c = Some (c1, p) ∧ job c1 = job_left 0x30 sec n ∧
      ∀ i, platter c1 i = if decide (i = sec) then outbuf c else platter c i;
  (** By DMA both sectors are moved when the interrupt comes. *)
  irq_dma_read p c sec : job c = Some (0xc8, sec, 2) → zlen p = 1024 →
    ∃ c1, ct_irq p c = Some (c1, platter c sec ++ platter c (sec + 1)) ∧ job c1 = None ∧
      ∀ i, platter c1 i = platter c i;
  irq_dma_write p c sec : job c = Some (0xca, sec, 2) → zlen p = 1024 →
    ∃ c1, ct_irq p c = Some (c1, p) ∧ job c1 = None ∧
      ∀ i, platter c1 i = if decide (i = sec) then slice 0 512 p
        else if decide (i = sec + 1) then slice 512 512 p else platter c i;
}.

(** ** A disk without faults *)
Record disk := Disk {
  d_sectors : gmap Z (list Z);
  d_job : option (Z * Z * Z);
  d_out : list Z;
}.
Definition sector (l : list Z) : list Z := take 512 (l ++ replicate 512 0).
Definition d_read (c : disk) (i : Z) : list Z := sector (default [] (d_sectors c !! i)).
Definition d_write (i : Z) (l : list Z) (c : disk) : disk :=
  Disk (<[i := l]> (d_sectors c)) (d_job c) (d_out c).
Definition d_step (c : disk) : disk :=
  Disk (d_sectors c) (match d_job c with Some (cmd, sec, n) => job_left cmd sec n | None => None end) (d_out c).

#[export] Instance plain_controller : Controller disk := {
  ct_cmd cmd sec n c := (Disk (d_sectors c) (Some (cmd, sec, n)) (d_out c), true, false);
  ct_reset c := (c, true);
  ct_in c := (d_step c, match d_job c with Some (_, sec, _) => d_read c sec | None => [] end);
  ct_out d c := Disk (d_sectors c) (d_job c) d;
  ct_irq p c :=
    match d_job c with
    | None => None
    | Some (cmd, sec, _) =>
        if cmd =? 0x20 then Some (c, p)
        else if cmd =? 0x30 then Some (d_step (d_write sec (d_out c) c), p)
        else if cmd =? 0xc8 then
          Some (Disk (d_sectors c) None (d_out c), d_read c sec ++ d_read c (sec + 1))
        else
          Some (d_write (sec + 1) (slice 512 512 p) (d_write sec (slice 0 512 p) (Disk (d_sectors c) None (d_out c))), p)
    end;
  platter := d_read;
  job := d_job;
  outbuf := d_out;
}.

Lemma sector_id l : zlen l = 512 → sector l = l.
Proof. intros Hl. unfold zlen in Hl. unfold sector. rewrite take_app_le by lia. apply take_ge. lia. Qed.
Lemma d_read_write i j l c : zlen l = 512 →
  d_read (d_write i l c) j = if decide (j = i) then l else d_read c j.
Proof.
  intros Hl. unfold d_read, d_write. simpl. case_decide; subst.
  - rewrite lookup_insert_eq. simpl. by apply sector_id.
  - by rewrite lookup_insert_ne by done.
Qed.

Lemma d_step_job c cmd sec n : d_job c = Some (cmd, sec, n) → d_job (d_step c) = job_left cmd sec n.
Proof. unfold d_step. simpl. by intros ->. Qed.

#[export] Instance plain_controller_laws : ControllerLaws disk.
Proof.
  split; simpl.
  - intros c i. unfold d_read, sector, zlen. rewrite length_take, length_app, length_replicate. lia.
  - intros. by eexists _, _.
  - done.
  - intros p c sec n Hj _. rewrite Hj. simpl. exists c, (d_step c). rewrite Hj. split; [done|]. split; [done|].
    split; [by apply d_step_job|done].
  - intros p c sec n Hj _ Ho. rewrite Hj. simpl. eexists. split; [done|].
    split; [by apply d_step_job|]. intros i. by apply (d_read_write sec i _ c).
  - intros p c sec -> _. simpl. by eexists.
  - intros p c sec -> Hp. simpl. eexists. split; [done|]. split; [done|]. intros i.
    rewrite !d_read_write by (apply zlen_slice; lia). repeat case_decide; subst; done || lia.
Qed.
