(* ===== verification/Ide.v ===== *)
(** * The IDE driver (driver/ide.c)

    A request asks for one block, two sectors.  [ide_rw_block] puts it into the
    queue behind the request under way, sorted by sectors, or starts it;
    [ide_bottom], the bottom half of the disk's interrupt, moves the data, ends
    the request after its second sector and starts the next one.  Port accesses
    are the controller's ([Controller]): the command functions [ide_cmd] and
    [dma_ide_cmd] are [ct_cmd], [ide_reset] is [ct_reset].  [iodone] belongs to
    the buffer cache and is an argument here. *)

From S2P Require Import Prelude Dlist Blocks IoState.
From stdpp Require Import base numbers functions list.

Local Open Scope Z_scope.

Definition MAX_ERRS : Z := 3.
Definition READ_CMD : Z := 0x20.
Definition WRITE_CMD : Z := 0x30.
Definition DMA_READ_CMD : Z := 0xc8.
Definition DMA_WRITE_CMD : Z := 0xca.
Definition SECTOR : Z := 512.

Section ide.
Context {C : Type} `{Controller C}.

(** [ide_cmd_func(0, cmd, sec, nsec)] *)
Definition ide_cmd_func (cmd sec nsec : Z) : M (io C) bool := λ s,
  let '(c, ok, timeout) := ct_cmd cmd sec nsec (ctl s) in
  Ret ok (upd_need_reset (λ r, r || timeout) (upd_ctl (λ _, c) s)).
Definition ide_reset : M (io C) bool := λ s,
  let '(c, ok) := ct_reset (ctl s) in
  Ret ok ((if (ok : bool) then upd_need_reset (λ _, false) else id) (upd_ctl (λ _, c) s)).

(** [while(errs < MAX_ERRS)] *)
Fixpoint retry (fuel : nat) (cmd sec nsec : Z) : M (io C) unit :=
  e ← gets errs;
  if e <? MAX_ERRS then
    match fuel with
    | O => die
    | S fuel =>
        n ← gets need_reset;
        when n (ok ← ide_reset; die_if (negb ok));;
        ok ← ide_cmd_func cmd sec nsec;
        if (ok : bool) then mret tt
        else modify (upd_errs Z.succ);; retry fuel cmd sec nsec
    end
  else mret tt.

(** The command of the current request, tried again when it fails. *)
Definition issue (cmd r : Z) : M (io C) bool :=
  q ← gets (λ s, req_at s r);
  ok ← ide_cmd_func cmd (r_sec q) (r_nsec q);
  if (ok : bool) then mret true
  else
    modify (upd_errs Z.succ);;
    retry 3 cmd (r_sec q) (r_nsec q);;
    e ← gets errs;
    if e =? MAX_ERRS then
      modify (set_flags (r_buf q) B_ERROR);;
      mret false
    else
      modify (upd_errs (λ _, 0));;
      mret true.

Definition finish_cmd : M (io C) bool :=
  cur ← gets cur_req;
  r ← from_opt cur;
  q ← gets (λ s, req_at s r);
  dma ← gets dma_ide_flag;
  if r_rw q =? READ then issue (if (dma : bool) then DMA_READ_CMD else READ_CMD) r
  else if r_rw q =? WRITE then
    data ← gets (λ s, b_data (buf_at s (r_buf q)));
    when dma (modify (upd_prdbuff (λ p, memcpy p 0 (slice 0 1024 data))));;
    ok ← issue (if (dma : bool) then DMA_WRITE_CMD else WRITE_CMD) r;
    if (ok : bool) then
      when (negb dma) (modify (upd_ctl (ct_out (slice 0 SECTOR data))));;
      mret true
    else mret false
  else die.

(** Whether a request is left. *)
Definition free_cur_req : M (io C) bool :=
  e ← gets (list_empty RFree);
  when e (modify (wakeup WReq));;
  cur ← gets cur_req;
  tmp ← from_opt cur;
  e ← gets (list_empty (RNode tmp));
  if (e : bool) then
    modify (upd_cur_req (λ _, None));;
    modify (list_add_head RFree (RNode tmp));;
    mret false
  else
    n ← gets (λ s, nxt s (RNode tmp));
    match n with
    | RFree => die
    | RNode n =>
        modify (upd_cur_req (λ _, Some n));;
        modify (list_del1 (RNode tmp));;
        modify (list_add_head RFree (RNode tmp));;
        mret true
    end.

Section driver.
Context (iodone : Z → M (io C) unit).

Definition transfer (r : Z) : M (io C) unit :=
  q ← gets (λ s, req_at s r);
  dma ← gets dma_ide_flag;
  if (dma : bool) then
    when (r_rw q =? READ)
      (modify (λ s, upd_buf (r_buf q) (λ b, set_b_data (memcpy (b_data b) 0 (slice 0 1024 (prdbuff s))) b) s));;
    modify (upd_req r (set_r_nsec 0))
  else
    (if r_rw q =? READ then
       let offset := if r_nsec q <? 2 then SECTOR else 0 in
       '(c, data) ← gets (λ s, ct_in (ctl s));
       modify (upd_ctl (λ _, c));;
       modify (upd_buf (r_buf q) (λ b, set_b_data (memcpy (b_data b) offset data) b))
     else
       when (1 <? r_nsec q)
         (modify (λ s, upd_ctl (ct_out (slice SECTOR SECTOR (b_data (buf_at s (r_buf q))))) s)));;
    modify (upd_req r (λ q, set_r_nsec (r_nsec q - 1) q)).

Definition ide_bottom : M (io C) unit :=
  cur ← gets cur_req;
  match cur with
  | None =>
      f ← gets first_intr;
      if (f : bool) then die else modify (upd_first_intr (λ _, true))
  | Some r =>
      transfer r;;
      q ← gets (λ s, req_at s r);
      if r_nsec q =? 0 then
        iodone (r_buf q);;
        left ← free_cur_req;
        if (left : bool) then finish_cmd ≫= λ _, mret tt else mret tt
      else mret tt
  end.

(** ** Sleeping

    The next interrupt of the disk, if one is due, with its bottom half. *)
Definition ide_intr : M (io C) bool := λ s,
  match ct_irq (prdbuff s) (ctl s) with
  | None => Ret false s
  | Some (c, p) => (ide_bottom;; mret true) (upd_prdbuff (λ _, p) (upd_ctl (λ _, c) s))
  end.

Fixpoint wait_loop (fuel : nat) : M (io C) unit :=
  w ← gets woken;
  if (w : bool) then mret tt
  else
    match fuel with
    | O => die
    | S fuel =>
        more ← ide_intr;
        if (more : bool) then wait_loop fuel else sleepon
    end.
(** Every request takes at most two interrupts. *)
Definition io_sleepon (q : wq) : M (io C) unit :=
  modify (set_queued q true);;
  modify (upd_woken (λ _, false));;
  n ← gets (λ s, length (reqq s));
  wait_loop (2 * n + 1);;
  modify (set_queued q false).

(** ** Requests *)

(** [try_again] *)
Fixpoint get_req_loop (fuel : nat) : M (io C) Z :=
  e ← gets (list_empty RFree);
  if (e : bool) then
    match fuel with
    | O => die
    | S fuel => io_sleepon WReq;; get_req_loop fuel
    end
  else
    n ← gets (λ s, nxt s RFree);
    match n with
    | RFree => die
    | RNode r =>
        modify (list_del1 (RNode r));;
        mret r
    end.
Definition get_req : M (io C) Z := get_req_loop 1.

(** [foreach(tmp, pos, &cur_req->list)]: the request to insert after. *)
Fixpoint find_prev (fuel : nat) (cur tmp sec : Z) (s : io C) : option Z :=
  match fuel with
  | O => None
  | S fuel =>
      match nxt s (RNode tmp) with
      | RFree => None
      | RNode next =>
          if (r_sec (req_at s tmp) <? sec) && (sec <=? r_sec (req_at s next)) then Some tmp
          else if next =? cur then Some tmp
          else find_prev fuel cur next sec s
      end
  end.

(** The request goes into the queue, or is started when there is none. *)
Definition queue_req (r sec : Z) : M (io C) bool :=
  cur ← gets cur_req;
  match cur with
  | Some c =>
      e ← gets (list_empty (RNode c));
      if (e : bool) then
        modify (list_add_head (RNode c) (RNode r));;
        mret true
      else
        n ← gets (λ s, length (reqq s));
        prev ← gets (find_prev n c c sec);
        prev ← from_opt prev;
        modify (list_add_head (RNode prev) (RNode r));;
        mret true
  | None =>
      modify (upd_cur_req (λ _, Some r));;
      modify (list_head_init (RNode r));;
      finish_cmd
  end.

Definition ide_rw_block (rw_mode k : Z) : M (io C) bool :=
  b ← gets (λ s, buf_at s k);
  let dev := MINOR (b_dev b) in
  infos ← gets dev_infos;
  di ← from_opt (if (dev <? 0) || (4 <? dev) then None else zget infos dev);
  die_if (negb (di_flag di));;
  die_if (u32 (di_num di / 2 - 1) <? u32 (b_blocknr b));;
  r ← get_req;
  let sec := s32 (di_start di + b_blocknr b * 2) in
  modify (upd_req r (λ _, Request sec 2 rw_mode k));;
  queue_req r sec.

End driver.

Definition ide_open (dev : Z) (s : io C) : Z :=
  match (if (MINOR dev <? 0) || (4 <? MINOR dev) then None else zget (dev_infos s) (MINOR dev)) with
  | Some di => if di_flag di then 0 else -1
  | None => -1
  end.
Definition ide_size (dev : Z) : M (io C) Z :=
  infos ← gets dev_infos;
  di ← from_opt (if (MINOR dev <? 0) || (4 <? MINOR dev) then None else zget infos (MINOR dev));
  die_if (negb (di_flag di));;
  mret (u32 (di_num di * 512)).

(** The requests of [ide_init]: all but the last. *)
Definition req_init (s : io C) : io C :=
  foldl (λ s i, list_add_head RFree (RNode i) s) (list_head_init RFree s) (seqZ 0 (REQQ_SIZE - 1)).
End ide.
