(* ===== verification/Buffer.v ===== *)
(** * The buffer cache (fs/buffer.c)

    [getblk] finds a block's buffer in the hash lists or takes the least
    recently used buffer off the free list, writing it first when it is dirty;
    [bread] fills it; [brelse] puts it at the end of the free list; [bwrite]
    and [bsync] write; [inval_block] and [inval_dev] forget blocks.  Masking
    the disk's bottom half has no effect in a model in which interrupts come
    while the process sleeps. *)

From S2P Require Import Prelude Pages Dlist Blocks IoState Ide.
From stdpp Require Import base numbers functions list.

Local Open Scope Z_scope.

Section buffer.
Context {C : Type} `{Controller C}.

(** [&hash_table[((block) ^ (dev)) % NR_HASH]] *)
Definition hashfn (dev block : Z) : bptr := BHash (Z.rem (Z.lxor block dev) NR_HASH).

Definition b_has (k m : Z) (s : io C) : bool := has (b_flags (buf_at s k)) m.

Definition brelse (k : Z) : M (io C) unit :=
  busy ← gets (b_has k B_BUSY);
  when busy
    (wanted ← gets (b_has k B_WANTED);
     when wanted (modify (wakeup (WBuf k)));;
     w ← gets buf_wait;
     when w (modify (wakeup WFree));;
     modify (clear_flags k (Z.lor B_WANTED (Z.lor B_BUSY B_ASY)));;
     modify (list_add_tail BFree (BRelFree k))).

Definition iodone (k : Z) : M (io C) unit :=
  modify (set_flags k B_DONE);;
  asy ← gets (b_has k B_ASY);
  if (asy : bool) then brelse k
  else
    rd ← gets (b_has k B_READ);
    when rd
      (modify (clear_flags k B_READ);;
       modify (wakeup (WBuf k))).

Definition ll_rw_block : Z → Z → M (io C) bool := ide_rw_block iodone.
Definition sleep_on : wq → M (io C) unit := io_sleepon iodone.

(** The entries of a hash list from [tmp] on. *)
Fixpoint hash_loop (fuel : nat) (hash tmp : bptr) (dev blocknr : Z) (s : io C) : option (option Z) :=
  match fuel with
  | O => None
  | S fuel =>
      if decide (tmp = hash) then Some None
      else
        match tmp with
        | BRel k =>
            if (b_dev (buf_at s k) =? dev) && (b_blocknr (buf_at s k) =? blocknr) then Some (Some k)
            else hash_loop fuel hash (nxt s tmp) dev blocknr s
        | _ => None
        end
  end.
Definition getblk_from_hash (dev blocknr : Z) : M (io C) (option Z) :=
  r ← gets (λ s, let hash := hashfn dev blocknr in
    hash_loop (S (length (bufs s))) hash (nxt s hash) dev blocknr s);
  from_opt r.

Definition putblk_to_hash (k : Z) : M (io C) unit :=
  b ← gets (λ s, buf_at s k);
  modify (list_add_head (hashfn (b_dev b) (b_blocknr b)) (BRel k)).

Definition notavail (k : Z) (flag : bool) : M (io C) unit :=
  modify (set_flags k B_BUSY);;
  b ← gets (λ s, buf_at s k);
  when (flag && negb (b_dev b =? NODEV)) (modify (list_del1 (BRel k)));;
  modify (list_del1 (BRelFree k)).

(** [while(!(bh->b_flags & B_DONE)) sleepon(&bh->b_wait)] *)
Fixpoint iowait_loop (fuel : nat) (k : Z) : M (io C) unit :=
  done ← gets (b_has k B_DONE);
  if (done : bool) then mret tt
  else
    match fuel with
    | O => die
    | S fuel => sleep_on (WBuf k);; iowait_loop fuel k
    end.
Definition iowait (k : Z) : M (io C) unit := iowait_loop 1 k.

Definition bwrite (k : Z) : M (io C) unit :=
  asy ← gets (b_has k B_ASY);
  modify (clear_flags k (Z.lor B_READ (Z.lor B_ERROR B_DIRTY)));;
  ll_rw_block WRITE k;;
  when (negb asy) (iowait k;; brelse k).

(** A process that wants a busy buffer. *)
Definition want (k : Z) : M (io C) unit :=
  modify (set_flags k B_WANTED);;
  modify (upd_buf k (λ b, set_b_count (b_count b + 1) b));;
  sleep_on (WBuf k);;
  modify (upd_buf k (λ b, set_b_count (b_count b - 1) b)).

(** [loop] *)
Fixpoint getblk_loop (fuel : nat) (dev block : Z) : M (io C) Z :=
  match fuel with
  | O => die
  | S fuel =>
      f ← getblk_from_hash dev block;
      match f with
      | Some k =>
          busy ← gets (b_has k B_BUSY);
          if (busy : bool) then want k;; getblk_loop fuel dev block
          else notavail k false;; mret k
      | None =>
          e ← gets (list_empty BFree);
          if (e : bool) then sleep_on WFree;; getblk_loop fuel dev block
          else
            n ← gets (λ s, nxt s BFree);
            match n with
            | BRelFree k =>
                notavail k true;;
                b ← gets (λ s, buf_at s k);
                if has (b_flags b) B_DIRTY then
                  die_if (b_dev b =? NODEV);;
                  modify (set_flags k B_ASY);;
                  modify (clear_flags k B_DIRTY);;
                  notavail k false;;
                  bwrite k;;
                  getblk_loop fuel dev block
                else
                  modify (upd_buf k (λ b,
                    set_b_flags (Z.lor B_BUSY B_READ) (set_b_blocknr block (set_b_dev dev b))));;
                  putblk_to_hash k;;
                  mret k
            | _ => die
            end
      end
  end.
(** Each buffer is written at most once; then one is clean. *)
Definition getblk (dev block : Z) : M (io C) Z :=
  n ← gets (λ s, length (bufs s));
  getblk_loop (n + 2) dev block.

Definition bread (dev block : Z) : M (io C) (option Z) :=
  k ← getblk dev block;
  done ← gets (b_has k B_DONE);
  if (done : bool) then mret (Some k)
  else
    ok ← ll_rw_block READ k;
    when ok (iowait k);;
    err ← gets (b_has k B_ERROR);
    if (err : bool) then
      brelse k;;
      mret None
    else mret (Some k).

(** ** Synchronisation and invalidation *)

(** The label [loop] of [bsync] for one buffer; whether it was written. *)
Fixpoint bsync_one (fuel : nat) (k : Z) : M (io C) bool :=
  dirty ← gets (b_has k B_DIRTY);
  if (dirty : bool) then
    busy ← gets (b_has k B_BUSY);
    if (busy : bool) then
      match fuel with
      | O => die
      | S fuel => want k;; bsync_one fuel k
      end
    else
      notavail k false;;
      bwrite k;;
      mret true
  else mret false.
Fixpoint bsync_list (fuel : nat) (hash tmp pos : bptr) (again : bool) : M (io C) bool :=
  match fuel with
  | O => die
  | S fuel =>
      if decide (tmp = hash) then mret again
      else
        match tmp with
        | BRel k =>
            w ← bsync_one 1 k;
            next ← gets (λ s, nxt s pos);
            bsync_list fuel hash pos next (again || w)
        | _ => die
        end
  end.
Fixpoint bsync_pass (n : nat) (i : Z) (again : bool) : M (io C) bool :=
  match n with
  | O => mret again
  | S n =>
      let hash := BHash i in
      tmp ← gets (λ s, nxt s hash);
      pos ← gets (λ s, nxt s tmp);
      len ← gets (λ s, length (bufs s));
      a ← bsync_list (S len) hash tmp pos false;
      bsync_pass n (i + 1) (again || a)
  end.
(** [check_again] *)
Fixpoint bsync_loop (fuel : nat) : M (io C) unit :=
  match fuel with
  | O => die
  | S fuel =>
      again ← bsync_pass (Z.to_nat NR_HASH) 0 false;
      if (again : bool) then bsync_loop fuel else mret tt
  end.
Definition bsync : M (io C) unit := bsync_loop 2.

(** [list_entry(tmp, b_rel, struct buf_head)] of a [b_rel_free] is eight bytes
    into the buffer head: its [b_dev] is the word with [b_flags], its
    [b_blocknr] is [b_count], its [b_flags] is the low half of [b_wait] (null
    stays null), and its [b_rel] is [b_rel_free]. *)
Definition inval_entry (dev : Z) (p : bptr) (s : io C) : io C :=
  match p with
  | BRelFree k =>
      if u16 (b_flags (buf_at s k)) =? dev then
        list_del1 (BRelFree k)
          (upd_buf k (λ b, set_b_count 0 (set_b_flags NODEV b)) s)
      else s
  | _ => s
  end.
Definition inval_dev (dev : Z) : M (io C) unit := λ s,
  match list_foreach (S (length (bufs s))) BFree (inval_entry dev) s with
  | Some s' => Ret tt s'
  | None => Die
  end.

Fixpoint inval_loop (fuel : nat) (dev block : Z) : M (io C) unit :=
  match fuel with
  | O => die
  | S fuel =>
      f ← getblk_from_hash dev block;
      match f with
      | None => mret tt
      | Some k =>
          b ← gets (λ s, buf_at s k);
          if has (b_flags b) B_BUSY || (0 <? b_count b) then
            want k;; inval_loop fuel dev block
          else
            modify (upd_buf k (λ b, set_b_flags 0 (set_b_blocknr 0 (set_b_dev NODEV b))));;
            die_if (b_wait b);;
            modify (list_del1 (BRel k));;
            e ← gets (list_empty (BRelFree k));
            when e (modify (list_add_head BFree (BRelFree k)))
      end
  end.
Definition inval_block (dev block : Z) : M (io C) unit := inval_loop 2 dev block.
End buffer.

(** ** Initialisation, four buffers to a page *)
Section init.
Context {C PS : Type} `{PageAlloc PS}.

(** A page has what it had: the data of a buffer is not cleared. *)
Definition buf_blank (i : Z) (s : io C) : io C :=
  list_add_head BFree (BRelFree i)
    (list_head_init (BRel i) (upd_buf i (λ b, BufHead NODEV 0 0 0 false (b_data b)) s)).
Fixpoint buf_init_loop (n : nat) (i addr : Z) : M (io C * PS) unit :=
  match n with
  | O => mret tt
  | S n =>
      addr ← (if i mod 4 =? 0 then λ '(s, p),
                match get_pages 0 0 p with
                | Ret a p => Ret a (s, p)
                | Die => Die
                | Sleep p => Sleep (s, p)
                end
              else mret addr);
      die_if (addr =? 0);;
      modify (λ '(s, p), (buf_blank i s, p));;
      buf_init_loop n (i + 1) addr
  end.
Definition hash_init (s : io C) : io C :=
  foldl (λ s i, list_head_init (BHash i) s) s (seqZ 0 NR_HASH).
Definition buf_init : M (io C * PS) unit :=
  modify (λ '(s, p), (list_head_init BFree (upd_buf_wait (λ _, false) s), p));;
  buf_init_loop (Z.to_nat NR_BUF) 0 0;;
  modify (λ '(s, p), (hash_init s, p)).
End init.
