(* ===== verification/Bufcache.v ===== *)
(** * What the buffer cache promises (fs/buffer.c with driver/ide.c)

    The contents of a block are those of its buffer when that is dirty or
    being written, and those of the disk otherwise ([contents]).  The
    invariant [cinv] ties the free list, the hash lists, the request queue and
    the controller together. *)

From S2P Require Import Prelude Dlist Blocks IoState Ide Buffer.
From stdpp Require Import base numbers functions gmap list.

Local Open Scope Z_scope.

(** ** Flags *)

Lemma clear_READ f m : has (Z.land f (Z.lnot m)) B_READ = has f B_READ && negb (has m B_READ).
Proof. by apply (has_clear f m 0). Qed.
Lemma clear_BUSY f m : has (Z.land f (Z.lnot m)) B_BUSY = has f B_BUSY && negb (has m B_BUSY).
Proof. by apply (has_clear f m 1). Qed.
Lemma clear_DIRTY f m : has (Z.land f (Z.lnot m)) B_DIRTY = has f B_DIRTY && negb (has m B_DIRTY).
Proof. by apply (has_clear f m 2). Qed.
Lemma clear_DONE f m : has (Z.land f (Z.lnot m)) B_DONE = has f B_DONE && negb (has m B_DONE).
Proof. by apply (has_clear f m 3). Qed.
Lemma clear_WANTED f m : has (Z.land f (Z.lnot m)) B_WANTED = has f B_WANTED && negb (has m B_WANTED).
Proof. by apply (has_clear f m 4). Qed.
Lemma clear_ERROR f m : has (Z.land f (Z.lnot m)) B_ERROR = has f B_ERROR && negb (has m B_ERROR).
Proof. by apply (has_clear f m 5). Qed.
Lemma clear_ASY f m : has (Z.land f (Z.lnot m)) B_ASY = has f B_ASY && negb (has m B_ASY).
Proof. by apply (has_clear f m 6). Qed.
#[export] Hint Rewrite has_lor clear_READ clear_BUSY clear_DIRTY clear_DONE clear_WANTED clear_ERROR clear_ASY : flags.
#[export] Hint Rewrite orb_true_r orb_false_r andb_true_r andb_false_r : flagb.

(** [flags] evaluates the tests of known flags. *)
Ltac flag_const :=
  match goal with
  | |- context [has ?a ?b] =>
      let v := eval vm_compute in (has a b) in
      match v with true => change (has a b) with true | false => change (has a b) with false end
  end.
Ltac flags := autorewrite with flags; repeat flag_const; cbn [negb andb orb]; autorewrite with flagb.

(** ** Buffers and contents *)
Section cache.
Context {C : Type} `{!Controller C} `{!ControllerLaws C}.
Implicit Types (s : io C).

Lemma buf_at_upd k f s j : 0 <= k < zlen (bufs s) →
  buf_at (upd_buf k f s) j = if decide (j = k) then f (buf_at s k) else buf_at s j.
Proof.
  intros Hk. unfold buf_at, upd_buf. simpl. rewrite zget_zalter. case_decide; [|done].
  subst. apply zget_is_Some in Hk as [x ->]. done.
Qed.
Lemma req_at_upd r f s j : 0 <= r < zlen (reqq s) →
  req_at (upd_req r f s) j = if decide (j = r) then f (req_at s r) else req_at s j.
Proof.
  intros Hk. unfold req_at, upd_req. simpl. rewrite zget_zalter. case_decide; [|done].
  subst. apply zget_is_Some in Hk as [x ->]. done.
Qed.

Definition inr (s : io C) (k : Z) : Prop := 0 <= k < zlen (bufs s).
Definition at_blk (s : io C) (k d b : Z) : Prop := b_dev (buf_at s k) = d ∧ b_blocknr (buf_at s k) = b.
(** Dirty or being written. *)
Definition pend (b : buf_head) : bool := has (b_flags b) B_DIRTY || has (b_flags b) B_ASY.

Definition part (s : io C) (d : Z) : option dev_info :=
  if (MINOR d <? 0) || (4 <? MINOR d) then None else zget (dev_infos s) (MINOR d).
Definition sec_of (s : io C) (d b : Z) : Z := di_start (default (DevInfo false 0 0) (part s d)) + b * 2.
Definition disk_block (s : io C) (d b : Z) : list Z :=
  platter (ctl s) (sec_of s d b) ++ platter (ctl s) (sec_of s d b + 1).
Definition contents (s : io C) (d b : Z) : list Z :=
  match List.find (λ x, pend x && (b_dev x =? d) && (b_blocknr x =? b)) (bufs s) with
  | Some x => b_data x
  | None => disk_block s d b
  end.

(** No two buffers hold changes of one block. *)
Definition pend_uniq (s : io C) : Prop := ∀ k j d b, inr s k → inr s j →
  pend (buf_at s k) = true → pend (buf_at s j) = true → at_blk s k d b → at_blk s j d b → k = j.

Lemma inr_elem s x : x ∈ bufs s ↔ ∃ k, inr s k ∧ buf_at s k = x.
Proof.
  split.
  - intros [i Hi]%list_elem_of_lookup. exists (Z.of_nat i). unfold inr, zlen, buf_at, zget.
    apply lookup_lt_Some in Hi as Hl. rewrite (proj2 (Z.leb_le 0 _)), Nat2Z.id, Hi by lia. split; [lia|done].
  - intros (k & Hk & <-). unfold buf_at. apply zget_is_Some in Hk as [x Hx]. rewrite Hx. simpl. unfold zget in Hx.
    destruct (0 <=? k); [|done]. by apply list_elem_of_lookup_2 in Hx.
Qed.

Lemma contents_pend s k d b : pend_uniq s → inr s k → pend (buf_at s k) = true → at_blk s k d b →
  contents s d b = b_data (buf_at s k).
Proof.
  intros Hu Hk Hp Ha. unfold contents. destruct (List.find _ _) as [x|] eqn:E.
  - apply find_some in E as [Hx Hc]. rewrite !andb_true_iff, !Z.eqb_eq in Hc. destruct Hc as [[Hpx Hd] Hb].
    apply list_elem_of_In, inr_elem in Hx as (j & Hj & <-). f_equal. f_equal. by apply (Hu j k d b).
  - apply (find_none _ _) with (x := buf_at s k) in E.
    + destruct Ha as [Hd Hb]. by rewrite Hp, Hd, Hb, !Z.eqb_refl in E.
    + apply list_elem_of_In, inr_elem. eauto.
Qed.
Lemma contents_disk s d b : (∀ k, inr s k → pend (buf_at s k) = true → ¬ at_blk s k d b) →
  contents s d b = disk_block s d b.
Proof.
  intros Hn. unfold contents. destruct (List.find _ _) as [x|] eqn:E; [|done].
  apply find_some in E as [Hx Hc]. rewrite !andb_true_iff, !Z.eqb_eq in Hc. destruct Hc as [[Hpx Hd] Hb].
  apply list_elem_of_In, inr_elem in Hx as (j & Hj & <-). by destruct (Hn j).
Qed.
(** Which buffer decides. *)
Lemma contents_cases s d b : pend_uniq s →
  (∃ k, inr s k ∧ pend (buf_at s k) = true ∧ at_blk s k d b ∧ contents s d b = b_data (buf_at s k)) ∨
  (∀ k, inr s k → pend (buf_at s k) = true → ¬ at_blk s k d b) ∧ contents s d b = disk_block s d b.
Proof.
  intros Hu. destruct (List.find (λ x, pend x && (b_dev x =? d) && (b_blocknr x =? b)) (bufs s)) as [x|] eqn:E.
  - left. apply find_some in E as [Hx Hc]. rewrite !andb_true_iff, !Z.eqb_eq in Hc. destruct Hc as [[Hpx Hd] Hb].
    apply list_elem_of_In, inr_elem in Hx as (j & Hj & <-). exists j. do 3 (split; [done|]). by apply contents_pend.
  - right. assert (∀ k, inr s k → pend (buf_at s k) = true → ¬ at_blk s k d b) as Hn.
    { intros k Hk Hp [Hd Hb]. apply (find_none _ _) with (x := buf_at s k) in E.
      - by rewrite Hp, Hd, Hb, !Z.eqb_refl in E.
      - apply list_elem_of_In, inr_elem. eauto. }
    split; [done|]. by apply contents_disk.
Qed.

(** ** The invariant *)
Context (vol : Z → Prop).

(** A block of a volume the cache is used for, inside its partition. *)
Definition blk_ok (s : io C) (d b : Z) : Prop :=
  vol d ∧ 0 <= d ∧ d ≠ NODEV ∧ 0 <= b ∧
  ∃ di, part s d = Some di ∧ di_flag di = true ∧ b * 2 + 2 <= di_num di ∧ lba_ok (di_start di) (di_num di).
(** The volumes do not overlap. *)
Definition vols_ok (s : io C) : Prop := ∀ d b d' b', blk_ok s d b → blk_ok s d' b' → d ≠ d' ∨ b ≠ b' →
  sec_of s d b + 2 <= sec_of s d' b' ∨ sec_of s d' b' + 2 <= sec_of s d b.

Definition hidx (d b : Z) : Z := Z.rem (Z.lxor b d) NR_HASH.
Definition hashed (s : io C) (hl : Z → list Z) (k : Z) : Prop :=
  k ∈ hl (hidx (b_dev (buf_at s k)) (b_blocknr (buf_at s k))).
Definition live (s : io C) (hl : Z → list Z) (k : Z) : Prop := hashed s hl k ∨ b_has k B_ASY s = true.

(** The free list and the hash lists. *)
Definition bdom (p : bptr) : Prop := match p with BFree => True | BHash h => 0 <= h < NR_HASH | _ => False end.
Definition blists (fl : list Z) (hl : Z → list Z) (p : bptr) : list bptr :=
  match p with BFree => BRelFree <$> fl | BHash h => BRel <$> hl h | _ => [] end.

(** A node on no list, as [list_del1] and [list_head_init] leave it. *)
Definition alone (s : io C) (p : bptr) : Prop := nxt s p = p ∧ prv s p = p.

Record buf_ok (s : io C) (fl : list Z) (hl : Z → list Z) (k : Z) : Prop := {
  bo_len : zlen (b_data (buf_at s k)) = 1024;
  bo_free : k ∈ fl ↔ b_has k B_BUSY s = false;
  bo_err : b_has k B_ERROR s = false;
  bo_dirty : b_has k B_DIRTY s = true → hashed s hl k ∧ b_has k B_DONE s = true;
  bo_asy : b_has k B_ASY s = true → b_has k B_BUSY s = true ∧ b_has k B_DONE s = true ∧ ¬ hashed s hl k ∧
    blk_ok s (b_dev (buf_at s k)) (b_blocknr (buf_at s k));
  bo_hash : hashed s hl k → blk_ok s (b_dev (buf_at s k)) (b_blocknr (buf_at s k));
  bo_read : hashed s hl k → b_has k B_DONE s = false → b_has k B_READ s = true;
  bo_clean : hashed s hl k → b_has k B_DONE s = true → b_has k B_DIRTY s = false →
    b_data (buf_at s k) = disk_block s (b_dev (buf_at s k)) (b_blocknr (buf_at s k));
}.

(** A queued request: the write of a buffer taken for it, or the read a
    process waits for. *)
Record req_ok (s : io C) (hl : Z → list Z) (r : Z) : Prop := {
  ro_inr : inr s (r_buf (req_at s r));
  ro_sec : r_sec (req_at s r) = sec_of s (b_dev (buf_at s (r_buf (req_at s r)))) (b_blocknr (buf_at s (r_buf (req_at s r))));
  ro_kind : r_rw (req_at s r) = WRITE ∧ b_has (r_buf (req_at s r)) B_ASY s = true ∨
    r_rw (req_at s r) = READ ∧ hashed s hl (r_buf (req_at s r)) ∧ b_has (r_buf (req_at s r)) B_BUSY s = true ∧
      b_has (r_buf (req_at s r)) B_DONE s = false;
}.
Definition tgt (s : io C) (q : list Z) : list Z := (λ r, r_buf (req_at s r)) <$> q.

Record binv (s : io C) (fl : list Z) (hl : Z → list Z) (q : list Z) : Prop := {
  bi_lists : lists_ok bdom id s (blists fl hl);
  bi_vols : vols_ok s;
  bi_prd : zlen (prdbuff s) = 1024;
  bi_buf k : inr s k → buf_ok s fl hl k;
  bi_uniq k j : inr s k → inr s j → live s hl k → live s hl j →
    at_blk s k (b_dev (buf_at s j)) (b_blocknr (buf_at s j)) → k = j;
  bi_fl k : k ∈ fl → inr s k;
  bi_hl h k : k ∈ hl h → inr s k ∧ h = hidx (b_dev (buf_at s k)) (b_blocknr (buf_at s k));
  bi_req r : r ∈ q → req_ok s hl r;
  bi_tgt : NoDup (tgt s q);
  bi_self k : inr s k → ¬ hashed s hl k → alone s (BRel k);
}.

Record rinv (s : io C) (rf q : list Z) : Prop := {
  ri_free : is_list s RFree (RNode <$> rf);
  ri_nodup : NoDup (rf ++ q);
  ri_range r : r ∈ rf ++ q → 0 <= r < zlen (reqq s);
  ri_some : rf ++ q ≠ [];
  ri_queue : match q with
    | [] => cur_req s = None
    | r :: l => cur_req s = Some r ∧ is_list s (RNode r) (RNode <$> l) ∧ ∀ r', r' ∈ l → r_nsec (req_at s r') = 2
    end;
}.

(** How far the request under way is. *)
Definition cur_ok (s : io C) (r : Z) : Prop :=
  let q := req_at s r in let data := b_data (buf_at s (r_buf q)) in let sec := r_sec q in
  if dma_ide_flag s then
    r_nsec q = 2 ∧ if r_rw q =? READ then job (ctl s) = Some (DMA_READ_CMD, sec, 2)
      else job (ctl s) = Some (DMA_WRITE_CMD, sec, 2) ∧ prdbuff s = data
  else if r_rw q =? READ then
    r_nsec q = 2 ∧ job (ctl s) = Some (READ_CMD, sec, 2) ∨
    r_nsec q = 1 ∧ job (ctl s) = Some (READ_CMD, sec + 1, 1) ∧ slice 0 512 data = platter (ctl s) sec
  else
    r_nsec q = 2 ∧ job (ctl s) = Some (WRITE_CMD, sec, 2) ∧ outbuf (ctl s) = slice 0 512 data ∨
    r_nsec q = 1 ∧ job (ctl s) = Some (WRITE_CMD, sec + 1, 1) ∧ outbuf (ctl s) = slice 512 512 data ∧
      platter (ctl s) sec = slice 0 512 data.
Definition jinv (s : io C) (q : list Z) : Prop :=
  match q with [] => job (ctl s) = None | r :: _ => cur_ok s r end.

Record cinv (s : io C) (fl : list Z) (hl : Z → list Z) (rf q : list Z) : Prop := {
  ci_buf : binv s fl hl q;
  ci_req : rinv s rf q;
  ci_job : jinv s q;
}.

Definition contents_same (s s' : io C) : Prop := ∀ d b, blk_ok s d b → contents s' d b = contents s d b.

(** *** Facts about the invariant *)

Lemma blk_ok_ext s s' d b : dev_infos s' = dev_infos s → blk_ok s d b → blk_ok s' d b.
Proof. intros He. unfold blk_ok, part. by rewrite He. Qed.
Lemma sec_of_ext s s' d b : dev_infos s' = dev_infos s → sec_of s' d b = sec_of s d b.
Proof. intros He. unfold sec_of, part. by rewrite He. Qed.
Lemma vols_ok_ext s s' : dev_infos s' = dev_infos s → vols_ok s → vols_ok s'.
Proof.
  intros He Hv d b d' b' H1 H2. rewrite !(sec_of_ext s s') by done. apply Hv; by eapply blk_ok_ext.
Qed.

Lemma pend_live s fl hl q k : binv s fl hl q → inr s k → pend (buf_at s k) = true →
  live s hl k ∧ b_has k B_DONE s = true.
Proof.
  intros Hb Hk Hp. destruct (bi_buf _ _ _ _ Hb k Hk) as [_ _ _ Hd Ha _ _ _].
  unfold pend in Hp. apply orb_true_iff in Hp as [Hp|Hp].
  - destruct (Hd Hp). split; [by left|done].
  - split; [by right|]. by apply Ha.
Qed.
Lemma binv_uniq s fl hl q : binv s fl hl q → pend_uniq s.
Proof.
  intros Hb k j d b Hk Hj Hpk Hpj [Hkd Hkb] [Hjd Hjb].
  apply (bi_uniq _ _ _ _ Hb k j Hk Hj); [by eapply pend_live|by eapply pend_live|].
  split; congruence.
Qed.

(** *** Moving data

    Buffers keep their flags and blocks; data changes in buffers that are not
    [B_DONE], the disk under buffers that are being written. *)
Record moved (s s' : io C) (q : list Z) : Prop := {
  mv_next : bnext s' = bnext s;
  mv_prev : bprev s' = bprev s;
  mv_infos : dev_infos s' = dev_infos s;
  mv_len : zlen (bufs s') = zlen (bufs s);
  mv_prd : zlen (prdbuff s') = 1024;
  mv_id k : b_dev (buf_at s' k) = b_dev (buf_at s k) ∧ b_blocknr (buf_at s' k) = b_blocknr (buf_at s k) ∧
    b_flags (buf_at s' k) = b_flags (buf_at s k);
  mv_data k : inr s k → zlen (b_data (buf_at s' k)) = 1024 ∧
    (b_has k B_DONE s = true → b_data (buf_at s' k) = b_data (buf_at s k));
  mv_req r : r ∈ q → r_buf (req_at s' r) = r_buf (req_at s r) ∧ r_sec (req_at s' r) = r_sec (req_at s r) ∧
    r_rw (req_at s' r) = r_rw (req_at s r);
  mv_disk d b : blk_ok s d b → disk_block s' d b = disk_block s d b ∨
    ∃ k, inr s k ∧ b_has k B_ASY s = true ∧ at_blk s k d b;
}.

Section moved.
Context (s s' : io C) (fl : list Z) (hl : Z → list Z) (q : list Z).
Hypothesis Hb : binv s fl hl q.
Hypothesis Hm : moved s s' q.

Lemma moved_has k m : b_has k m s' = b_has k m s.
Proof. unfold b_has. by destruct (mv_id _ _ _ Hm k) as (_ & _ & ->). Qed.
Lemma moved_inr k : inr s' k ↔ inr s k.
Proof. unfold inr. by rewrite (mv_len _ _ _ Hm). Qed.
Lemma moved_hashed k : hashed s' hl k ↔ hashed s hl k.
Proof. unfold hashed. by destruct (mv_id _ _ _ Hm k) as (-> & -> & _). Qed.
Lemma moved_at k d b : at_blk s' k d b ↔ at_blk s k d b.
Proof. unfold at_blk. by destruct (mv_id _ _ _ Hm k) as (-> & -> & _). Qed.
Lemma moved_blk d b : blk_ok s' d b ↔ blk_ok s d b.
Proof. pose proof (mv_infos _ _ _ Hm). split; by apply blk_ok_ext. Qed.
Lemma moved_pend k : pend (buf_at s' k) = pend (buf_at s k).
Proof. unfold pend. by destruct (mv_id _ _ _ Hm k) as (_ & _ & ->). Qed.

Lemma moved_buf k : inr s k → buf_ok s' fl hl k.
Proof.
  intros Hk. destruct (bi_buf _ _ _ _ Hb k Hk) as [Hl Hf He Hd Ha Hh Hr Hc].
  destruct (mv_data _ _ _ Hm k Hk) as [Hl' Hdata]. destruct (mv_id _ _ _ Hm k) as (Hdev & Hblk & _).
  split; rewrite ?moved_has, ?moved_hashed, ?Hdev, ?Hblk, ?moved_blk; try done.
  intros Hh' Hdone Hdirty. rewrite Hdata by done. rewrite Hc by done. symmetry.
  destruct (mv_disk _ _ _ Hm (b_dev (buf_at s k)) (b_blocknr (buf_at s k)) (Hh Hh')) as [|(j & Hj & Hasy & Hat)]; [done|].
  exfalso. assert (j = k) as ->.
  { apply (bi_uniq _ _ _ _ Hb); [done|done|by right|by left|done]. }
  destruct (Ha Hasy) as (_ & _ & Hnh & _). by apply Hnh.
Qed.

Lemma moved_binv : binv s' fl hl q.
Proof.
  split.
  - eapply lists_ok_frame; [apply (bi_lists _ _ _ _ Hb)| |done]. intros i p _ _. simpl.
    by rewrite (mv_next _ _ _ Hm), (mv_prev _ _ _ Hm).
  - eapply vols_ok_ext; [apply (mv_infos _ _ _ Hm)|apply (bi_vols _ _ _ _ Hb)].
  - apply (mv_prd _ _ _ Hm).
  - intros k Hk%moved_inr. by apply moved_buf.
  - intros k j Hk%moved_inr Hj%moved_inr Hlk Hlj. rewrite moved_at. destruct (mv_id _ _ _ Hm j) as (-> & -> & _).
    unfold live in *. rewrite moved_has, moved_hashed in Hlk, Hlj. by apply (bi_uniq _ _ _ _ Hb).
  - intros k Hk. rewrite moved_inr. by apply (bi_fl _ _ _ _ Hb).
  - intros h k Hk. rewrite moved_inr. destruct (mv_id _ _ _ Hm k) as (-> & -> & _). by apply (bi_hl _ _ _ _ Hb).
  - intros r Hr. destruct (mv_req _ _ _ Hm r Hr) as (Hbf & Hsec & Hrw). destruct (bi_req _ _ _ _ Hb r Hr) as [Hi Hs Hk].
    destruct (mv_id _ _ _ Hm (r_buf (req_at s r))) as (Hd' & Hb' & _).
    split; rewrite ?Hbf, ?Hsec, ?Hrw, ?moved_inr, ?moved_has, ?moved_hashed, ?Hd', ?Hb'; try done.
    by rewrite (sec_of_ext s) by apply (mv_infos _ _ _ Hm).
  - unfold tgt. erewrite list_fmap_ext; [apply (bi_tgt _ _ _ _ Hb)|]. intros i r Hr%list_elem_of_lookup_2.
    by apply (mv_req _ _ _ Hm).
  - intros k Hk%moved_inr. rewrite moved_hashed. intros Hh. unfold alone. simpl.
    rewrite (mv_next _ _ _ Hm), (mv_prev _ _ _ Hm). by apply (bi_self _ _ _ _ Hb).
Qed.

Lemma moved_contents : contents_same s s'.
Proof.
  intros d b Hok. destruct (contents_cases s d b (binv_uniq _ _ _ _ Hb)) as [(k & Hk & Hp & Ha & ->)|[Hn ->]].
  - rewrite (contents_pend s' k d b).
    + apply (mv_data _ _ _ Hm k Hk). by eapply pend_live.
    + eapply binv_uniq, moved_binv.
    + by apply moved_inr.
    + by rewrite moved_pend.
    + by apply moved_at.
  - rewrite contents_disk.
    + destruct (mv_disk _ _ _ Hm d b Hok) as [|(k & Hk & Hasy & Ha)]; [done|]. exfalso.
      apply (Hn k Hk); [|done]. unfold pend. unfold b_has in Hasy. by rewrite Hasy, orb_true_r.
    + intros k Hk%moved_inr. rewrite moved_pend, moved_at. by apply Hn.
Qed.
End moved.

(** ** One interrupt *)

(** What an interrupt changes before the request ends. *)
Definition moving (k : Z) (data : list Z) (r n : Z) (p : list Z) (c : C) (s : io C) : io C :=
  upd_ctl (λ _, c) (upd_prdbuff (λ _, p) (upd_req r (set_r_nsec n) (upd_buf k (set_b_data data) s))).

Lemma upd_buf_same k s : upd_buf k (set_b_data (b_data (buf_at s k))) s = s.
Proof.
  destruct s. unfold upd_buf, upd_bufs, buf_at; simpl. f_equal. apply zget_ext. intros i _. rewrite zget_zalter.
  case_decide; [subst|done]. destruct (zget _ k) as [x|]; [|done]. by destruct x.
Qed.

Lemma buf_at_moving k data r n p c s j : inr s k →
  buf_at (moving k data r n p c s) j = if decide (j = k) then set_b_data data (buf_at s k) else buf_at s j.
Proof. apply (buf_at_upd k (set_b_data data) s). Qed.
Lemma req_at_moving k data r n p c s j : 0 <= r < zlen (reqq s) →
  req_at (moving k data r n p c s) j = if decide (j = r) then set_r_nsec n (req_at s r) else req_at s j.
Proof. apply (req_at_upd r (set_r_nsec n) (upd_buf k (set_b_data data) s)). Qed.

Lemma moving_moved s fl hl q r k data n p c : binv s fl hl q → r ∈ q → 0 <= r < zlen (reqq s) →
  k = r_buf (req_at s r) → zlen data = 1024 → (b_has k B_DONE s = true → data = b_data (buf_at s k)) →
  zlen p = 1024 →
  (∀ i, platter c i = platter (ctl s) i) ∨
  (b_has k B_ASY s = true ∧ ∀ i, i ≠ r_sec (req_at s r) → i ≠ r_sec (req_at s r) + 1 → platter c i = platter (ctl s) i) →
  moved s (moving k data r n p c s) q.
Proof.
  intros Hb Hr Hrr Hk Hl Hd Hp Hpl. destruct (bi_req _ _ _ _ Hb r Hr) as [Hi Hsec Hkind]. rewrite <-Hk in *.
  pose proof (λ j, buf_at_moving k data r n p c s j Hi) as Hba.
  split; try done.
  - unfold moving, upd_buf, upd_req. simpl. apply zlen_zalter.
  - intros j. rewrite Hba. by case_decide; subst.
  - intros j Hj. rewrite Hba. case_decide; subst; [done|]. split; [|done]. by apply (bi_buf _ _ _ _ Hb j Hj).
  - intros j Hj. rewrite req_at_moving by done. by case_decide; subst.
  - intros d b Hok. destruct Hpl as [Hpl|[Hasy Hpl]]; [left; unfold disk_block; f_equal; apply Hpl|].
    destruct (bo_asy _ _ _ _ (bi_buf _ _ _ _ Hb k Hi) Hasy) as (_ & _ & _ & Hokk).
    destruct (decide (b_dev (buf_at s k) = d ∧ b_blocknr (buf_at s k) = b)) as [Heq|Hne]; [right; by exists k|]. left.
    assert (sec_of s d b + 2 <= r_sec (req_at s r) ∨ r_sec (req_at s r) + 2 <= sec_of s d b) as Hap.
    { rewrite Hsec. apply (bi_vols _ _ _ _ Hb); [done|done|]. destruct (decide (d = b_dev (buf_at s k))); [|by left].
      right. intros ->. by apply Hne. }
    unfold disk_block. f_equal; apply Hpl; (change (sec_of (moving k data r n p c s) d b) with (sec_of s d b); lia).
Qed.

Lemma memcpy_second (data a b : list Z) : zlen data = 1024 → slice 0 512 data = a → zlen b = 512 →
  memcpy data 512 b = a ++ b.
Proof.
  intros Hd <- Hb. apply zget_ext. intros i Hi. rewrite zget_memcpy by lia.
  assert (zlen (slice 0 512 data) = 512) as Hs by (apply zlen_slice; lia).
  rewrite zget_app, Hs, zget_slice by lia. repeat case_decide; try lia; try done.
  rewrite !(proj2 (zget_None _ _)); [done|lia..].
Qed.
Lemma slice_halves (data : list Z) : zlen data = 1024 → slice 0 512 data ++ slice 512 512 data = data.
Proof.
  intros Hd. apply zget_ext. intros i Hi. assert (zlen (slice 0 512 data) = 512) as Hs by (apply zlen_slice; lia).
  rewrite zget_app, Hs, !zget_slice by lia. repeat case_decide; try lia.
  - done.
  - f_equal. lia.
  - symmetry. apply zget_None. lia.
Qed.
Lemma memcpy_all (data src : list Z) : zlen data = zlen src → memcpy data 0 src = src.
Proof.
  intros Hd. apply zget_ext. intros i Hi. rewrite zget_memcpy by lia. case_decide; [f_equal; lia|].
  rewrite !(proj2 (zget_None _ _)); [done|lia..].
Qed.
Lemma slice_all (data : list Z) n : zlen data = n → slice 0 n data = data.
Proof.
  intros Hd. unfold slice. rewrite drop_0. apply take_ge. unfold zlen in Hd. lia.
Qed.

Lemma upd_buf_ext k f g s : f (buf_at s k) = g (buf_at s k) → upd_buf k f s = upd_buf k g s.
Proof.
  intros He. unfold upd_buf, upd_bufs. f_equal. apply zalter_ext. intros x Hx.
  unfold buf_at in He. by rewrite Hx in He.
Qed.
Lemma upd_req_ext r f g s : f (req_at s r) = g (req_at s r) → upd_req r f s = upd_req r g s.
Proof.
  intros He. unfold upd_req, upd_reqq. f_equal. apply zalter_ext. intros x Hx.
  unfold req_at in He. by rewrite Hx in He.
Qed.

(** The result of the transfer for one interrupt. *)
Definition moves (s : io C) (r k : Z) (data : list Z) (n : Z) (p : list Z) (c : C) : Prop :=
  zlen data = 1024 ∧ (b_has k B_DONE s = true → data = b_data (buf_at s k)) ∧ zlen p = 1024 ∧
  ((∀ i, platter c i = platter (ctl s) i) ∨
   (b_has k B_ASY s = true ∧ ∀ i, i ≠ r_sec (req_at s r) → i ≠ r_sec (req_at s r) + 1 → platter c i = platter (ctl s) i)) ∧
  0 <= n < r_nsec (req_at s r) ∧
  (n ≠ 0 → cur_ok (moving k data r n p c s) r) ∧
  (n = 0 → job c = None ∧ data = platter c (r_sec (req_at s r)) ++ platter c (r_sec (req_at s r) + 1)).

Section move.
Context (s : io C) (fl : list Z) (hl : Z → list Z) (rf : list Z) (r : Z) (l : list Z).
Hypothesis Hc : cinv s fl hl rf (r :: l).
#[local] Notation k := (r_buf (req_at s r)).
#[local] Notation sec := (r_sec (req_at s r)).
#[local] Notation data := (b_data (buf_at s k)).

Lemma move_req : req_ok s hl r.
Proof. apply (bi_req _ _ _ _ (ci_buf _ _ _ _ _ Hc)). left. Qed.
Lemma move_range : 0 <= r < zlen (reqq s).
Proof. apply (ri_range _ _ _ (ci_req _ _ _ _ _ Hc)). set_solver. Qed.
Lemma move_len : zlen data = 1024.
Proof. apply (bi_buf _ _ _ _ (ci_buf _ _ _ _ _ Hc)), move_req. Qed.
Lemma move_read : r_rw (req_at s r) = READ → b_has k B_DONE s = false.
Proof. intros Hr. destruct (ro_kind _ _ _ move_req) as [[Hw _]|(_ & _ & _ & ?)]; [by rewrite Hw in Hr|done]. Qed.
Lemma move_write : r_rw (req_at s r) ≠ READ → b_has k B_ASY s = true.
Proof. intros Hr. by destruct (ro_kind _ _ _ move_req) as [[_ ?]|(? & _)]. Qed.

Lemma cur_ok_moving n d p c : cur_ok (moving k d r n p c s) r ↔
  if dma_ide_flag s then
    n = 2 ∧ if r_rw (req_at s r) =? READ then job c = Some (DMA_READ_CMD, sec, 2)
      else job c = Some (DMA_WRITE_CMD, sec, 2) ∧ p = d
  else if r_rw (req_at s r) =? READ then
    n = 2 ∧ job c = Some (READ_CMD, sec, 2) ∨
    n = 1 ∧ job c = Some (READ_CMD, sec + 1, 1) ∧ slice 0 512 d = platter c sec
  else
    n = 2 ∧ job c = Some (WRITE_CMD, sec, 2) ∧ outbuf c = slice 0 512 d ∨
    n = 1 ∧ job c = Some (WRITE_CMD, sec + 1, 1) ∧ outbuf c = slice 512 512 d ∧
      platter c sec = slice 0 512 d.
Proof.
  unfold cur_ok. rewrite req_at_moving, decide_True by (done || apply move_range).
  change (r_buf (set_r_nsec n (req_at s r))) with k. rewrite buf_at_moving, decide_True by (done || apply move_req). done.
Qed.

(** What [transfer] computes, by the mode and the direction. *)
Lemma transfer_dma c1 p1 : dma_ide_flag s = true →
  transfer r (upd_prdbuff (λ _, p1) (upd_ctl (λ _, c1) s)) =
  Ret tt (moving k (if r_rw (req_at s r) =? READ then memcpy data 0 (slice 0 1024 p1) else data) r 0 p1 c1 s).
Proof.
  intros Hd. unfold transfer. mstep. change (dma_ide_flag _) with (dma_ide_flag s). rewrite Hd.
  change (req_at _ r) with (req_at s r). unfold when. destruct (_ =? _); mstep; unfold modify; f_equal; unfold moving.
  - unfold upd_buf, upd_req; simpl. unfold upd_ctl, upd_prdbuff, upd_reqq, upd_bufs; simpl. f_equal.
    apply zalter_ext. intros x Hx. unfold buf_at. by rewrite Hx.
  - by rewrite upd_buf_same.
Qed.
Lemma transfer_read c1 c2 d p1 : dma_ide_flag s = false → r_rw (req_at s r) = READ → ct_in c1 = (c2, d) →
  transfer r (upd_prdbuff (λ _, p1) (upd_ctl (λ _, c1) s)) =
  Ret tt (moving k (memcpy data (if r_nsec (req_at s r) <? 2 then SECTOR else 0) d) r (r_nsec (req_at s r) - 1) p1 c2 s).
Proof.
  intros Hd Hr Hin. unfold transfer. mstep. change (dma_ide_flag _) with (dma_ide_flag s). rewrite Hd.
  change (req_at _ r) with (req_at s r). rewrite Hr, Z.eqb_refl. mstep. change (ctl _) with c1. rewrite Hin. mstep.
  unfold modify. f_equal. unfold moving, upd_ctl, upd_prdbuff, upd_req, upd_reqq, upd_buf, upd_bufs; simpl.
  f_equal; apply zalter_ext; intros x Hx.
  - unfold buf_at. by rewrite Hx.
  - unfold req_at. by rewrite Hx.
Qed.
Lemma transfer_write c1 p1 : dma_ide_flag s = false → r_rw (req_at s r) ≠ READ →
  transfer r (upd_prdbuff (λ _, p1) (upd_ctl (λ _, c1) s)) =
  Ret tt (moving k data r (r_nsec (req_at s r) - 1) p1
    (if 1 <? r_nsec (req_at s r) then ct_out (slice SECTOR SECTOR data) c1 else c1) s).
Proof.
  intros Hd Hr. unfold transfer. mstep. change (dma_ide_flag _) with (dma_ide_flag s). rewrite Hd.
  change (req_at _ r) with (req_at s r). rewrite (proj2 (Z.eqb_neq _ _)) by done. unfold when.
  assert (upd_req r (λ q, set_r_nsec (r_nsec q - 1) q) s = upd_req r (set_r_nsec (r_nsec (req_at s r) - 1)) s) as He
    by by apply upd_req_ext.
  unfold upd_req, upd_reqq in He. injection He as He.
  destruct (1 <? _); mstep; unfold modify; f_equal; unfold moving; rewrite upd_buf_same;
    unfold upd_ctl, upd_prdbuff, upd_req, upd_reqq; simpl; by rewrite He.
Qed.

Definition intr_moves (c1 : C) (p1 : list Z) : Prop := ∃ d n p c,
  transfer r (upd_prdbuff (λ _, p1) (upd_ctl (λ _, c1) s)) = Ret tt (moving k d r n p c s) ∧ moves s r k d n p c.

Lemma move_dma : dma_ide_flag s = true →
  ∃ c1 p1, ct_irq (prdbuff s) (ctl s) = Some (c1, p1) ∧ intr_moves c1 p1.
Proof.
  intros Hd. pose proof (ci_job _ _ _ _ _ Hc) as Hj. unfold jinv, cur_ok in Hj. rewrite Hd in Hj. destruct Hj as [Hn Hj].
  pose proof (bi_prd _ _ _ _ (ci_buf _ _ _ _ _ Hc)) as Hp. pose proof move_len as Hlen. unfold intr_moves.
  destruct (Z.eqb_spec (r_rw (req_at s r)) READ) as [Hr|Hr].
  - destruct (irq_dma_read _ _ _ Hj Hp) as (c1 & Hirq & Hnone & Hpl).
    assert (zlen (platter (ctl s) sec ++ platter (ctl s) (sec + 1)) = 1024) as Hz by (rewrite zlen_app, !sector_len; done).
    eexists _, _. split; [exact Hirq|]. eexists _, _, _, _. split; [by apply transfer_dma|].
    rewrite Hr, Z.eqb_refl, slice_all by done. unfold moves. rewrite memcpy_all by lia.
    split; [done|]. split; [by rewrite move_read|]. split; [done|]. split; [by left|]. split; [lia|]. split; [done|].
    by rewrite !Hpl.
  - destruct Hj as [Hj Hprd]. destruct (irq_dma_write _ _ _ Hj Hp) as (c1 & Hirq & Hnone & Hpl).
    eexists _, _. split; [exact Hirq|]. eexists _, _, _, _. split; [by apply transfer_dma|].
    rewrite (proj2 (Z.eqb_neq _ _)) by done. unfold moves. split; [done|]. split; [done|]. split; [done|].
    split; [right; split; [by apply move_write|]|].
    { intros i H1 H2. by rewrite Hpl, !decide_False. }
    split; [lia|]. split; [done|]. intros _. split; [done|].
    rewrite !Hpl, decide_True, decide_False, decide_True by lia. rewrite Hprd. by rewrite slice_halves.
Qed.

Lemma move_pio_read : dma_ide_flag s = false → r_rw (req_at s r) = READ →
  ∃ c1 p1, ct_irq (prdbuff s) (ctl s) = Some (c1, p1) ∧ intr_moves c1 p1.
Proof.
  intros Hd Hr. pose proof (ci_job _ _ _ _ _ Hc) as Hj. unfold jinv, cur_ok in Hj. rewrite Hd, Hr in Hj. simpl in Hj.
  pose proof (bi_prd _ _ _ _ (ci_buf _ _ _ _ _ Hc)) as Hp. pose proof move_len as Hlen.
  pose proof (sector_len (ctl s) sec) as Hsl.
  destruct Hj as [[Hn Hj]|(Hn & Hj & Hhalf)].
  - destruct (irq_read (prdbuff s) _ _ _ Hj ltac:(lia)) as (c1 & c2 & Hirq & Hin & Hjob & Hpl).
    eexists _, _. split; [exact Hirq|]. eexists _, _, _, _. split; [by apply (transfer_read _ c2 _ _ Hd Hr Hin)|].
    rewrite Hn. simpl. unfold moves. rewrite zlen_memcpy. split; [done|]. split; [by rewrite move_read|].
    split; [done|]. split; [by left|]. split; [lia|]. split; [|done]. intros _. rewrite cur_ok_moving, Hd, Hr. simpl. right.
    split; [done|]. split; [done|]. rewrite Hpl. rewrite <-Hsl at 1. apply slice_memcpy_same; lia.
  - destruct (irq_read (prdbuff s) _ _ _ Hj ltac:(lia)) as (c1 & c2 & Hirq & Hin & Hjob & Hpl).
    eexists _, _. split; [exact Hirq|]. eexists _, _, _, _. split; [by apply (transfer_read _ c2 _ _ Hd Hr Hin)|].
    rewrite Hn. simpl. unfold moves. rewrite zlen_memcpy. split; [done|]. split; [by rewrite move_read|].
    split; [done|]. split; [by left|]. split; [lia|]. split; [done|]. intros _. split; [done|].
    rewrite !Hpl. apply memcpy_second; [done|done|apply sector_len].
Qed.

Lemma move_pio_write : dma_ide_flag s = false → r_rw (req_at s r) ≠ READ →
  ∃ c1 p1, ct_irq (prdbuff s) (ctl s) = Some (c1, p1) ∧ intr_moves c1 p1.
Proof.
  intros Hd Hr. pose proof (ci_job _ _ _ _ _ Hc) as Hj. unfold jinv, cur_ok in Hj. rewrite Hd in Hj.
  rewrite (proj2 (Z.eqb_neq _ _)) in Hj by done.
  pose proof (bi_prd _ _ _ _ (ci_buf _ _ _ _ _ Hc)) as Hp. pose proof move_len as Hlen.
  destruct Hj as [(Hn & Hj & Ho)|(Hn & Hj & Ho & Hhalf)].
  - destruct (irq_write (prdbuff s) _ _ _ Hj ltac:(lia)) as (c1 & Hirq & Hjob & Hpl).
    { rewrite Ho. apply zlen_slice; lia. }
    eexists _, _. split; [exact Hirq|]. eexists _, _, _, _. split; [by apply transfer_write|].
    rewrite Hn. simpl. destruct (out_ok (slice SECTOR SECTOR data) c1) as (Hoj & Hob & Hop).
    unfold moves. split; [done|]. split; [done|]. split; [done|]. split; [right; split; [by apply move_write|]|].
    { intros i H1 H2. by rewrite Hop, Hpl, decide_False. }
    split; [lia|]. split; [|done]. intros _. rewrite cur_ok_moving, Hd, (proj2 (Z.eqb_neq _ _)) by done. right.
    split; [done|]. rewrite Hoj, Hob, Hop, Hpl, decide_True by done. by rewrite Hjob, Ho.
  - destruct (irq_write (prdbuff s) _ _ _ Hj ltac:(lia)) as (c1 & Hirq & Hjob & Hpl).
    { rewrite Ho. apply zlen_slice; lia. }
    eexists _, _. split; [exact Hirq|]. eexists _, _, _, _. split; [by apply transfer_write|].
    rewrite Hn. simpl. unfold moves. split; [done|]. split; [done|]. split; [done|].
    split; [right; split; [by apply move_write|]|].
    { intros i H1 H2. by rewrite Hpl, decide_False. }
    split; [lia|]. split; [done|]. intros _. split; [done|].
    rewrite !Hpl, decide_False, decide_True by lia. rewrite Ho, Hhalf. by rewrite slice_halves.
Qed.

Lemma intr_move : ∃ c1 p1, ct_irq (prdbuff s) (ctl s) = Some (c1, p1) ∧ intr_moves c1 p1.
Proof.
  destruct (dma_ide_flag s) eqn:Hd; [by apply move_dma|].
  destruct (decide (r_rw (req_at s r) = READ)); [by apply move_pio_read|by apply move_pio_write].
Qed.
End move.

(** ** The lists of the cache *)

Lemma fresh_free s fl hl k : lists_ok bdom id s (blists fl hl) → k ∉ fl → fresh_node bdom id (blists fl hl) (BRelFree k).
Proof.
  intros _ Hk p Hp. destruct p as [|h| |]; try done; simpl; rewrite elem_of_cons, list_elem_of_fmap; intros [|(j & [=] & Hj)]; try done.
  by subst.
Qed.
Lemma fresh_hash s fl hl k : lists_ok bdom id s (blists fl hl) → (∀ h, k ∉ hl h) → fresh_node bdom id (blists fl hl) (BRel k).
Proof.
  intros _ Hk p Hp. destruct p as [|h| |]; try done; simpl; rewrite elem_of_cons, list_elem_of_fmap; intros [|(j & [=] & Hj)]; try done.
  subst. by apply (Hk h).
Qed.

Lemma lists_add_free s fl hl k : lists_ok bdom id s (blists fl hl) → k ∉ fl →
  lists_ok bdom id (list_add_tail BFree (BRelFree k) s) (blists (fl ++ [k]) hl) ∧
  ∀ j, alone s (BRel j) → alone (list_add_tail BFree (BRelFree k) s) (BRel j).
Proof.
  intros Hl Hk. pose proof (fresh_free _ _ _ _ Hl Hk) as Hf. split.
  - eapply lists_ok_ext; [|apply (lists_ok_add_tail bdom id s _ BFree (BRelFree k) Hl I Hf I)].
    intros p Hp. destruct p as [|h| |]; try done.
    by rewrite fn_lookup_insert; simpl; rewrite fmap_app.
  - intros j [Hn Hp]. destruct (list_add_tail_spliced s BFree (BRelFree <$> fl) (BRelFree k)) as (Hnx & Hpv & _).
    { by apply (lk_list bdom id s _ Hl BFree). } { by apply (Hf BFree). } { done. }
    unfold alone. rewrite Hnx, Hpv. pose proof (lst_elem BFree (BRelFree <$> fl)) as Hls.
    assert (BRel j ≠ lst BFree (BRelFree <$> fl)).
    { intros He. rewrite <-He in Hls. by apply elem_of_cons in Hls as [|(? & ? & ?)%list_elem_of_fmap]. }
    by rewrite !decide_False.
Qed.
Lemma lists_add_hash s fl hl h k : lists_ok bdom id s (blists fl hl) → 0 <= h < NR_HASH → (∀ h, k ∉ hl h) →
  lists_ok bdom id (list_add_head (BHash h) (BRel k) s) (blists fl (<[h := k :: hl h]> hl)) ∧
  ∀ j, j ≠ k → alone s (BRel j) → (∀ h, j ∉ hl h) → alone (list_add_head (BHash h) (BRel k) s) (BRel j).
Proof.
  intros Hl Hh Hk. pose proof (fresh_hash _ _ _ _ Hl Hk) as Hf. split.
  - eapply lists_ok_ext; [|apply (lists_ok_add_head bdom id s _ (BHash h) (BRel k) Hl Hh Hf I)].
    intros p Hp. destruct p as [|h'| |]; try done. destruct (decide (h' = h)) as [->|].
    + rewrite fn_lookup_insert. simpl. by rewrite fn_lookup_insert.
    + rewrite fn_lookup_insert_ne by congruence. simpl. by rewrite fn_lookup_insert_ne.
  - intros j Hj [Hn Hp] Hjh. destruct (list_add_head_spliced s (BHash h) (BRel <$> hl h) (BRel k)) as (Hnx & Hpv & _).
    { by apply (lk_list bdom id s _ Hl (BHash h)). } { by apply (Hf (BHash h)). } { done. }
    unfold alone. rewrite Hnx, Hpv. pose proof (fst_or_elem (BHash h) (BRel <$> hl h)) as Hls.
    assert (BRel j ≠ fst_or (BHash h) (BRel <$> hl h)).
    { intros He. rewrite <-He in Hls. apply elem_of_cons in Hls as [|(? & [= ->] & ?)%list_elem_of_fmap]; [done|by apply (Hjh h)]. }
    by rewrite !decide_False by congruence.
Qed.

Lemma list_del1_alone s (e : bptr) : alone (list_del1 e s) e.
Proof. unfold alone. rewrite list_del1_del. simpl. by rewrite !fn_lookup_insert. Qed.
(** Taking out a node that is on no list. *)
Lemma list_del1_idle s (e p : bptr) : alone s e → nxt (list_del1 e s) p = nxt s p ∧ prv (list_del1 e s) p = prv s p.
Proof.
  intros [Hn Hp]. rewrite list_del1_del. unfold list_del. simpl in *. rewrite Hp.
  destruct (decide (p = e)) as [->|]; rewrite ?fn_lookup_insert, ?fn_lookup_insert_ne by done; [done|].
  rewrite Hn. rewrite ?fn_lookup_insert, ?fn_lookup_insert_ne by done. done.
Qed.

Lemma lists_del1 s fl hl fl' hl' i l1 e l2 : lists_ok bdom id s (blists fl hl) → bdom i → blists fl hl i = l1 ++ e :: l2 →
  (∀ j, bdom j → blists fl' hl' j = (<[i := l1 ++ l2]> (blists fl hl)) j) →
  lists_ok bdom id (list_del1 e s) (blists fl' hl').
Proof.
  intros Hl Hi HL Hext. destruct (lists_ok_del bdom id s _ i l1 e l2 Hl Hi HL) as [Hok Hfr].
  eapply lists_ok_ext; [intros j Hj; symmetry; by apply Hext|]. rewrite list_del1_del.
  eapply lists_ok_frame; [exact Hok| |done]. intros j p Hj Hp.
  assert (p ≠ e) by (intros ->; by apply (Hfr j)).
  by rewrite nxt_set_prv, nxt_set_nxt, prv_set_prv, prv_set_nxt, !decide_False by done.
Qed.

(** ** Changing one buffer *)
Record changed (s s' : io C) (k : Z) : Prop := {
  ch_infos : dev_infos s' = dev_infos s;
  ch_ctl : ctl s' = ctl s;
  ch_prd : prdbuff s' = prdbuff s;
  ch_len : zlen (bufs s') = zlen (bufs s);
  ch_other j : j ≠ k → buf_at s' j = buf_at s j;
}.

Section changed.
Context (s s' : io C) (fl fl' : list Z) (hl hl' : Z → list Z) (q q' : list Z) (k : Z).
Hypothesis Hb : binv s fl hl q.
Hypothesis Hk : inr s k.
Hypothesis Hc : changed s s' k.
Hypothesis Hfl : ∀ j, j ≠ k → (j ∈ fl' ↔ j ∈ fl).
Hypothesis Hhl : ∀ j h, j ≠ k → (j ∈ hl' h ↔ j ∈ hl h).

Lemma changed_inr j : inr s' j ↔ inr s j.
Proof. unfold inr. by rewrite (ch_len _ _ _ Hc). Qed.
Lemma changed_hashed j : j ≠ k → hashed s' hl' j ↔ hashed s hl j.
Proof. intros Hj. unfold hashed. rewrite (ch_other _ _ _ Hc) by done. by apply Hhl. Qed.
Lemma changed_has j m : j ≠ k → b_has j m s' = b_has j m s.
Proof. intros Hj. unfold b_has. by rewrite (ch_other _ _ _ Hc). Qed.
Lemma changed_disk d b : disk_block s' d b = disk_block s d b.
Proof. unfold disk_block. by rewrite (ch_ctl _ _ _ Hc), (sec_of_ext s s') by apply (ch_infos _ _ _ Hc). Qed.
Lemma changed_blk d b : blk_ok s' d b ↔ blk_ok s d b.
Proof. pose proof (ch_infos _ _ _ Hc). split; by apply blk_ok_ext. Qed.

Lemma changed_req r : req_ok s hl r → req_at s' r = req_at s r → r_buf (req_at s r) ≠ k → req_ok s' hl' r.
Proof.
  intros [Hi Hs Hkd] Hr Hne. split; rewrite Hr.
  - by rewrite changed_inr.
  - rewrite (sec_of_ext s s') by apply (ch_infos _ _ _ Hc). by rewrite (ch_other _ _ _ Hc).
  - by rewrite !changed_has, changed_hashed by done.
Qed.

Lemma changed_binv :
  lists_ok bdom id s' (blists fl' hl') → buf_ok s' fl' hl' k →
  (∀ h, k ∈ hl' h → h = hidx (b_dev (buf_at s' k)) (b_blocknr (buf_at s' k))) →
  (live s' hl' k → ∀ j, inr s j → j ≠ k → live s hl j → ¬ at_blk s j (b_dev (buf_at s' k)) (b_blocknr (buf_at s' k))) →
  (∀ j, inr s j → j ≠ k → ¬ hashed s hl j → alone s' (BRel j)) → (¬ hashed s' hl' k → alone s' (BRel k)) →
  (∀ r, r ∈ q' → req_ok s' hl' r) → NoDup (tgt s' q') →
  binv s' fl' hl' q'.
Proof.
  intros Hl Hok Hh Hu Hal Halk Hreq Hnd. split.
  - done.
  - eapply vols_ok_ext; [apply (ch_infos _ _ _ Hc)|apply (bi_vols _ _ _ _ Hb)].
  - rewrite (ch_prd _ _ _ Hc). apply (bi_prd _ _ _ _ Hb).
  - intros j Hj%changed_inr. destruct (decide (j = k)) as [->|Hne]; [done|].
    destruct (bi_buf _ _ _ _ Hb j Hj) as [H1 H2 H3 H4 H5 H6 H7 H8].
    split; rewrite ?changed_has, ?changed_hashed, ?(ch_other _ _ _ Hc), ?changed_disk, ?changed_blk, ?Hfl by done; done.
  - intros i j Hi%changed_inr Hj%changed_inr Hli Hlj Ha.
    destruct (decide (i = k)) as [->|Hik], (decide (j = k)) as [->|Hjk]; [done|..].
    + exfalso. unfold live in Hlj. rewrite changed_hashed, changed_has in Hlj by done.
      apply (Hu Hli j Hj Hjk Hlj). destruct Ha as [Ha1 Ha2]. rewrite (ch_other _ _ _ Hc j) in Ha1, Ha2 by done. by split.
    + exfalso. unfold live in Hli. rewrite changed_hashed, changed_has in Hli by done.
      apply (Hu Hlj i Hi Hik Hli). unfold at_blk in *. by rewrite (ch_other _ _ _ Hc i) in Ha.
    + unfold live in Hli, Hlj. rewrite changed_hashed, changed_has in Hli, Hlj by done.
      unfold at_blk in Ha. rewrite !(ch_other _ _ _ Hc) in Ha by done. by apply (bi_uniq _ _ _ _ Hb).
  - intros j Hj. rewrite changed_inr. destruct (decide (j = k)) as [->|]; [done|]. apply (bi_fl _ _ _ _ Hb). by apply Hfl.
  - intros h j Hj. rewrite changed_inr. destruct (decide (j = k)) as [->|]; [split; [done|by apply Hh]|].
    rewrite (ch_other _ _ _ Hc) by done. apply (bi_hl _ _ _ _ Hb). by apply Hhl.
  - done.
  - done.
  - intros j Hj%changed_inr Hn. destruct (decide (j = k)) as [->|]; [by apply Halk|].
    rewrite changed_hashed in Hn by done. by apply Hal.
Qed.

Lemma changed_contents : binv s' fl' hl' q' →
  (pend (buf_at s' k) = true → contents s (b_dev (buf_at s' k)) (b_blocknr (buf_at s' k)) = b_data (buf_at s' k)) →
  (pend (buf_at s k) = true →
     pend (buf_at s' k) = true ∧ at_blk s' k (b_dev (buf_at s k)) (b_blocknr (buf_at s k)) ∨
     disk_block s (b_dev (buf_at s k)) (b_blocknr (buf_at s k)) = b_data (buf_at s k)) →
  contents_same s s'.
Proof.
  intros Hb' Hnew Hold d b _. destruct (contents_cases s' d b (binv_uniq _ _ _ _ Hb')) as [(j & Hj & Hp & Ha & ->)|[Hn ->]].
  - rewrite changed_inr in Hj. destruct (decide (j = k)) as [->|Hne].
    + destruct Ha as [Ha1 Ha2]. rewrite <-Hnew by done. by rewrite Ha1, Ha2.
    + unfold at_blk in Ha. rewrite (ch_other _ _ _ Hc) in * by done. symmetry. apply contents_pend; try done.
      by eapply binv_uniq.
  - rewrite changed_disk. destruct (contents_cases s d b (binv_uniq _ _ _ _ Hb)) as [(j & Hj & Hp & Ha & ->)|[_ ->]]; [|done].
    destruct (decide (j = k)) as [->|Hne].
    + destruct Ha as [Ha1 Ha2]. destruct (Hold Hp) as [[Hp' Ha']|Hd]; [|by rewrite Ha1, Ha2 in Hd].
      exfalso. apply (Hn k); [by apply changed_inr|done|]. by rewrite Ha1, Ha2 in Ha'.
    + exfalso. apply (Hn j); [by apply changed_inr|..]; unfold at_blk; by rewrite (ch_other _ _ _ Hc).
Qed.
End changed.

(** ** Releasing a buffer *)

Lemma wakeup_eq w s : wakeup w s = upd_woken (λ v, queued w s || v) s.
Proof. unfold wakeup. destruct (queued w s); [done|]. by destruct s. Qed.

Definition released (k : Z) (w : bool → bool) (s : io C) : io C :=
  list_add_tail BFree (BRelFree k) (clear_flags k (Z.lor B_WANTED (Z.lor B_BUSY B_ASY)) (upd_woken w s)).

Lemma upd_woken_ext f g s : f (woken s) = g (woken s) → upd_woken f s = upd_woken g s.
Proof. intros He. unfold upd_woken. by rewrite He. Qed.
Lemma when_wakeup (b : bool) w s : (if b then wakeup w s else s) = upd_woken (λ v, (b && queued w s) || v) s.
Proof. destruct b; [apply wakeup_eq|]. by destruct s. Qed.
Lemma bind_when_modify {B} (b : bool) (f : io C → io C) (c : unit → M (io C) B) s :
  (when b (modify f) ≫= c) s = c tt (if b then f s else s).
Proof. by destruct b. Qed.

Lemma brelse_eq k s : b_has k B_BUSY s = true →
  brelse k s = Ret tt (released k (λ v, buf_wait s || (b_has k B_WANTED s && b_wait (buf_at s k)) || v) s).
Proof.
  intros Hb. unfold brelse. mstep. rewrite Hb. change (when true ?c) with c. mstep.
  rewrite bind_when_modify, when_wakeup. mstep. rewrite bind_when_modify, when_wakeup. mstep. unfold modify, released.
  do 3 f_equal. change (upd_woken ?f (upd_woken ?g s)) with (upd_woken (λ v, f (g v)) s). apply upd_woken_ext.
  simpl. destruct (buf_wait s); [done|]. done.
Qed.

Lemma buf_at_flags k f s j : inr s k →
  buf_at (upd_buf k (λ b, set_b_flags (f (b_flags b)) b) s) j =
  if decide (j = k) then set_b_flags (f (b_flags (buf_at s k))) (buf_at s k) else buf_at s j.
Proof. intros Hk. by rewrite buf_at_upd. Qed.

Lemma buf_at_released k w s j : inr s k → buf_at (released k w s) j =
  if decide (j = k) then set_b_flags (Z.land (b_flags (buf_at s k)) (Z.lnot (Z.lor B_WANTED (Z.lor B_BUSY B_ASY)))) (buf_at s k)
  else buf_at s j.
Proof. intros Hk. by apply (buf_at_flags k (λ f, Z.land f _) (upd_woken w s)). Qed.

Lemma released_changed k w s : inr s k → changed s (released k w s) k.
Proof.
  intros Hk. split; try done.
  - unfold released, clear_flags, upd_buf. simpl. apply zlen_zalter.
  - intros j Hj. by rewrite buf_at_released, decide_False.
Qed.

Section flag_change.
Context (s s' : io C) (fl : list Z) (hl : Z → list Z) (q : list Z) (k f : Z).
Hypothesis Hb : binv s fl hl q.
Hypothesis Hk : inr s k.
Hypothesis Hc : changed s s' k.
Hypothesis Hbuf : buf_at s' k = set_b_flags f (buf_at s k).

Lemma flag_hashed : hashed s' hl k ↔ hashed s hl k.
Proof. unfold hashed. by rewrite Hbuf. Qed.
Lemma flag_has m : b_has k m s' = has f m.
Proof. unfold b_has. by rewrite Hbuf. Qed.
Lemma flag_apart : live s' hl k → (has f B_ASY = true → b_has k B_ASY s = true) →
  ∀ j, inr s j → j ≠ k → live s hl j → ¬ at_blk s j (b_dev (buf_at s' k)) (b_blocknr (buf_at s' k)).
Proof.
  intros Hl Ha j Hj Hne Hlj Hat. rewrite Hbuf in Hat. apply Hne. apply (bi_uniq _ _ _ _ Hb); try done.
  destruct Hl as [Hl|Hl]; [left; by apply flag_hashed|right; rewrite flag_has in Hl; by apply Ha].
Qed.
Lemma flag_hidx h : k ∈ hl h → h = hidx (b_dev (buf_at s' k)) (b_blocknr (buf_at s' k)).
Proof. rewrite Hbuf. apply (bi_hl _ _ _ _ Hb). Qed.
Lemma flag_buf fl' : (k ∈ fl' ↔ has f B_BUSY = false) → has f B_ERROR = false →
  (has f B_DIRTY = true → hashed s hl k ∧ has f B_DONE = true) →
  (has f B_ASY = true → has f B_BUSY = true ∧ has f B_DONE = true ∧ b_has k B_ASY s = true) →
  (hashed s hl k → has f B_DONE = false → has f B_READ = true) →
  (hashed s hl k → has f B_DONE = true → has f B_DIRTY = false →
    b_data (buf_at s k) = disk_block s (b_dev (buf_at s k)) (b_blocknr (buf_at s k))) →
  buf_ok s' fl' hl k.
Proof.
  intros H1 H2 H3 H4 H5 H6. destruct (bi_buf _ _ _ _ Hb k Hk) as [G1 G2 G3 G4 G5 G6 G7 G8].
  split; rewrite ?flag_has, ?flag_hashed, ?Hbuf, ?(changed_disk _ _ _ Hc), ?(changed_blk _ _ _ Hc); try done.
  intros Ha. destruct (H4 Ha) as (? & ? & Ha'). destruct (G5 Ha') as (_ & _ & ? & ?). done.
Qed.
End flag_change.

(** The requests of other buffers. *)
Lemma changed_reqs s s' fl hl q (l : list Z) k : binv s fl hl q → changed s s' k → (∀ r, r ∈ l → r ∈ q) →
  (∀ r, r ∈ l → req_at s' r = req_at s r ∧ r_buf (req_at s r) ≠ k) → (∀ r, r ∈ l → req_ok s' hl r).
Proof.
  intros Hb Hc Hsub Hr r Hin. destruct (Hr r Hin) as [He Hne].
  eapply changed_req; [exact Hc|done|by apply (bi_req _ _ _ _ Hb), Hsub|done|done].
Qed.
Lemma tgt_same s s' (l : list Z) : (∀ r, r ∈ l → r_buf (req_at s' r) = r_buf (req_at s r)) → tgt s' l = tgt s l.
Proof. intros He. apply list_fmap_ext. intros i r Hr%list_elem_of_lookup_2. by apply He. Qed.
Lemma not_tgt s (q : list Z) k r : k ∉ tgt s q → r ∈ q → r_buf (req_at s r) ≠ k.
Proof. intros Hn Hr <-. apply Hn. apply list_elem_of_fmap. eauto. Qed.

Section release.
Context (s s' : io C) (fl : list Z) (hl : Z → list Z) (q : list Z) (k : Z).
Hypothesis Hb : binv s fl hl q.
Hypothesis Hk : inr s k.
Hypothesis Hq : k ∉ tgt s q.
Hypothesis Hasy : b_has k B_ASY s = true → b_data (buf_at s k) = disk_block s (b_dev (buf_at s k)) (b_blocknr (buf_at s k)).
Hypothesis Hc : changed s s' k.
Hypothesis Hl : lists_ok bdom id s' (blists (fl ++ [k]) hl).
Hypothesis Hal : ∀ j, alone s (BRel j) → alone s' (BRel j).
Hypothesis Hbuf : buf_at s' k =
  set_b_flags (Z.land (b_flags (buf_at s k)) (Z.lnot (Z.lor B_WANTED (Z.lor B_BUSY B_ASY)))) (buf_at s k).
Hypothesis Hreq : ∀ r, req_at s' r = req_at s r.

Lemma release_gen : binv s' (fl ++ [k]) hl q.
Proof.
  destruct (bi_buf _ _ _ _ Hb k Hk) as [G1 G2 G3 G4 G5 G6 G7 G8].
  eapply (changed_binv s s' fl _ hl hl q); [exact Hb|exact Hk|exact Hc|set_solver|done|exact Hl|..].
  - eapply (flag_buf s s' fl hl q k); [exact Hb|exact Hk|exact Hc|exact Hbuf|..]; unfold b_has in *; flags; try done.
    split; [done|]. intros _. set_solver.
  - by eapply flag_hidx.
  - intros Hlv. eapply flag_apart; [exact Hb|exact Hk|exact Hbuf|exact Hlv|]. by flags.
  - intros j Hj Hne Hnh. apply Hal. by apply (bi_self _ _ _ _ Hb).
  - rewrite (flag_hashed s s' hl k _ Hbuf). intros Hnh. apply Hal. by apply (bi_self _ _ _ _ Hb).
  - eapply changed_reqs; [exact Hb|exact Hc|done|]. intros r Hr. split; [done|]. by eapply not_tgt.
  - rewrite (tgt_same s s') by (intros; by rewrite Hreq). apply (bi_tgt _ _ _ _ Hb).
Qed.
Lemma release_contents : contents_same s s'.
Proof.
  eapply changed_contents; [exact Hb|exact Hc|exact release_gen|..]; rewrite Hbuf; unfold pend; simpl; flags.
  - intros Hd. eapply contents_pend; [by eapply binv_uniq|done| |done]. unfold pend. by rewrite Hd.
  - intros [Hd|Ha]%orb_true_iff; [left; split; [done|]|right; symmetry; by apply Hasy].
    split; by rewrite Hbuf.
Qed.
End release.

Lemma release_binv s fl hl q k w : binv s fl hl q → inr s k → b_has k B_BUSY s = true → k ∉ tgt s q →
  (b_has k B_ASY s = true → b_data (buf_at s k) = disk_block s (b_dev (buf_at s k)) (b_blocknr (buf_at s k))) →
  binv (released k w s) (fl ++ [k]) hl q ∧ contents_same s (released k w s).
Proof.
  intros Hb Hk Hbusy Hq Hasy. pose proof (released_changed k w s Hk) as Hc.
  assert (k ∉ fl) as Hnf by (rewrite (bo_free _ _ _ _ (bi_buf _ _ _ _ Hb k Hk)), Hbusy; done).
  pose proof (buf_at_released k w s k Hk) as Hbuf. rewrite decide_True in Hbuf by done.
  destruct (lists_add_free (clear_flags k (Z.lor B_WANTED (Z.lor B_BUSY B_ASY)) (upd_woken w s)) fl hl k) as [Hl Hal];
    [by eapply lists_ok_frame; [apply (bi_lists _ _ _ _ Hb)|..]|done|].
  split; [by eapply release_gen|by eapply release_contents].
Qed.

(** ** The end of a request *)

Lemma tgt_head s fl hl r l : binv s fl hl (r :: l) → r_buf (req_at s r) ∉ tgt s l.
Proof. intros Hb. pose proof (bi_tgt _ _ _ _ Hb) as Hn. unfold tgt in *. rewrite fmap_cons in Hn. by apply NoDup_cons in Hn as [? _]. Qed.

Lemma done_binv s s' fl hl r l f : binv s fl hl (r :: l) →
  let k := r_buf (req_at s r) in
  b_data (buf_at s k) = disk_block s (b_dev (buf_at s k)) (b_blocknr (buf_at s k)) →
  changed s s' k → buf_at s' k = set_b_flags f (buf_at s k) →
  bnext s' = bnext s → bprev s' = bprev s → reqq s' = reqq s →
  has f B_BUSY = b_has k B_BUSY s → has f B_DIRTY = b_has k B_DIRTY s → has f B_ASY = b_has k B_ASY s →
  has f B_ERROR = b_has k B_ERROR s → has f B_DONE = true →
  binv s' fl hl l ∧ contents_same s s'.
Proof.
  intros Hb k Hdata Hc Hbuf Hn Hp Hq F1 F2 F3 F4 F5. assert (inr s k) as Hk by (apply (bi_req _ _ _ _ Hb); left).
  destruct (bi_buf _ _ _ _ Hb k Hk) as [G1 G2 G3 G4 G5 G6 G7 G8].
  assert (∀ p, alone s p → alone s' p) as Hal by (unfold alone; simpl; by rewrite Hn, Hp).
  assert (binv s' fl hl l) as Hb'.
  { eapply (changed_binv _ _ fl _ hl hl (r :: l)); try done.
    - eapply lists_ok_frame; [apply (bi_lists _ _ _ _ Hb)| |done]. simpl. by rewrite Hn, Hp.
    - eapply flag_buf; try done; rewrite ?F1, ?F2, ?F3, ?F4, ?F5; try done.
      + intros Hd. destruct (G4 Hd). done.
      + intros Ha. destruct (G5 Ha) as (? & ? & _). done.
    - by eapply flag_hidx.
    - intros Hlv. eapply flag_apart; try done. by rewrite F3.
    - intros j Hj Hne Hnh. apply Hal. by apply (bi_self _ _ _ _ Hb).
    - rewrite flag_hashed by done. intros Hnh. apply Hal. by apply (bi_self _ _ _ _ Hb).
    - eapply changed_reqs; [exact Hb|done|set_solver|]. intros j Hj. unfold req_at. rewrite Hq. split; [done|].
      eapply not_tgt; [by eapply tgt_head|done].
    - erewrite tgt_same; [|intros j _; unfold req_at; by rewrite Hq]. pose proof (bi_tgt _ _ _ _ Hb) as Hnd.
      unfold tgt in *. rewrite fmap_cons in Hnd. by apply NoDup_cons in Hnd as [_ ?]. }
  split; [done|]. eapply changed_contents; [exact Hb|exact Hc|exact Hb'|..]; rewrite Hbuf; unfold pend; simpl; rewrite F2, F3.
  - intros Hpd. eapply contents_pend; [by eapply binv_uniq|done|done|done].
  - intros _. by right.
Qed.

(** What [iodone] leaves of the state. *)
Record completed (s s' : io C) (k : Z) : Prop := {
  cp_buf j : j ≠ k → buf_at s' j = buf_at s j;
  cp_same : b_dev (buf_at s' k) = b_dev (buf_at s k) ∧ b_blocknr (buf_at s' k) = b_blocknr (buf_at s k) ∧
    b_data (buf_at s' k) = b_data (buf_at s k) ∧ b_wait (buf_at s' k) = b_wait (buf_at s k) ∧
    b_count (buf_at s' k) = b_count (buf_at s k);
  cp_flags : if b_has k B_ASY s then b_has k B_BUSY s' = false ∧ b_has k B_ASY s' = false
    else b_has k B_DONE s' = true ∧ b_has k B_BUSY s' = b_has k B_BUSY s ∧ b_has k B_ASY s' = false;
  cp_len : zlen (bufs s') = zlen (bufs s);
  cp_req : reqq s' = reqq s ∧ rnext s' = rnext s ∧ rprev s' = rprev s ∧ cur_req s' = cur_req s;
  cp_io : dev_infos s' = dev_infos s ∧ dma_ide_flag s' = dma_ide_flag s ∧ ctl s' = ctl s ∧ prdbuff s' = prdbuff s;
  cp_wait : buf_wait s' = buf_wait s ∧ req_wait s' = req_wait s;
  cp_woken : woken s' = (if b_has k B_ASY s then buf_wait s || (b_has k B_WANTED s && b_wait (buf_at s k))
    else b_wait (buf_at s k)) || woken s;
}.

Section iodone.
Context (s : io C) (fl : list Z) (hl : Z → list Z) (r : Z) (l : list Z).
Hypothesis Hb : binv s fl hl (r :: l).
#[local] Notation k := (r_buf (req_at s r)).
Hypothesis Hdata : b_data (buf_at s k) = disk_block s (b_dev (buf_at s k)) (b_blocknr (buf_at s k)).
#[local] Notation s1 := (set_flags k B_DONE s).

Lemma iodone_inr : inr s k.
Proof. apply (bi_req _ _ _ _ Hb). left. Qed.
Lemma iodone_len : zlen (bufs s1) = zlen (bufs s).
Proof. apply zlen_zalter. Qed.
Lemma iodone_buf j : buf_at s1 j =
  if decide (j = k) then set_b_flags (Z.lor (b_flags (buf_at s k)) B_DONE) (buf_at s k) else buf_at s j.
Proof. apply (buf_at_flags k (λ f, Z.lor f B_DONE) s), iodone_inr. Qed.
Lemma iodone_has m : b_has k m s1 = b_has k m s || has B_DONE m.
Proof. unfold b_has. rewrite iodone_buf, decide_True by done. simpl. by rewrite has_lor. Qed.

(** The end of a write: the buffer is released. *)
Lemma iodone_write : b_has k B_ASY s = true → ∃ s', iodone k s = Ret tt s' ∧ completed s s' k ∧ contents_same s s' ∧
  binv s' (fl ++ [k]) hl l.
Proof.
  intros Hasy. pose proof iodone_inr as Hk. destruct (bo_asy _ _ _ _ (bi_buf _ _ _ _ Hb k Hk) Hasy) as (Hbusy & Hdone & Hnh & Hok).
  unfold iodone. mstep. rewrite iodone_has. change (has B_DONE B_ASY) with false. rewrite orb_false_r, Hasy.
  rewrite brelse_eq by (by rewrite iodone_has, Hbusy).
  destruct (done_binv s s1 fl hl r l (Z.lor (b_flags (buf_at s k)) B_DONE) Hb Hdata) as [Hb' Hcs];
    try (unfold b_has; by flags); try done.
  { split; try done; [apply iodone_len|]. intros j Hj. by rewrite iodone_buf, decide_False. }
  { by rewrite iodone_buf, decide_True. }
  assert (inr s1 k) as Hk1 by (unfold inr; by rewrite iodone_len).
  match goal with |- context [released k ?w _] => set (w0 := w) end.
  destruct (release_binv s1 fl hl l k w0) as [Hb2 Hcs2]; try done.
  { by rewrite iodone_has, Hbusy. }
  { erewrite tgt_same; [by eapply tgt_head|done]. }
  { intros _. rewrite iodone_buf, decide_True by done. exact Hdata. }
  eexists. split; [done|]. pose proof (λ j, buf_at_released k w0 s1 j Hk1) as Hbr. split; [|split; [|exact Hb2]].
  - split; try done.
    + intros j Hj. by rewrite Hbr, decide_False, iodone_buf, decide_False.
    + by rewrite Hbr, decide_True, iodone_buf, decide_True.
    + rewrite Hasy. unfold b_has. rewrite Hbr, decide_True, iodone_buf, decide_True by done. simpl. by flags.
    + unfold released, clear_flags, upd_buf. simpl. by rewrite !zlen_zalter.
    + rewrite Hasy. unfold w0, released. simpl. rewrite iodone_has, iodone_buf, decide_True by done. simpl.
      change (has B_DONE B_WANTED) with false. by rewrite orb_false_r.
  - intros d b Hd. rewrite Hcs2, Hcs; [done|done|by eapply blk_ok_ext].
Qed.

(** The end of a read: the process that waits for it is woken. *)
Lemma iodone_read : b_has k B_ASY s = false → ∃ s', iodone k s = Ret tt s' ∧ completed s s' k ∧ contents_same s s' ∧
  binv s' fl hl l.
Proof.
  intros Hasy. pose proof iodone_inr as Hk. destruct (bi_req _ _ _ _ Hb r ltac:(left)) as [_ _ [[_ Ha]|(_ & Hh & Hbusy & Hdone)]].
  { by rewrite Ha in Hasy. }
  pose proof (bo_read _ _ _ _ (bi_buf _ _ _ _ Hb k Hk) Hh Hdone) as Hrd.
  unfold iodone. mstep. rewrite iodone_has. change (has B_DONE B_ASY) with false. rewrite orb_false_r, Hasy. mstep.
  rewrite iodone_has, Hrd. change (true || has B_DONE B_READ) with true. unfold when. mstep. unfold modify. rewrite wakeup_eq.
  set (s2 := clear_flags k B_READ s1). set (s3 := upd_woken _ s2).
  set (f := Z.land (Z.lor (b_flags (buf_at s k)) B_DONE) (Z.lnot B_READ)).
  assert (∀ j, buf_at s3 j = if decide (j = k) then set_b_flags f (buf_at s k) else buf_at s j) as Hb2.
  { intros j. change (buf_at s3 j) with (buf_at s2 j). unfold s2, clear_flags.
    rewrite (buf_at_flags k (λ f, Z.land f (Z.lnot B_READ))) by (unfold inr; by rewrite iodone_len).
    rewrite !iodone_buf. rewrite (decide_True (P := k = k)) by done. by case_decide. }
  assert (zlen (bufs s3) = zlen (bufs s)) as Hz by (unfold s3, s2, clear_flags, upd_buf; simpl; by rewrite !zlen_zalter).
  destruct (done_binv s s3 fl hl r l f Hb Hdata) as [Hb' Hcs]; try (unfold f, b_has; by flags); try done.
  { split; try done. intros j Hj. by rewrite Hb2, decide_False. }
  { by rewrite Hb2, decide_True. }
  exists s3. split; [done|]. split; [|done]. split; try done.
  - intros j Hj. by rewrite Hb2, decide_False.
  - by rewrite Hb2, decide_True.
  - rewrite Hasy. unfold b_has in *. rewrite Hb2, decide_True by done. unfold f. simpl. flags. by rewrite Hasy.
  - rewrite Hasy. unfold s3. simpl. change (buf_at s2 k) with (buf_at s3 k). by rewrite Hb2, decide_True.
Qed.

Lemma iodone_spec : ∃ s', iodone k s = Ret tt s' ∧ completed s s' k ∧ contents_same s s' ∧
  binv s' (if b_has k B_ASY s then fl ++ [k] else fl) hl l.
Proof. destruct (b_has k B_ASY s) eqn:Hasy; [by apply iodone_write|by apply iodone_read]. Qed.
End iodone.

(** ** The next request *)

(** Only the queue, the controller and the like change. *)
Record buf_same (s s' : io C) : Prop := {
  bs_bufs : bufs s' = bufs s;
  bs_next : bnext s' = bnext s;
  bs_prev : bprev s' = bprev s;
  bs_reqq : reqq s' = reqq s;
  bs_io : dev_infos s' = dev_infos s ∧ dma_ide_flag s' = dma_ide_flag s;
  bs_wait : buf_wait s' = buf_wait s ∧ req_wait s' = req_wait s;
  bs_prd : zlen (prdbuff s') = 1024;
  bs_disk i : platter (ctl s') i = platter (ctl s) i;
}.
Lemma bs_buf s s' k : buf_same s s' → buf_at s' k = buf_at s k.
Proof. intros Hs. unfold buf_at. by rewrite (bs_bufs _ _ Hs). Qed.
Lemma bs_req s s' r : buf_same s s' → req_at s' r = req_at s r.
Proof. intros Hs. unfold req_at. by rewrite (bs_reqq _ _ Hs). Qed.
Lemma buf_same_moved s s' fl hl q : binv s fl hl q → buf_same s s' → moved s s' q.
Proof.
  intros Hb Hs. pose proof Hs as [H1 H2 H3 H4 [H5 _] _ H6 H7]. split; try done.
  - by rewrite H1.
  - intros k. by rewrite (bs_buf s).
  - intros k Hk. rewrite (bs_buf s) by done. split; [|done]. by apply (bi_buf _ _ _ _ Hb).
  - intros r _. by rewrite (bs_req s).
  - intros d b _. left. unfold disk_block. by rewrite !H7, (sec_of_ext s s') by done.
Qed.

Lemma free_cur_req_spec s rf r l : rinv s rf (r :: l) → zlen (prdbuff s) = 1024 →
  ∃ s', free_cur_req s = Ret (bool_decide (l ≠ [])) s' ∧ rinv s' (r :: rf) l ∧ buf_same s s' ∧ ctl s' = ctl s ∧
    woken s' = (bool_decide (rf = []) && req_wait s) || woken s.
Proof.
  intros [Hrf Hnd Hrg Hsm (Hcur & Hq & Hn)] Hprd. unfold free_cur_req. mstep.
  rewrite (list_empty_spec _ _ _ Hrf). set (s1 := upd_woken (λ v, (bool_decide (rf = []) && req_wait s) || v) s).
  assert (∀ B (f : unit → M (io C) B), (when (bool_decide (RNode <$> rf = [])) (modify (wakeup WReq)) ≫= f) s = f tt s1) as Hw.
  { intros B f. unfold s1. destruct rf as [|x rf]; simpl; unfold when; mstep; [by rewrite wakeup_eq|].
    unfold mbind, M_bind, mret, M_ret. f_equal. by destruct s. }
  rewrite Hw. mstep. change (cur_req s1) with (cur_req s). rewrite Hcur. simpl from_opt. mstep.
  change (list_empty (RNode r) s1) with (list_empty (RNode r) s). rewrite (list_empty_spec _ _ _ Hq).
  assert (RNode r ∉ RFree :: (RNode <$> rf)) as Hrn.
  { apply NoDup_app in Hnd as (_ & Hd & _). rewrite elem_of_cons, list_elem_of_fmap. intros [|(? & [= ->] & Hx)]; [done|].
    apply (Hd _ Hx). left. }
  assert (NoDup ((r :: rf) ++ l)) as Hnd' by (by rewrite <-Permutation_middle in Hnd).
  destruct l as [|n l].
  - rewrite bool_decide_true by done. mstep. eexists. split; [done|]. split; [|split; [by split|done]]. split; try done.
    + apply list_add_head_is_list; [|done|done]. eapply is_list_frame; [exact Hrf|done|done].
    + intros x Hx. apply Hrg. set_solver.
  - rewrite bool_decide_false by done. mstep. change (nxt s1 (RNode r)) with (nxt s (RNode r)).
    rewrite (is_list_nxt_hd _ _ _ Hq). unfold fst_or. simpl head. simpl default. mstep.
    rewrite fmap_cons in Hq. pose proof (is_list_rotate _ _ _ _ Hq) as Hrot.
    set (s2 := upd_cur_req (λ _, Some n) s1).
    assert (is_list s2 (RNode n) ((RNode <$> l) ++ RNode r :: [])) as Hr2 by (eapply is_list_frame; [exact Hrot|done|done]).
    assert (is_list s2 RFree (RNode <$> rf)) as Hf2 by (eapply is_list_frame; [exact Hrf|done|done]).
    destruct (list_del1_is_list _ _ _ _ _ Hr2) as [Hr3 _]. rewrite app_nil_r in Hr3.
    assert (∀ p, p ∈ RFree :: (RNode <$> rf) → p ∉ RNode n :: (RNode <$> l) ++ [RNode r]) as Hdis.
    { intros p Hp Hp'. rewrite elem_of_cons, list_elem_of_fmap in Hp. destruct Hp as [->|(x & -> & Hx)]; [set_solver|].
      assert (x ∈ r :: n :: l) as Hx' by set_solver. apply NoDup_app in Hnd as (_ & Hd & _). by apply (Hd x). }
    assert (is_list (list_del1 (RNode r) s2) RFree (RNode <$> rf)) as Hf3.
    { eapply is_list_frame; [exact Hf2| |done]. intros p Hp. eapply list_del1_others; [exact Hr2|by apply Hdis]. }
    eexists. split; [done|]. split; [|split; [by split|done]]. split; try done.
    + by apply list_add_head_is_list.
    + intros x Hx. apply Hrg. set_solver.
    + split; [done|]. split; [|intros x Hx; apply Hn; by right].
      eapply is_list_frame; [exact Hr3| |done]. intros p Hp. eapply list_add_head_others; [exact Hf3|done|done|].
      intros [-> |Hp']%elem_of_cons; [|by eapply (Hdis p); [|set_solver]].
      apply NoDup_app in Hnd' as (_ & Hd & _). apply (Hd r); [left|]. set_solver.
Qed.

Lemma req_blk s fl hl q r : binv s fl hl q → r ∈ q →
  blk_ok s (b_dev (buf_at s (r_buf (req_at s r)))) (b_blocknr (buf_at s (r_buf (req_at s r)))).
Proof.
  intros Hb Hr. destruct (bi_req _ _ _ _ Hb r Hr) as [Hi _ Hkind]. destruct (bi_buf _ _ _ _ Hb _ Hi) as [_ _ _ _ Ha Hh _ _].
  destruct Hkind as [[_ H]|(_ & H & _)]; [by apply Ha in H as (_ & _ & _ & ?)|by apply Hh].
Qed.
Lemma blk_lba s d b : blk_ok s d b → lba_ok (sec_of s d b) 2.
Proof.
  intros (_ & _ & _ & Hb & di & Hp & _ & Hn & [Hl1 Hl2]). unfold sec_of. rewrite Hp. simpl. unfold lba_ok. lia.
Qed.

(** Giving the controller the command of the request. *)
Lemma issue_spec s r cmd : job (ctl s) = None → lba_ok (r_sec (req_at s r)) (r_nsec (req_at s r)) →
  ∃ c n, issue cmd r s = Ret true (upd_need_reset n (upd_ctl (λ _, c) s)) ∧
    job c = Some (cmd, r_sec (req_at s r), r_nsec (req_at s r)) ∧ ∀ i, platter c i = platter (ctl s) i.
Proof.
  intros Hj Hl. destruct (cmd_ok cmd _ _ _ Hj Hl) as (c & t & Hc & Hj' & Hp).
  exists c, (λ r, r || t). split; [|done]. unfold issue. mstep.
  erewrite bind_eval; [|unfold ide_cmd_func; rewrite Hc; reflexivity]. done.
Qed.

Lemma rinv_ext s s' rf q : rinv s rf q → rnext s' = rnext s → rprev s' = rprev s → cur_req s' = cur_req s →
  zlen (reqq s') = zlen (reqq s) → (∀ r, r_nsec (req_at s r) = 2 → r_nsec (req_at s' r) = 2) → rinv s' rf q.
Proof.
  intros [H1 H2 H3 H4 H5] Hn Hp Hc Hz Hr.
  assert (∀ hd l, is_list s (hd : rptr) l → is_list s' hd l) as Hl.
  { intros hd l Hl. eapply is_list_frame; [exact Hl| |done]. simpl. by rewrite Hn, Hp. }
  split; [by apply Hl|done|by rewrite Hz|done|]. destruct q as [|r q]; [by rewrite Hc|]. destruct H5 as (? & ? & Hns).
  rewrite Hc. split; [done|]. split; [by apply Hl|]. intros r' Hr'. by apply Hr, Hns.
Qed.

Lemma finish_cmd_spec s fl hl rf r l : binv s fl hl (r :: l) → rinv s rf (r :: l) → r_nsec (req_at s r) = 2 →
  job (ctl s) = None →
  ∃ s', finish_cmd s = Ret true s' ∧ cinv s' fl hl rf (r :: l) ∧ buf_same s s' ∧ woken s' = woken s.
Proof.
  intros Hb Hr Hn Hj. pose proof (ri_queue _ _ _ Hr) as (Hcur & _ & _).
  destruct (bi_req _ _ _ _ Hb r ltac:(left)) as [Hi Hsec Hkind]. pose proof (bi_prd _ _ _ _ Hb) as Hprd.
  assert (lba_ok (r_sec (req_at s r)) (r_nsec (req_at s r))) as Hlba.
  { rewrite Hn, Hsec. apply blk_lba. eapply req_blk; [done|left]. }
  assert (∀ s', buf_same s s' → rnext s' = rnext s → rprev s' = rprev s → cur_req s' = cur_req s → cur_ok s' r →
    cinv s' fl hl rf (r :: l)) as Hci.
  { intros s' Hs E1 E2 E3 Hcr. split; [eapply moved_binv; [exact Hb|by eapply buf_same_moved]| |done].
    eapply rinv_ext; [exact Hr|done..|by rewrite (bs_reqq _ _ Hs)|]. intros j. by rewrite (bs_req s s'). }
  unfold finish_cmd. mstep. rewrite Hcur. simpl from_opt. mstep.
  destruct Hkind as [[Hrw Hasy]|(Hrw & _)]; rewrite Hrw; simpl.
  - mstep. set (data := b_data _). assert (zlen data = 1024) as Hlen by (by apply (bi_buf _ _ _ _ Hb)).
    destruct (dma_ide_flag s) eqn:Hd; unfold when; mstep.
    + set (s1 := upd_prdbuff _ s). destruct (issue_spec s1 r DMA_WRITE_CMD Hj Hlba) as (c & n & He & Hjc & Hp).
      rewrite (bind_eval _ _ _ _ _ He). mstep. eexists. split; [done|].
      assert (prdbuff s1 = data) as Hpd by (unfold s1; simpl; rewrite slice_all, memcpy_all by lia; done).
      assert (buf_same s (upd_need_reset n (upd_ctl (λ _, c) s1))) as Hs
        by (split; try done; change (zlen (prdbuff s1) = 1024); by rewrite Hpd).
      split; [|done]. apply Hci; try done. unfold cur_ok. rewrite (bs_req s) by done. rewrite (bs_buf s) by done.
      simpl. rewrite Hd, Hrw. simpl. rewrite Hjc. change (req_at s1 r) with (req_at s r). rewrite Hn. done.
    + destruct (issue_spec s r WRITE_CMD Hj Hlba) as (c & n & He & Hjc & Hp).
      rewrite (bind_eval _ _ _ _ _ He). mstep. eexists. split; [done|].
      destruct (out_ok (slice 0 SECTOR data) c) as (Ho1 & Ho2 & Ho3).
      match goal with |- context [cinv ?x] => assert (buf_same s x) as Hs by (split; try done; simpl; intros i; by rewrite Ho3, Hp) end.
      split; [|done]. apply Hci; try done. unfold cur_ok. rewrite (bs_req s) by done. rewrite (bs_buf s) by done.
      simpl. rewrite Hd, Hrw. simpl. left. rewrite Ho1, Ho2, Hjc, Hn. done.
  - destruct (issue_spec s r (if dma_ide_flag s then DMA_READ_CMD else READ_CMD) Hj Hlba) as (c & n & He & Hjc & Hp).
    rewrite He. eexists. split; [done|].
    assert (buf_same s (upd_need_reset n (upd_ctl (λ _, c) s))) as Hs by (by split).
    split; [|done]. apply Hci; try done. unfold cur_ok. rewrite (bs_req s) by done. simpl. rewrite Hrw. simpl. rewrite Hjc, Hn.
    destruct (dma_ide_flag s); [done|by left].
Qed.

(** ** What interrupts do to the rest of the cache *)

(** A buffer but for who waits for it. *)
Definition nb (b : buf_head) : buf_head := set_b_wait false b.
Lemma nb_has s s' k m : nb (buf_at s' k) = nb (buf_at s k) → b_has k m s' = b_has k m s.
Proof. intros He. unfold b_has. apply (f_equal b_flags) in He. simpl in He. by rewrite He. Qed.

Definition waits_same (s s' : io C) : Prop :=
  buf_wait s' = buf_wait s ∧ req_wait s' = req_wait s ∧ ∀ k, b_wait (buf_at s' k) = b_wait (buf_at s k).

Record evo (s : io C) (fl q : list Z) (s' : io C) (fl' q' : list Z) : Prop := {
  ev_contents : contents_same s s';
  ev_len : zlen (bufs s') = zlen (bufs s) ∧ zlen (reqq s') = zlen (reqq s);
  ev_infos : dev_infos s' = dev_infos s;
  ev_id k : b_dev (buf_at s' k) = b_dev (buf_at s k) ∧ b_blocknr (buf_at s' k) = b_blocknr (buf_at s k) ∧
    b_count (buf_at s' k) = b_count (buf_at s k);
  ev_req r : r ∈ q' → r ∈ q ∧ r_buf (req_at s' r) = r_buf (req_at s r);
  ev_buf k : k ∉ tgt s q → nb (buf_at s' k) = nb (buf_at s k);
  ev_tgt k : k ∈ tgt s' q' → k ∈ tgt s q ∧ b_flags (buf_at s' k) = b_flags (buf_at s k);
  ev_done k : k ∈ tgt s q → k ∉ tgt s' q' →
    if b_has k B_ASY s then b_has k B_BUSY s' = false ∧ b_has k B_ASY s' = false
    else b_has k B_DONE s' = true ∧ b_has k B_BUSY s' = b_has k B_BUSY s ∧ b_has k B_ASY s' = false;
  ev_free : ∃ new, fl' = fl ++ new ∧ ∀ k, k ∈ new → k ∈ tgt s q ∧ k ∉ tgt s' q' ∧ b_has k B_DIRTY s' = false;
}.

Lemma waits_trans s s1 s2 : waits_same s s1 → waits_same s1 s2 → waits_same s s2.
Proof.
  intros (H1 & H2 & Hb) (H3 & H4 & Hb'). split; [congruence|]. split; [congruence|]. intros k. by rewrite Hb'.
Qed.
Lemma evo_refl s fl q : evo s fl q s fl q.
Proof. split; try done. exists []. rewrite app_nil_r. split; [done|]. intros k. set_solver. Qed.

Lemma evo_trans s fl q s1 fl1 q1 s2 fl2 q2 : evo s fl q s1 fl1 q1 → evo s1 fl1 q1 s2 fl2 q2 → evo s fl q s2 fl2 q2.
Proof.
  intros E1 E2. assert (∀ k, k ∉ tgt s q → k ∉ tgt s1 q1) as Hnt by (intros k Hk Hk1; by apply Hk, (ev_tgt _ _ _ _ _ _ E1)).
  split.
  - intros d b Hd. rewrite (ev_contents _ _ _ _ _ _ E2), (ev_contents _ _ _ _ _ _ E1); [done|done|].
    eapply blk_ok_ext; [apply (ev_infos _ _ _ _ _ _ E1)|done].
  - destruct (ev_len _ _ _ _ _ _ E1), (ev_len _ _ _ _ _ _ E2). split; congruence.
  - rewrite (ev_infos _ _ _ _ _ _ E2). apply E1.
  - intros k. destruct (ev_id _ _ _ _ _ _ E1 k) as (<- & <- & <-). apply E2.
  - intros r Hr. destruct (ev_req _ _ _ _ _ _ E2 r Hr) as [Hr1 ->]. by apply E1.
  - intros k Hk. rewrite (ev_buf _ _ _ _ _ _ E2) by auto. by apply E1.
  - intros k Hk. destruct (ev_tgt _ _ _ _ _ _ E2 k Hk) as [Hk1 ->]. by apply E1.
  - intros k Hk Hk2. destruct (decide (k ∈ tgt s1 q1)) as [Hk1|Hk1].
    + destruct (ev_tgt _ _ _ _ _ _ E1 k Hk1) as [_ Hf]. pose proof (ev_done _ _ _ _ _ _ E2 k Hk1 Hk2) as Hd.
      unfold b_has in *. by rewrite Hf in Hd.
    + pose proof (ev_done _ _ _ _ _ _ E1 k Hk Hk1) as Hd. by rewrite !(nb_has s1 s2) by by apply (ev_buf _ _ _ _ _ _ E2).
  - destruct (ev_free _ _ _ _ _ _ E1) as (n1 & -> & Hn1), (ev_free _ _ _ _ _ _ E2) as (n2 & -> & Hn2).
    exists (n1 ++ n2). split; [by rewrite app_assoc|]. intros k [Hk|Hk]%elem_of_app.
    + destruct (Hn1 k Hk) as (Ht & Ht1 & Hd). split; [done|]. split.
      * intros Hk2. by apply Ht1, (ev_tgt _ _ _ _ _ _ E2).
      * by rewrite (nb_has s1 s2) by by apply (ev_buf _ _ _ _ _ _ E2).
    + destruct (Hn2 k Hk) as (Ht & Ht1 & Hd). split; [|done]. by apply (ev_tgt _ _ _ _ _ _ E1).
Qed.

(** Whether the end of the request of buffer [k] wakes the process up, by
    itself and with the request that becomes free. *)
Definition wakes_buf (s : io C) (k : Z) : bool :=
  if b_has k B_ASY s then buf_wait s || (b_has k B_WANTED s && b_wait (buf_at s k)) else b_wait (buf_at s k).
Definition wakes (s : io C) (rf : list Z) (k : Z) : bool :=
  (bool_decide (rf = []) && req_wait s) || wakes_buf s k.

(** The bottom half after a transfer that ends the request. *)
Definition request_end (k : Z) : M (io C) unit :=
  iodone k;;
  left ← free_cur_req;
  if (left : bool) then finish_cmd ≫= λ _, mret tt else mret tt.

Lemma completed_evo s s1 s' fl fl' hl r l : binv s fl hl (r :: l) → binv s1 fl' hl l →
  let k := r_buf (req_at s r) in
  completed s s1 k → contents_same s s1 → fl' = (if b_has k B_ASY s then fl ++ [k] else fl) → buf_same s1 s' →
  contents_same s1 s' → evo s fl (r :: l) s' fl' l.
Proof.
  intros Hb Hb1 k Hcp Hcs Hfl Hs Hcs'. pose proof (tgt_head _ _ _ _ _ Hb) as Hkl.
  destruct (cp_req _ _ _ Hcp) as (Hrq & _). assert (∀ j, req_at s' j = req_at s j) as Hrj.
  { intros j. rewrite (bs_req s1) by done. unfold req_at. by rewrite Hrq. }
  assert (tgt s' l = tgt s l) as Htg by (apply tgt_same; intros j _; by rewrite Hrj).
  assert (∀ j m, b_has j m s' = b_has j m s1) as Hhs by (intros j m; unfold b_has; by rewrite (bs_buf s1)).
  split.
  - intros d b Hd. rewrite Hcs', Hcs; [done|done|]. eapply blk_ok_ext; [by apply (cp_io _ _ _ Hcp)|done].
  - by rewrite (bs_bufs _ _ Hs), (bs_reqq _ _ Hs), Hrq, (cp_len _ _ _ Hcp).
  - rewrite (proj1 (bs_io _ _ Hs)). apply (cp_io _ _ _ Hcp).
  - intros j. rewrite (bs_buf s1) by done. destruct (decide (j = k)) as [->|]; [|by rewrite (cp_buf _ _ _ Hcp)].
    destruct (cp_same _ _ _ Hcp) as (-> & -> & _ & _ & ->). done.
  - intros j Hj. rewrite Hrj. split; [by right|done].
  - intros j Hj. rewrite (bs_buf s1) by done. f_equal. apply (cp_buf _ _ _ Hcp). intros ->. apply Hj. left.
  - intros j Hj. rewrite Htg in Hj. split; [by right|]. rewrite (bs_buf s1) by done.
    rewrite (cp_buf _ _ _ Hcp); [done|]. by intros ->.
  - intros j Hj Hnj. rewrite Htg in Hnj. apply elem_of_cons in Hj as [->|]; [|done].
    rewrite !Hhs. apply (cp_flags _ _ _ Hcp).
  - destruct (b_has k B_ASY s) eqn:Hasy; subst fl'; [|exists []; rewrite app_nil_r; set_solver].
    exists [k]. split; [done|]. intros j ->%list_elem_of_singleton. split; [left|]. split; [by rewrite Htg|].
    rewrite Hhs. assert (inr s k) as Hk by (apply (bi_req _ _ _ _ Hb); left).
    destruct (b_has k B_DIRTY s1) eqn:Hdi; [|done]. exfalso. destruct (bi_buf _ _ _ _ Hb k Hk) as [_ _ _ _ Ha _ _ _].
    destruct (Ha Hasy) as (_ & _ & Hnh & _). apply Hnh.
    destruct (bo_dirty _ _ _ _ (bi_buf _ _ _ _ Hb1 k ltac:(unfold inr; by rewrite (cp_len _ _ _ Hcp))) Hdi) as [Hh _].
    unfold hashed in *. by destruct (cp_same _ _ _ Hcp) as (<- & <- & _).
Qed.
Lemma completed_waits s s1 s' k : completed s s1 k → buf_same s1 s' → waits_same s s'.
Proof.
  intros Hcp Hs. destruct (bs_wait _ _ Hs) as [H1 H2], (cp_wait _ _ _ Hcp) as [H3 H4].
  split; [congruence|]. split; [congruence|]. intros j. rewrite (bs_buf s1) by done.
  destruct (decide (j = k)) as [->|]; [|by rewrite (cp_buf _ _ _ Hcp)]. by destruct (cp_same _ _ _ Hcp) as (_ & _ & _ & -> & _).
Qed.

Lemma buf_same_contents s s' fl hl q : binv s fl hl q → buf_same s s' → contents_same s s'.
Proof. intros Hb Hs. eapply moved_contents; [exact Hb|by eapply buf_same_moved]. Qed.
Lemma buf_same_trans s s1 s2 : buf_same s s1 → buf_same s1 s2 → buf_same s s2.
Proof.
  intros [A1 A2 A3 A4 [A5 A5'] [A6 A6'] A7 A8] [B1 B2 B3 B4 [B5 B5'] [B6 B6'] B7 B8].
  split; try congruence; split; congruence.
Qed.

Lemma request_end_spec s fl hl rf r l : binv s fl hl (r :: l) → rinv s rf (r :: l) → job (ctl s) = None →
  let k := r_buf (req_at s r) in
  b_data (buf_at s k) = disk_block s (b_dev (buf_at s k)) (b_blocknr (buf_at s k)) →
  ∃ s' fl', request_end k s = Ret tt s' ∧ cinv s' fl' hl (r :: rf) l ∧ evo s fl (r :: l) s' fl' l ∧ waits_same s s' ∧
    woken s' = wakes s rf k || woken s.
Proof.
  intros Hb Hr Hj k Hdata. destruct (iodone_spec s fl hl r l Hb Hdata) as (s1 & He1 & Hcp & Hcs & Hb1). fold k in He1, Hcp, Hb1.
  set (fl' := if b_has k B_ASY s then fl ++ [k] else fl) in *.
  destruct (cp_req _ _ _ Hcp) as (R1 & R2 & R3 & R4). destruct (cp_io _ _ _ Hcp) as (I1 & I2 & I3 & I4).
  assert (rinv s1 rf (r :: l)) as Hr1.
  { eapply rinv_ext; [exact Hr|done..|by rewrite R1|]. intros j. unfold req_at. by rewrite R1. }
  destruct (free_cur_req_spec s1 rf r l Hr1) as (s2 & He2 & Hr2 & Hs2 & Hc2 & Hw2).
  { rewrite I4. apply (bi_prd _ _ _ _ Hb). }
  pose proof (moved_binv _ _ _ _ _ Hb1 (buf_same_moved _ _ _ _ _ Hb1 Hs2)) as Hb2.
  assert (woken s2 = wakes s rf k || woken s) as Hw.
  { rewrite Hw2, (cp_woken _ _ _ Hcp), (proj2 (cp_wait _ _ _ Hcp)). unfold wakes. by rewrite orb_assoc. }
  unfold request_end. rewrite (bind_eval _ _ _ _ _ He1). cbv beta iota. rewrite (bind_eval _ _ _ _ _ He2). cbv beta iota.
  destruct l as [|n l].
  - exists s2, fl'. split; [done|].
    split; [split; [done|done|simpl; by rewrite Hc2, I3]|]. split; [|split; [by eapply completed_waits|done]].
    eapply (completed_evo s s1); try done. by eapply buf_same_contents.
  - rewrite bool_decide_true by done. destruct (finish_cmd_spec s2 fl' hl (r :: rf) n l Hb2 Hr2) as (s3 & He3 & Hci & Hs3 & Hw3).
    { rewrite (bs_req s1) by done. apply (ri_queue _ _ _ Hr1). left. }
    { by rewrite Hc2, I3. }
    rewrite (bind_eval _ _ _ _ _ He3). exists s3, fl'. split; [done|]. split; [done|].
    assert (buf_same s1 s3) as Hs by (by eapply buf_same_trans). split; [|split; [by eapply completed_waits|by rewrite Hw3]].
    eapply (completed_evo s s1); try done. by eapply buf_same_contents.
Qed.

Lemma moving_rinv s rf r l k data n p c : rinv s rf (r :: l) → 0 <= r < zlen (reqq s) →
  rinv (moving k data r n p c s) rf (r :: l).
Proof.
  intros [H1 H2 H3 H4 (H5 & H6 & H7)] Hr. split; [by eapply is_list_frame|exact H2| |exact H4|].
  - intros x Hx. unfold moving, upd_req. simpl. rewrite zlen_zalter. by apply H3.
  - split; [exact H5|]. split; [by eapply is_list_frame|]. intros r' Hr'. rewrite req_at_moving, decide_False; [by apply H7| |done].
    intros ->. apply NoDup_app in H2 as (_ & _ & Hnd). by apply NoDup_cons in Hnd as [? _].
Qed.
Lemma moving_evo s fl r l data n p c : let k := r_buf (req_at s r) in
  inr s k → 0 <= r < zlen (reqq s) → contents_same s (moving k data r n p c s) →
  evo s fl (r :: l) (moving k data r n p c s) fl (r :: l).
Proof.
  intros k Hk Hr Hcs. pose proof (λ j, buf_at_moving k data r n p c s j Hk) as Hba.
  assert (tgt (moving k data r n p c s) (r :: l) = tgt s (r :: l)) as Htg.
  { apply tgt_same. intros j _. rewrite req_at_moving by done. by case_decide; subst. }
  split; try done.
  - unfold moving, upd_req, upd_buf. simpl. by rewrite !zlen_zalter.
  - intros j. rewrite Hba. by case_decide; subst.
  - intros j Hj. rewrite req_at_moving by done. by case_decide; subst.
  - intros j Hj. rewrite Hba, decide_False; [done|]. intros ->. apply Hj. left.
  - intros j Hj. rewrite Htg in Hj. split; [done|]. rewrite Hba. by case_decide; subst.
  - intros j Hj Hn. by rewrite Htg in Hn.
  - exists []. rewrite app_nil_r. set_solver.
Qed.

Lemma ide_intr_spec s fl hl rf r l : cinv s fl hl rf (r :: l) →
  ∃ s' fl' rf' q', ide_intr iodone s = Ret true s' ∧ cinv s' fl' hl rf' q' ∧ evo s fl (r :: l) s' fl' q' ∧ waits_same s s' ∧
    (q' = r :: l ∧ rf' = rf ∧ fl' = fl ∧ 0 < r_nsec (req_at s' r) < r_nsec (req_at s r) ∧ woken s' = woken s ∨
     q' = l ∧ rf' = r :: rf ∧ 0 < r_nsec (req_at s r) ∧ woken s' = wakes s rf (r_buf (req_at s r)) || woken s).
Proof.
  intros Hc. pose proof Hc as [Hb Hr Hj]. destruct (intr_move s fl hl rf r l Hc) as (c1 & p1 & Hirq & d & n & p & c & He & Hmv).
  pose proof (move_range s fl hl rf r l Hc) as Hrr. pose proof (move_req s fl hl rf r l Hc) as [Hi Hsec Hkind].
  destruct Hmv as (M1 & M2 & M3 & M4 & M5 & M6 & M7). set (k := r_buf (req_at s r)) in *. set (s1 := moving k d r n p c s) in *.
  assert (moved s s1 (r :: l)) as Hm by (by eapply moving_moved; first [done|left]).
  pose proof (moved_binv _ _ _ _ _ Hb Hm) as Hb1. pose proof (moved_contents _ _ _ _ _ Hb Hm) as Hcs.
  assert (∀ j, req_at s1 j = if decide (j = r) then set_r_nsec n (req_at s r) else req_at s j) as Hrq by (intros j; by apply req_at_moving).
  assert (∀ j, buf_at s1 j = if decide (j = k) then set_b_data d (buf_at s k) else buf_at s j) as Hba by (intros j; by apply buf_at_moving).
  assert (rinv s1 rf (r :: l)) as Hr1 by (by apply moving_rinv).
  assert (evo s fl (r :: l) s1 fl (r :: l)) as Hev by (by apply moving_evo).
  assert (waits_same s s1) as Hws by (split; [done|]; split; [done|]; intros j; rewrite Hba; by case_decide; subst).
  assert (ide_intr iodone s = if n =? 0 then (request_end k;; mret true) s1 else Ret true s1) as Hrun.
  { unfold ide_intr. rewrite Hirq. unfold ide_bottom. mstep. change (cur_req _) with (cur_req s).
    rewrite (proj1 (ri_queue _ _ _ Hr)). rewrite bind_assoc, (bind_eval _ _ _ _ _ He). cbv beta iota. mstep.
    rewrite Hrq, decide_True by done. simpl. by destruct (n =? 0). }
  destruct (decide (n = 0)) as [->|Hn0].
  - simpl in Hrun. destruct (M7 eq_refl) as [Hjn Hdd].
    destruct (request_end_spec s1 fl hl rf r l Hb1 Hr1) as (s' & fl' & He' & Hc' & Hev' & Hws' & Hw').
    { done. }
    { rewrite Hrq, decide_True by done. simpl. fold k. rewrite Hba, decide_True by done. simpl.
      unfold disk_block. change (sec_of s1) with (sec_of s). rewrite <-Hsec. exact Hdd. }
    rewrite Hrq, decide_True in He', Hw' by done. simpl in He', Hw'. fold k in He', Hw'.
    exists s', fl', (r :: rf), l. split; [by rewrite Hrun, (bind_eval _ _ _ _ _ He')|]. split; [done|].
    split; [by eapply evo_trans|]. split; [by eapply waits_trans|]. right. split; [done|]. split; [done|]. split; [lia|]. rewrite Hw'. f_equal.
    unfold wakes, wakes_buf, b_has. by rewrite Hba, decide_True.
  - rewrite (proj2 (Z.eqb_neq n 0)) in Hrun by done. exists s1, fl, rf, (r :: l). split; [done|]. split; [split; [done|done|by apply M6]|].
    split; [done|]. split; [done|]. left.
    do 3 (split; [done|]). split; [|done]. rewrite Hrq, decide_True by done. simpl. lia.
Qed.

(** ** Sleeping until the disk is done *)

(** A request is under way that will wake the process. *)
Definition will_wake (s : io C) (rf q : list Z) : Prop :=
  (∃ k, k ∈ tgt s q ∧ wakes_buf s k = true) ∨ (rf = [] ∧ req_wait s = true ∧ q ≠ []).
(** Such a request has ended. *)
Definition woke (s : io C) (rf q : list Z) (s' : io C) (rf' q' : list Z) : Prop :=
  (∃ k, k ∈ tgt s q ∧ k ∉ tgt s' q' ∧ wakes_buf s k = true) ∨ (rf = [] ∧ req_wait s = true ∧ rf' ≠ []).

Definition mu (s : io C) (q : list Z) : nat :=
  match q with [] => 0 | r :: l => Z.to_nat (r_nsec (req_at s r)) + 2 * length l end.

Lemma wakes_buf_same s fl q s' fl' q' k : evo s fl q s' fl' q' → waits_same s s' → k ∈ tgt s' q' →
  wakes_buf s' k = wakes_buf s k.
Proof.
  intros He (Hw1 & _ & Hw2) Hk. unfold wakes_buf, b_has. destruct (ev_tgt _ _ _ _ _ _ He k Hk) as [_ ->].
  by rewrite Hw1, Hw2.
Qed.

Lemma mu_step s fl hl rf r l s' fl' rf' q' : cinv s' fl' hl rf' q' → rinv s rf (r :: l) →
  (q' = r :: l ∧ rf' = rf ∧ fl' = fl ∧ 0 < r_nsec (req_at s' r) < r_nsec (req_at s r) ∧ woken s' = woken s ∨
   q' = l ∧ rf' = r :: rf ∧ 0 < r_nsec (req_at s r) ∧ woken s' = wakes s rf (r_buf (req_at s r)) || woken s) →
  (mu s' q' < mu s (r :: l))%nat.
Proof.
  intros Hc Hr [(-> & _ & _ & Hn & _)|(-> & _ & Hn & _)]; [simpl; lia|].
  destruct l as [|x l]; [simpl; lia|]. pose proof (ci_job _ _ _ _ _ Hc) as Hj. simpl in Hj. unfold mu.
  assert (r_nsec (req_at s' x) <= 2); [|simpl length; lia].
  unfold cur_ok in Hj. destruct (dma_ide_flag s'), (r_rw _ =? READ); naive_solver lia.
Qed.

Lemma wake_step s fl hl rf r l s1 fl1 rf1 q1 : cinv s fl hl rf (r :: l) → evo s fl (r :: l) s1 fl1 q1 → waits_same s s1 →
  woken s = false → will_wake s rf (r :: l) →
  (q1 = r :: l ∧ rf1 = rf ∧ fl1 = fl ∧ 0 < r_nsec (req_at s1 r) < r_nsec (req_at s r) ∧ woken s1 = woken s ∨
   q1 = l ∧ rf1 = r :: rf ∧ 0 < r_nsec (req_at s r) ∧ woken s1 = wakes s rf (r_buf (req_at s r)) || woken s) →
  woken s1 = true ∧ woke s rf (r :: l) s1 rf1 q1 ∨ woken s1 = false ∧ will_wake s1 rf1 q1 ∧ (rf1 = [] → rf = []).
Proof.
  intros Hc Hev Hws Hw Hww Hcase. destruct Hcase as [(-> & -> & -> & Hn & Hw1)|(-> & -> & Hn & Hw1)].
  - right. split; [by rewrite Hw1|]. split; [|done].
    assert (tgt s1 (r :: l) = tgt s (r :: l)) as Ht by (apply tgt_same; intros j Hj; by apply Hev).
    destruct Hww as [(k & Hk & Hkw)|(? & Hq & ?)].
    + left. exists k. rewrite Ht. split; [done|]. rewrite (wakes_buf_same s fl (r :: l) s1 fl (r :: l)); [done..|by rewrite Ht].
    + right. by rewrite (proj1 (proj2 Hws)).
  - rewrite Hw, orb_false_r in Hw1. rewrite Hw1.
    assert (tgt s1 l = tgt s l) as Ht by (apply tgt_same; intros j Hj; by apply Hev).
    pose proof (tgt_head _ _ _ _ _ (ci_buf _ _ _ _ _ Hc)) as Hh.
    destruct (wakes s rf (r_buf (req_at s r))) eqn:Ewk.
    + left. split; [done|]. unfold wakes in Ewk. apply orb_true_iff in Ewk as [[Hrf Hq]%andb_true_iff|Hb].
      * apply bool_decide_eq_true in Hrf. right. done.
      * left. exists (r_buf (req_at s r)). split; [left|]. by rewrite Ht.
    + right. split; [done|]. unfold wakes in Ewk. apply orb_false_iff in Ewk as [Ew1 Ew2]. split; [|done].
      destruct Hww as [(k & Hk & Hkw)|(-> & Hq & _)]; [|by rewrite Hq in Ew1].
      apply elem_of_cons in Hk as [->|Hk]; [by rewrite Hkw in Ew2|]. left. exists k. rewrite Ht. split; [done|].
      rewrite (wakes_buf_same s fl (r :: l) s1 fl1 l); [done..|by rewrite Ht].
Qed.

Lemma wait_loop_spec fuel s fl hl rf q : cinv s fl hl rf q → woken s = false → will_wake s rf q → (mu s q <= fuel)%nat →
  ∃ s' fl' rf' q', wait_loop iodone fuel s = Ret tt s' ∧ cinv s' fl' hl rf' q' ∧ evo s fl q s' fl' q' ∧
    waits_same s s' ∧ woke s rf q s' rf' q'.
Proof.
  revert s fl rf q. induction fuel as [|fuel IH]; intros s fl rf q Hc Hw Hww Hf;
    (destruct q as [|r l]; [destruct Hww as [(k & Hk & _)|(_ & _ & ?)]; [by apply elem_of_nil in Hk|done]|]);
    destruct (ide_intr_spec s fl hl rf r l Hc) as (s1 & fl1 & rf1 & q1 & He & Hc1 & Hev & Hws & Hcase);
    pose proof (mu_step _ _ _ _ _ _ _ _ _ _ Hc1 (ci_req _ _ _ _ _ Hc) Hcase) as Hmu; [lia|].
  cbn [wait_loop]. mstep. rewrite Hw, (bind_eval _ _ _ _ _ He). cbv beta iota.
  destruct (wake_step _ _ _ _ _ _ _ _ _ _ Hc Hev Hws Hw Hww Hcase) as [[Hw1 Hwk]|(Hw1 & Hww1 & Hrf)].
  - exists s1, fl1, rf1, q1. split; [|done]. destruct fuel; simpl; mstep; by rewrite Hw1.
  - destruct (IH s1 fl1 rf1 q1 Hc1 Hw1 Hww1) as (s2 & fl2 & rf2 & q2 & He2 & Hc2 & Hev2 & Hws2 & Hwk2); [lia|].
    exists s2, fl2, rf2, q2. split; [done|]. split; [done|]. split; [by eapply evo_trans|]. split; [by eapply waits_trans|].
    destruct Hwk2 as [(k & Hk & Hk2 & Hkw)|(-> & Hq & Hrf2)].
    + left. exists k. split; [by apply (ev_tgt _ _ _ _ _ _ Hev)|]. split; [done|]. by rewrite <-(wakes_buf_same s fl (r :: l) s1 fl1 q1).
    + right. split; [by apply Hrf|]. split; [by rewrite <-(proj1 (proj2 Hws))|done].
Qed.

(** Only who waits changes. *)
Record quiet (s s' : io C) : Prop := {
  qt_next : bnext s' = bnext s ∧ bprev s' = bprev s;
  qt_req : reqq s' = reqq s ∧ rnext s' = rnext s ∧ rprev s' = rprev s ∧ cur_req s' = cur_req s;
  qt_io : dev_infos s' = dev_infos s ∧ dma_ide_flag s' = dma_ide_flag s ∧ prdbuff s' = prdbuff s ∧ ctl s' = ctl s;
  qt_len : zlen (bufs s') = zlen (bufs s);
  qt_buf k : nb (buf_at s' k) = nb (buf_at s k);
}.
Lemma qt_fields s s' k : quiet s s' → b_dev (buf_at s' k) = b_dev (buf_at s k) ∧
  b_blocknr (buf_at s' k) = b_blocknr (buf_at s k) ∧ b_flags (buf_at s' k) = b_flags (buf_at s k) ∧
  b_data (buf_at s' k) = b_data (buf_at s k) ∧ b_count (buf_at s' k) = b_count (buf_at s k).
Proof. intros Hq. pose proof (qt_buf _ _ Hq k) as He. unfold nb in He. destruct (buf_at s' k), (buf_at s k). by simplify_eq/=. Qed.
Lemma qt_reqs s s' r : quiet s s' → req_at s' r = req_at s r.
Proof. intros Hq. unfold req_at. by rewrite (proj1 (qt_req _ _ Hq)). Qed.
Lemma quiet_moved s s' fl hl q : binv s fl hl q → quiet s s' → moved s s' q.
Proof.
  intros Hb Hq. pose proof Hq as [[? ?] _ (Hi & _ & Hp & Hc) Hl _]. split; try done.
  - rewrite Hp. apply (bi_prd _ _ _ _ Hb).
  - intros k. by destruct (qt_fields s s' k Hq) as (? & ? & ? & _).
  - intros k Hk. destruct (qt_fields s s' k Hq) as (_ & _ & _ & -> & _). split; [|done]. by apply (bi_buf _ _ _ _ Hb).
  - intros r _. by rewrite (qt_reqs s s').
  - intros d b _. left. unfold disk_block. by rewrite Hc, (sec_of_ext s s').
Qed.
Lemma quiet_cinv s s' fl hl rf q : quiet s s' → cinv s fl hl rf q → cinv s' fl hl rf q.
Proof.
  intros Hq [Hb Hr Hj]. pose proof Hq as [_ (R1 & R2 & R3 & R4) (_ & I2 & I3 & I4) _ _]. split.
  - eapply moved_binv; [exact Hb|by eapply quiet_moved].
  - eapply rinv_ext; [exact Hr|done..|by rewrite R1|]. intros r. by rewrite (qt_reqs s s').
  - destruct q as [|r q]; simpl in *; [by rewrite I4|]. unfold cur_ok in *. rewrite I2, I3, I4, (qt_reqs s s') by done.
    by destruct (qt_fields s s' (r_buf (req_at s r)) Hq) as (_ & _ & _ & -> & _).
Qed.
Lemma quiet_evo s s' fl hl q : binv s fl hl q → quiet s s' → evo s fl q s' fl q.
Proof.
  intros Hb Hq. assert (tgt s' q = tgt s q) as Ht by (apply tgt_same; intros r _; by rewrite (qt_reqs s s')).
  pose proof Hq as [_ (R1 & _) (I1 & _) Hl Hbf]. split; try done.
  - eapply moved_contents; [exact Hb|by eapply quiet_moved].
  - by rewrite R1.
  - intros k. by destruct (qt_fields s s' k Hq) as (? & ? & _ & _ & ?).
  - intros r Hr. by rewrite (qt_reqs s s').
  - intros k Hk. rewrite Ht in Hk. by destruct (qt_fields s s' k Hq) as (_ & _ & ? & _).
  - intros k Hk Hn. by rewrite Ht in Hn.
  - exists []. rewrite app_nil_r. set_solver.
Qed.

(** Nobody waits. *)
Definition idle (s : io C) : Prop := buf_wait s = false ∧ req_wait s = false ∧ ∀ k, b_wait (buf_at s k) = false.

Lemma set_queued_quiet w v f s : quiet s (upd_woken f (set_queued w v s)).
Proof.
  destruct w as [k| |]; split; try done; simpl.
  - apply zlen_zalter.
  - intros j. unfold buf_at, upd_buf. simpl. rewrite zget_zalter. case_decide; [subst|done]. by destruct (zget _ k).
Qed.
Lemma quiet_trans s s1 s2 : quiet s s1 → quiet s1 s2 → quiet s s2.
Proof.
  intros [[? ?] (? & ? & ? & ?) (? & ? & ? & ?) ? Hb] [[? ?] (? & ? & ? & ?) (? & ? & ? & ?) ? Hb'].
  split; repeat split; congruence.
Qed.

Lemma queue_len s rf q : rinv s rf q → (length q <= length (reqq s))%nat.
Proof.
  intros Hr. pose proof (ri_nodup _ _ _ Hr) as (_ & _ & Hnd)%NoDup_app.
  replace (length (reqq s)) with (Z.to_nat (zlen (reqq s))) by (unfold zlen; lia).
  apply NoDup_range_length; [done|]. intros r Hq. apply (ri_range _ _ _ Hr). set_solver.
Qed.
Lemma mu_bound s fl hl rf q : cinv s fl hl rf q → (mu s q <= 2 * length q)%nat.
Proof.
  intros Hc. destruct q as [|r l]; [simpl; lia|]. pose proof (ci_job _ _ _ _ _ Hc) as Hj. simpl in Hj. unfold mu.
  assert (r_nsec (req_at s r) <= 2); [|simpl length; lia].
  unfold cur_ok in Hj. destruct (dma_ide_flag s), (r_rw _ =? READ); naive_solver lia.
Qed.

Lemma b_wait_queued w v s j : (∀ k, w = WBuf k → inr s k) → (∀ i, b_wait (buf_at s i) = false) →
  b_wait (buf_at (set_queued w v s) j) = bool_decide (w = WBuf j) && v.
Proof.
  intros Hw Hi. destruct w as [k| |]; simpl; [|apply Hi..]. rewrite buf_at_upd by (by apply Hw).
  case_decide; subst; [by rewrite bool_decide_true|]. rewrite bool_decide_false by congruence. apply Hi.
Qed.

(** What the sleeper waits for, and what has happened when it is awake. *)
Definition awaits (w : wq) (s : io C) (rf q : list Z) : Prop :=
  match w with
  | WBuf k => k ∈ tgt s q ∧ b_has k B_ASY s = false
  | WFree => ∃ k, k ∈ tgt s q ∧ b_has k B_ASY s = true
  | WReq => rf = [] ∧ q ≠ []
  end.
Definition awoken (w : wq) (s : io C) (q : list Z) (s' : io C) (rf' q' : list Z) : Prop :=
  match w with
  | WBuf k => k ∉ tgt s' q'
  | WFree => ∃ k, k ∈ tgt s q ∧ k ∉ tgt s' q' ∧ b_has k B_ASY s = true
  | WReq => rf' ≠ []
  end.

Lemma tgt_inr s fl hl q k : binv s fl hl q → k ∈ tgt s q → inr s k.
Proof. intros Hb (r & -> & Hr)%list_elem_of_fmap. by apply (bi_req _ _ _ _ Hb). Qed.

Section sleep.
Context (s : io C) (fl : list Z) (hl : Z → list Z) (rf q : list Z) (w : wq).
Hypothesis Hc : cinv s fl hl rf q.
Hypothesis Hidle : idle s.
Hypothesis Haw : awaits w s rf q.
#[local] Notation s0 := (upd_woken (λ _, false) (set_queued w true s)).

Lemma sleep_inr k : w = WBuf k → inr s k.
Proof. intros ->. destruct Haw as [Hk _]. eapply tgt_inr; [apply (ci_buf _ _ _ _ _ Hc)|done]. Qed.
Lemma sleep_has k m : b_has k m s0 = b_has k m s.
Proof. apply nb_has, (set_queued_quiet w true (λ _, false) s). Qed.
Lemma sleep_tgt l : tgt s0 l = tgt s l.
Proof. apply tgt_same. intros r _. by rewrite (qt_reqs _ _ _ (set_queued_quiet w true (λ _, false) s)). Qed.
Lemma sleep_bwait k : b_wait (buf_at s0 k) = bool_decide (w = WBuf k).
Proof.
  change (buf_at s0 k) with (buf_at (set_queued w true s) k).
  rewrite b_wait_queued, andb_true_r; [done|apply sleep_inr|apply Hidle].
Qed.
Lemma sleep_waits : buf_wait s0 = bool_decide (w = WFree) ∧ req_wait s0 = bool_decide (w = WReq).
Proof. destruct Hidle as (H1 & H2 & _). destruct w; simpl; by rewrite ?H1, ?H2. Qed.

Lemma sleep_wakes k : wakes_buf s0 k =
  if b_has k B_ASY s then bool_decide (w = WFree) || (b_has k B_WANTED s && bool_decide (w = WBuf k))
  else bool_decide (w = WBuf k).
Proof. unfold wakes_buf. by rewrite !sleep_has, sleep_bwait, (proj1 sleep_waits). Qed.

Lemma sleep_will_wake : will_wake s0 rf q.
Proof.
  unfold will_wake. rewrite sleep_tgt, (proj2 sleep_waits). setoid_rewrite sleep_wakes. destruct w as [k| |]; simpl in Haw.
  - left. exists k. destruct Haw as [Hk Ha]. split; [done|]. rewrite Ha. by apply bool_decide_true.
  - left. destruct Haw as (k & Hk & Ha). exists k. split; [done|]. by rewrite Ha.
  - right. by destruct Haw.
Qed.

Lemma sleep_woke s1 rf1 q1 : woke s0 rf q s1 rf1 q1 → awoken w s q s1 rf1 q1.
Proof.
  unfold woke. rewrite sleep_tgt, (proj2 sleep_waits). setoid_rewrite sleep_wakes.
  intros [(k & Hk & Hk' & Hkw)|(_ & Hq & Hrf)].
  - destruct w as [j| |]; simpl in *.
    + destruct (decide (j = k)) as [->|Hne]; [done|]. rewrite bool_decide_false in Hkw by congruence.
      rewrite andb_false_r in Hkw. by destruct (b_has k B_ASY s).
    + exists k. by destruct (b_has k B_ASY s).
    + rewrite andb_false_r in Hkw. by destruct (b_has k B_ASY s).
  - apply bool_decide_eq_true in Hq. by destruct w.
Qed.

Lemma sleep_spec : ∃ s' fl' rf' q', io_sleepon iodone w s = Ret tt s' ∧ cinv s' fl' hl rf' q' ∧
  evo s fl q s' fl' q' ∧ idle s' ∧ awoken w s q s' rf' q'.
Proof.
  pose proof (set_queued_quiet w true (λ _, false) s) as Hq0. pose proof (quiet_cinv _ _ _ _ _ _ Hq0 Hc) as Hc0.
  destruct (wait_loop_spec (2 * length (reqq s) + 1) s0 fl hl rf q Hc0 eq_refl sleep_will_wake)
    as (s1 & fl1 & rf1 & q1 & He & Hc1 & Hev & Hws & Hwk).
  { pose proof (mu_bound _ _ _ _ _ Hc0). pose proof (queue_len _ _ _ (ci_req _ _ _ _ _ Hc)). lia. }
  assert (quiet s1 (set_queued w false s1)) as Hq1.
  { replace (set_queued w false s1) with (upd_woken id (set_queued w false s1)) by by destruct (set_queued w false s1).
    apply set_queued_quiet. }
  exists (set_queued w false s1), fl1, rf1, q1. split.
  { unfold io_sleepon. mstep. replace (reqq s0) with (reqq s) by by destruct w. by rewrite (bind_eval _ _ _ _ _ He). }
  split; [by eapply quiet_cinv|]. split.
  { eapply evo_trans; [by eapply quiet_evo; [apply Hc|exact Hq0]|]. eapply evo_trans; [exact Hev|].
    by eapply quiet_evo; [apply Hc1|]. }
  assert (tgt (set_queued w false s1) q1 = tgt s1 q1) as Ht by (apply tgt_same; intros r _; by rewrite (qt_reqs _ _ _ Hq1)).
  split; [|apply sleep_woke in Hwk; by destruct w; simpl in *; rewrite ?Ht].
  destruct sleep_waits as [Hw1 Hw2], Hws as (Hx1 & Hx2 & Hx3). rewrite Hw1 in Hx1. rewrite Hw2 in Hx2.
  assert (∀ k, w = WBuf k → inr s1 k) as Hin.
  { intros k Hk. unfold inr. rewrite (proj1 (ev_len _ _ _ _ _ _ Hev)), (qt_len _ _ Hq0). by apply sleep_inr. }
  assert (∀ k, b_wait (buf_at s1 k) = bool_decide (w = WBuf k)) as Hbw by (intros k; by rewrite Hx3, sleep_bwait).
  split; [by destruct w|]. split; [by destruct w|]. intros k. clear Hx3. destruct w as [j| |]; simpl.
  - rewrite buf_at_upd by by apply Hin. destruct (decide (k = j)) as [->|Hkj]; [done|]. rewrite Hbw.
    apply bool_decide_eq_false. congruence.
  - change (b_wait (buf_at s1 k) = false). by rewrite Hbw.
  - change (b_wait (buf_at s1 k) = false). by rewrite Hbw.
Qed.
End sleep.
End cache.
