(* ===== verification/Bufread.v ===== *)
(** * Reading blocks through the cache

    [ide_rw_block], [getblk] and [bread] on the invariant of Bufcache.v: a
    block that is read has its contents, whatever dirty buffers were written
    on the way and however often the process slept. *)

From S2P Require Import Prelude Dlist Blocks IoState Ide Buffer Bufcache.
From stdpp Require Import base numbers functions gmap list.

Local Open Scope Z_scope.

Section read.
Context {C : Type} `{!Controller C} `{!ControllerLaws C}.
Context (vol : Z → Prop).
Implicit Types (s : io C).
#[local] Notation blk_ok := (Bufcache.blk_ok vol).
#[local] Notation binv := (Bufcache.binv vol).
#[local] Notation cinv := (Bufcache.cinv vol).
#[local] Notation evo := (Bufcache.evo vol).
#[local] Notation contents_same := (Bufcache.contents_same vol).

(** ** Queueing a request *)

(** A request is taken from the free list and not yet queued. *)
Record grabbed (s : io C) (rf q : list Z) (r : Z) : Prop := {
  gr_free : is_list s RFree (RNode <$> rf);
  gr_nodup : NoDup (r :: rf ++ q);
  gr_range x : x ∈ r :: rf ++ q → 0 <= x < zlen (reqq s);
  gr_queue : match q with
    | [] => cur_req s = None
    | c :: l => cur_req s = Some c ∧ is_list s (RNode c) (RNode <$> l) ∧ ∀ r', r' ∈ l → r_nsec (req_at s r') = 2
    end;
}.

Lemma grab s fl hl rf q r : cinv s fl hl (r :: rf) q → idle s →
  let s' := list_del1 (RNode r) s in
  binv s' fl hl q ∧ jinv s' q ∧ grabbed s' rf q r ∧ idle s' ∧ evo s fl q s' fl q.
Proof.
  intros [Hb [H1 H2 H3 H4 H5] Hj] Hi s'. rewrite fmap_cons in H1.
  destruct (list_del1_is_list s RFree [] (RNode r) (RNode <$> rf) H1) as [Hrf _]. simpl in Hrf.
  assert (buf_same s s') as Hs by (split; try done; apply (bi_prd _ _ _ _ _ Hb)).
  pose proof (moved_binv _ _ _ _ _ _ Hb (buf_same_moved _ _ _ _ _ _ Hb Hs)) as Hb'.
  split; [done|]. split; [by destruct q|]. split; [|split; [done|]].
  - split; [done|done|done|]. destruct q as [|c l]; [done|]. destruct H5 as (? & Hl & ?). split; [done|]. split; [|done].
    eapply is_list_frame; [exact Hl| |done]. intros p Hp. eapply (list_del1_others s RFree []); [exact H1|]. simpl.
    rewrite !elem_of_cons, list_elem_of_fmap in Hp. rewrite !elem_of_cons, list_elem_of_fmap.
    assert (∃ y, p = RNode y ∧ y ∈ c :: l) as (y & -> & Hy) by (destruct Hp as [->|(y & -> & Hy)]; set_solver).
    change ((r :: rf) ++ c :: l) with (r :: rf ++ c :: l) in H2. apply NoDup_cons in H2 as [Hr H2].
    apply NoDup_app in H2 as (_ & Hd & _). intros [|[[= ->]|(x & [= <-] & Hx)]]; [done|set_solver|]. by apply (Hd y).
  - split; try done. exists []. rewrite app_nil_r. set_solver.
Qed.

Lemma get_req_spec s fl hl rf q : cinv s fl hl rf q → idle s →
  ∃ s' fl' rf' q' r, get_req iodone s = Ret r s' ∧ binv s' fl' hl q' ∧ jinv s' q' ∧ grabbed s' rf' q' r ∧ idle s' ∧
    evo s fl q s' fl' q'.
Proof.
  intros Hc Hi. unfold get_req.
  assert (∀ f s fl r rf q, cinv s fl hl (r :: rf) q → idle s → get_req_loop iodone f s = Ret r (list_del1 (RNode r) s)) as Hgo.
  { clear. intros f s fl r rf q Hc Hi. pose proof (ri_free _ _ _ (ci_req _ _ _ _ _ _ Hc)) as Hl.
    destruct f; cbn [get_req_loop]; mstep; rewrite (list_empty_spec _ _ _ Hl), bool_decide_false by done; mstep;
      by rewrite (is_list_nxt_hd _ _ _ Hl). }
  destruct rf as [|r rf].
  - assert (q ≠ []) as Hq by (pose proof (ri_some _ _ _ (ci_req _ _ _ _ _ _ Hc)); by destruct q).
    destruct (sleep_spec vol s fl hl [] q WReq Hc Hi) as (s1 & fl1 & rf1 & q1 & He & Hc1 & Hev & Hi1 & Hrf1); [done|].
    simpl in Hrf1. destruct rf1 as [|r rf1]; [done|].
    destruct (grab s1 fl1 hl rf1 q1 r Hc1 Hi1) as (Hb & Hj & Hg & Hi' & Hev').
    exists (list_del1 (RNode r) s1), fl1, rf1, q1, r. split; [|split; [done|split; [done|split; [done|split; [done|by eapply evo_trans]]]]].
    cbn [get_req_loop]. mstep. rewrite (list_empty_spec _ _ _ (ri_free _ _ _ (ci_req _ _ _ _ _ _ Hc))).
    rewrite bool_decide_true by done. rewrite (bind_eval _ _ _ _ _ He). cbv beta iota. by eapply (Hgo 0%nat).
  - destruct (grab s fl hl rf q r Hc Hi) as (Hb & Hj & Hg & Hi' & Hev').
    exists (list_del1 (RNode r) s), fl, rf, q, r. split; [by eapply Hgo|done].
Qed.

Lemma find_prev_spec s c l sec fuel tmp l1 l2 : is_list s (RNode c) (RNode <$> l) → c :: l = l1 ++ tmp :: l2 →
  (length l2 < fuel)%nat → ∃ p l1' l2', find_prev fuel c tmp sec s = Some p ∧ c :: l = l1' ++ p :: l2'.
Proof.
  intros Hl. revert tmp l1 l2. induction fuel as [|fuel IH]; intros tmp l1 l2 Hs Hf; [lia|]. cbn [find_prev].
  assert (nxt s (RNode tmp) = RNode (default c (head l2))) as ->.
  { destruct l1 as [|x l1]; simpl in Hs; simplify_eq.
    - rewrite (is_list_nxt_hd _ _ _ Hl). by destruct l2.
    - rewrite fmap_app, fmap_cons, cons_middle, app_assoc in Hl. apply is_list_next in Hl as [Hn _].
      rewrite lst_snoc in Hn. rewrite Hn. by destruct l2. }
  destruct (_ && _); [by exists tmp, l1, l2|]. destruct l2 as [|x l2]; simpl.
  - rewrite Z.eqb_refl. by exists tmp, l1, [].
  - rewrite (proj2 (Z.eqb_neq x c)).
    + apply (IH x (l1 ++ [tmp]) l2); [|simpl in *; lia]. by rewrite <-app_assoc.
    + intros ->. destruct Hl as (Hnd & _). change (RNode c :: (RNode <$> l)) with (RNode <$> (c :: l)) in Hnd.
      apply NoDup_fmap_1 in Hnd. rewrite Hs in Hnd. destruct l1 as [|y l1]; simplify_eq/=; [apply NoDup_cons in Hnd; set_solver|].
      apply NoDup_cons in Hnd as [Hc _]. apply Hc. set_solver.
Qed.

Lemma binv_add s fl hl q q' r : binv s fl hl q → req_ok s hl r → r_buf (req_at s r) ∉ tgt s q → q' ≡ₚ r :: q → binv s fl hl q'.
Proof.
  intros [H1 H2 H3 H4 H5 H6 H7 H8 H9 H10] Hr Hk Hp. split; try done.
  - intros x. rewrite Hp. intros [->|Hx]%elem_of_cons; [done|by apply H8].
  - unfold tgt. rewrite Hp, fmap_cons. by apply NoDup_cons.
Qed.

(** What a request may be made for. *)
Definition rw_ok (s : io C) (hl : Z → list Z) (rw k : Z) : Prop :=
  rw = WRITE ∧ b_has k B_ASY s = true ∨
  rw = READ ∧ hashed s hl k ∧ b_has k B_BUSY s = true ∧ b_has k B_DONE s = false.

Section enqueue.
Context (s : io C) (fl : list Z) (hl : Z → list Z) (rf q : list Z) (r rw k : Z).
Hypothesis Hb : binv s fl hl q.
Hypothesis Hj : jinv s q.
Hypothesis Hg : grabbed s rf q r.
Hypothesis Hi : idle s.
Hypothesis Hk : inr s k.
Hypothesis Hok : blk_ok s (b_dev (buf_at s k)) (b_blocknr (buf_at s k)).
Hypothesis Hkq : k ∉ tgt s q.
Hypothesis Hrw : rw_ok s hl rw k.
#[local] Notation sec := (sec_of s (b_dev (buf_at s k)) (b_blocknr (buf_at s k))).
#[local] Notation s1 := (upd_req r (λ _, Request sec 2 rw k) s).

Lemma enq_req x : req_at s1 x = if decide (x = r) then Request sec 2 rw k else req_at s x.
Proof. apply (req_at_upd r (λ _, Request sec 2 rw k) s). apply (gr_range _ _ _ _ Hg). left. Qed.
Lemma enq_fresh : r ∉ rf ∧ r ∉ q.
Proof. pose proof (gr_nodup _ _ _ _ Hg) as [Hn _]%NoDup_cons. set_solver. Qed.
Lemma enq_moved : moved vol s s1 q.
Proof.
  split; try done.
  - apply (bi_prd _ _ _ _ _ Hb).
  - intros j Hj'. split; [by apply (bi_buf _ _ _ _ _ Hb)|done].
  - intros x Hx. rewrite enq_req, decide_False; [done|]. intros ->. by apply enq_fresh.
  - intros d b _. by left.
Qed.
Lemma enq_binv q' : q' ≡ₚ r :: q → binv s1 fl hl q'.
Proof.
  intros Hp. eapply binv_add; [eapply moved_binv; [exact Hb|exact enq_moved]| | |exact Hp].
  - split; rewrite !enq_req, !decide_True by done; try done.
  - rewrite enq_req, decide_True by done. simpl. rewrite (tgt_same s s1); [done|].
    intros x Hx. by apply (mv_req _ _ _ _ enq_moved).
Qed.
Lemma enq_evo s' : bufs s' = bufs s → reqq s' = reqq s1 → dev_infos s' = dev_infos s → contents_same s s' → evo s fl q s' fl q.
Proof.
  intros E1 E2 E3 E4. assert (∀ x, x ∈ q → req_at s' x = req_at s x) as Hx.
  { intros x Hx. unfold req_at at 1. rewrite E2. fold (req_at s1 x). rewrite enq_req, decide_False; [done|].
    intros ->. by apply enq_fresh. }
  assert (tgt s' q = tgt s q) as Ht by (apply tgt_same; intros x Hx'; by rewrite Hx).
  assert (∀ j, buf_at s' j = buf_at s j) as Hbj by (intros j; unfold buf_at; by rewrite E1).
  split; try done.
  - rewrite E1, E2. split; [done|]. unfold upd_req. simpl. apply zlen_zalter.
  - intros j. by rewrite Hbj.
  - intros x Hq. by rewrite Hx.
  - intros j _. by rewrite Hbj.
  - intros j Hj'. rewrite Ht in Hj'. by rewrite Hbj.
  - intros j Hj' Hn. by rewrite Ht in Hn.
  - exists []. rewrite app_nil_r. set_solver.
Qed.

(** The request is put behind another one. *)
Lemma enq_list c l p l1 l2 : q = c :: l → c :: l = l1 ++ p :: l2 →
  let s' := list_add_head (RNode p) (RNode r) s1 in
  is_list s' RFree (RNode <$> rf) ∧
  ∃ l', is_list s' (RNode c) (RNode <$> l') ∧ c :: l' ≡ₚ r :: c :: l ∧ (∀ x, x ∈ l' → x = r ∨ x ∈ l).
Proof.
  intros Hq Hs s'. destruct enq_fresh as [Hrf Hrq]. pose proof (gr_queue _ _ _ _ Hg) as Hgq. rewrite Hq in Hgq.
  destruct Hgq as (Hcur & Hl & Hn).
  assert (is_list s1 (RNode c) (RNode <$> l)) as Hl1 by (eapply is_list_frame; [exact Hl|done|done]).
  assert (∀ x, x ∈ RNode c :: (RNode <$> l) → ∃ y, x = RNode y ∧ y ∈ q) as Hels.
  { intros x. change (RNode c :: (RNode <$> l)) with (RNode <$> (c :: l)). rewrite list_elem_of_fmap, Hq. naive_solver. }
  assert (RNode r ∉ RNode c :: (RNode <$> l)) as Hrn by (intros (y & [= <-] & ?)%Hels; done).
  assert (∃ L, is_list s1 (RNode p) L ∧ (∀ x, x ∈ RNode p :: L → x ∈ RNode c :: (RNode <$> l))) as (L & HL & HLs).
  { destruct l1 as [|y l1]; simpl in Hs; simplify_eq; [by exists (RNode <$> l2)|].
    rewrite fmap_app, fmap_cons in Hl1. exists ((RNode <$> l2) ++ RNode y :: (RNode <$> l1)).
    split; [by apply is_list_turn|]. rewrite fmap_app, fmap_cons. set_solver. }
  split.
  - assert (is_list s1 RFree (RNode <$> rf)) as Hf1 by (eapply is_list_frame; [exact (gr_free _ _ _ _ Hg)|done|done]).
    eapply is_list_frame; [exact Hf1| |done]. intros x Hx.
    eapply (list_add_head_others s1 (RNode p) L); [done|by intros ?%HLs|done|].
    pose proof (gr_nodup _ _ _ _ Hg) as [_ (_ & Hd & _)%NoDup_app]%NoDup_cons. rewrite elem_of_cons.
    rewrite elem_of_cons, list_elem_of_fmap in Hx. intros [->|(y & -> & Hy)%HLs%Hels].
    + destruct Hx as [|(? & [= <-] & ?)]; done.
    + destruct Hx as [|(z & [= <-] & Hz)]; [done|]. by apply (Hd y).
  - destruct l1 as [|y l1]; simpl in Hs; simplify_eq.
    + exists (r :: l2). split; [by apply list_add_head_is_list|]. split; [by constructor|set_solver].
    + exists (l1 ++ p :: r :: l2). split; [|split; [solve_Permutation|set_solver]].
      rewrite fmap_app, !fmap_cons in *. by apply list_add_head_after.
Qed.

Definition enqueued (s' : io C) : Prop := ∃ q', cinv s' fl hl rf q' ∧ idle s' ∧ evo s fl q s' fl q ∧ q' ≡ₚ r :: q ∧ r_buf (req_at s' r) = k.

Lemma enq_behind c l p l1 l2 : q = c :: l → c :: l = l1 ++ p :: l2 → enqueued (list_add_head (RNode p) (RNode r) s1).
Proof.
  intros Hq Hs. set (s' := list_add_head _ _ _). destruct (enq_list c l p l1 l2 Hq Hs) as (Hf & l' & Hl' & Hp & Hx). fold s' in Hf, Hl'.
  destruct enq_fresh as [Hrf Hrq]. pose proof (gr_queue _ _ _ _ Hg) as Hgq. rewrite Hq in Hgq. destruct Hgq as (Hcur & _ & Hn).
  rewrite <-Hq in Hp. pose proof (enq_binv (c :: l') Hp) as Hb1.
  assert (∀ x, req_at s' x = if decide (x = r) then Request sec 2 rw k else req_at s x) as Hrs by (intros x; apply enq_req).
  exists (c :: l'). split; [|split; [done|split; [by apply enq_evo|split; [done|by rewrite Hrs, decide_True]]]].
  split.
  - eapply (moved_binv vol s1); [exact Hb1|]. eapply buf_same_moved; [exact Hb1|]. split; try done. apply (bi_prd _ _ _ _ _ Hb).
  - split; [exact Hf| | | |].
    + rewrite Hp, <-Permutation_middle. apply (gr_nodup _ _ _ _ Hg).
    + intros x. rewrite Hp. intros Hx'. unfold s'. change (zlen (reqq (list_add_head ?a ?b ?c))) with (zlen (reqq c)).
      unfold upd_req. simpl. rewrite zlen_zalter. apply (gr_range _ _ _ _ Hg). set_solver.
    + intros Hnil. by apply app_nil in Hnil as [_ ?].
    + split; [done|]. split; [done|]. intros x Hx'. rewrite Hrs.
      destruct (Hx x Hx') as [->|Hxl]; [by rewrite decide_True|]. case_decide; [done|]. by apply Hn.
  - pose proof Hj as Hj'. rewrite Hq in Hj'. simpl in *. unfold cur_ok. rewrite Hrs, decide_False; [exact Hj'|].
    intros ->. apply Hrq. rewrite Hq. left.
Qed.

(** The request is started. *)
Lemma enq_first : q = [] → ∃ s', finish_cmd (list_head_init (RNode r) (upd_cur_req (λ _, Some r) s1)) = Ret true s' ∧ enqueued s'.
Proof.
  intros Hq. destruct enq_fresh as [Hrf _]. set (s2 := list_head_init _ _).
  pose proof (enq_binv [r] ltac:(by rewrite Hq)) as Hb1. pose proof (gr_range _ _ _ _ Hg) as Hrg.
  assert (∀ x, req_at s2 x = if decide (x = r) then Request sec 2 rw k else req_at s x) as Hrs by (intros x; apply enq_req).
  assert (binv s2 fl hl [r]) as Hb2.
  { eapply (moved_binv vol s1); [exact Hb1|]. eapply buf_same_moved; [exact Hb1|]. split; try done. apply (bi_prd _ _ _ _ _ Hb). }
  assert (rinv s2 rf [r]) as Hr2.
  { split.
    - eapply is_list_frame; [exact (gr_free _ _ _ _ Hg)| |done]. intros x Hx. unfold s2, list_head_init. simpl.
      rewrite elem_of_cons, list_elem_of_fmap in Hx. rewrite !fn_lookup_insert_ne; [done|..]; intros <-;
        destruct Hx as [|(? & [= <-] & ?)]; done.
    - rewrite <-Permutation_middle, app_nil_r. pose proof (gr_nodup _ _ _ _ Hg) as Hnd. by rewrite Hq, app_nil_r in Hnd.
    - intros x Hx. change (zlen (reqq s2)) with (zlen (reqq s1)). unfold upd_req. simpl. rewrite zlen_zalter. apply Hrg. set_solver.
    - intros Hnil. by apply app_nil in Hnil as [_ ?].
    - split; [done|]. split; [by apply list_head_init_is_list|]. intros x Hx. by apply elem_of_nil in Hx. }
  destruct (finish_cmd_spec vol s2 fl hl rf r [] Hb2 Hr2) as (s3 & He & Hc3 & Hs3 & _).
  { by rewrite Hrs, decide_True. }
  { pose proof Hj as Hj'. by rewrite Hq in Hj'. }
  exists s3. split; [done|]. exists [r]. split; [done|]. split; [|split; [|split; [by rewrite Hq|]]].
  - destruct Hi as (? & ? & Hib). destruct (bs_wait _ _ Hs3) as [Hw1 Hw2]. split; [by rewrite Hw1|]. split; [by rewrite Hw2|].
    intros j. rewrite (bs_buf s2) by done. apply Hib.
  - apply enq_evo; [by rewrite (bs_bufs _ _ Hs3)|by rewrite (bs_reqq _ _ Hs3)|by rewrite (proj1 (bs_io _ _ Hs3))|].
    intros d b Hd. rewrite (buf_same_contents vol s2 s3 fl hl [r] Hb2 Hs3 d b) by exact Hd.
    apply (moved_contents vol s s1 fl hl q Hb enq_moved d b Hd).
  - by rewrite (bs_req s2 s3), Hrs, decide_True.
Qed.

Lemma enq_len : (length q < length (reqq s1))%nat.
Proof.
  assert (length (r :: q) <= Z.to_nat (zlen (reqq s)))%nat as Hle.
  { pose proof (gr_nodup _ _ _ _ Hg) as [Hr (_ & _ & Hn)%NoDup_app]%NoDup_cons. apply NoDup_range_length.
    - apply NoDup_cons. set_solver.
    - intros x Hx. apply (gr_range _ _ _ _ Hg). set_solver. }
  unfold upd_req. simpl. assert (zlen (zalter (λ _, Request sec 2 rw k) r (reqq s)) = zlen (reqq s)) by apply zlen_zalter.
  unfold zlen in *. simpl in Hle. lia.
Qed.

Lemma queue_req_spec : ∃ s', queue_req r sec s1 = Ret true s' ∧ enqueued s'.
Proof.
  unfold queue_req. mstep. change (cur_req s1) with (cur_req s). pose proof (gr_queue _ _ _ _ Hg) as Hgq.
  assert (q = [] ∨ ∃ c l, q = c :: l) as [Hq|(c & l & Hq)] by (destruct q; eauto); rewrite Hq in Hgq.
  - rewrite Hgq. mstep. by apply enq_first.
  - destruct Hgq as (Hcur & Hl & Hn). rewrite Hcur. mstep.
    change (list_empty (RNode c) s1) with (list_empty (RNode c) s). rewrite (list_empty_spec _ _ _ Hl).
    destruct l as [|x l]; [rewrite bool_decide_true by done|rewrite bool_decide_false by done].
    + mstep. eexists. split; [done|]. by eapply (enq_behind c [] c [] []).
    + mstep. destruct (find_prev_spec s1 c (x :: l) sec (length (reqq s1)) c [] (x :: l)) as (p & l1 & l2 & He & Hs).
      { eapply is_list_frame; [exact Hl|done|done]. } { done. } { pose proof enq_len as Hlen. rewrite Hq in Hlen. simpl in *. lia. }
      rewrite He. simpl from_opt. mstep. eexists. split; [done|]. by eapply enq_behind.
Qed.
End enqueue.

Lemma nb_fields s s' k : nb (buf_at s' k) = nb (buf_at s k) → b_dev (buf_at s' k) = b_dev (buf_at s k) ∧
  b_blocknr (buf_at s' k) = b_blocknr (buf_at s k) ∧ b_data (buf_at s' k) = b_data (buf_at s k).
Proof. unfold nb. destruct (buf_at s' k), (buf_at s k). intros. by simplify_eq/=. Qed.
Lemma nb_hashed s s' hl k : nb (buf_at s' k) = nb (buf_at s k) → hashed s' hl k ↔ hashed s hl k.
Proof. intros He. unfold hashed. by destruct (nb_fields s s' k He) as (-> & -> & _). Qed.
Lemma evo_inr s fl q s' fl' q' k : evo s fl q s' fl' q' → inr s' k ↔ inr s k.
Proof. intros He. unfold inr. by rewrite (proj1 (ev_len _ _ _ _ _ _ _ He)). Qed.

Lemma blk_sec s d b : blk_ok s d b → ∃ di, part s d = Some di ∧ di_flag di = true ∧
  (u32 (di_num di / 2 - 1) <? u32 b) = false ∧ s32 (di_start di + b * 2) = sec_of s d b.
Proof.
  intros (_ & _ & _ & Hb & di & Hp & Hf & Hn & [Hl1 Hl2]). exists di. split; [done|]. split; [done|].
  unfold sec_of. rewrite Hp. simpl. pose proof (Z.div_mod (di_num di) 2). pose proof (Z.mod_pos_bound (di_num di) 2).
  split; [|apply s32_small; lia]. rewrite !u32_small by lia. apply Z.ltb_ge. lia.
Qed.

Lemma rw_block_spec s fl hl rf q rw k : cinv s fl hl rf q → idle s → inr s k →
  blk_ok s (b_dev (buf_at s k)) (b_blocknr (buf_at s k)) → k ∉ tgt s q → rw_ok s hl rw k →
  ∃ s' fl' rf' q' q1, ll_rw_block rw k s = Ret true s' ∧ cinv s' fl' hl rf' q' ∧ idle s' ∧ evo s fl q s' fl' q1 ∧
    (∀ j, j ∈ tgt s' q' ↔ j = k ∨ j ∈ tgt s' q1) ∧ k ∉ tgt s' q1.
Proof.
  intros Hc Hi Hk Hok Hkq Hrw. destruct (blk_sec _ _ _ Hok) as (di & Hp & Hf & Hb & Hs).
  destruct (get_req_spec s fl hl rf q Hc Hi) as (s1 & fl1 & rf1 & q1 & r & He & Hb1 & Hj1 & Hg1 & Hi1 & Hev).
  pose proof (ev_buf _ _ _ _ _ _ _ Hev k Hkq) as Hnb. destruct (nb_fields s s1 k Hnb) as (Hd & Hbl & _).
  assert (dev_infos s1 = dev_infos s) as Hinf by apply Hev.
  assert (k ∉ tgt s1 q1) as Hkq1 by (intros Hx; by apply Hkq, (ev_tgt _ _ _ _ _ _ _ Hev)).
  destruct (queue_req_spec s1 fl1 hl rf1 q1 r rw k Hb1 Hj1 Hg1 Hi1) as (s2 & He2 & q2 & Hc2 & Hi2 & Hev2 & Hp2 & Hr2).
  { by apply (evo_inr _ _ _ _ _ _ _ Hev). }
  { rewrite Hd, Hbl. by eapply blk_ok_ext. }
  { done. }
  { unfold rw_ok. by rewrite !(nb_has s s1), (nb_hashed s s1) by done. }
  rewrite Hd, Hbl, (sec_of_ext s s1) in He2 by done.
  exists s2, fl1, rf1, q2, q1. split.
  { unfold ll_rw_block, ide_rw_block. mstep. change (dev_infos s) with (dev_infos s).
    fold (part s (b_dev (buf_at s k))). rewrite Hp. simpl from_opt. mstep. rewrite Hf, Hb. simpl die_if. mstep.
    rewrite (bind_eval _ _ _ _ _ He). cbv beta iota zeta. mstep. by rewrite Hs. }
  split; [done|]. split; [done|]. split; [by eapply evo_trans|]. split.
  - intros j. unfold tgt. rewrite Hp2, fmap_cons, elem_of_cons, Hr2. done.
  - intros Hx. by apply Hkq1, (ev_tgt _ _ _ _ _ _ _ Hev2).
Qed.

(** ** Finding a buffer *)

Lemma hidx_range s d b : blk_ok s d b → 0 <= hidx d b < NR_HASH.
Proof.
  intros (_ & Hd & _ & Hb & _). unfold hidx. assert (0 <= Z.lxor b d) by (by apply Z.lxor_nonneg).
  split; [apply Z.rem_nonneg; [done|lia]|]. by apply Z.rem_bound_pos_pos.
Qed.

Lemma hash_loop_spec s hd l1 l2 d b fuel : is_list s hd (BRel <$> (l1 ++ l2)) → (length l2 < fuel)%nat →
  ∃ o, hash_loop fuel hd (fst_or hd (BRel <$> l2)) d b s = Some o ∧
    match o with Some k => k ∈ l2 ∧ at_blk s k d b | None => ∀ k, k ∈ l2 → ¬ at_blk s k d b end.
Proof.
  revert l1 l2. induction fuel as [|fuel IH]; intros l1 l2 Hl Hf; [lia|]. destruct l2 as [|k l2].
  - exists None. simpl. rewrite decide_True by done. split; [done|]. intros k. by rewrite elem_of_nil.
  - change (fst_or hd (BRel <$> (k :: l2))) with (BRel k). cbn [hash_loop]. rewrite decide_False.
    2: { intros Heq. apply is_list_hd_notin in Hl. apply Hl. rewrite <-Heq. apply list_elem_of_fmap. exists k. set_solver. }
    destruct ((_ =? _) && _) eqn:E.
    + exists (Some k). apply andb_true_iff in E as [E1%Z.eqb_eq E2%Z.eqb_eq]. split; [done|]. split; [left|done].
    + assert (nxt s (BRel k) = fst_or hd (BRel <$> l2)) as ->.
      { rewrite fmap_app, fmap_cons, cons_middle, app_assoc in Hl. apply is_list_next in Hl as [Hn _]. by rewrite lst_snoc in Hn. }
      destruct (IH (l1 ++ [k]) l2) as (o & He & Ho); [by rewrite <-app_assoc|simpl in Hf; lia|].
      exists o. split; [done|]. destruct o as [j|]; [destruct Ho; split; [by right|done]|].
      intros j [->|Hj]%elem_of_cons; [|by apply Ho]. intros [E1 E2]. by rewrite E1, E2, !Z.eqb_refl in E.
Qed.

Lemma hl_bound s fl hl q h : binv s fl hl q → 0 <= h < NR_HASH → (length (hl h) <= length (bufs s))%nat.
Proof.
  intros Hb Hh. replace (length (bufs s)) with (Z.to_nat (zlen (bufs s))) by (unfold zlen; lia).
  pose proof (lk_list bdom id s _ (bi_lists _ _ _ _ _ Hb) (BHash h) Hh) as Hl. simpl in Hl.
  apply NoDup_range_length.
  - apply is_list_NoDup in Hl. by apply NoDup_fmap_1 in Hl.
  - intros k Hk. by apply (bi_hl _ _ _ _ _ Hb) in Hk as [? _].
Qed.

Lemma from_hash_spec s fl hl q d b : binv s fl hl q → blk_ok s d b →
  ∃ o, getblk_from_hash d b s = Ret o s ∧
    match o with
    | Some k => inr s k ∧ hashed s hl k ∧ at_blk s k d b
    | None => ∀ k, hashed s hl k → ¬ at_blk s k d b
    end.
Proof.
  intros Hb Hok. pose proof (hidx_range _ _ _ Hok) as Hr.
  pose proof (lk_list bdom id s _ (bi_lists _ _ _ _ _ Hb) (BHash (hidx d b)) Hr) as Hl.
  destruct (hash_loop_spec s (BHash (hidx d b)) [] (hl (hidx d b)) d b (S (length (bufs s))) Hl) as (o & He & Ho).
  { pose proof (hl_bound _ _ _ _ _ Hb Hr). lia. }
  exists o. split.
  - unfold getblk_from_hash. mstep. change (hashfn d b) with (BHash (hidx d b)).
    change (nxt s (BHash (hidx d b))) with (nxt s (id (BHash (hidx d b)))). rewrite (is_list_nxt_hd _ _ _ Hl).
    simpl id. simpl blists. by rewrite He.
  - destruct o as [k|].
    + destruct Ho as [Hk Ha]. apply (bi_hl _ _ _ _ _ Hb) in Hk as Hk'. destruct Hk' as [Hi Hx]. split; [done|].
      split; [|done]. unfold hashed. by rewrite <-Hx.
    + intros k Hk [Ha1 Ha2]. unfold hashed in Hk. rewrite Ha1, Ha2 in Hk. by apply (Ho k).
Qed.

(** ** Taking a buffer off its lists *)

Lemma unfree_links s f1 k f2 hl : lists_ok bdom id s (blists (f1 ++ k :: f2) hl) →
  lists_ok bdom id (list_del1 (BRelFree k) s) (blists (f1 ++ f2) hl) ∧
  ∀ j, alone s (BRel j) → alone (list_del1 (BRelFree k) s) (BRel j).
Proof.
  intros Hl. assert (blists (f1 ++ k :: f2) hl BFree = (BRelFree <$> f1) ++ BRelFree k :: (BRelFree <$> f2)) as HL
    by (simpl; by rewrite fmap_app).
  split.
  - eapply (lists_del1 s _ _ _ _ BFree); [exact Hl|done|exact HL|]. intros j Hj. destruct j as [|h| |]; try done.
    rewrite fn_lookup_insert. simpl. by rewrite fmap_app.
  - intros j [Hn Hp]. pose proof (lk_list bdom id s _ Hl BFree I) as Hf. rewrite HL in Hf.
    destruct (list_del1_others _ _ _ _ _ (BRel j) Hf) as [Hn' Hp']; [|split; by rewrite ?Hn', ?Hp'].
    simpl. rewrite elem_of_cons, elem_of_app, elem_of_cons, !list_elem_of_fmap. naive_solver.
Qed.

(** The hash lists without [k]. *)
Definition hrem (k : Z) (hl : Z → list Z) : Z → list Z := λ h, filter (λ j, j ≠ k) (hl h).
Lemma elem_hrem k hl j h : j ∈ hrem k hl h ↔ j ≠ k ∧ j ∈ hl h.
Proof. unfold hrem. by rewrite list_elem_of_filter. Qed.
Lemma hrem_id k hl h : k ∉ hl h → hrem k hl h = hl h.
Proof. intros Hk. apply filter_id. intros x Hx ->. done. Qed.

Definition unhash (s : io C) (k : Z) : io C := if negb (b_dev (buf_at s k) =? NODEV) then list_del1 (BRel k) s else s.

Lemma unhash_links s fl hl q k : binv s fl hl q → inr s k →
  lists_ok bdom id (unhash s k) (blists fl (hrem k hl)) ∧ alone (unhash s k) (BRel k) ∧
  ∀ j, j ≠ k → inr s j → ¬ hashed s hl j → alone (unhash s k) (BRel j).
Proof.
  intros Hb Hk. pose proof (bi_lists _ _ _ _ _ Hb) as Hl. set (h0 := hidx (b_dev (buf_at s k)) (b_blocknr (buf_at s k))).
  assert (∀ h, k ∈ hl h → h = h0) as Hh by (intros h Hx; by apply (bi_hl _ _ _ _ _ Hb) in Hx as [_ ?]).
  destruct (decide (k ∈ hl h0)) as [Hin|Hin].
  - assert (blk_ok s (b_dev (buf_at s k)) (b_blocknr (buf_at s k))) as Hok
      by (by apply (bo_hash _ _ _ _ _ (bi_buf _ _ _ _ _ Hb k Hk))).
    pose proof (hidx_range _ _ _ Hok) as Hr. fold h0 in Hr.
    assert (unhash s k = list_del1 (BRel k) s) as ->.
    { unfold unhash. destruct Hok as (_ & _ & Hnd & _). by rewrite (proj2 (Z.eqb_neq _ _)). }
    apply list_elem_of_split in Hin as (l1 & l2 & Hs).
    assert (blists fl hl (BHash h0) = (BRel <$> l1) ++ BRel k :: (BRel <$> l2)) as HL by (simpl; by rewrite Hs, fmap_app).
    pose proof (lk_list bdom id s _ Hl (BHash h0) Hr) as Hhl. rewrite HL in Hhl.
    split; [|split; [apply list_del1_alone|]].
    + eapply (lists_del1 s _ _ _ _ (BHash h0)); [exact Hl|exact Hr|exact HL|]. intros p Hp. destruct p as [|h| |]; try done.
      destruct (decide (h = h0)) as [->|Hne].
      * rewrite fn_lookup_insert. simpl. rewrite <-fmap_app. f_equal. unfold hrem. rewrite Hs.
        assert (NoDup (l1 ++ k :: l2)) as Hnd.
        { apply is_list_NoDup in Hhl. rewrite <-fmap_cons, <-fmap_app in Hhl. by apply NoDup_fmap_1 in Hhl. }
        rewrite <-Permutation_middle in Hnd. apply NoDup_cons in Hnd as [Hnk _].
        rewrite filter_app, filter_cons_False by (intros Hx; by apply Hx). rewrite !filter_id; [done|set_solver|set_solver].
      * rewrite fn_lookup_insert_ne by congruence. simpl. rewrite hrem_id; [done|]. intros Hx. by apply Hne, Hh.
    + intros j Hj Hi Hnh. destruct (bi_self _ _ _ _ _ Hb j Hi Hnh) as [Hn Hp].
      destruct (list_del1_others _ _ _ _ _ (BRel j) Hhl) as [Hn' Hp']; [|split; by rewrite ?Hn', ?Hp'].
      simpl. rewrite elem_of_cons, <-fmap_cons, <-fmap_app, <-Hs, list_elem_of_fmap. intros [|(x & [= <-] & Hx)]; [done|].
      apply Hnh. apply (bi_hl _ _ _ _ _ Hb) in Hx as Hx'. unfold hashed. destruct Hx' as [_ <-]. done.
  - assert (alone s (BRel k)) as Hal by (by apply (bi_self _ _ _ _ _ Hb)).
    assert (∀ p : bptr, nxt (unhash s k) p = nxt s p ∧ prv (unhash s k) p = prv s p) as Hsame.
    { intros p. unfold unhash. destruct (negb _); [by apply list_del1_idle|done]. }
    split; [|split].
    + eapply lists_ok_ext; [|eapply lists_ok_frame; [exact Hl|intros; apply Hsame|done]].
      intros p Hp. destruct p as [|h| |]; try done. simpl. rewrite hrem_id; [done|]. intros Hx. apply Hin. by rewrite <-(Hh h Hx).
    + unfold alone. by rewrite !(proj1 (Hsame _)), !(proj2 (Hsame _)).
    + intros j Hj Hi Hnh. unfold alone. rewrite !(proj1 (Hsame _)), !(proj2 (Hsame _)). by apply (bi_self _ _ _ _ _ Hb).
Qed.

Lemma tgt_busy s fl hl q k : binv s fl hl q → k ∈ tgt s q → b_has k B_BUSY s = true.
Proof.
  intros Hb (r & -> & Hr)%list_elem_of_fmap. destruct (bi_req _ _ _ _ _ Hb r Hr) as [Hi _ [[_ Ha]|(_ & _ & Ha & _)]]; [|done].
  by apply (bi_buf _ _ _ _ _ Hb).
Qed.

Lemma free_NoDup s fl hl q : binv s fl hl q → NoDup fl.
Proof.
  intros Hb. pose proof (lk_list bdom id s _ (bi_lists _ _ _ _ _ Hb) BFree I) as Hf. apply is_list_NoDup in Hf.
  by apply NoDup_fmap_1 in Hf.
Qed.
Lemma free_mid s f1 k f2 hl q : binv s (f1 ++ k :: f2) hl q →
  inr s k ∧ b_has k B_BUSY s = false ∧ k ∉ f1 ++ f2 ∧ k ∉ tgt s q ∧ b_has k B_ASY s = false.
Proof.
  intros Hb. assert (inr s k) as Hk by (apply (bi_fl _ _ _ _ _ Hb); set_solver).
  assert (b_has k B_BUSY s = false) as Hbz by (apply (bi_buf _ _ _ _ _ Hb k Hk); set_solver).
  pose proof (free_NoDup _ _ _ _ Hb) as Hnd. rewrite <-Permutation_middle in Hnd. apply NoDup_cons in Hnd as [Hnk _].
  split; [done|]. split; [done|]. split; [done|]. split; [intros Hx; by rewrite (tgt_busy _ _ _ _ _ Hb Hx) in Hbz|].
  destruct (b_has k B_ASY s) eqn:E; [|done]. apply (bi_buf _ _ _ _ _ Hb k Hk) in E as [E _]. by rewrite E in Hbz.
Qed.

(** A buffer of the free list that is found in the hash list. *)
Section take.
Context (s s' : io C) (f1 : list Z) (k : Z) (f2 : list Z) (hl : Z → list Z) (q : list Z).
Hypothesis Hb : binv s (f1 ++ k :: f2) hl q.
Hypothesis Hc : changed s s' k.
Hypothesis Hl : lists_ok bdom id s' (blists (f1 ++ f2) hl).
Hypothesis Hal : ∀ j, alone s (BRel j) → alone s' (BRel j).
Hypothesis Hbuf : buf_at s' k = set_b_flags (Z.lor (b_flags (buf_at s k)) B_BUSY) (buf_at s k).
Hypothesis Hreq : ∀ r, req_at s' r = req_at s r.

Lemma take_gen : binv s' (f1 ++ f2) hl q.
Proof.
  destruct (free_mid _ _ _ _ _ _ Hb) as (Hk & Hbz & Hnk & Hkq & Hasy).
  destruct (bi_buf _ _ _ _ _ Hb k Hk) as [G1 G2 G3 G4 G5 G6 G7 G8]. unfold b_has in *.
  eapply (changed_binv vol s s' _ _ hl hl q); [exact Hb|exact Hk|exact Hc|set_solver|done|exact Hl|..].
  - eapply (flag_buf vol s s' _ hl q k); [exact Hb|exact Hk|exact Hc|exact Hbuf|..]; flags; try done.
    by rewrite Hasy.
  - by eapply flag_hidx.
  - intros Hlv. eapply flag_apart; [exact Hb|exact Hk|exact Hbuf|exact Hlv|]. by flags.
  - intros j Hj Hne Hnh. apply Hal. by apply (bi_self _ _ _ _ _ Hb).
  - rewrite (flag_hashed s s' hl k _ Hbuf). intros Hnh. apply Hal. by apply (bi_self _ _ _ _ _ Hb).
  - eapply changed_reqs; [exact Hb|exact Hc|done|]. intros r Hr. split; [done|]. by eapply not_tgt.
  - rewrite (tgt_same s s') by (intros; by rewrite Hreq). apply (bi_tgt _ _ _ _ _ Hb).
Qed.
Lemma take_contents : contents_same s s'.
Proof.
  destruct (free_mid _ _ _ _ _ _ Hb) as (Hk & _).
  eapply changed_contents; [exact Hb|exact Hc|exact take_gen|..]; rewrite Hbuf; unfold pend; simpl; flags; intros Hp.
  - eapply contents_pend; [by eapply binv_uniq|done|done|done].
  - left. split; [done|]. split; by rewrite Hbuf.
Qed.
End take.

(** The first buffer of the free list, taken out of its hash list. *)
Section evict.
Context (s s' : io C) (f1 : list Z) (k : Z) (f2 : list Z) (hl hl' : Z → list Z) (q : list Z).
Hypothesis Hb : binv s (f1 ++ k :: f2) hl q.
Hypothesis Hc : changed s s' k.
Hypothesis Hl : lists_ok bdom id s' (blists (f1 ++ f2) hl').
Hypothesis Hal : ∀ j, j ≠ k → inr s j → ¬ hashed s hl j → alone s' (BRel j).
Hypothesis Hhl : ∀ j h, j ≠ k → j ∈ hl' h ↔ j ∈ hl h.
Hypothesis Hreq : ∀ r, req_at s' r = req_at s r.

Lemma evict_binv : buf_ok vol s' (f1 ++ f2) hl' k →
  (∀ h, k ∈ hl' h → h = hidx (b_dev (buf_at s' k)) (b_blocknr (buf_at s' k))) →
  (∀ j, inr s j → j ≠ k → live s hl j → ¬ at_blk s j (b_dev (buf_at s' k)) (b_blocknr (buf_at s' k))) →
  (¬ hashed s' hl' k → alone s' (BRel k)) → binv s' (f1 ++ f2) hl' q.
Proof.
  intros Hok Hh Hap Halk. destruct (free_mid _ _ _ _ _ _ Hb) as (Hk & Hbz & Hnk & Hkq & Hasy).
  eapply (changed_binv vol s s' _ _ hl hl' q); [exact Hb|exact Hk|exact Hc|set_solver|exact Hhl|exact Hl|exact Hok|exact Hh|
    intros _; exact Hap|intros; by apply Hal|exact Halk|..].
  - intros r Hr. eapply changed_req; [exact Hc|exact Hhl|by apply (bi_req _ _ _ _ _ Hb)|done|by eapply not_tgt].
  - rewrite (tgt_same s s') by (intros; by rewrite Hreq). apply (bi_tgt _ _ _ _ _ Hb).
Qed.
End evict.

(** A dirty buffer is set aside for writing. *)
Section evict_dirty.
Context (s s' : io C) (f1 : list Z) (k : Z) (f2 : list Z) (hl : Z → list Z) (q : list Z) (f : Z).
Hypothesis Hb : binv s (f1 ++ k :: f2) hl q.
Hypothesis Hd : b_has k B_DIRTY s = true.
Hypothesis Hc : changed s s' k.
Hypothesis Hl : lists_ok bdom id s' (blists (f1 ++ f2) (hrem k hl)).
Hypothesis Hal : ∀ j, j ≠ k → inr s j → ¬ hashed s hl j → alone s' (BRel j).
Hypothesis Halk : alone s' (BRel k).
Hypothesis Hreq : ∀ r, req_at s' r = req_at s r.
Hypothesis Hbuf : buf_at s' k = set_b_flags f (buf_at s k).
Hypothesis Hf : has f B_BUSY = true ∧ has f B_ASY = true ∧ has f B_DIRTY = false ∧ has f B_ERROR = false ∧
  has f B_DONE = b_has k B_DONE s.

Lemma dirty_hashed : inr s k ∧ hashed s hl k ∧ b_has k B_DONE s = true ∧
  blk_ok s (b_dev (buf_at s k)) (b_blocknr (buf_at s k)).
Proof.
  destruct (free_mid _ _ _ _ _ _ Hb) as (Hk & _). destruct (bi_buf _ _ _ _ _ Hb k Hk) as [_ _ _ G4 _ G6 _ _].
  destruct (G4 Hd). auto.
Qed.
Lemma dirty_unhashed : ¬ hashed s' (hrem k hl) k.
Proof. unfold hashed. rewrite elem_hrem. by intros [? _]. Qed.

Lemma dirty_binv : binv s' (f1 ++ f2) (hrem k hl) q.
Proof.
  destruct dirty_hashed as (Hk & Hh & Hdn & Hok). destruct (free_mid _ _ _ _ _ _ Hb) as (_ & _ & Hnk & _).
  destruct Hf as (F1 & F2 & F3 & F4 & F5). pose proof dirty_unhashed as Hn.
  assert (∀ m, b_has k m s' = has f m) as Hhas by (intros m; unfold b_has; by rewrite Hbuf).
  eapply (evict_binv s s'); [exact Hb|exact Hc|exact Hl|exact Hal| |exact Hreq|..].
  - intros j h Hj. rewrite elem_hrem. naive_solver.
  - split; rewrite ?Hhas, ?F1, ?F2, ?F3, ?F4, ?F5; try done; rewrite ?Hbuf.
    + by apply (bi_buf _ _ _ _ _ Hb).
    + intros _. do 3 (split; [done|]). eapply blk_ok_ext; [apply Hc|]. done.
  - intros h. rewrite elem_hrem. by intros [? _].
  - intros j Hj Hne Hlj Hat. apply Hne. apply (bi_uniq _ _ _ _ _ Hb); [done|done|done|by left|]. by rewrite Hbuf in Hat.
  - done.
Qed.
Lemma dirty_contents : contents_same s s'.
Proof.
  destruct dirty_hashed as (Hk & _). destruct Hf as (F1 & F2 & F3 & F4 & F5).
  eapply changed_contents; [exact Hb|exact Hc|exact dirty_binv|..]; rewrite Hbuf; unfold pend; simpl; rewrite F2, F3.
  - intros _. eapply contents_pend; [by eapply binv_uniq|done| |done]. unfold pend. unfold b_has in Hd. by rewrite Hd.
  - intros _. left. split; [done|]. split; by rewrite Hbuf.
Qed.
End evict_dirty.

(** A clean buffer is used for another block. *)
Section evict_clean.
Context (s s' : io C) (f1 : list Z) (k : Z) (f2 : list Z) (hl : Z → list Z) (q : list Z) (d b : Z).
Hypothesis Hb : binv s (f1 ++ k :: f2) hl q.
Hypothesis Hd : b_has k B_DIRTY s = false.
Hypothesis Hok : blk_ok s d b.
Hypothesis Hno : ∀ j, inr s j → live s hl j → ¬ at_blk s j d b.
Hypothesis Hc : changed s s' k.
#[local] Notation hl' := (<[hidx d b := k :: hrem k hl (hidx d b)]> (hrem k hl)).
Hypothesis Hl : lists_ok bdom id s' (blists (f1 ++ f2) hl').
Hypothesis Hal : ∀ j, j ≠ k → inr s j → ¬ hashed s hl j → alone s' (BRel j).
Hypothesis Hreq : ∀ r, req_at s' r = req_at s r.
Hypothesis Hbuf : buf_at s' k = set_b_flags (Z.lor B_BUSY B_READ) (set_b_blocknr b (set_b_dev d (buf_at s k))).

Lemma clean_hl j h : j ∈ hl' h ↔ j ≠ k ∧ j ∈ hl h ∨ j = k ∧ h = hidx d b.
Proof.
  destruct (decide (h = hidx d b)) as [->|Hne].
  - rewrite fn_lookup_insert, elem_of_cons, elem_hrem. naive_solver.
  - rewrite fn_lookup_insert_ne, elem_hrem by done. naive_solver.
Qed.
Lemma clean_hashed : hashed s' hl' k.
Proof. unfold hashed. rewrite Hbuf. simpl. apply clean_hl. by right. Qed.

Lemma clean_binv : binv s' (f1 ++ f2) hl' q.
Proof.
  destruct (free_mid _ _ _ _ _ _ Hb) as (Hk & _ & Hnk & _). pose proof clean_hashed as Hh.
  assert (∀ m, b_has k m s' = has (Z.lor B_BUSY B_READ) m) as Hhas by (intros m; unfold b_has; by rewrite Hbuf).
  eapply (evict_binv s s'); [exact Hb|exact Hc|exact Hl|exact Hal| |exact Hreq|..].
  - intros j h Hj. rewrite clean_hl. naive_solver.
  - split; rewrite ?Hhas; repeat flag_const; try done; rewrite ?Hbuf; simpl.
    + by apply (bi_buf _ _ _ _ _ Hb).
    + intros _. eapply blk_ok_ext; [apply Hc|done].
  - intros h Hx. rewrite Hbuf. simpl. apply clean_hl in Hx as [[? _]|[_ ?]]; done.
  - intros j Hj Hne Hlj. rewrite Hbuf. simpl. by apply Hno.
  - done.
Qed.
Lemma clean_contents : contents_same s s'.
Proof.
  destruct (free_mid _ _ _ _ _ _ Hb) as (Hk & _ & _ & _ & Hasy).
  eapply changed_contents; [exact Hb|exact Hc|exact clean_binv|..].
  - rewrite Hbuf. unfold pend. simpl. by repeat flag_const.
  - unfold pend. unfold b_has in *. by rewrite Hd, Hasy.
Qed.
End evict_clean.

(** ** [getblk] *)

(** Buffers that processes hold. *)
Definition held (s : io C) (q : list Z) (j : Z) : Prop :=
  inr s j ∧ b_has j B_BUSY s = true ∧ b_has j B_ASY s = false ∧ j ∉ tgt s q.
(** They stay as they are, and so do the contents of all blocks; the buffers
    [new] join them. *)
Record kept (new : list Z) (s : io C) (hl : Z → list Z) (q : list Z) (s' : io C) (hl' : Z → list Z) (q' : list Z) : Prop := {
  kp_held j : held s q j → held s' q' j ∧ nb (buf_at s' j) = nb (buf_at s j) ∧ (hashed s' hl' j ↔ hashed s hl j);
  kp_new j : held s' q' j ↔ held s q j ∨ j ∈ new;
  kp_contents : contents_same s s';
  kp_infos : dev_infos s' = dev_infos s;
  kp_len : zlen (bufs s') = zlen (bufs s);
}.
Lemma kept_trans n n' s hl q s1 hl1 q1 s2 hl2 q2 :
  kept n s hl q s1 hl1 q1 → kept n' s1 hl1 q1 s2 hl2 q2 → kept (n ++ n') s hl q s2 hl2 q2.
Proof.
  intros [A1 A0 A2 A3 A4] [B1 B0 B2 B3 B4]. split; [|..|congruence|congruence].
  - intros j Hj. destruct (A1 j Hj) as (Hj1 & Hn1 & Hh1). destruct (B1 j Hj1) as (Hj2 & Hn2 & Hh2).
    split; [done|]. split; [congruence|]. by rewrite Hh2.
  - intros j. rewrite B0, A0, elem_of_app. tauto.
  - intros d b Hd. rewrite B2, A2; [done|done|]. by eapply blk_ok_ext.
Qed.
Lemma changed_kept new s hl q s' hl' k : changed s s' k → contents_same s s' → ¬ held s q k →
  (∀ j h, j ≠ k → j ∈ hl' h ↔ j ∈ hl h) → (∀ r, req_at s' r = req_at s r) → (∀ j, j ∈ new ↔ j = k ∧ held s' q k) →
  kept new s hl q s' hl' q.
Proof.
  intros Hc Hcs Hnk Hhl Hreq Hnew. assert (∀ j, j ≠ k → held s' q j ↔ held s q j) as Hh.
  { intros j Hne. unfold held. rewrite (changed_inr _ _ _ Hc), !(changed_has _ _ _ Hc) by done.
    by rewrite (tgt_same s s') by (intros; by rewrite Hreq). }
  split; [..|done|apply Hc|apply Hc]; intros j.
  - intros Hj. assert (j ≠ k) as Hne by (by intros ->). split; [by apply Hh|].
    split; [by rewrite (ch_other _ _ _ Hc)|by apply (changed_hashed _ _ _ _ _ Hc Hhl)].
  - rewrite Hnew. destruct (decide (j = k)) as [->|Hne]; [tauto|]. rewrite Hh by done. tauto.
Qed.

(** The requests that are queued are the writes of buffers set aside. *)
Definition settled (s : io C) (q : list Z) : Prop := ∀ j, inr s j → b_has j B_ASY s = true ↔ j ∈ tgt s q.

Lemma evo_asy s fl q s' fl' q' j : evo s fl q s' fl' q' → b_has j B_ASY s' = true →
  b_has j B_ASY s = true ∧ (j ∈ tgt s q → j ∈ tgt s' q').
Proof.
  intros He Ha. destruct (decide (j ∈ tgt s q)) as [Hj|Hj].
  - destruct (decide (j ∈ tgt s' q')) as [Hj'|Hj'].
    + destruct (ev_tgt _ _ _ _ _ _ _ He j Hj') as [_ Hf]. split; [|done]. unfold b_has in *. by rewrite <-Hf.
    + pose proof (ev_done _ _ _ _ _ _ _ He j Hj Hj') as Hd. destruct (b_has j B_ASY s).
      * destruct Hd as [_ Hd]. by rewrite Hd in Ha.
      * destruct Hd as (_ & _ & Hd). by rewrite Hd in Ha.
  - split; [|done]. by rewrite <-(nb_has s s' j) by by apply (ev_buf _ _ _ _ _ _ _ He).
Qed.
Lemma evo_settled s fl q s' fl' q' : evo s fl q s' fl' q' → settled s q → settled s' q'.
Proof.
  intros He Hs j Hj. apply (evo_inr _ _ _ _ _ _ _ He) in Hj. split.
  - intros Ha. destruct (evo_asy _ _ _ _ _ _ _ He Ha) as [Ha' Ht]. by apply Ht, Hs.
  - intros Ht. destruct (ev_tgt _ _ _ _ _ _ _ He j Ht) as [Ht' Hf]. unfold b_has. rewrite Hf. by apply Hs.
Qed.
Lemma evo_kept s fl hl q s' fl' q' : evo s fl q s' fl' q' → (∀ j, inr s j → j ∈ tgt s q → b_has j B_ASY s = true) →
  kept [] s hl q s' hl q'.
Proof.
  intros He Hse. assert (∀ j, held s q j → held s' q' j ∧ nb (buf_at s' j) = nb (buf_at s j)) as Hh.
  { intros j (Hi & Hbz & Ha & Hq). pose proof (ev_buf _ _ _ _ _ _ _ He j Hq) as Hn. split; [|done].
    split; [by apply (evo_inr _ _ _ _ _ _ _ He)|]. rewrite !(nb_has s s') by done.
    do 2 (split; [done|]). intros Hx. by apply Hq, (ev_tgt _ _ _ _ _ _ _ He). }
  split; [..|apply He|apply He|apply (ev_len _ _ _ _ _ _ _ He)]; intros j.
  - intros Hj. destruct (Hh j Hj) as [? Hn]. split; [done|]. split; [done|by apply nb_hashed].
  - split; [|intros [Hj|Hj%elem_of_nil]; [by apply Hh|done]]. intros (Hi & Hbz & Ha & Hq). left.
    apply (evo_inr _ _ _ _ _ _ _ He) in Hi. destruct (decide (j ∈ tgt s q)) as [Hj|Hj].
    + pose proof (ev_done _ _ _ _ _ _ _ He j Hj Hq) as Hd. rewrite (Hse j Hi Hj) in Hd. destruct Hd as [Hd _].
      by rewrite Hd in Hbz.
    + pose proof (ev_buf _ _ _ _ _ _ _ He j Hj) as Hn. rewrite !(nb_has s s') in * by done. done.
Qed.

Lemma notavail_true k s : inr s k →
  notavail k true s = Ret tt (set_flags k B_BUSY (list_del1 (BRelFree k) (unhash s k))).
Proof.
  intros Hk. assert (b_dev (buf_at (set_flags k B_BUSY s) k) = b_dev (buf_at s k)) as Hd.
  { unfold set_flags. by rewrite buf_at_upd, decide_True. }
  unfold notavail. mstep. simpl andb. rewrite Hd. unfold unhash. by destruct (negb _).
Qed.
Lemma notavail_false k s : notavail k false s = Ret tt (list_del1 (BRelFree k) (set_flags k B_BUSY s)).
Proof. done. Qed.


(** Steps that leave the requests and who waits alone. *)
Record bufop (s s' : io C) (k : Z) : Prop := {
  bp_changed : changed s s' k;
  bp_reqq : reqq s' = reqq s;
  bp_links : rnext s' = rnext s ∧ rprev s' = rprev s;
  bp_cur : cur_req s' = cur_req s ∧ dma_ide_flag s' = dma_ide_flag s;
  bp_wait : buf_wait s' = buf_wait s ∧ req_wait s' = req_wait s ∧ b_wait (buf_at s' k) = b_wait (buf_at s k);
}.
Lemma bufop_trans s s1 s2 k : bufop s s1 k → bufop s1 s2 k → bufop s s2 k.
Proof.
  intros [[A1 A2 A3 A4 A5] A6 [A7 A7'] [A8 A8'] (A9 & A9' & A9'')] [[B1 B2 B3 B4 B5] B6 [B7 B7'] [B8 B8'] (B9 & B9' & B9'')].
  split; [|congruence|split; congruence|split; congruence|repeat split; congruence].
  split; try congruence. intros j Hj. by rewrite B5, A5.
Qed.
Lemma bufop_upd k f s : inr s k → (∀ b, b_wait (f b) = b_wait b) → bufop s (upd_buf k f s) k.
Proof.
  intros Hk Hf. split; try done.
  - split; try done; [apply zlen_zalter|]. intros j Hj. by rewrite buf_at_upd, decide_False.
  - do 2 (split; [done|]). rewrite buf_at_upd, decide_True by done. apply Hf.
Qed.
Lemma bufop_then k f s s1 : inr s k → bufop s s1 k → (∀ b, b_wait (f b) = b_wait b) → bufop s (upd_buf k f s1) k.
Proof.
  intros Hk Hp Hf. eapply bufop_trans; [exact Hp|]. apply bufop_upd; [|done]. by apply (changed_inr _ _ _ (bp_changed _ _ _ Hp)).
Qed.
Lemma bufop_del (e : bptr) s k : bufop s (list_del1 e s) k.
Proof. by split. Qed.
Lemma bufop_add (h e : bptr) s k : bufop s (list_add_head h e s) k.
Proof. by split. Qed.
Lemma bufop_unhash s k : bufop s (unhash s k) k.
Proof. unfold unhash. destruct (negb _); by split. Qed.
Lemma bufop_req s s' k r : bufop s s' k → req_at s' r = req_at s r.
Proof. intros Hp. unfold req_at. by rewrite (bp_reqq _ _ _ Hp). Qed.

Lemma bufop_cinv s fl hl rf q s' fl' hl' k : cinv s fl hl rf q → bufop s s' k → k ∉ tgt s q → binv s' fl' hl' q →
  cinv s' fl' hl' rf q.
Proof.
  intros [Hb Hr Hj] Hp Hk Hb'. pose proof (bp_changed _ _ _ Hp) as Hc. pose proof (λ r, bufop_req _ _ _ r Hp) as Hreq. split.
  - done.
  - eapply rinv_ext; [exact Hr|apply Hp..|by rewrite (bp_reqq _ _ _ Hp)|]. intros r. by rewrite Hreq.
  - destruct q as [|r l]; unfold jinv in *; [by rewrite (ch_ctl _ _ _ Hc)|].
    unfold cur_ok. rewrite Hreq, (ch_ctl _ _ _ Hc), (ch_prd _ _ _ Hc), (proj2 (bp_cur _ _ _ Hp)).
    rewrite (ch_other _ _ _ Hc); [done|]. intros He. apply Hk. rewrite <-He. left.
Qed.
Lemma bufop_idle s s' k : bufop s s' k → idle s → idle s'.
Proof.
  intros Hp (H1 & H2 & H3). destruct (bp_wait _ _ _ Hp) as (W1 & W2 & W3). split; [congruence|]. split; [congruence|].
  intros j. destruct (decide (j = k)) as [->|Hne]; [by rewrite W3|]. by rewrite (ch_other _ _ _ (bp_changed _ _ _ Hp)).
Qed.

(** What [getblk] makes of the first buffer of the free list: one to be
    written, or one for the block. *)
Definition set_aside (k : Z) (s : io C) : io C :=
  clear_flags k (Z.lor B_READ (Z.lor B_ERROR B_DIRTY))
    (list_del1 (BRelFree k) (set_flags k B_BUSY (clear_flags k B_DIRTY (set_flags k B_ASY
      (set_flags k B_BUSY (list_del1 (BRelFree k) (unhash s k))))))).
Definition renamed (k d b : Z) (s : io C) : io C :=
  list_add_head (BHash (hidx d b)) (BRel k)
    (upd_buf k (λ x, set_b_flags (Z.lor B_BUSY B_READ) (set_b_blocknr b (set_b_dev d x)))
      (set_flags k B_BUSY (list_del1 (BRelFree k) (unhash s k)))).

Section off.
Context (s : io C) (k : Z) (f2 : list Z) (hl : Z → list Z) (rf q : list Z).
Hypothesis Hci : cinv s (k :: f2) hl rf q.
#[local] Notation Hb := (ci_buf _ _ _ _ _ _ Hci).
#[local] Notation s1 := (list_del1 (BRelFree k) (unhash s k)).

Lemma off_inr : inr s k.
Proof. apply (bi_fl _ _ _ _ _ Hb). left. Qed.
Lemma off_inr_upd (m : io C) f : inr m k → inr (upd_buf k f m) k.
Proof. unfold inr, upd_buf. simpl. by rewrite zlen_zalter. Qed.
Lemma off_links : lists_ok bdom id s1 (blists f2 (hrem k hl)) ∧ alone s1 (BRel k) ∧
  ∀ j, j ≠ k → inr s j → ¬ hashed s hl j → alone s1 (BRel j).
Proof.
  destruct (unhash_links s _ hl q k Hb off_inr) as (Hl & Hk & Hj). destruct (unfree_links _ [] k f2 _ Hl) as [Hl' Hal].
  split; [done|]. split; [by apply Hal|]. intros j Hne Hi Hnh. by apply Hal, Hj.
Qed.
Lemma off_bufop : bufop s s1 k ∧ inr s1 k.
Proof.
  split; [eapply bufop_trans; [apply bufop_unhash|apply bufop_del]|].
  change (inr (unhash s k) k). unfold unhash. destruct (negb _); apply off_inr.
Qed.
Lemma off_buf j : buf_at s1 j = buf_at s j.
Proof. change (buf_at (unhash s k) j = buf_at s j). unfold unhash. by destruct (negb _). Qed.

(** ... to be written *)
Lemma aside_bufop : bufop s (set_aside k s) k.
Proof.
  pose proof off_inr as Hi. unfold set_aside, set_flags, clear_flags. apply bufop_then; [done| |done].
  eapply bufop_trans; [|apply bufop_del]. do 4 (apply bufop_then; [done| |done]). apply off_bufop.
Qed.
Definition aside_flags (f : Z) : Z :=
  Z.land (Z.lor (Z.land (Z.lor (Z.lor f B_BUSY) B_ASY) (Z.lnot B_DIRTY)) B_BUSY) (Z.lnot (Z.lor B_READ (Z.lor B_ERROR B_DIRTY))).
Lemma aside_buf : buf_at (set_aside k s) k = set_b_flags (aside_flags (b_flags (buf_at s k))) (buf_at s k).
Proof.
  destruct off_bufop as [_ Hi]. unfold set_aside, set_flags, clear_flags.
  rewrite buf_at_upd, decide_True by (try done; by do 4 apply off_inr_upd).
  change (buf_at (list_del1 (BRelFree k) ?x) k) with (buf_at x k).
  rewrite !buf_at_upd, !decide_True by (try done; by repeat apply off_inr_upd).
  change (buf_at (unhash s k) k) with (buf_at s1 k). rewrite off_buf. by destruct (buf_at s k).
Qed.
Lemma aside_links : lists_ok bdom id (set_aside k s) (blists f2 (hrem k hl)) ∧ alone (set_aside k s) (BRel k) ∧
  ∀ j, j ≠ k → inr s j → ¬ hashed s hl j → alone (set_aside k s) (BRel j).
Proof.
  destruct off_links as (Hl & Hk & Hj).
  assert (∀ p : bptr, nxt (set_aside k s) p = nxt s1 p ∧ prv (set_aside k s) p = prv s1 p) as Hs.
  { intros p. apply (list_del1_idle s1 (BRelFree k) p). apply list_del1_alone. }
  assert (∀ p, alone s1 p → alone (set_aside k s) p) as Ha.
  { intros p [H1 H2]. destruct (Hs p) as [E1 E2]. split; congruence. }
  split; [eapply lists_ok_frame; [exact Hl|intros; apply Hs|done]|]. split; [by apply Ha|]. intros. apply Ha, Hj; done.
Qed.
Lemma aside_keeps : b_has k B_DIRTY s = true →
  cinv (set_aside k s) f2 (hrem k hl) rf q ∧ kept [] s hl q (set_aside k s) (hrem k hl) q ∧
  has (aside_flags (b_flags (buf_at s k))) B_ASY = true.
Proof.
  intros Hd. destruct (free_mid s [] k f2 hl q Hb) as (Hk & Hbz & _ & Hkq & _). destruct aside_links as (Hl & Halk & Hal).
  pose proof aside_bufop as Hp. set (f := aside_flags (b_flags (buf_at s k))).
  assert (has f B_BUSY = true ∧ has f B_ASY = true ∧ has f B_DIRTY = false ∧ has f B_ERROR = false ∧
    has f B_DONE = b_has k B_DONE s) as Hf by (unfold f, aside_flags, b_has; flags; done).
  pose proof (dirty_binv s (set_aside k s) [] k f2 hl q f Hb Hd (bp_changed _ _ _ Hp) Hl Hal Halk (λ r, bufop_req _ _ _ r Hp)
    aside_buf Hf) as Hb'.
  split; [by eapply bufop_cinv; [exact Hci|exact Hp|done|]|]. split; [|apply Hf]. apply (changed_kept _ _ _ _ _ _ k).
  - apply Hp.
  - by eapply (dirty_contents s (set_aside k s) [] k f2 hl q f Hb Hd (bp_changed _ _ _ Hp) Hl Hal Halk (λ r, bufop_req _ _ _ r Hp)
      aside_buf Hf).
  - intros (_ & Hx & _). by rewrite Hx in Hbz.
  - intros j h Hj. rewrite elem_hrem. naive_solver.
  - intros r. by eapply bufop_req.
  - intros j. rewrite elem_of_nil. split; [done|]. intros [_ (_ & _ & Hx & _)]. unfold b_has in Hx. rewrite aside_buf in Hx.
    destruct Hf as (_ & Hf & _). change (has f B_ASY = false) in Hx. by rewrite Hf in Hx.
Qed.

(** ... for the block *)
Context (d b : Z).
Hypothesis Hok : blk_ok s d b.
Hypothesis Hno : ∀ j, inr s j → live s hl j → ¬ at_blk s j d b.
#[local] Notation hl' := (<[hidx d b := k :: hrem k hl (hidx d b)]> (hrem k hl)).

Lemma renamed_bufop : bufop s (renamed k d b s) k.
Proof.
  pose proof off_inr as Hi. unfold renamed, set_flags. eapply bufop_trans; [|apply bufop_add].
  do 2 (apply bufop_then; [done| |done]). apply off_bufop.
Qed.
Lemma renamed_buf : buf_at (renamed k d b s) k =
  set_b_flags (Z.lor B_BUSY B_READ) (set_b_blocknr b (set_b_dev d (buf_at s k))).
Proof.
  destruct off_bufop as [_ Hi]. unfold renamed, set_flags.
  change (buf_at (list_add_head ?h ?e ?x) k) with (buf_at x k).
  rewrite !buf_at_upd, !decide_True by (try done; by repeat apply off_inr_upd).
  change (buf_at (unhash s k) k) with (buf_at s1 k). rewrite off_buf. by destruct (buf_at s k).
Qed.
Lemma renamed_links : lists_ok bdom id (renamed k d b s) (blists f2 hl') ∧
  ∀ j, j ≠ k → inr s j → ¬ hashed s hl j → alone (renamed k d b s) (BRel j).
Proof.
  destruct off_links as (Hl & Hk & Hj). unfold renamed. set (m := upd_buf _ _ _).
  destruct (lists_add_hash m f2 (hrem k hl) (hidx d b) k) as [Hl' Ha].
  - eapply lists_ok_frame; [exact Hl|done|done].
  - by eapply hidx_range.
  - intros h. rewrite elem_hrem. by intros [? _].
  - split; [done|]. intros j Hne Hi Hnh. apply Ha; [done|by apply Hj|]. intros h. rewrite elem_hrem. intros [_ Hx].
    apply Hnh. apply (bi_hl _ _ _ _ _ Hb) in Hx as Hx'. unfold hashed. destruct Hx' as [_ <-]. done.
Qed.
Lemma renamed_keeps : b_has k B_DIRTY s = false →
  cinv (renamed k d b s) f2 hl' rf q ∧ kept [k] s hl q (renamed k d b s) hl' q ∧ hashed (renamed k d b s) hl' k.
Proof.
  intros Hd. destruct (free_mid s [] k f2 hl q Hb) as (Hk & Hbz & _ & Hkq & _). destruct renamed_links as (Hl & Hal).
  pose proof renamed_bufop as Hp. pose proof (λ r, bufop_req _ _ _ r Hp) as Hreq. pose proof (bp_changed _ _ _ Hp) as Hc.
  pose proof (clean_binv s (renamed k d b s) [] k f2 hl q d b Hb Hok Hno Hc Hl Hal Hreq renamed_buf) as Hb'.
  split; [by eapply bufop_cinv; [exact Hci|exact Hp|done|]|]. split; [|eapply clean_hashed; exact renamed_buf].
  apply (changed_kept _ _ _ _ _ _ k); [done|..].
  - by apply (clean_contents s (renamed k d b s) [] k f2 hl q d b Hb Hd Hok Hno Hc Hl Hal Hreq renamed_buf).
  - intros (_ & Hx & _). by rewrite Hx in Hbz.
  - intros j h Hj. rewrite (clean_hl k hl d b). naive_solver.
  - done.
  - intros j. rewrite list_elem_of_singleton. split; [|by intros [-> _]]. intros ->. split; [done|].
    split; [by apply (changed_inr _ _ _ Hc)|]. unfold b_has. rewrite renamed_buf. simpl. repeat flag_const. do 2 (split; [done|]).
    by rewrite (tgt_same s) by (intros; by rewrite Hreq).
Qed.
End off.

(** [getblk] gave the buffer [k] for a block. *)
Record got (s : io C) (hl : Z → list Z) (q : list Z) (d b k : Z)
    (s' : io C) (fl' : list Z) (hl' : Z → list Z) (rf' q' : list Z) : Prop := {
  gt_inv : cinv s' fl' hl' rf' q';
  gt_idle : idle s';
  gt_settled : settled s' q';
  gt_kept : kept [k] s hl q s' hl' q';
  gt_hashed : hashed s' hl' k;
  gt_at : at_blk s' k d b;
  gt_fresh : ¬ held s q k;
}.
Lemma bufop_settled s s' q k : bufop s s' k → settled s q → b_has k B_ASY s' = b_has k B_ASY s → settled s' q.
Proof.
  intros Hp Hs Ha j Hj%(changed_inr _ _ _ (bp_changed _ _ _ Hp)).
  rewrite (tgt_same s s') by (intros; by rewrite (bufop_req _ _ _ _ Hp)). rewrite <-(Hs j Hj).
  destruct (decide (j = k)) as [->|Hne]; [by rewrite Ha|]. by rewrite (changed_has _ _ _ (bp_changed _ _ _ Hp)).
Qed.

(** A buffer found in its hash list. *)
Definition taken (k : Z) (s : io C) : io C := list_del1 (BRelFree k) (set_flags k B_BUSY s).
Lemma taken_got s fl hl rf q k d b : cinv s fl hl rf q → idle s → settled s q → inr s k → hashed s hl k → at_blk s k d b →
  b_has k B_BUSY s = false → ∃ fl', got s hl q d b k (taken k s) fl' hl rf q.
Proof.
  intros Hci Hi Hs Hk Hh Ha Hbz. assert (k ∈ fl) as Hin by (by apply (bi_buf _ _ _ _ _ (ci_buf _ _ _ _ _ _ Hci) k Hk)).
  apply list_elem_of_split in Hin as (f1 & f2 & ->). pose proof (ci_buf _ _ _ _ _ _ Hci) as Hb.
  destruct (free_mid _ _ _ _ _ _ Hb) as (_ & _ & _ & Hkq & Hasy). destruct (unfree_links _ _ _ _ _ (bi_lists _ _ _ _ _ Hb)) as [Hl Hal].
  assert (bufop s (taken k s) k) as Hp
    by (unfold taken, set_flags; eapply bufop_trans; [|apply bufop_del]; by apply bufop_upd).
  assert (buf_at (taken k s) k = set_b_flags (Z.lor (b_flags (buf_at s k)) B_BUSY) (buf_at s k)) as Hbuf.
  { change (buf_at (taken k s) k) with (buf_at (set_flags k B_BUSY s) k). unfold set_flags. by rewrite buf_at_upd, decide_True. }
  assert (lists_ok bdom id (taken k s) (blists (f1 ++ f2) hl)) as Hl' by (eapply lists_ok_frame; [exact Hl|done|done]).
  pose proof (take_gen s (taken k s) f1 k f2 hl q Hb (bp_changed _ _ _ Hp) Hl' Hal Hbuf (λ r, bufop_req _ _ _ r Hp)) as Hb'.
  exists (f1 ++ f2). assert (b_has k B_BUSY (taken k s) = true ∧ b_has k B_ASY (taken k s) = b_has k B_ASY s) as [Hf1 Hf2].
  { unfold b_has. rewrite Hbuf. simpl. by flags. }
  split.
  - by eapply bufop_cinv.
  - by eapply bufop_idle.
  - by eapply bufop_settled.
  - apply (changed_kept _ _ _ _ _ _ k); [apply Hp| |..|done|intros r; by eapply bufop_req|].
    + by apply (take_contents s (taken k s) f1 k f2 hl q Hb (bp_changed _ _ _ Hp) Hl' Hal Hbuf (λ r, bufop_req _ _ _ r Hp)).
    + intros (_ & Hx & _). by rewrite Hx in Hbz.
    + intros j. rewrite list_elem_of_singleton. split; [|by intros [-> _]]. intros ->. split; [done|].
      split; [by apply (changed_inr _ _ _ (bp_changed _ _ _ Hp))|]. rewrite Hf2. do 2 (split; [done|]).
      by rewrite (tgt_same s) by (intros; by rewrite (bufop_req _ _ _ _ Hp)).
  - unfold hashed. rewrite Hbuf. done.
  - unfold at_blk. by rewrite Hbuf.
  - intros (_ & Hx & _). by rewrite Hx in Hbz.
Qed.
Lemma renamed_got s k f2 hl rf q d b : cinv s (k :: f2) hl rf q → idle s → settled s q → blk_ok s d b →
  (∀ j, inr s j → live s hl j → ¬ at_blk s j d b) → b_has k B_DIRTY s = false →
  ∃ fl' hl', got s hl q d b k (renamed k d b s) fl' hl' rf q.
Proof.
  intros Hci Hi Hs Hok Hno Hd. destruct (renamed_keeps s k f2 hl rf q Hci d b Hok Hno Hd) as (Hc' & Hk' & Hh').
  pose proof (renamed_bufop s k f2 hl rf q Hci d b) as Hp. pose proof (renamed_buf s k f2 hl rf q Hci d b) as Hbuf.
  destruct (free_mid s [] k f2 hl q (ci_buf _ _ _ _ _ _ Hci)) as (_ & Hbz & _ & _ & Hasy).
  eexists _, _. split; [exact Hc'|by eapply bufop_idle| |exact Hk'|exact Hh'|unfold at_blk; by rewrite Hbuf|].
  - eapply bufop_settled; [done|done|]. rewrite Hasy. unfold b_has. rewrite Hbuf. done.
  - intros (_ & Hx & _). by rewrite Hx in Hbz.
Qed.


(** One turn of the loop. *)
Section turn.
Context (s : io C) (d b : Z) (fuel : nat).

Lemma loop_hit k : getblk_from_hash d b s = Ret (Some k) s → b_has k B_BUSY s = false →
  getblk_loop (S fuel) d b s = Ret k (taken k s).
Proof. intros He Hb. cbn [getblk_loop]. rewrite (bind_eval _ _ _ _ _ He). cbv beta iota. mstep. by rewrite Hb. Qed.

Hypothesis Hmiss : getblk_from_hash d b s = Ret None s.

Lemma loop_sleep : list_empty BFree s = true → getblk_loop (S fuel) d b s = (sleep_on WFree;; getblk_loop fuel d b) s.
Proof. intros He. cbn [getblk_loop]. rewrite (bind_eval _ _ _ _ _ Hmiss). cbv beta iota. mstep. by rewrite He. Qed.

Context (k : Z) (f2 : list Z) (hl : Z → list Z) (rf q : list Z).
Hypothesis Hci : cinv s (k :: f2) hl rf q.
#[local] Notation m := (set_flags k B_BUSY (list_del1 (BRelFree k) (unhash s k))).

Lemma turn_buf : inr m k ∧ buf_at m k = set_b_flags (Z.lor (b_flags (buf_at s k)) B_BUSY) (buf_at s k).
Proof.
  destruct (off_bufop s k f2 hl rf q Hci) as [_ Hi]. unfold set_flags. split; [by apply off_inr_upd|].
  rewrite buf_at_upd, decide_True by done. by rewrite (off_buf s k).
Qed.
Lemma free_first : list_empty BFree s = false ∧ nxt s BFree = BRelFree k.
Proof.
  pose proof (lk_list bdom id s _ (bi_lists _ _ _ _ _ (ci_buf _ _ _ _ _ _ Hci)) BFree I) as Hl.
  pose proof (list_empty_spec _ _ _ Hl) as He. rewrite bool_decide_false in He by done.
  split; [exact He|]. exact (is_list_nxt_hd _ _ _ Hl).
Qed.

Lemma loop_clean : b_has k B_DIRTY s = false → getblk_loop (S fuel) d b s = Ret k (renamed k d b s).
Proof.
  intros Hd. destruct free_first as [Hf1 Hf2], turn_buf as [Hi Hm]. cbn [getblk_loop].
  rewrite (bind_eval _ _ _ _ _ Hmiss). cbv beta iota. mstep. rewrite Hf1. mstep. rewrite Hf2.
  rewrite (bind_eval _ _ _ _ _ (notavail_true k s (off_inr s k f2 hl rf q Hci))). cbv beta iota. mstep. rewrite Hm.
  simpl b_flags. replace (has _ B_DIRTY) with false by (unfold b_has in Hd; simpl; flags; by rewrite Hd). mstep.
  unfold putblk_to_hash. mstep. rewrite buf_at_upd, decide_True by done. by destruct (buf_at _ k).
Qed.
Lemma loop_dirty : b_has k B_DIRTY s = true →
  getblk_loop (S fuel) d b s = (ll_rw_block WRITE k;; getblk_loop fuel d b) (set_aside k s).
Proof.
  intros Hd. destruct free_first as [Hf1 Hf2], turn_buf as [Hi Hm]. cbn [getblk_loop].
  rewrite (bind_eval _ _ _ _ _ Hmiss). cbv beta iota. mstep. rewrite Hf1. mstep. rewrite Hf2.
  rewrite (bind_eval _ _ _ _ _ (notavail_true k s (off_inr s k f2 hl rf q Hci))). cbv beta iota. mstep. rewrite Hm.
  simpl b_flags. replace (has _ B_DIRTY) with true by (unfold b_has in Hd; simpl; flags; by rewrite Hd).
  destruct (bi_buf _ _ _ _ _ (ci_buf _ _ _ _ _ _ Hci) k (off_inr s k f2 hl rf q Hci)) as [_ _ _ G4 _ G6 _ _].
  destruct (G6 (proj1 (G4 Hd))) as (_ & _ & Hnd & _). simpl b_dev. rewrite (proj2 (Z.eqb_neq _ _)) by done. simpl die_if. mstep.
  rewrite (bind_eval _ _ _ _ _ (notavail_false k _)). cbv beta iota. unfold bwrite at 1. mstep.
  match goal with |- context [b_has k B_ASY ?x] => replace (b_has k B_ASY x) with true end.
  - fold (set_aside k s). done.
  - unfold b_has. change (buf_at (list_del1 (BRelFree k) ?x) k) with (buf_at x k). unfold set_flags, clear_flags.
    destruct (off_bufop s k f2 hl rf q Hci) as [_ Hi']. rewrite !buf_at_upd, !decide_True by (try done; by repeat apply off_inr_upd). simpl. by flags.
Qed.
End turn.

(** The buffers the loop may have to write before it finds a clean one. *)
Definition dirties (s : io C) (fl : list Z) : nat := length (filter (λ j, b_has j B_DIRTY s = true) fl).
Definition turns (s : io C) (fl : list Z) : nat :=
  (dirties s fl + if decide (dirties s fl < length fl)%nat then 1 else 2)%nat.

Lemma filter_sum {A} (P : A → Prop) `{!∀ x, Decision (P x)} l :
  (length (filter P l) + length (filter (λ x, ¬ P x) l) = length l)%nat.
Proof. induction l as [|x l IH]; [done|]. rewrite !filter_cons. repeat case_decide; simpl in *; try done; lia. Qed.

Lemma dirties_app s s' fl new : (∀ j, j ∈ fl → b_has j B_DIRTY s' = b_has j B_DIRTY s) →
  (∀ j, j ∈ new → b_has j B_DIRTY s' = false) → dirties s' (fl ++ new) = dirties s fl.
Proof.
  intros H1 H2. unfold dirties. rewrite filter_app, length_app.
  assert (filter (λ j, b_has j B_DIRTY s' = true) new = []) as ->.
  { destruct (filter _ new) as [|j l] eqn:E; [done|]. assert (j ∈ j :: l) as Hj by left. rewrite <-E in Hj.
    apply list_elem_of_filter in Hj as [Hd Hj]. by rewrite H2 in Hd. }
  rewrite Nat.add_0_r. clear H2. induction fl as [|j fl IH]; [done|]. rewrite !filter_cons.
  pose proof (H1 j ltac:(left)) as E. pose proof (IH (λ i Hi, H1 i (list_elem_of_further _ _ _ Hi))) as E'.
  destruct (decide (b_has j B_DIRTY s' = true)), (decide (b_has j B_DIRTY s = true)); simpl; congruence.
Qed.

Lemma turns_dirty s k f2 s' fl' : b_has k B_DIRTY s = true → dirties s' fl' = dirties s f2 → (length f2 <= length fl')%nat →
  (turns s' fl' < turns s (k :: f2))%nat.
Proof.
  intros Hd He Hl. assert (dirties s (k :: f2) = S (dirties s f2)) as E by (unfold dirties; by rewrite filter_cons, decide_True).
  unfold turns. rewrite He, E. simpl length. destruct (decide (dirties s f2 < length fl'))%nat, (decide (S (dirties s f2) < S (length f2)))%nat; lia.
Qed.

(** The block is not in the cache. *)
Definition absent (s : io C) (hl : Z → list Z) (d b : Z) : Prop := ∀ j, inr s j → live s hl j → ¬ at_blk s j d b.
Lemma evo_absent s fl hl q s' fl' q' d b : evo s fl q s' fl' q' → absent s hl d b → absent s' hl d b.
Proof.
  intros He Ha j Hj Hlv Hat. destruct (ev_id _ _ _ _ _ _ _ He j) as (E1 & E2 & _). apply (Ha j).
  - by apply (evo_inr _ _ _ _ _ _ _ He).
  - destruct Hlv as [Hh|Hasy]; [left|right; by apply (evo_asy _ _ _ _ _ _ _ He)]. unfold hashed in *. by rewrite E1, E2 in Hh.
  - unfold at_blk in *. by rewrite E1, E2 in Hat.
Qed.

(** A write is queued for the buffer that was set aside. *)
Lemma write_settled s fl q s' fl' q1 q' k : evo s fl q s' fl' q1 → (∀ j, inr s j → j ≠ k → b_has j B_ASY s = true ↔ j ∈ tgt s q) →
  b_has k B_ASY s = true → k ∉ tgt s q → (∀ j, j ∈ tgt s' q' ↔ j = k ∨ j ∈ tgt s' q1) → settled s' q' ∧ b_has k B_ASY s' = true.
Proof.
  intros He Hs Ha Hk Ht. assert (b_has k B_ASY s' = true) as Ha'.
  { rewrite (nb_has s s'); [done|]. by apply (ev_buf _ _ _ _ _ _ _ He). }
  split; [|done]. intros j Hj%(evo_inr _ _ _ _ _ _ _ He). rewrite Ht. destruct (decide (j = k)) as [->|Hne]; [naive_solver|]. split.
  - intros Hx. right. destruct (evo_asy _ _ _ _ _ _ _ He Hx) as [Hx1 Hx2]. by apply Hx2, Hs.
  - intros [?|Hx]; [done|]. destruct (ev_tgt _ _ _ _ _ _ _ He j Hx) as [Hx1 Hx2]. unfold b_has. rewrite Hx2. by apply Hs.
Qed.

Lemma aside_absent s k f2 hl rf q d b : cinv s (k :: f2) hl rf q → absent s hl d b → hashed s hl k →
  absent (set_aside k s) (hrem k hl) d b.
Proof.
  intros Hci Ha Hk j Hj Hlv. pose proof (bp_changed _ _ _ (aside_bufop s k f2 hl rf q Hci)) as Hc. rewrite (changed_inr _ _ _ Hc) in Hj.
  destruct (decide (j = k)) as [->|Hne].
  - unfold at_blk. rewrite (aside_buf s k f2 hl rf q Hci). apply (Ha k Hj). by left.
  - unfold at_blk. rewrite (ch_other _ _ _ Hc) by done. apply (Ha j Hj). destruct Hlv as [Hh|Hx].
    + left. unfold hashed in *. rewrite elem_hrem, (ch_other _ _ _ Hc) in Hh by done. apply Hh.
    + right. by rewrite <-(changed_has _ _ _ Hc).
Qed.
Lemma aside_has s k f2 hl rf q m : cinv s (k :: f2) hl rf q →
  b_has k m (set_aside k s) = has (aside_flags (b_flags (buf_at s k))) m.
Proof. intros Hci. unfold b_has. by rewrite (aside_buf s k f2 hl rf q Hci). Qed.

Lemma dirty_turn s k f2 hl rf q d b : cinv s (k :: f2) hl rf q → idle s → settled s q → absent s hl d b → b_has k B_DIRTY s = true →
  ∃ s' fl' rf' q', ll_rw_block WRITE k (set_aside k s) = Ret true s' ∧ cinv s' fl' (hrem k hl) rf' q' ∧ idle s' ∧ settled s' q' ∧
    absent s' (hrem k hl) d b ∧ kept [] s hl q s' (hrem k hl) q' ∧ k ∈ tgt s' q' ∧ (turns s' fl' < turns s (k :: f2))%nat.
Proof.
  intros Hci Hi Hs Hab Hd. pose proof (ci_buf _ _ _ _ _ _ Hci) as Hb.
  destruct (free_mid s [] k f2 hl q Hb) as (Hk & _ & Hkf & Hkq & _). pose proof (aside_bufop s k f2 hl rf q Hci) as Hp.
  pose proof (bp_changed _ _ _ Hp) as Hc. destruct (aside_keeps s k f2 hl rf q Hci Hd) as (Hc1 & Hk1 & Hasy).
  destruct (dirty_hashed s [] k f2 hl q Hb Hd) as (_ & Hh & _ & Hok). rewrite <-(aside_has s k f2 hl rf q _ Hci) in Hasy.
  assert (tgt (set_aside k s) q = tgt s q) as Ht by (apply tgt_same; intros; by rewrite (bufop_req _ _ _ _ Hp)).
  destruct (rw_block_spec (set_aside k s) f2 (hrem k hl) rf q WRITE k) as (s' & fl' & rf' & q' & q1 & He & Hc2 & Hi2 & Hev & Htg & Hk2).
  { done. } { by eapply bufop_idle. } { by apply (changed_inr _ _ _ Hc). }
  { rewrite (aside_buf s k f2 hl rf q Hci). simpl. by apply (changed_blk _ _ _ _ Hc). } { by rewrite Ht. } { by left. }
  assert (∀ j, inr s j → j ≠ k → b_has j B_ASY (set_aside k s) = true ↔ j ∈ tgt (set_aside k s) q) as Hs1.
  { intros j Hj Hne. rewrite Ht, (changed_has _ _ _ Hc) by done. by apply Hs. }
  destruct (write_settled _ _ _ _ _ _ q' k Hev) as [Hs2 Ha2].
  { intros j Hj%(changed_inr _ _ _ Hc). by apply Hs1. } { done. } { by rewrite Ht. } { done. }
  exists s', fl', rf', q'. do 4 (split; [done|]). split.
  { eapply evo_absent; [exact Hev|]. by eapply aside_absent. }
  split.
  - change (@nil Z) with (@nil Z ++ []). eapply kept_trans; [exact Hk1|].
    destruct (evo_kept _ _ (hrem k hl) _ _ _ _ Hev) as [K1 K2 K3 K4 K5].
    { intros j Hj%(changed_inr _ _ _ Hc) Hx. apply Hs1; [done| |done]. intros ->. by rewrite Ht in Hx. }
    assert (∀ j, held s' q' j ↔ held s' q1 j) as Hx.
    { intros j. unfold held. rewrite Htg. destruct (decide (j = k)) as [->|]; [rewrite Ha2|]; naive_solver. }
    split; [|..|done|done|done]; intros j; rewrite Hx; [apply K1|apply K2].
  - split; [apply Htg; by left|]. destruct (ev_free _ _ _ _ _ _ _ Hev) as (new & -> & Hnew).
    apply turns_dirty; [done| |rewrite length_app; lia]. apply dirties_app; [|intros; by apply Hnew].
    intros j Hj. assert (j ≠ k) as Hne by (by intros ->). rewrite <-(changed_has _ _ _ Hc j) by done.
    apply nb_has, (ev_buf _ _ _ _ _ _ _ Hev). rewrite Ht. intros Hx. pose proof (tgt_busy _ _ _ _ _ Hb Hx) as Hbz.
    assert (b_has j B_BUSY s = false) as E by (apply (bi_buf _ _ _ _ _ Hb j); [apply (bi_fl _ _ _ _ _ Hb)|]; by right).
    by rewrite E in Hbz.
Qed.

Lemma absent_miss s fl hl q d b : binv s fl hl q → blk_ok s d b → absent s hl d b → getblk_from_hash d b s = Ret None s.
Proof.
  intros Hb Hok Hab. destruct (from_hash_spec s fl hl q d b Hb Hok) as ([k|] & He & Ho); [|done].
  destruct Ho as (Hi & Hh & Ha). exfalso. apply (Hab k Hi); [by left|done].
Qed.
Lemma got_trans s hl q s1 hl1 q1 d b k s' fl' hl' rf' q' : kept [] s hl q s1 hl1 q1 → got s1 hl1 q1 d b k s' fl' hl' rf' q' →
  got s hl q d b k s' fl' hl' rf' q'.
Proof.
  intros Hk [G1 G2 G3 G4 G5 G6 G7]. split; try done; [by apply (kept_trans [] [k] _ _ _ s1 hl1 q1)|].
  intros Hx. by apply G7, (kp_held _ _ _ _ _ _ _ Hk).
Qed.

(** The loop ends: each turn writes a dirty buffer, finds a clean one, or
    sleeps until a write is done. *)
Lemma miss_spec fuel s fl hl rf q d b : cinv s fl hl rf q → idle s → settled s q → blk_ok s d b → absent s hl d b →
  fl ≠ [] ∨ tgt s q ≠ [] → (turns s fl <= fuel)%nat →
  ∃ k s' fl' hl' rf' q', getblk_loop fuel d b s = Ret k s' ∧ got s hl q d b k s' fl' hl' rf' q'.
Proof.
  revert s fl hl rf q. induction fuel as [|fuel IH]; intros s fl hl rf q Hci Hi Hs Hok Hab Hpr Hf.
  { unfold turns in Hf. case_decide; lia. }
  pose proof (ci_buf _ _ _ _ _ _ Hci) as Hb. pose proof (absent_miss _ _ _ _ _ _ Hb Hok Hab) as Hm. destruct fl as [|k f2].
  - destruct Hpr as [|Hpr]; [done|]. destruct (tgt s q) as [|k0 l] eqn:Etg; [done|]. clear Hpr.
    assert (k0 ∈ tgt s q) as Hk0 by (rewrite Etg; left).
    destruct (sleep_spec vol s [] hl rf q WFree Hci Hi) as (s1 & fl1 & rf1 & q1 & He & Hc1 & Hev & Hi1 & k & Hk1 & Hk2 & Hk3).
    { exists k0. split; [done|]. apply Hs; [by eapply tgt_inr|done]. }
    pose proof (ev_done _ _ _ _ _ _ _ Hev k Hk1 Hk2) as Hd. rewrite Hk3 in Hd. destruct Hd as [Hbz _].
    assert (k ∈ fl1) as Hkf.
    { apply (bi_buf _ _ _ _ _ (ci_buf _ _ _ _ _ _ Hc1) k); [|done]. apply (evo_inr _ _ _ _ _ _ _ Hev). by eapply tgt_inr. }
    destruct (ev_free _ _ _ _ _ _ _ Hev) as (new & Efl & Hnew).
    destruct (IH s1 fl1 hl rf1 q1) as (k' & s' & fl' & hl' & rf' & q' & He' & Hg); [done|done|by eapply evo_settled| | | | |].
    + eapply blk_ok_ext; [apply Hev|done].
    + by eapply evo_absent.
    + left. by destruct fl1; [apply elem_of_nil in Hkf|].
    + assert (dirties s1 fl1 = 0%nat) as E by (rewrite Efl; apply (dirties_app s s1 [] new); [set_solver|]; intros; by apply Hnew).
      unfold turns in *. rewrite E. rewrite decide_True; [|destruct fl1; [by apply elem_of_nil in Hkf|simpl; lia]].
      simpl in Hf. lia.
    + exists k', s', fl', hl', rf', q'. split.
      * rewrite (loop_sleep _ _ _ _ Hm); [by rewrite (bind_eval _ _ _ _ _ He)|].
        by rewrite (list_empty_spec _ _ _ (lk_list bdom id s _ (bi_lists _ _ _ _ _ Hb) BFree I)).
      * eapply got_trans; [|exact Hg]. eapply evo_kept; [exact Hev|]. intros j Hj Hx. by apply Hs.
  - destruct (b_has k B_DIRTY s) eqn:Hd.
    + destruct (dirty_turn s k f2 hl rf q d b Hci Hi Hs Hab Hd) as (s1 & fl1 & rf1 & q1 & He & Hc1 & Hi1 & Hs1 & Hab1 & Hkp & Hk1 & Ht).
      destruct (IH s1 fl1 (hrem k hl) rf1 q1) as (k' & s' & fl' & hl' & rf' & q' & He' & Hg); [done|done|done| |done| |lia|].
      * eapply blk_ok_ext; [apply Hkp|done].
      * right. intros E. rewrite E in Hk1. by apply elem_of_nil in Hk1.
      * exists k', s', fl', hl', rf', q'. split; [|by eapply got_trans].
        rewrite (loop_dirty s d b fuel Hm k f2 hl rf q Hci Hd). by rewrite (bind_eval _ _ _ _ _ He).
    + destruct (renamed_got s k f2 hl rf q d b Hci Hi Hs Hok Hab Hd) as (fl' & hl' & Hg).
      exists k, (renamed k d b s), fl', hl', rf, q. split; [|done]. by apply (loop_clean s d b fuel Hm k f2 hl rf q Hci).
Qed.

Lemma turns_bound s fl hl q : binv s fl hl q → (turns s fl <= length (bufs s) + 2)%nat.
Proof.
  intros Hb. pose proof (filter_sum (λ j, b_has j B_DIRTY s = true) fl) as Hl.
  assert (length fl <= length (bufs s))%nat.
  { replace (length (bufs s)) with (Z.to_nat (zlen (bufs s))) by (unfold zlen; lia).
    apply NoDup_range_length; [by eapply free_NoDup|]. intros k Hk. by apply (bi_fl _ _ _ _ _ Hb). }
  unfold turns, dirties in *. case_decide; lia.
Qed.

Lemma getblk_spec s fl hl rf q d b : cinv s fl hl rf q → idle s → settled s q → blk_ok s d b →
  (∀ j, inr s j → at_blk s j d b → b_has j B_ASY s = false ∧ (hashed s hl j → b_has j B_BUSY s = false)) →
  (∃ j, inr s j ∧ ¬ held s q j) →
  ∃ k s' fl' hl' rf' q', getblk d b s = Ret k s' ∧ got s hl q d b k s' fl' hl' rf' q'.
Proof.
  intros Hci Hi Hs Hok Hat (j & Hj & Hnh). pose proof (ci_buf _ _ _ _ _ _ Hci) as Hb. unfold getblk. mstep.
  destruct (from_hash_spec s fl hl q d b Hb Hok) as ([k|] & He & Ho).
  - destruct Ho as (Hk & Hh & Ha). destruct (Hat k Hk Ha) as [_ Hbz]. specialize (Hbz Hh).
    destruct (taken_got s fl hl rf q k d b) as (fl' & Hg); [done..|]. exists k, (taken k s), fl', hl, rf, q. split; [|done].
    rewrite Nat.add_comm. by apply loop_hit.
  - eapply miss_spec; try done; [|..|by eapply turns_bound].
    + intros i Hx [Hh|Ha] Hbl; [by apply (Ho i)|]. destruct (Hat i Hx Hbl) as [Ha' _]. by rewrite Ha' in Ha.
    + destruct (b_has j B_BUSY s) eqn:E1.
      * right. assert (j ∈ tgt s q) as Ht; [|by destruct (tgt s q); [apply elem_of_nil in Ht|]].
        destruct (decide (j ∈ tgt s q)) as [|Ht]; [done|]. exfalso. apply Hnh. split; [done|]. split; [done|]. split; [|done].
        apply not_true_iff_false. intros Ha. by apply Ht, Hs.
      * left. apply (bi_buf _ _ _ _ _ Hb j Hj) in E1. intros ->. by apply elem_of_nil in E1.
Qed.

(** ** [bread] *)

Lemma held_contents s fl hl q k : binv s fl hl q → inr s k → hashed s hl k → b_has k B_DONE s = true →
  b_data (buf_at s k) = contents s (b_dev (buf_at s k)) (b_blocknr (buf_at s k)).
Proof.
  intros Hb Hk Hh Hd. destruct (bi_buf _ _ _ _ _ Hb k Hk) as [_ _ _ _ G5 _ _ G8]. specialize (G8 Hh Hd).
  assert (b_has k B_ASY s = false) as Ha by (apply not_true_iff_false; intros Hx; by destruct (G5 Hx) as (_ & _ & ? & _)).
  destruct (b_has k B_DIRTY s) eqn:Hdi.
  - symmetry. eapply contents_pend; [by eapply binv_uniq|done| |done]. unfold pend. unfold b_has in Hdi. by rewrite Hdi.
  - rewrite G8 by done. destruct (contents_cases s (b_dev (buf_at s k)) (b_blocknr (buf_at s k)) (binv_uniq _ _ _ _ _ Hb))
      as [(j & Hj & Hp & Hat & _)|[_ ->]]; [|done]. exfalso.
    assert (live s hl j) as Hlj.
    { unfold pend in Hp. apply orb_true_iff in Hp as [Hp|Hp]; [left; by apply (bi_buf _ _ _ _ _ Hb j Hj)|by right]. }
    assert (j = k) as -> by (apply (bi_uniq _ _ _ _ _ Hb); try done; by left).
    unfold pend, b_has in *. by rewrite Hdi, Ha in Hp.
Qed.

(** The process waits until its read is done: [q'] is [q] with the read of [k]. *)
Section wait.
Context (s : io C) (fl q' q : list Z) (s2 : io C) (fl2 q2 : list Z) (k : Z).
Hypothesis Hev : evo s fl q' s2 fl2 q2.
Hypothesis Hs : settled s q.
Hypothesis Htg : ∀ j, j ∈ tgt s q' ↔ j = k ∨ j ∈ tgt s q.
Hypothesis Hk : held s q k.
Hypothesis Hkt : k ∉ tgt s2 q2.

Lemma wait_self : held s2 q2 k ∧ b_has k B_DONE s2 = true.
Proof.
  destruct Hk as (Hi & Hbz & Ha & _). pose proof (ev_done _ _ _ _ _ _ _ Hev k (proj2 (Htg k) (or_introl eq_refl)) Hkt) as Hd.
  rewrite Ha in Hd. destruct Hd as (Hd1 & Hd2 & Hd3). split; [|done]. split; [by apply (evo_inr _ _ _ _ _ _ _ Hev)|].
  by rewrite Hd2.
Qed.
Lemma wait_others j : j ≠ k → (held s2 q2 j ↔ held s q j) ∧ (held s q j → nb (buf_at s2 j) = nb (buf_at s j)).
Proof.
  intros Hne. assert (j ∉ tgt s q → nb (buf_at s2 j) = nb (buf_at s j)) as Hn.
  { intros Hj. apply (ev_buf _ _ _ _ _ _ _ Hev). rewrite Htg. naive_solver. }
  split; [|intros (_ & _ & _ & Hj); by apply Hn]. unfold held. rewrite (evo_inr _ _ _ _ _ _ _ Hev).
  destruct (decide (j ∈ tgt s q)) as [Hj|Hj].
  - split; [|naive_solver]. intros (Hi & Hbz & _ & Hx).
    pose proof (ev_done _ _ _ _ _ _ _ Hev j (proj2 (Htg j) (or_intror Hj)) Hx) as Hd.
    rewrite (proj2 (Hs j Hi) Hj) in Hd. destruct Hd as [Hd _]. by rewrite Hd in Hbz.
  - rewrite !(nb_has s s2) by (by apply Hn). assert (j ∉ tgt s2 q2); [|naive_solver].
    intros Hx. apply (ev_tgt _ _ _ _ _ _ _ Hev) in Hx as [Hx _]. rewrite Htg in Hx. naive_solver.
Qed.
Lemma wait_settled : settled s2 q2.
Proof.
  intros j Hj. destruct (decide (j = k)) as [->|Hne].
  { destruct wait_self as [(_ & _ & Hx & _) _]. rewrite Hx. naive_solver. }
  apply (evo_inr _ _ _ _ _ _ _ Hev) in Hj. split.
  - intros Hx. destruct (evo_asy _ _ _ _ _ _ _ Hev Hx) as [Hx1 Hx2]. apply Hx2, Htg. right. by apply Hs.
  - intros Hx. destruct (ev_tgt _ _ _ _ _ _ _ Hev j Hx) as [Hx1 Hx2]. unfold b_has. rewrite Hx2. apply Hs; [done|].
    apply Htg in Hx1. naive_solver.
Qed.
End wait.

Lemma read_wait s fl hl rf q k : cinv s fl hl rf q → idle s → settled s q → held s q k → hashed s hl k → b_has k B_DONE s = false →
  ∃ s1 s' fl' rf' q', ll_rw_block READ k s = Ret true s1 ∧ iowait k s1 = Ret tt s' ∧ cinv s' fl' hl rf' q' ∧ idle s' ∧
    settled s' q' ∧ held s' q' k ∧ b_has k B_DONE s' = true ∧ contents_same s s' ∧ dev_infos s' = dev_infos s ∧
    zlen (bufs s') = zlen (bufs s) ∧ (b_dev (buf_at s' k) = b_dev (buf_at s k) ∧ b_blocknr (buf_at s' k) = b_blocknr (buf_at s k)) ∧
    ∀ j, j ≠ k → (held s' q' j ↔ held s q j) ∧ (held s q j → nb (buf_at s' j) = nb (buf_at s j)).
Proof.
  intros Hci Hi Hs Hk Hh Hd. pose proof Hk as (Hin & Hbz & Hasy & Hkq).
  destruct (rw_block_spec s fl hl rf q READ k) as (s1 & fl1 & rf1 & q' & q1 & He & Hc1 & Hi1 & Hev & Htg & Hk1); try done.
  { by apply (bo_hash _ _ _ _ _ (bi_buf _ _ _ _ _ (ci_buf _ _ _ _ _ _ Hci) k Hin)). } { by right. }
  pose proof (ev_buf _ _ _ _ _ _ _ Hev k Hkq) as Hn. pose proof (evo_settled _ _ _ _ _ _ Hev Hs) as Hs1.
  destruct (evo_kept _ _ hl _ _ _ _ Hev) as [K1 K2 K3 K4 K5]; [intros; by apply Hs|].
  destruct (sleep_spec vol s1 fl1 hl rf1 q' (WBuf k) Hc1 Hi1) as (s2 & fl2 & rf2 & q2 & He2 & Hc2 & Hev2 & Hi2 & Hk2).
  { split; [apply Htg; by left|]. by rewrite (nb_has s s1). }
  simpl in Hk2. assert (held s1 q1 k) as Hk1' by (by apply K1).
  destruct (wait_self s1 fl1 q' q1 s2 fl2 q2 k Hev2 Htg Hk1' Hk2) as [Hself Hdone].
  exists s1, s2, fl2, rf2, q2. split; [done|]. split.
  { unfold iowait. cbn [iowait_loop]. mstep. rewrite (nb_has s s1), Hd by done. rewrite (bind_eval _ _ _ _ _ He2). cbv beta iota. mstep.
    by rewrite Hdone. }
  do 2 (split; [done|]). split; [by eapply (wait_settled s1 fl1 q' q1)|]. do 2 (split; [done|]). split.
  { intros d b Hok. rewrite (ev_contents _ _ _ _ _ _ _ Hev2), K3; [done|done|]. by eapply blk_ok_ext. }
  split; [by rewrite (ev_infos _ _ _ _ _ _ _ Hev2)|]. split; [by rewrite (proj1 (ev_len _ _ _ _ _ _ _ Hev2))|].
  destruct (ev_id _ _ _ _ _ _ _ Hev2 k) as (E1 & E2 & _), (ev_id _ _ _ _ _ _ _ Hev k) as (E3 & E4 & _).
  split; [split; congruence|]. intros j Hne. destruct (wait_others s1 fl1 q' q1 s2 fl2 q2 k Hev2 Hs1 Htg j Hne) as [Ho1 Ho2].
  split; [rewrite Ho1, K2; set_solver|]. intros Hj. rewrite Ho2 by by apply K1. by apply K1.
Qed.
End read.
