(* ===== verification/Bufstore.v ===== *)
(** * The buffer cache as a store of blocks

    The cache seen by a process that holds the buffers [H]: [bread] gives the
    contents of a block, [brelse] gives a buffer back, and a delayed write
    changes the contents of its block and of no other.  What other buffers
    hold, which of them are written on the way and when the disk answers does
    not show.  [buf_init] and [ide_init] start such a cache. *)

From S2P Require Import Prelude Dlist Blocks Pages IoState Ide Buffer Bufcache Bufread.
From stdpp Require Import base numbers functions gmap list.

Local Open Scope Z_scope.

Section store.
Context {C : Type} `{!Controller C} `{!ControllerLaws C}.
Context (vol : Z → Prop).
Implicit Types (s : io C).
#[local] Notation blk_ok := (Bufcache.blk_ok vol).
#[local] Notation binv := (Bufcache.binv vol).
#[local] Notation cinv := (Bufcache.cinv vol).
#[local] Notation contents_same := (Bufcache.contents_same vol).

Record cached (s : io C) (H : list Z) (fl : list Z) (hl : Z → list Z) (rf q : list Z) : Prop := {
  ca_inv : cinv s fl hl rf q;
  ca_idle : idle s;
  ca_settled : settled s q;
  ca_held j : j ∈ H ↔ held s q j;
  ca_hashed j : j ∈ H → hashed s hl j;
}.
Definition cache (s : io C) (H : list Z) : Prop := ∃ fl hl rf q, cached s H fl hl rf q.

(** No write of the block is under way. *)
Definition unwritten (s : io C) (d b : Z) : Prop := ∀ j, inr s j → b_has j B_ASY s = true → ¬ at_blk s j d b.

Lemma spare s (H : list Z) : zlen H < zlen (bufs s) → ∃ j, inr s j ∧ j ∉ H.
Proof.
  intros Hl. destruct (decide (Forall (λ j, j ∈ H) (seqZ 0 (zlen (bufs s))))) as [Hf|Hf].
  - exfalso. rewrite Forall_forall in Hf. assert (seqZ 0 (zlen (bufs s)) ⊆+ H) as Hs.
    { apply NoDup_submseteq; [apply NoDup_seqZ|done]. }
    apply submseteq_length in Hs. rewrite length_seqZ in Hs. unfold zlen in *. lia.
  - apply not_Forall_Exists in Hf; [|apply _]. apply Exists_exists in Hf as (j & Hj%elem_of_seqZ & Hn).
    exists j. split; [unfold inr; lia|done].
Qed.

Lemma cached_free s H fl hl rf q d b : cached s H fl hl rf q → (∀ j, j ∈ H → ¬ at_blk s j d b) → unwritten s d b →
  ∀ j, inr s j → at_blk s j d b → b_has j B_ASY s = false ∧ (hashed s hl j → b_has j B_BUSY s = false).
Proof.
  intros [Hc Hi Hs Hh Hhs] Hn Hu j Hj Ha. assert (b_has j B_ASY s = false) as Hasy.
  { apply not_true_iff_false. intros Hx. by apply (Hu j). }
  split; [done|]. intros _. apply not_true_iff_false. intros Hbz. apply (Hn j); [|done]. apply Hh. split; [done|]. split; [done|].
  split; [done|]. intros Hx. apply Hs in Hx; [|done]. by rewrite Hasy in Hx.
Qed.

(** A held buffer: whose block, its data and that it is read. *)
Definition block_of (s : io C) (k : Z) : Z * Z := (b_dev (buf_at s k), b_blocknr (buf_at s k)).
Definition data_of (s : io C) (k : Z) : list Z := b_data (buf_at s k).
Lemma nb_view s s' k : nb (buf_at s' k) = nb (buf_at s k) → block_of s' k = block_of s k ∧ data_of s' k = data_of s k.
Proof. intros Hn. unfold block_of, data_of. by destruct (nb_fields s s' k Hn) as (-> & -> & ->). Qed.

Lemma got_cached s H fl hl rf q d b k s' fl' hl' rf' q' : cached s H fl hl rf q → got vol s hl q d b k s' fl' hl' rf' q' →
  cached s' (k :: H) fl' hl' rf' q'.
Proof.
  intros Hca [G1 G2 G3 G4 G5 G6 G7]. split; try done.
  - intros j. rewrite (kp_new _ _ _ _ _ _ _ _ G4), elem_of_cons, list_elem_of_singleton, (ca_held _ _ _ _ _ _ Hca). tauto.
  - intros j [->|Hj]%elem_of_cons; [done|]. pose proof (ca_hashed _ _ _ _ _ _ Hca j Hj) as Hx.
    apply (ca_held _ _ _ _ _ _ Hca) in Hj. by apply (kp_held _ _ _ _ _ _ _ _ G4 j Hj).
Qed.

Lemma getblk_cached s H fl hl rf q d b : cached s H fl hl rf q → blk_ok s d b → zlen H < zlen (bufs s) →
  (∀ j, j ∈ H → ¬ at_blk s j d b) → unwritten s d b →
  ∃ k s' fl' hl' rf' q', getblk d b s = Ret k s' ∧ got vol s hl q d b k s' fl' hl' rf' q' ∧ k ∉ H ∧ cached s' (k :: H) fl' hl' rf' q'.
Proof.
  intros Hca Hok Hl Hn Hu. destruct (spare s H Hl) as (j & Hj & HjH).
  destruct (getblk_spec vol s fl hl rf q d b) as (k & s' & fl' & hl' & rf' & q' & He & Hg); try apply Hca; [done| | |].
  - by eapply cached_free.
  - exists j. split; [done|]. by rewrite <-(ca_held _ _ _ _ _ _ Hca).
  - exists k, s', fl', hl', rf', q'. split; [done|]. split; [done|]. split; [|by eapply got_cached].
    rewrite (ca_held _ _ _ _ _ _ Hca). by apply (gt_fresh _ _ _ _ _ _ _ _ _ _ _ _ Hg).
Qed.

(** What an operation leaves alone: the contents of all blocks, the buffers
    [H] that are held, the partitions and the number of buffers. *)
Record same_store (s : io C) (H : list Z) (s' : io C) : Prop := {
  ss_contents : contents_same s s';
  ss_held j : j ∈ H → block_of s' j = block_of s j ∧ data_of s' j = data_of s j;
  ss_infos : dev_infos s' = dev_infos s;
  ss_bufs : zlen (bufs s') = zlen (bufs s);
}.
Lemma same_blk s H s' d b : same_store s H s' → blk_ok s' d b ↔ blk_ok s d b.
Proof. intros Hs. split; apply blk_ok_ext; [symmetry|]; apply Hs. Qed.

Lemma got_same s H fl hl rf q d b k s' fl' hl' rf' q' : cached s H fl hl rf q → got vol s hl q d b k s' fl' hl' rf' q' →
  same_store s H s'.
Proof.
  intros Hca Hg. pose proof (gt_kept _ _ _ _ _ _ _ _ _ _ _ _ Hg) as Hk. split; try apply Hk.
  intros j Hj%(ca_held _ _ _ _ _ _ Hca). apply nb_view. by apply (kp_held _ _ _ _ _ _ _ _ Hk).
Qed.

Lemma bread_cached s H d b : cache s H → blk_ok s d b → zlen H < zlen (bufs s) → (∀ j, j ∈ H → ¬ at_blk s j d b) →
  unwritten s d b →
  ∃ k s', bread d b s = Ret (Some k) s' ∧ cache s' (k :: H) ∧ k ∉ H ∧ block_of s' k = (d, b) ∧
    data_of s' k = contents s d b ∧ b_has k B_DONE s' = true ∧ same_store s H s'.
Proof.
  intros (fl & hl & rf & q & Hca) Hok Hl Hn Hu.
  destruct (getblk_cached s H fl hl rf q d b Hca Hok Hl Hn Hu) as (k & s1 & fl1 & hl1 & rf1 & q1 & He & Hg & HkH & Hc1).
  pose proof (got_same _ _ _ _ _ _ _ _ _ _ _ _ _ _ Hca Hg) as Hss. pose proof Hg as [G1 G2 G3 G4 G5 [G6a G6b] G7].
  assert (held s1 q1 k) as Hk by (apply (kp_new _ _ _ _ _ _ _ _ G4); right; left).
  unfold bread. rewrite (bind_eval _ _ _ _ _ He). cbv beta iota. mstep. destruct (b_has k B_DONE s1) eqn:Hd.
  - exists k, s1. split; [done|]. split; [by exists fl1, hl1, rf1, q1|]. split; [done|]. split; [unfold block_of; by rewrite G6a, G6b|].
    split; [|done]. unfold data_of. rewrite (held_contents vol s1 fl1 hl1 q1 k (ci_buf _ _ _ _ _ _ G1)), G6a, G6b by (try done; apply Hk).
    by apply (ss_contents _ _ _ Hss).
  - destruct (read_wait vol s1 fl1 hl1 rf1 q1 k G1 G2 G3 Hk G5 Hd)
      as (s2 & s3 & fl3 & rf3 & q3 & He2 & He3 & Hc3 & Hi3 & Hs3 & Hk3 & Hd3 & Hcs & Hinf & Hlen & [E1 E2] & Hot).
    rewrite (bind_eval _ _ _ _ _ He2). cbv beta iota. unfold when. rewrite (bind_eval _ _ _ _ _ He3). cbv beta iota. mstep.
    pose proof (ci_buf _ _ _ _ _ _ Hc3) as Hb3. destruct Hk3 as (Hin3 & Hk3').
    rewrite (bo_err _ _ _ _ _ (bi_buf _ _ _ _ _ Hb3 k Hin3)).
    assert (hashed s3 hl1 k) as Hh3 by (unfold hashed; by rewrite E1, E2).
    exists k, s3. split; [done|]. split; [exists fl3, hl1, rf3, q3; split; try done|].
    + intros j. rewrite (ca_held _ _ _ _ _ _ Hc1). destruct (decide (j = k)) as [->|Hne]; [by split|]. by rewrite (proj1 (Hot j Hne)).
    + intros j Hj. destruct (decide (j = k)) as [->|Hne]; [done|]. apply (nb_hashed s1); [|by apply (ca_hashed _ _ _ _ _ _ Hc1)].
      apply (Hot j Hne). by apply (ca_held _ _ _ _ _ _ Hc1).
    + split; [done|]. split; [unfold block_of; by rewrite E1, E2, G6a, G6b|]. split; [|split; [done|]].
      * unfold data_of. rewrite (held_contents vol s3 fl3 hl1 q3 k Hb3 Hin3 Hh3 Hd3), E1, E2, G6a, G6b.
        rewrite Hcs by (by apply (same_blk _ _ _ _ _ Hss)). by apply (ss_contents _ _ _ Hss).
      * split; [|..|by rewrite Hinf; apply Hss|by rewrite Hlen; apply Hss].
        -- intros d' b' Hb'. rewrite Hcs by (by apply (same_blk _ _ _ _ _ Hss)). by apply (ss_contents _ _ _ Hss).
        -- intros j Hj. assert (j ≠ k) as Hne by (by intros ->). assert (held s1 q1 j) as Hh1 by (apply (ca_held _ _ _ _ _ _ Hc1); by right).
           destruct (nb_view s1 s3 j (proj2 (Hot j Hne) Hh1)) as [-> ->]. by apply (ss_held _ _ _ Hss).
Qed.

(** ** Giving buffers back *)

Lemma released_bufop k w s : inr s k → bufop s (released k w s) k.
Proof.
  intros Hk. split; try done; [by apply released_changed|]. do 2 (split; [done|]). by rewrite buf_at_released, decide_True.
Qed.
Lemma hashed_unwritten s fl hl q k : binv s fl hl q → inr s k → hashed s hl k → b_has k B_ASY s = false →
  unwritten s (b_dev (buf_at s k)) (b_blocknr (buf_at s k)).
Proof.
  intros Hb Hk Hh Ha j Hj Hx Hat. assert (j = k) as -> by (apply (bi_uniq _ _ _ _ _ Hb); try done; [by right|by left]).
  by rewrite Ha in Hx.
Qed.

Lemma brelse_cached s H k : cache s H → k ∈ H →
  ∃ s', brelse k s = Ret tt s' ∧ cache s' (filter (λ j, j ≠ k) H) ∧ same_store s (filter (λ j, j ≠ k) H) s' ∧
    unwritten s' (b_dev (buf_at s k)) (b_blocknr (buf_at s k)).
Proof.
  intros (fl & hl & rf & q & Hca) HkH. pose proof Hca as [Hci Hi Hs Hh Hhs]. pose proof (proj1 (Hh k) HkH) as (Hk & Hbz & Ha & Hkq).
  rewrite (brelse_eq k s Hbz). set (w := λ v : bool, _). pose proof (released_bufop k w s Hk) as Hp.
  destruct (release_binv vol s fl hl q k w (ci_buf _ _ _ _ _ _ Hci) Hk Hbz Hkq) as [Hb' Hcs]; [by rewrite Ha|].
  pose proof (bp_changed _ _ _ Hp) as Hc. pose proof (buf_at_released k w s k Hk) as Hbuf. rewrite decide_True in Hbuf by done.
  exists (released k w s). split; [done|].
  assert (b_has k B_ASY (released k w s) = false ∧ b_has k B_BUSY (released k w s) = false) as [Ha' Hbz'].
  { unfold b_has. rewrite Hbuf. simpl. by flags. }
  split; [|split].
  - exists (fl ++ [k]), hl, rf, q. split.
    + by eapply bufop_cinv.
    + by eapply bufop_idle.
    + eapply bufop_settled; [done|done|]. by rewrite Ha, Ha'.
    + intros j. rewrite list_elem_of_filter, Hh. unfold held. rewrite (changed_inr _ _ _ Hc).
      rewrite (tgt_same s (released k w s)) by (intros; by rewrite (bufop_req _ _ _ _ Hp)).
      destruct (decide (j = k)) as [->|Hne]; [rewrite Hbz'; naive_solver|]. rewrite !(changed_has _ _ _ Hc) by done. naive_solver.
    + intros j [Hne Hj]%list_elem_of_filter. apply (changed_hashed _ _ hl hl k Hc); [done|done|]. by apply Hhs.
  - split; [done| |apply Hc|apply Hc]. intros j [Hne _]%list_elem_of_filter. unfold block_of, data_of.
    by rewrite (ch_other _ _ _ Hc).
  - replace (b_dev (buf_at s k)) with (b_dev (buf_at (released k w s) k)) by (by rewrite Hbuf).
    replace (b_blocknr (buf_at s k)) with (b_blocknr (buf_at (released k w s) k)) by (by rewrite Hbuf).
    eapply hashed_unwritten; [exact Hb'|by apply (changed_inr _ _ _ Hc)| |done]. unfold hashed. rewrite Hbuf. by apply Hhs.
Qed.

(** ** Delayed writes *)

(** [memcpy] to [b_data], [b_flags |= B_DIRTY | B_DONE] and [brelse] *)
Definition filled (k : Z) (data : list Z) (s : io C) : io C :=
  set_flags k (Z.lor B_DIRTY B_DONE) (upd_buf k (set_b_data data) s).
Definition bdwrite (k : Z) (data : list Z) : M (io C) unit :=
  modify (filled k data);;
  brelse k.

Section fill.
Context (s : io C) (H fl : list Z) (hl : Z → list Z) (rf q : list Z) (k : Z) (data : list Z).
Hypothesis Hca : cached s H fl hl rf q.
Hypothesis HkH : k ∈ H.
Hypothesis Hlen : zlen data = 1024.
#[local] Notation s' := (filled k data s).
#[local] Notation f := (Z.lor (b_flags (buf_at s k)) (Z.lor B_DIRTY B_DONE)).

Lemma fill_k : held s q k.
Proof. by apply (ca_held _ _ _ _ _ _ Hca). Qed.
Lemma fill_bufop : bufop s s' k.
Proof. unfold filled, set_flags. do 2 (apply bufop_then; [apply fill_k| |done]). by split. Qed.
Lemma fill_buf : buf_at s' k = set_b_flags f (set_b_data data (buf_at s k)).
Proof.
  unfold filled, set_flags. rewrite buf_at_upd, decide_True; [|done|by apply off_inr_upd, fill_k].
  rewrite buf_at_upd, decide_True; [|done|apply fill_k]. by destruct (buf_at s k).
Qed.
Lemma fill_has m : b_has k m s' = has f m.
Proof. unfold b_has. by rewrite fill_buf. Qed.

Lemma fill_binv : binv s' fl hl q.
Proof.
  pose proof (ci_buf _ _ _ _ _ _ (ca_inv _ _ _ _ _ _ Hca)) as Hb. destruct fill_k as (Hk & Hbz & Ha & Hkq).
  pose proof (ca_hashed _ _ _ _ _ _ Hca k HkH) as Hh. pose proof (bp_changed _ _ _ fill_bufop) as Hc.
  pose proof (λ r, bufop_req _ _ _ r fill_bufop) as Hreq. destruct (bi_buf _ _ _ _ _ Hb k Hk) as [G1 G2 G3 G4 G5 G6 G7 G8].
  assert (hashed s' hl k) as Hh' by (unfold hashed; by rewrite fill_buf).
  eapply (changed_binv vol s s' fl fl hl hl q); [exact Hb|exact Hk|exact Hc|done|done|..].
  - eapply lists_ok_frame; [apply (bi_lists _ _ _ _ _ Hb)|done|done].
  - unfold b_has in *. split; rewrite ?fill_has, ?fill_buf; simpl; flags; try done.
    + by rewrite Ha.
    + intros _. by apply (changed_blk _ _ _ _ Hc), G6.
  - intros h Hx. rewrite fill_buf. by apply (bi_hl _ _ _ _ _ Hb) in Hx as [_ ?].
  - intros _ j Hj Hne Hlj Hat. rewrite fill_buf in Hat. apply Hne. apply (bi_uniq _ _ _ _ _ Hb); try done. by left.
  - intros j Hj Hne Hnh. by apply (bi_self _ _ _ _ _ Hb).
  - done.
  - eapply changed_reqs; [exact Hb|exact Hc|done|]. intros r Hr. split; [done|]. by eapply not_tgt.
  - rewrite (tgt_same s s') by (intros; by rewrite Hreq). apply (bi_tgt _ _ _ _ _ Hb).
Qed.
Lemma fill_cached : cached s' H fl hl rf q.
Proof.
  pose proof fill_bufop as Hp. pose proof (bp_changed _ _ _ Hp) as Hc. destruct fill_k as (Hk & Hbz & Ha & Hkq).
  assert (b_has k B_ASY s' = b_has k B_ASY s ∧ b_has k B_BUSY s' = b_has k B_BUSY s) as [F1 F2].
  { rewrite !fill_has. unfold b_has. by flags. }
  split.
  - eapply bufop_cinv; [apply Hca|exact Hp|done|apply fill_binv].
  - eapply bufop_idle; [exact Hp|apply Hca].
  - eapply bufop_settled; [exact Hp|apply Hca|done].
  - intros j. rewrite (ca_held _ _ _ _ _ _ Hca). unfold held. rewrite (changed_inr _ _ _ Hc).
    rewrite (tgt_same s s') by (intros; by rewrite (bufop_req _ _ _ _ Hp)).
    destruct (decide (j = k)) as [->|Hne]; [by rewrite F1, F2|]. by rewrite !(changed_has _ _ _ Hc).
  - intros j Hj. pose proof (ca_hashed _ _ _ _ _ _ Hca j Hj) as Hh. destruct (decide (j = k)) as [->|Hne].
    + unfold hashed. by rewrite fill_buf.
    + by apply (changed_hashed _ _ hl hl k Hc).
Qed.
Lemma fill_contents d b : contents s' d b = if decide (block_of s k = (d, b)) then data else contents s d b.
Proof.
  pose proof (binv_uniq _ _ _ _ _ fill_binv) as Hu'. pose proof (bp_changed _ _ _ fill_bufop) as Hc. destruct fill_k as (Hk & _).
  pose proof (binv_uniq _ _ _ _ _ (ci_buf _ _ _ _ _ _ (ca_inv _ _ _ _ _ _ Hca))) as Hu.
  assert (pend (buf_at s' k) = true) as Hpk by (rewrite fill_buf; unfold pend; simpl; by flags).
  assert (b_data (buf_at s' k) = data ∧ block_of s' k = block_of s k) as [Hdk Hbk] by (unfold block_of; by rewrite fill_buf).
  destruct (decide _) as [Hd|Hd].
  - transitivity (b_data (buf_at s' k)); [|done]. apply contents_pend; [done|by apply (changed_inr _ _ _ Hc)|done|]. rewrite Hd in Hbk.
    unfold block_of in Hbk. by simplify_eq.
  - assert (∀ j, inr s j → at_blk s' j d b → j ≠ k) as Hne.
    { intros j Hj [E1 E2] ->. apply Hd. rewrite <-Hbk. unfold block_of. by rewrite E1, E2. }
    destruct (contents_cases s' d b Hu') as [(j & Hj & Hp & Ha & ->)|[Hno ->]].
    + apply (changed_inr _ _ _ Hc) in Hj. pose proof (Hne j Hj Ha) as Hjk. unfold at_blk in Ha.
      rewrite (ch_other _ _ _ Hc) in * by done. symmetry. by apply contents_pend.
    + destruct (contents_cases s d b Hu) as [(j & Hj & Hp & Ha & ->)|[_ ->]]; [|by apply (changed_disk _ _ _ Hc)].
      exfalso. assert (j ≠ k) as Hjk by (intros ->; apply Hd; unfold block_of; by destruct Ha as [-> ->]).
      apply (Hno j); [by apply (changed_inr _ _ _ Hc)|..]; unfold at_blk; by rewrite (ch_other _ _ _ Hc).
Qed.
End fill.

Lemma bdwrite_cached s H k data : cache s H → k ∈ H → zlen data = 1024 →
  ∃ s', bdwrite k data s = Ret tt s' ∧ cache s' (filter (λ j, j ≠ k) H) ∧
    (∀ d b, blk_ok s d b → contents s' d b = if decide (block_of s k = (d, b)) then data else contents s d b) ∧
    (∀ j, j ∈ H → j ≠ k → block_of s' j = block_of s j ∧ data_of s' j = data_of s j) ∧
    dev_infos s' = dev_infos s ∧ zlen (bufs s') = zlen (bufs s) ∧
    unwritten s' (b_dev (buf_at s k)) (b_blocknr (buf_at s k)).
Proof.
  intros (fl & hl & rf & q & Hca) HkH Hlen. pose proof (fill_bufop s H fl hl rf q k data Hca HkH) as Hp.
  pose proof (bp_changed _ _ _ Hp) as Hc. pose proof (fill_buf s H fl hl rf q k data Hca HkH) as Hbuf.
  destruct (brelse_cached (filled k data s) H k) as (s' & He & Hc' & [S1 S2 S3 S4] & Hu); [|done|].
  { exists fl, hl, rf, q. by apply fill_cached. }
  exists s'. split; [unfold bdwrite; mstep; done|]. split; [done|]. split.
  { intros d b Hb. rewrite S1; [by apply (fill_contents s H fl hl rf q)|]. by apply (changed_blk _ _ _ _ Hc). }
  split.
  { intros j Hj Hne. destruct (S2 j) as [-> ->]; [by apply list_elem_of_filter|]. unfold block_of, data_of. by rewrite (ch_other _ _ _ Hc). }
  split; [rewrite S3; apply Hc|]. split; [rewrite S4; apply Hc|]. by rewrite Hbuf in Hu.
Qed.
End store.

(** ** Initialisation *)
Section start.
Context {C : Type} `{!Controller C} `{!ControllerLaws C}.
Context (vol : Z → Prop).
Implicit Types (s : io C).

(** The buffers and their links apart, nothing differs. *)
Record rest_same (s s' : io C) : Prop := {
  rs_req : reqq s' = reqq s ∧ rnext s' = rnext s ∧ rprev s' = rprev s ∧ cur_req s' = cur_req s;
  rs_wait : buf_wait s' = buf_wait s ∧ req_wait s' = req_wait s;
  rs_dev : dev_infos s' = dev_infos s ∧ prdbuff s' = prdbuff s ∧ ctl s' = ctl s;
}.
Lemma rest_trans s s1 s2 : rest_same s s1 → rest_same s1 s2 → rest_same s s2.
Proof. intros [(? & ? & ? & ?) [? ?] (? & ? & ?)] [(? & ? & ? & ?) [? ?] (? & ? & ?)]. split; repeat split; congruence. Qed.

Definition blank (b : buf_head) : buf_head := BufHead NODEV 0 0 0 false (b_data b).

Record blanked (s s' : io C) (n : Z) : Prop := {
  bl_free : is_list s' BFree (BRelFree <$> reverse (seqZ 0 n));
  bl_buf j : 0 <= j < n → alone s' (BRel j) ∧ buf_at s' j = blank (buf_at s j);
  bl_later j : n <= j → buf_at s' j = buf_at s j;
  bl_len : zlen (bufs s') = zlen (bufs s);
  bl_rest : rest_same s s';
}.
Lemma blank_step s s' n : blanked s s' n → 0 <= n < zlen (bufs s) → blanked s (buf_blank n s') (n + 1).
Proof.
  intros [H1 H2 H3 H4 H5] Hn. set (s1 := list_head_init (BRel n) (upd_buf n blank s')).
  assert (∀ p : bptr, p ≠ BRel n → nxt s1 p = nxt s' p ∧ prv s1 p = prv s' p) as Hs1.
  { intros p Hp. unfold s1, list_head_init. simpl. by rewrite !fn_lookup_insert_ne by done. }
  assert (BRelFree n ∉ BFree :: (BRelFree <$> reverse (seqZ 0 n))) as Hfr.
  { intros [|(j & [= <-] & Hj%elem_of_reverse%elem_of_seqZ)%list_elem_of_fmap]%elem_of_cons; [done|lia]. }
  assert (is_list s1 BFree (BRelFree <$> reverse (seqZ 0 n))) as Hl1.
  { eapply is_list_frame; [exact H1| |done]. intros p Hp. apply Hs1. intros ->.
    apply elem_of_cons in Hp as [|(? & ? & ?)%list_elem_of_fmap]; done. }
  assert (∀ j, buf_at (buf_blank n s') j = if decide (j = n) then blank (buf_at s' n) else buf_at s' j) as Hbuf.
  { intros j. apply (buf_at_upd n blank s' j). by rewrite H4. }
  assert (∀ j, alone s1 (BRel j) → alone (buf_blank n s') (BRel j)) as Hal.
  { intros j [Ha1 Ha2]. unfold alone. destruct (list_add_head_others s1 BFree _ (BRelFree n) (BRel j) Hl1 Hfr I) as [E1 E2].
    - rewrite !elem_of_cons, list_elem_of_fmap. naive_solver.
    - change (buf_blank n s') with (list_add_head BFree (BRelFree n) s1). by rewrite E1, E2. }
  split.
  - replace (n + 1) with (Z.of_nat (S (Z.to_nat n))) by lia. rewrite seqZ_S, reverse_snoc, fmap_cons, Z2Nat.id by lia.
    by apply (list_add_head_is_list s1).
  - intros j Hj. rewrite Hbuf. case_decide as E.
    + subst. rewrite H3 by lia. split; [|done]. apply Hal. unfold s1, alone, list_head_init. simpl. by rewrite !fn_lookup_insert.
    + split; [|apply H2; lia]. apply Hal. destruct (H2 j) as [[Ha1 Ha2] _]; [lia|].
      destruct (Hs1 (BRel j)) as [E1 E2]; [congruence|]. unfold alone. by rewrite E1, E2.
  - intros j Hj. rewrite Hbuf, decide_False by lia. apply H3. lia.
  - rewrite <-H4. unfold buf_blank. simpl. apply zlen_zalter.
  - eapply rest_trans; [exact H5|]. by split.
Qed.

Lemma blank_fold s s' n m : blanked s s' n → 0 <= n → n + Z.of_nat m <= zlen (bufs s) →
  blanked s (foldl (λ s i, buf_blank i s) s' (seqZ n (Z.of_nat m))) (n + Z.of_nat m).
Proof.
  revert s' n. induction m as [|m IH]; intros s' n Hb Hn Hm; [simpl; by rewrite Z.add_0_r|].
  rewrite seqZ_cons by lia. simpl foldl. replace (n + Z.of_nat (S m)) with (Z.succ n + Z.of_nat m) by lia.
  replace (Z.pred (Z.of_nat (S m))) with (Z.of_nat m) by lia. apply IH; [|lia|lia].
  replace (Z.succ n) with (n + 1) by lia. apply blank_step; [done|lia].
Qed.

Lemma head_inits (hs : list Z) s (p : bptr) : let s' := foldl (λ s i, list_head_init (BHash i) s) s hs in
  bufs s' = bufs s ∧ rest_same s s' ∧
  (p ∈ BHash <$> hs ∧ nxt s' p = p ∧ prv s' p = p ∨ p ∉ BHash <$> hs ∧ nxt s' p = nxt s p ∧ prv s' p = prv s p).
Proof.
  cbv zeta. revert s. induction hs as [|h hs IH]; intros s; [split; [done|]; split; [by split|]; right; set_solver|].
  change (foldl ?f s (h :: hs)) with (foldl f (list_head_init (BHash h) s) hs).
  destruct (IH (list_head_init (BHash h) s)) as (E1 & E2 & E3). split; [by rewrite E1|].
  split; [eapply rest_trans; [|exact E2]; by split|]. rewrite fmap_cons, elem_of_cons.
  destruct E3 as [(Hin & En & Ep)|(Hin & En & Ep)]; [left; auto|]. rewrite En, Ep. unfold list_head_init.
  destruct (decide (p = BHash h)) as [->|Hne]; simpl; rewrite ?fn_lookup_insert, ?fn_lookup_insert_ne by done; [left|right]; auto.
  split; [|done]. intros [|]; done.
Qed.

Lemma init_fold {PS} `{PageAlloc PS} n i addr s (p : PS) s' p' : buf_init_loop n i addr (s, p) = Ret tt (s', p') →
  s' = foldl (λ s i, buf_blank i s) s (seqZ i (Z.of_nat n)).
Proof.
  revert i addr s p. induction n as [|n IH]; intros i addr s p; [intros [= ->]; done|].
  rewrite seqZ_cons by lia. replace (Z.pred (Z.of_nat (S n))) with (Z.of_nat n) by lia. simpl foldl. cbn [buf_init_loop].
  assert (∀ a p, (die_if (a =? 0);; modify (λ '(s, p), (buf_blank i s, p));; buf_init_loop n (i + 1) a) (s, p) = Ret tt (s', p') →
    s' = foldl (λ s i, buf_blank i s) (buf_blank i s) (seqZ (Z.succ i) (Z.of_nat n))) as Hgo.
  { intros a p1. destruct (a =? 0); [done|]. simpl die_if. mstep. apply IH. }
  destruct (i mod 4 =? 0).
  - unfold mbind at 1, M_bind at 1. destruct (get_pages 0 0 p); [apply Hgo|done|done].
  - mstep. apply Hgo.
Qed.

Lemma req_fold s n : is_list s RFree [] →
  let s' := foldl (λ s i, list_add_head RFree (RNode i) s) s (seqZ 0 (Z.of_nat n)) in
  is_list s' RFree (RNode <$> reverse (seqZ 0 (Z.of_nat n))) ∧ bufs s' = bufs s ∧ bnext s' = bnext s ∧ bprev s' = bprev s ∧
  reqq s' = reqq s ∧ cur_req s' = cur_req s ∧ buf_wait s' = buf_wait s ∧ req_wait s' = req_wait s ∧
  dev_infos s' = dev_infos s ∧ prdbuff s' = prdbuff s ∧ ctl s' = ctl s.
Proof.
  intros Hl. cbv zeta. induction n as [|n IH]; [done|]. rewrite seqZ_S, foldl_app, reverse_snoc, fmap_cons, Z.add_0_l.
  destruct IH as (H1 & H2). split; [|apply H2]. apply list_add_head_is_list; [done| |done].
  intros [|(j & [= <-] & Hj%elem_of_reverse%elem_of_seqZ)%list_elem_of_fmap]%elem_of_cons; [done|lia].
Qed.

(** What the boot code gives [buf_init] and [ide_init]. *)
Record at_boot (s : io C) : Prop := {
  ab_data j : inr s j → zlen (b_data (buf_at s j)) = 1024;
  ab_reqq : zlen (reqq s) = REQQ_SIZE;
  ab_prd : zlen (prdbuff s) = 1024;
  ab_cur : cur_req s = None ∧ req_wait s = false ∧ job (ctl s) = None;
  ab_vols : vols_ok vol s;
}.

(** The states of initialisation: the buffers blank, the hash lists empty, the
    requests on their list. *)
Definition inits (s1 s2 : io C) : Prop := ∀ p : bptr, bufs s2 = bufs s1 ∧ rest_same s1 s2 ∧
  (p ∈ BHash <$> seqZ 0 NR_HASH ∧ nxt s2 p = p ∧ prv s2 p = p ∨ p ∉ BHash <$> seqZ 0 NR_HASH ∧ nxt s2 p = nxt s1 p ∧ prv s2 p = prv s1 p).
Definition reqs_free (s2 s3 : io C) : Prop :=
  is_list s3 RFree (RNode <$> reverse (seqZ 0 (REQQ_SIZE - 1))) ∧ bufs s3 = bufs s2 ∧ bnext s3 = bnext s2 ∧
  bprev s3 = bprev s2 ∧ reqq s3 = reqq s2 ∧ cur_req s3 = cur_req s2 ∧ buf_wait s3 = buf_wait s2 ∧ req_wait s3 = req_wait s2 ∧
  dev_infos s3 = dev_infos s2 ∧ prdbuff s3 = prdbuff s2 ∧ ctl s3 = ctl s2.
Lemma hash_inits s1 : inits s1 (hash_init s1).
Proof. intros p. apply head_inits. Qed.
Lemma req_inits s2 : reqs_free s2 (req_init s2).
Proof.
  destruct (req_fold (list_head_init RFree s2) (Z.to_nat (REQQ_SIZE - 1))) as (H1 & H2).
  { by apply list_head_init_is_list. }
  rewrite Z2Nat.id in * by done. split; [exact H1|exact H2].
Qed.

Section fresh.
Context (s s1 s2 s3 : io C).
Hypothesis Hboot : at_boot s.
Hypothesis Hw : buf_wait s = false.
Hypothesis Hbl : blanked s s1 (zlen (bufs s)).
Hypothesis Hh : inits s1 s2.
Hypothesis Hr : reqs_free s2 s3.
#[local] Notation fl := (reverse (seqZ 0 (zlen (bufs s)))).

Lemma fresh_buf j : inr s j → buf_at s3 j = blank (buf_at s j).
Proof.
  intros Hj. unfold buf_at at 1. destruct Hr as (_ & -> & _). destruct (Hh BFree) as (-> & _).
  by apply (bl_buf _ _ _ Hbl).
Qed.
Lemma fresh_bufs : bufs s3 = bufs s1 ∧ zlen (bufs s3) = zlen (bufs s).
Proof. destruct Hr as (_ & -> & _). destruct (Hh BFree) as (-> & _). split; [done|]. apply (bl_len _ _ _ Hbl). Qed.
Lemma fresh_inr j : inr s3 j ↔ inr s j.
Proof. unfold inr. by rewrite (proj2 fresh_bufs). Qed.
Lemma fresh_rest : reqq s3 = reqq s ∧ cur_req s3 = cur_req s ∧ buf_wait s3 = buf_wait s ∧ req_wait s3 = req_wait s ∧
  dev_infos s3 = dev_infos s ∧ prdbuff s3 = prdbuff s ∧ ctl s3 = ctl s.
Proof.
  destruct Hr as (_ & _ & _ & _ & R1 & R2 & R3 & R4 & R5 & R6 & R7). destruct (Hh BFree) as (_ & H2 & _).
  destruct (rest_trans _ _ _ (bl_rest _ _ _ Hbl) H2) as [(? & ? & ? & ?) [? ?] (? & ? & ?)]. repeat split; congruence.
Qed.
Lemma fresh_nodes (p : bptr) : p ∈ BHash <$> seqZ 0 NR_HASH ∧ alone s3 p ∨
  p ∉ BHash <$> seqZ 0 NR_HASH ∧ nxt s3 p = nxt s1 p ∧ prv s3 p = prv s1 p.
Proof.
  destruct Hr as (_ & _ & E1 & E2 & _). destruct (Hh p) as (_ & _ & Hp). unfold alone. cbn [nxt prv buf_links] in *. rewrite E1, E2. exact Hp.
Qed.
Lemma fresh_lists : lists_ok bdom id s3 (blists fl (λ _, [])).
Proof.
  split.
  - intros [|h|k|k] Hp; [| |destruct Hp|destruct Hp].
    + eapply is_list_frame; [apply (bl_free _ _ _ Hbl)| |done]. intros p Hp'. destruct (fresh_nodes p) as [[Hx _]|[_ ?]]; [|done].
      exfalso. apply list_elem_of_fmap in Hx as (h & -> & _). apply elem_of_cons in Hp' as [|(? & ? & _)%list_elem_of_fmap]; done.
    + destruct (fresh_nodes (BHash h)) as [[_ [Hn Hpv]]|[Hx _]].
      * split; [apply NoDup_singleton|]. split; [by repeat constructor|]. split; [exact Hn|]. split; [exact Hpv|done].
      * exfalso. apply Hx, list_elem_of_fmap. exists h. split; [done|]. apply elem_of_seqZ.
        change (0 <= h < NR_HASH) in Hp. lia.
  - assert (∀ h p, p ∈ id (BHash h) :: blists fl (λ _, []) (BHash h) → p = BHash h) as Hhd.
    { intros h p [->|Hx%elem_of_nil]%elem_of_cons; done. }
    assert (∀ h, BHash h ∉ id BFree :: blists fl (λ _, []) BFree) as Hfr.
    { intros h [|(? & ? & _)%list_elem_of_fmap]%elem_of_cons; done. }
    intros [|h|k|k] [|h'|k'|k'] p H1 H2; try (by destruct H1); try (by destruct H2).
    + intros Hp ->%Hhd. by apply Hfr in Hp.
    + intros ->%Hhd Hp. by apply Hfr in Hp.
    + intros ->%Hhd Hp%Hhd. done.
Qed.
Lemma fresh_has k m : inr s k → b_has k m s3 = has 0 m.
Proof. intros Hk. unfold b_has. by rewrite fresh_buf. Qed.

Lemma fresh_cached : cached vol s3 [] fl (λ _, []) (reverse (seqZ 0 (REQQ_SIZE - 1))) [].
Proof.
  destruct fresh_rest as (R1 & R2 & R3 & R4 & R5 & R6 & R7), (ab_cur _ Hboot) as (C1 & C2 & C3).
  split; [split| | |..].
  - split; try (intros *; rewrite ?elem_of_nil; done).
    + apply fresh_lists.
    + eapply vols_ok_ext; [exact R5|]. apply Hboot.
    + rewrite R6. apply Hboot.
    + intros k Hk%fresh_inr. split; rewrite ?fresh_has by done; repeat flag_const; try done.
      * rewrite fresh_buf by done. by apply (ab_data _ Hboot).
      * split; [done|]. intros _. apply elem_of_reverse, elem_of_seqZ. unfold inr in Hk. lia.
      * intros Hx. by apply elem_of_nil in Hx.
      * intros Hx. by apply elem_of_nil in Hx.
    + intros k j Hk Hj [Hx|Hx]; [by apply elem_of_nil in Hx|]. rewrite fresh_has in Hx by by apply fresh_inr. done.
    + intros k Hk%elem_of_reverse%elem_of_seqZ. apply fresh_inr. unfold inr. lia.
    + constructor.
    + intros k Hk%fresh_inr _. destruct (bl_buf _ _ _ Hbl k Hk) as [[Hn Hp] _].
      destruct (fresh_nodes (BRel k)) as [[Hx _]|(_ & E1 & E2)]; [by apply list_elem_of_fmap in Hx as (? & ? & _)|].
      unfold alone. by rewrite E1, E2.
  - split; rewrite ?app_nil_r.
    + apply Hr.
    + rewrite reverse_Permutation. apply NoDup_seqZ.
    + intros r Hx. rewrite elem_of_reverse, elem_of_seqZ in Hx. rewrite R1, (ab_reqq _ Hboot). lia.
    + intros Hx. assert (0 ∈ @nil Z) as Hn; [|by apply elem_of_nil in Hn]. rewrite <-Hx, elem_of_reverse, elem_of_seqZ. done.
    + by rewrite R2.
  - simpl. by rewrite R7.
  - split; [by rewrite R3|]. split; [by rewrite R4|]. intros k. destruct (decide (inr s k)) as [Hk|Hk]; [by rewrite fresh_buf|].
    unfold buf_at. destruct (zget (bufs s3) k) as [x|] eqn:E; [|done]. exfalso. apply Hk, fresh_inr, zget_is_Some. by eexists.
  - intros k Hk%fresh_inr. rewrite fresh_has by done. by rewrite elem_of_nil.
  - intros k. rewrite elem_of_nil. split; [done|]. intros (Hk & Hbz & _). rewrite fresh_has in Hbz by by apply fresh_inr. done.
  - intros k Hk. by apply elem_of_nil in Hk.
Qed.
End fresh.

Lemma cache_nil s : cache vol s [] → (∀ j, inr s j → b_has j B_DIRTY s = false) → (∀ j, inr s j → b_has j B_ASY s = false) →
  ∀ d b, contents s d b = disk_block s d b.
Proof.
  intros (fl & hl & rf & q & Hca) Hd Ha d b.
  destruct (contents_cases s d b (binv_uniq _ _ _ _ _ (ci_buf _ _ _ _ _ _ (ca_inv _ _ _ _ _ _ _ Hca)))) as [(k & Hk & Hp & _)|[_ ->]]; [|done].
  unfold pend in Hp. pose proof (Hd k Hk) as H1. pose proof (Ha k Hk) as H2. unfold b_has in *. by rewrite H1, H2 in Hp.
Qed.
Lemma fresh_start s n : at_boot s → n = zlen (bufs s) → 0 <= n →
  let s' := req_init (hash_init (foldl (λ s i, buf_blank i s) (list_head_init BFree (upd_buf_wait (λ _, false) s)) (seqZ 0 n))) in
  cache vol s' [] ∧ ∀ d b, contents s' d b = disk_block s' d b.
Proof.
  intros Hb -> Hn. set (s0 := list_head_init BFree (upd_buf_wait (λ _, false) s)). cbv zeta. set (s1 := foldl _ _ _).
  assert (blanked s0 s1 (zlen (bufs s0))) as Hbl.
  { pose proof (blank_fold s0 s0 0 (Z.to_nat (zlen (bufs s)))) as Hf. rewrite Z.add_0_l, Z2Nat.id in Hf by done.
    apply Hf; [|done|done]. split; try done; [by apply list_head_init_is_list|lia]. }
  assert (at_boot s0) as Hb0 by (destruct Hb; by split).
  pose proof (fresh_cached s0 s1 _ _ Hb0 eq_refl Hbl (hash_inits s1) (req_inits _)) as Hca.
  assert (cache vol (req_init (hash_init s1)) []) as Hc by (by eexists _, _, _, _). split; [done|].
  apply cache_nil; [done|..]; intros j Hj; rewrite (fresh_has s0 s1 _ _ Hbl (hash_inits s1) (req_inits _));
    try done; by apply (fresh_inr s0 s1 _ _ Hbl (hash_inits s1) (req_inits _)).
Qed.
End start.

(** ** What the cache promises *)
Section claims.
Context {C : Type} `{!Controller C} `{!ControllerLaws C}.
Context (vol : Z → Prop).
Implicit Types (s : io C).

(** C6. [buf_init] (fs/buffer.c), when it returns, and the request list of
    [ide_init] (driver/ide.c) start a cache that satisfies the invariant: no
    buffer held, no process waiting, no request queued; and its contents are
    those of the disk. *)
Theorem init_cache {PS} `{PageAlloc PS} s (p : PS) s' p' : at_boot vol s → zlen (bufs s) = NR_BUF →
  buf_init (s, p) = Ret tt (s', p') →
  cache vol (req_init s') [] ∧ ∀ d b, contents (req_init s') d b = disk_block (req_init s') d b.
Proof.
  intros Hb Hn. unfold buf_init. mstep. unfold mbind, M_bind.
  match goal with |- context [buf_init_loop ?n ?i ?a ?x] => destruct (buf_init_loop n i a x) as [[] [s1 p1]| |] eqn:E end; [|discriminate..].
  apply init_fold in E. rewrite Z2Nat.id in E by done. unfold modify. intros He.
  apply (f_equal (λ o, match o with Ret _ (x, _) => x | _ => s1 end)) in He. cbv beta iota in He. rewrite <-He, E.
  apply fresh_start; [done|by rewrite Hn|done].
Qed.


(** A caller that replaces a block: [bread], then the delayed write. *)
Definition write_block (d b : Z) (data : list Z) : M (io C) unit :=
  k ← bread d b;
  k ← from_opt k;
  bdwrite k data.
Definition read_block (d b : Z) : M (io C) (list Z) :=
  k ← bread d b;
  k ← from_opt k;
  data ← gets (λ s, data_of s k);
  brelse k;;
  mret data.

Lemma cache_ext s (H H' : list Z) : (∀ j, j ∈ H ↔ j ∈ H') → cache vol s H → cache vol s H'.
Proof.
  intros He (fl & hl & rf & q & [A1 A2 A3 A4 A5]). exists fl, hl, rf, q. split; try done.
  - intros j. by rewrite <-He.
  - intros j Hj. by apply A5, He.
Qed.
Lemma drop_held (H : list Z) k : k ∉ H → ∀ j, j ∈ filter (λ j, j ≠ k) (k :: H) ↔ j ∈ H.
Proof. intros Hk j. rewrite list_elem_of_filter, elem_of_cons. split; [naive_solver|]. intros Hj. split; [by intros ->|by right]. Qed.

Lemma read_block_spec s H d b : cache vol s H → blk_ok vol s d b → zlen H < zlen (bufs s) →
  (∀ j, j ∈ H → ¬ at_blk s j d b) → unwritten s d b →
  ∃ s', read_block d b s = Ret (contents s d b) s' ∧ cache vol s' H ∧ same_store vol s H s' ∧ unwritten s' d b.
Proof.
  intros Hc Hok Hl Hn Hu. destruct (bread_cached vol s H d b Hc Hok Hl Hn Hu) as (k & s1 & He & Hc1 & HkH & Hbk & Hdt & _ & Hss).
  destruct (brelse_cached vol s1 (k :: H) k Hc1) as (s2 & He2 & Hc2 & Hs2 & Hu2); [left|].
  exists s2. split.
  { unfold read_block. rewrite (bind_eval _ _ _ _ _ He). cbv beta iota. simpl from_opt. mstep. by rewrite (bind_eval _ _ _ _ _ He2), Hdt. }
  split; [eapply cache_ext; [|exact Hc2]; by apply drop_held|]. unfold block_of in Hbk. simplify_eq. split; [|done].
  split; [| |by rewrite (ss_infos _ _ _ _ Hs2); apply Hss|by rewrite (ss_bufs _ _ _ _ Hs2); apply Hss].
  - intros d' b' Hb'. rewrite (ss_contents _ _ _ _ Hs2) by (by apply (same_blk _ _ _ _ _ _ Hss)). by apply (ss_contents _ _ _ _ Hss).
  - intros j Hj. destruct (ss_held _ _ _ _ Hs2 j) as [-> ->]; [by apply drop_held|]. by apply (ss_held _ _ _ _ Hss).
Qed.

(** C5. A delayed write through the cache (fs/buffer.c, and its callers in
    fs/write.c) changes the contents of its block and of no other, and the next
    read of the block gives the data back, before anything reaches the disk. *)
Theorem write_read s H d b data : cache vol s H → blk_ok vol s d b → zlen H < zlen (bufs s) →
  (∀ j, j ∈ H → ¬ at_blk s j d b) → unwritten s d b → zlen data = 1024 →
  ∃ s' s'', write_block d b data s = Ret tt s' ∧ cache vol s' H ∧
    (∀ d' b', blk_ok vol s d' b' → contents s' d' b' = if decide ((d, b) = (d', b')) then data else contents s d' b') ∧
    read_block d b s' = Ret data s'' ∧ cache vol s'' H ∧ same_store vol s' H s''.
Proof.
  intros Hc Hok Hl Hn Hu Hlen.
  destruct (bread_cached vol s H d b Hc Hok Hl Hn Hu) as (k & s1 & He & Hc1 & HkH & Hbk & _ & _ & Hss).
  destruct (bdwrite_cached vol s1 (k :: H) k data Hc1) as (s2 & He2 & Hc2 & Hct & Hoth & Hinf & Hnb & Hu2); [left|done|].
  assert (cache vol s2 H) as Hc2' by (eapply cache_ext; [|exact Hc2]; by apply drop_held). rewrite Hbk in Hct.
  unfold block_of in Hbk. simplify_eq.
  destruct (read_block_spec s2 H (b_dev (buf_at s1 k)) (b_blocknr (buf_at s1 k)) Hc2') as (s3 & He3 & Hc3 & Hs3 & _).
  - eapply blk_ok_ext; [exact Hinf|]. by apply (same_blk _ _ _ _ _ _ Hss).
  - rewrite Hnb. by rewrite (ss_bufs _ _ _ _ Hss).
  - intros j Hj [A1 A2]. apply (Hn j Hj). assert (j ≠ k) by (by intros ->). destruct (Hoth j) as [E1 _]; [by right|done|].
    destruct (ss_held _ _ _ _ Hss j Hj) as [E2 _]. rewrite E2 in E1. injection E1 as E3 E4. split; congruence.
  - done.
  - exists s2, s3. split; [unfold write_block; rewrite (bind_eval _ _ _ _ _ He); cbv beta iota; simpl from_opt; by mstep|].
    split; [done|]. split.
    { intros d' b' Hb'. rewrite Hct by (by apply (same_blk _ _ _ _ _ _ Hss)). case_decide; [done|]. by apply (ss_contents _ _ _ _ Hss). }
    split; [|done]. rewrite He3, Hct, decide_True; [done|done|]. by apply (same_blk _ _ _ _ _ _ Hss).
Qed.

(** C7. A disk interrupt ([ide_intr] and [ide_bottom], driver/ide.c) keeps the
    invariant and the contents of all blocks: it moves the data of the request
    under way and goes on to the next, and touches no buffer but its target. *)
Theorem intr_contents s fl hl rf r l : cinv vol s fl hl rf (r :: l) →
  ∃ s' fl' rf' q', ide_intr iodone s = Ret true s' ∧ cinv vol s' fl' hl rf' q' ∧ contents_same vol s s' ∧
    ∀ k, k ∉ tgt s (r :: l) → nb (buf_at s' k) = nb (buf_at s k).
Proof.
  intros Hc. destruct (ide_intr_spec vol s fl hl rf r l Hc) as (s' & fl' & rf' & q' & He & Hc' & Hev & _).
  exists s', fl', rf', q'. split; [done|]. split; [done|]. split; [apply Hev|]. apply Hev.
Qed.


(** A caller with [O_SYNC]. *)
Definition sync_block (d b : Z) (data : list Z) : M (io C) unit :=
  k ← bread d b;
  k ← from_opt k;
  modify (upd_buf k (set_b_data data));;
  bwrite k;;
  brelse k.
End claims.

(** ** A small cache on a blank disk, one partition of a thousand sectors *)
Section demo.

Definition demo_boot (n : nat) : io disk :=
  Io (replicate n (BufHead 0 0 0 0 false (replicate 1024 0))) (λ p, p) (λ p, p) false
    (replicate (Z.to_nat REQQ_SIZE) null_req) (λ p, p) (λ p, p) None false 0 false
    [DevInfo true 0 1000; DevInfo true 0 1000] false (replicate 1024 0) false (Disk ∅ None []) false.
Definition demo (n : nat) : io disk :=
  req_init (hash_init (foldl (λ s i, buf_blank i s) (list_head_init BFree (upd_buf_wait (λ _, false) (demo_boot n))) (seqZ 0 (Z.of_nat n)))).
#[local] Notation one := (λ d : Z, d = 1).

Lemma demo_at_boot n : at_boot one (demo_boot n).
Proof.
  split; try done.
  - intros j Hj. unfold inr, zlen in Hj. simpl in Hj. rewrite length_replicate in Hj. unfold buf_at, zget. simpl.
    rewrite (proj2 (Z.leb_le 0 j)), lookup_replicate_2 by lia. done.
  - intros d b d' b' (Hd & _) (Hd' & _) Hne. simpl in Hd, Hd'. subst. unfold sec_of, part. simpl. lia.
Qed.
Lemma demo_cache n : cache one (demo n) [].
Proof.
  assert (Z.of_nat n = zlen (bufs (demo_boot n))) as Hn by (unfold zlen; cbn [bufs demo_boot]; by rewrite length_replicate).
  exact (proj1 (fresh_start one (demo_boot n) (Z.of_nat n) (demo_at_boot n) Hn (Nat2Z.is_nonneg n))).
Qed.
Lemma demo_blk : blk_ok one (demo 4) 1 40.
Proof. split; [done|]. split; [done|]. split; [done|]. split; [done|]. exists (DevInfo true 0 1000). by vm_compute. Qed.
Lemma demo_asy j : 0 <= j < 4 → b_has j B_ASY (demo 4) = false.
Proof. intros Hj. assert (j = 0 ∨ j = 1 ∨ j = 2 ∨ j = 3) as [Hx|[Hx|[Hx|Hx]]] by lia; subst j; by vm_compute. Qed.
Lemma demo_unwritten d b : unwritten (demo 4) d b.
Proof.
  intros j Hj Ha. assert (zlen (bufs (demo 4)) = 4) as Hn by by vm_compute. unfold inr in Hj. rewrite Hn in Hj.
  rewrite demo_asy in Ha by exact Hj. discriminate Ha.
Qed.
Lemma demo_room : zlen (@nil Z) < zlen (bufs (demo 4)).
Proof. by vm_compute. Qed.
Lemma demo_none s d b : ∀ j : Z, j ∈ @nil Z → ¬ at_blk (s : io disk) j d b.
Proof. intros j Hj. by apply elem_of_nil in Hj. Qed.

Lemma write_read_witness : ∃ s' s'', write_block 1 40 (replicate 1024 7) (demo 4) = Ret tt s' ∧
  read_block 1 40 s' = Ret (replicate 1024 7) s''.
Proof.
  destruct (write_read one (demo 4) [] 1 40 (replicate 1024 7) (demo_cache 4) demo_blk demo_room (demo_none _ _ _) (demo_unwritten _ _) eq_refl)
    as (s' & s'' & He & _ & _ & Hr & _).
  exists s', s''. split; [exact He|exact Hr].
Defined.

(** The read of a block is queued. *)
Lemma demo_reading : ∃ s fl hl rf q k, cinv one s fl hl rf q ∧ idle s ∧ k ∈ tgt s q ∧ b_has k B_ASY s = false.
Proof.
  destruct (demo_cache 4) as (fl & hl & rf & q & Hca).
  destruct (getblk_cached one (demo 4) [] fl hl rf q 1 40 Hca demo_blk demo_room (demo_none _ _ _) (demo_unwritten _ _))
    as (k & s1 & fl1 & hl1 & rf1 & q1 & He & Hg & _ & Hc1).
  assert (match getblk 1 40 (demo 4) with Ret k s => b_has k B_DONE s | _ => true end = false) as Hd by by vm_compute.
  rewrite He in Hd. destruct Hg as [G1 G2 G3 G4 G5 [G6 G6'] _].
  assert (held s1 q1 k) as (Hk & Hbz & Ha & Hkq) by (apply (ca_held _ _ _ _ _ _ _ Hc1); left).
  destruct (rw_block_spec one s1 fl1 hl1 rf1 q1 READ k G1 G2 Hk) as (s2 & fl2 & rf2 & q2 & q3 & He2 & Hc2 & Hi2 & Hev & Ht & _).
  - rewrite G6, G6'. eapply blk_ok_ext; [apply G4|]. apply demo_blk.
  - exact Hkq.
  - right. split; [reflexivity|]. split; [exact G5|]. split; [exact Hbz|exact Hd].
  - exists s2, fl2, hl1, rf2, q2, k. split; [exact Hc2|]. split; [exact Hi2|]. split; [apply Ht; by left|].
    rewrite (nb_has s1 s2); [exact Ha|]. by apply (ev_buf _ _ _ _ _ _ _ Hev).
Qed.
Lemma intr_contents_witness : ∃ (s s' : io disk), ide_intr iodone s = Ret true s' ∧ contents_same one s s'.
Proof.
  destruct demo_reading as (s & fl & hl & rf & q & k & Hc & _ & Hk & _). destruct q as [|r l]; [by apply elem_of_nil in Hk|].
  destruct (intr_contents one s fl hl rf r l Hc) as (s' & fl' & rf' & q' & He & _ & Hs & _).
  exists s, s'. split; [exact He|exact Hs].
Defined.

(** An allocator that always has a page. *)
#[local] Instance plenty : PageAlloc unit := {
  get_pages _ _ := mret 4096;
  release_pages _ _ p := p;
  put_page _ := mret tt;
  pages_inv _ _ := True;
  pages_total _ := 0;
}.
Lemma plenty_loop n i a (s : io disk) : (i mod 4 =? 0) = true ∨ a ≠ 0 → ∃ s', buf_init_loop n i a (s, tt) = Ret tt (s', tt).
Proof.
  revert i a s. induction n as [|n IH]; intros i a s Ha; [by exists s|]. cbn [buf_init_loop].
  assert (∀ a, a ≠ 0 → ∃ s', (die_if (a =? 0);; modify (λ '(s, p), (buf_blank i s, p));; buf_init_loop n (i + 1) a) (s, tt) = Ret tt (s', tt)) as Hgo.
  { intros a' Ha'. rewrite (proj2 (Z.eqb_neq a' 0) Ha'). simpl die_if. mstep. apply IH. by right. }
  destruct (i mod 4 =? 0).
  - unfold mbind at 1, M_bind at 1. simpl. by apply (Hgo 4096).
  - mstep. apply Hgo. by destruct Ha.
Qed.
Lemma init_cache_witness : ∃ s', buf_init (demo_boot (Z.to_nat NR_BUF), tt) = Ret tt (s', tt) ∧ cache one (req_init s') [].
Proof.
  destruct (plenty_loop (Z.to_nat NR_BUF) 0 0 (list_head_init BFree (upd_buf_wait (λ _, false) (demo_boot (Z.to_nat NR_BUF)))))
    as [s1 Hs1]; [by left|].
  assert (buf_init (demo_boot (Z.to_nat NR_BUF), tt) = Ret tt (hash_init s1, tt)) as He
    by (unfold buf_init; mstep; rewrite (bind_eval _ _ _ _ _ Hs1); reflexivity).
  exists (hash_init s1). split; [exact He|].
  refine (proj1 (init_cache one _ _ _ _ (demo_at_boot _) _ He)).
  unfold zlen. cbn [bufs demo_boot]. rewrite length_replicate. reflexivity.
Defined.

(** ** Reads that do not get the last write *)
Definition fill (v : Z) : list Z := replicate 1024 v.
Definition result {A} (c : M (io disk) A) (n : nat) : option A := match c (demo n) with Ret a _ => Some a | _ => None end.

(** A synchronous [bwrite] of a buffer with [B_DONE] does not wait and
    releases the buffer with its write queued; [getblk] gives it to another
    block, and the end of the write passes for the end of the read: the reader
    of block 20 gets the data of block 10. *)
Theorem sync_write_released : result (sync_block 1 10 (fill 7);; read_block 1 20) 1 = Some (fill 7).
Proof. by vm_compute. Qed.
End demo.
