(* ===== verification/Task.v ===== *)
(** * Processes (include/cnix/sched.h, kernel/sched.c)

    The state the scheduler, signals, process groups and the system calls of
    kernel/syscall.c work on: the process table, the links of the run queue, of
    the lists of children and of the process groups, and the wait queues.  A
    pointer to a [task_struct] is its slot in the table, which is its process
    number.  A process inside [__sleepon] has the queue it sleeps on in its
    [t_frame]: that is where it goes on when it is given the processor. *)

From S2P Require Import Prelude Dlist.
From stdpp Require Import base numbers functions gmap list.

Local Open Scope Z_scope.

Definition NR_TASKS : Z := 64.
Definition HZ : Z := 100.
Definition SU_UID : Z := 0.
Definition SU_GID : Z := 0.
Definition TASK_RUNNING : Z := 0.
Definition TASK_INTERRUPTIBLE : Z := 1.
Definition TASK_UNINTERRUPTIBLE : Z := 2.
Definition TASK_ZOMBIE : Z := 3.
Definition TASK_STOPPED : Z := 4.
Definition SIGNR : Z := 32.
Definition IDLEPID : Z := 0.
Definition INITPID : Z := 1.
Definition RLIM_NLIMITS : Z := 15.

(** [sa_handler]: 0 is [SIG_DFL] and 1 is [SIG_IGN]. *)
Record sigaction := Sigaction {
  sa_handler : Z;
  sa_mask : Z;
  sa_flags : Z;
}.
Definition SIG_DFL : Z := 0.
Definition SIG_IGN : Z := 1.
Definition SIG_ERR : Z := -1.
Definition null_action : sigaction := Sigaction SIG_DFL 0 0.

Record rlimit := Rlimit {
  rlim_cur : Z;
  rlim_max : Z;
}.

Record task := Task {
  t_need_sched : bool;
  t_signal : Z;
  t_blocked : Z;
  t_blocked_saved : Z;
  t_sigactions : list sigaction;
  t_state : Z;
  t_priority : Z;
  t_counter : Z;
  t_stime : Z;
  t_utime : Z;
  t_cstime : Z;
  t_cutime : Z;
  t_alarm : Z;
  t_uid : Z;
  t_euid : Z;
  t_suid : Z;
  t_gid : Z;
  t_egid : Z;
  t_sgid : Z;
  t_umask : Z;
  t_exit_code : Z;
  t_pid : Z;
  t_ppid : Z;
  t_pgid : Z;
  t_tty : Z;
  t_session : Z;
  t_sleep_spot : option Z;
  t_rlims : list rlimit;
  t_bitmap : list Z;
  t_check : bool;
  t_frame : option Z;
}.

Definition set_t_need_sched (v : bool) (x : task) : task :=
  Task v (t_signal x) (t_blocked x) (t_blocked_saved x) (t_sigactions x) (t_state x) (t_priority x) (t_counter x) (t_stime x) (t_utime x) (t_cstime x) (t_cutime x) (t_alarm x) (t_uid x) (t_euid x) (t_suid x) (t_gid x) (t_egid x) (t_sgid x) (t_umask x) (t_exit_code x) (t_pid x) (t_ppid x) (t_pgid x) (t_tty x) (t_session x) (t_sleep_spot x) (t_rlims x) (t_bitmap x) (t_check x) (t_frame x).
Definition set_t_signal (v : Z) (x : task) : task :=
  Task (t_need_sched x) v (t_blocked x) (t_blocked_saved x) (t_sigactions x) (t_state x) (t_priority x) (t_counter x) (t_stime x) (t_utime x) (t_cstime x) (t_cutime x) (t_alarm x) (t_uid x) (t_euid x) (t_suid x) (t_gid x) (t_egid x) (t_sgid x) (t_umask x) (t_exit_code x) (t_pid x) (t_ppid x) (t_pgid x) (t_tty x) (t_session x) (t_sleep_spot x) (t_rlims x) (t_bitmap x) (t_check x) (t_frame x).
Definition set_t_blocked (v : Z) (x : task) : task :=
  Task (t_need_sched x) (t_signal x) v (t_blocked_saved x) (t_sigactions x) (t_state x) (t_priority x) (t_counter x) (t_stime x) (t_utime x) (t_cstime x) (t_cutime x) (t_alarm x) (t_uid x) (t_euid x) (t_suid x) (t_gid x) (t_egid x) (t_sgid x) (t_umask x) (t_exit_code x) (t_pid x) (t_ppid x) (t_pgid x) (t_tty x) (t_session x) (t_sleep_spot x) (t_rlims x) (t_bitmap x) (t_check x) (t_frame x).
Definition set_t_blocked_saved (v : Z) (x : task) : task :=
  Task (t_need_sched x) (t_signal x) (t_blocked x) v (t_sigactions x) (t_state x) (t_priority x) (t_counter x) (t_stime x) (t_utime x) (t_cstime x) (t_cutime x) (t_alarm x) (t_uid x) (t_euid x) (t_suid x) (t_gid x) (t_egid x) (t_sgid x) (t_umask x) (t_exit_code x) (t_pid x) (t_ppid x) (t_pgid x) (t_tty x) (t_session x) (t_sleep_spot x) (t_rlims x) (t_bitmap x) (t_check x) (t_frame x).
Definition set_t_sigactions (v : list sigaction) (x : task) : task :=
  Task (t_need_sched x) (t_signal x) (t_blocked x) (t_blocked_saved x) v (t_state x) (t_priority x) (t_counter x) (t_stime x) (t_utime x) (t_cstime x) (t_cutime x) (t_alarm x) (t_uid x) (t_euid x) (t_suid x) (t_gid x) (t_egid x) (t_sgid x) (t_umask x) (t_exit_code x) (t_pid x) (t_ppid x) (t_pgid x) (t_tty x) (t_session x) (t_sleep_spot x) (t_rlims x) (t_bitmap x) (t_check x) (t_frame x).
Definition set_t_state (v : Z) (x : task) : task :=
  Task (t_need_sched x) (t_signal x) (t_blocked x) (t_blocked_saved x) (t_sigactions x) v (t_priority x) (t_counter x) (t_stime x) (t_utime x) (t_cstime x) (t_cutime x) (t_alarm x) (t_uid x) (t_euid x) (t_suid x) (t_gid x) (t_egid x) (t_sgid x) (t_umask x) (t_exit_code x) (t_pid x) (t_ppid x) (t_pgid x) (t_tty x) (t_session x) (t_sleep_spot x) (t_rlims x) (t_bitmap x) (t_check x) (t_frame x).
Definition set_t_priority (v : Z) (x : task) : task :=
  Task (t_need_sched x) (t_signal x) (t_blocked x) (t_blocked_saved x) (t_sigactions x) (t_state x) v (t_counter x) (t_stime x) (t_utime x) (t_cstime x) (t_cutime x) (t_alarm x) (t_uid x) (t_euid x) (t_suid x) (t_gid x) (t_egid x) (t_sgid x) (t_umask x) (t_exit_code x) (t_pid x) (t_ppid x) (t_pgid x) (t_tty x) (t_session x) (t_sleep_spot x) (t_rlims x) (t_bitmap x) (t_check x) (t_frame x).
Definition set_t_counter (v : Z) (x : task) : task :=
  Task (t_need_sched x) (t_signal x) (t_blocked x) (t_blocked_saved x) (t_sigactions x) (t_state x) (t_priority x) v (t_stime x) (t_utime x) (t_cstime x) (t_cutime x) (t_alarm x) (t_uid x) (t_euid x) (t_suid x) (t_gid x) (t_egid x) (t_sgid x) (t_umask x) (t_exit_code x) (t_pid x) (t_ppid x) (t_pgid x) (t_tty x) (t_session x) (t_sleep_spot x) (t_rlims x) (t_bitmap x) (t_check x) (t_frame x).
Definition set_t_stime (v : Z) (x : task) : task :=
  Task (t_need_sched x) (t_signal x) (t_blocked x) (t_blocked_saved x) (t_sigactions x) (t_state x) (t_priority x) (t_counter x) v (t_utime x) (t_cstime x) (t_cutime x) (t_alarm x) (t_uid x) (t_euid x) (t_suid x) (t_gid x) (t_egid x) (t_sgid x) (t_umask x) (t_exit_code x) (t_pid x) (t_ppid x) (t_pgid x) (t_tty x) (t_session x) (t_sleep_spot x) (t_rlims x) (t_bitmap x) (t_check x) (t_frame x).
Definition set_t_utime (v : Z) (x : task) : task :=
  Task (t_need_sched x) (t_signal x) (t_blocked x) (t_blocked_saved x) (t_sigactions x) (t_state x) (t_priority x) (t_counter x) (t_stime x) v (t_cstime x) (t_cutime x) (t_alarm x) (t_uid x) (t_euid x) (t_suid x) (t_gid x) (t_egid x) (t_sgid x) (t_umask x) (t_exit_code x) (t_pid x) (t_ppid x) (t_pgid x) (t_tty x) (t_session x) (t_sleep_spot x) (t_rlims x) (t_bitmap x) (t_check x) (t_frame x).
Definition set_t_cstime (v : Z) (x : task) : task :=
  Task (t_need_sched x) (t_signal x) (t_blocked x) (t_blocked_saved x) (t_sigactions x) (t_state x) (t_priority x) (t_counter x) (t_stime x) (t_utime x) v (t_cutime x) (t_alarm x) (t_uid x) (t_euid x) (t_suid x) (t_gid x) (t_egid x) (t_sgid x) (t_umask x) (t_exit_code x) (t_pid x) (t_ppid x) (t_pgid x) (t_tty x) (t_session x) (t_sleep_spot x) (t_rlims x) (t_bitmap x) (t_check x) (t_frame x).
Definition set_t_cutime (v : Z) (x : task) : task :=
  Task (t_need_sched x) (t_signal x) (t_blocked x) (t_blocked_saved x) (t_sigactions x) (t_state x) (t_priority x) (t_counter x) (t_stime x) (t_utime x) (t_cstime x) v (t_alarm x) (t_uid x) (t_euid x) (t_suid x) (t_gid x) (t_egid x) (t_sgid x) (t_umask x) (t_exit_code x) (t_pid x) (t_ppid x) (t_pgid x) (t_tty x) (t_session x) (t_sleep_spot x) (t_rlims x) (t_bitmap x) (t_check x) (t_frame x).
Definition set_t_alarm (v : Z) (x : task) : task :=
  Task (t_need_sched x) (t_signal x) (t_blocked x) (t_blocked_saved x) (t_sigactions x) (t_state x) (t_priority x) (t_counter x) (t_stime x) (t_utime x) (t_cstime x) (t_cutime x) v (t_uid x) (t_euid x) (t_suid x) (t_gid x) (t_egid x) (t_sgid x) (t_umask x) (t_exit_code x) (t_pid x) (t_ppid x) (t_pgid x) (t_tty x) (t_session x) (t_sleep_spot x) (t_rlims x) (t_bitmap x) (t_check x) (t_frame x).
Definition set_t_uid (v : Z) (x : task) : task :=
  Task (t_need_sched x) (t_signal x) (t_blocked x) (t_blocked_saved x) (t_sigactions x) (t_state x) (t_priority x) (t_counter x) (t_stime x) (t_utime x) (t_cstime x) (t_cutime x) (t_alarm x) v (t_euid x) (t_suid x) (t_gid x) (t_egid x) (t_sgid x) (t_umask x) (t_exit_code x) (t_pid x) (t_ppid x) (t_pgid x) (t_tty x) (t_session x) (t_sleep_spot x) (t_rlims x) (t_bitmap x) (t_check x) (t_frame x).
Definition set_t_euid (v : Z) (x : task) : task :=
  Task (t_need_sched x) (t_signal x) (t_blocked x) (t_blocked_saved x) (t_sigactions x) (t_state x) (t_priority x) (t_counter x) (t_stime x) (t_utime x) (t_cstime x) (t_cutime x) (t_alarm x) (t_uid x) v (t_suid x) (t_gid x) (t_egid x) (t_sgid x) (t_umask x) (t_exit_code x) (t_pid x) (t_ppid x) (t_pgid x) (t_tty x) (t_session x) (t_sleep_spot x) (t_rlims x) (t_bitmap x) (t_check x) (t_frame x).
Definition set_t_suid (v : Z) (x : task) : task :=
  Task (t_need_sched x) (t_signal x) (t_blocked x) (t_blocked_saved x) (t_sigactions x) (t_state x) (t_priority x) (t_counter x) (t_stime x) (t_utime x) (t_cstime x) (t_cutime x) (t_alarm x) (t_uid x) (t_euid x) v (t_gid x) (t_egid x) (t_sgid x) (t_umask x) (t_exit_code x) (t_pid x) (t_ppid x) (t_pgid x) (t_tty x) (t_session x) (t_sleep_spot x) (t_rlims x) (t_bitmap x) (t_check x) (t_frame x).
Definition set_t_gid (v : Z) (x : task) : task :=
  Task (t_need_sched x) (t_signal x) (t_blocked x) (t_blocked_saved x) (t_sigactions x) (t_state x) (t_priority x) (t_counter x) (t_stime x) (t_utime x) (t_cstime x) (t_cutime x) (t_alarm x) (t_uid x) (t_euid x) (t_suid x) v (t_egid x) (t_sgid x) (t_umask x) (t_exit_code x) (t_pid x) (t_ppid x) (t_pgid x) (t_tty x) (t_session x) (t_sleep_spot x) (t_rlims x) (t_bitmap x) (t_check x) (t_frame x).
Definition set_t_egid (v : Z) (x : task) : task :=
  Task (t_need_sched x) (t_signal x) (t_blocked x) (t_blocked_saved x) (t_sigactions x) (t_state x) (t_priority x) (t_counter x) (t_stime x) (t_utime x) (t_cstime x) (t_cutime x) (t_alarm x) (t_uid x) (t_euid x) (t_suid x) (t_gid x) v (t_sgid x) (t_umask x) (t_exit_code x) (t_pid x) (t_ppid x) (t_pgid x) (t_tty x) (t_session x) (t_sleep_spot x) (t_rlims x) (t_bitmap x) (t_check x) (t_frame x).
Definition set_t_sgid (v : Z) (x : task) : task :=
  Task (t_need_sched x) (t_signal x) (t_blocked x) (t_blocked_saved x) (t_sigactions x) (t_state x) (t_priority x) (t_counter x) (t_stime x) (t_utime x) (t_cstime x) (t_cutime x) (t_alarm x) (t_uid x) (t_euid x) (t_suid x) (t_gid x) (t_egid x) v (t_umask x) (t_exit_code x) (t_pid x) (t_ppid x) (t_pgid x) (t_tty x) (t_session x) (t_sleep_spot x) (t_rlims x) (t_bitmap x) (t_check x) (t_frame x).
Definition set_t_umask (v : Z) (x : task) : task :=
  Task (t_need_sched x) (t_signal x) (t_blocked x) (t_blocked_saved x) (t_sigactions x) (t_state x) (t_priority x) (t_counter x) (t_stime x) (t_utime x) (t_cstime x) (t_cutime x) (t_alarm x) (t_uid x) (t_euid x) (t_suid x) (t_gid x) (t_egid x) (t_sgid x) v (t_exit_code x) (t_pid x) (t_ppid x) (t_pgid x) (t_tty x) (t_session x) (t_sleep_spot x) (t_rlims x) (t_bitmap x) (t_check x) (t_frame x).
Definition set_t_exit_code (v : Z) (x : task) : task :=
  Task (t_need_sched x) (t_signal x) (t_blocked x) (t_blocked_saved x) (t_sigactions x) (t_state x) (t_priority x) (t_counter x) (t_stime x) (t_utime x) (t_cstime x) (t_cutime x) (t_alarm x) (t_uid x) (t_euid x) (t_suid x) (t_gid x) (t_egid x) (t_sgid x) (t_umask x) v (t_pid x) (t_ppid x) (t_pgid x) (t_tty x) (t_session x) (t_sleep_spot x) (t_rlims x) (t_bitmap x) (t_check x) (t_frame x).
Definition set_t_pid (v : Z) (x : task) : task :=
  Task (t_need_sched x) (t_signal x) (t_blocked x) (t_blocked_saved x) (t_sigactions x) (t_state x) (t_priority x) (t_counter x) (t_stime x) (t_utime x) (t_cstime x) (t_cutime x) (t_alarm x) (t_uid x) (t_euid x) (t_suid x) (t_gid x) (t_egid x) (t_sgid x) (t_umask x) (t_exit_code x) v (t_ppid x) (t_pgid x) (t_tty x) (t_session x) (t_sleep_spot x) (t_rlims x) (t_bitmap x) (t_check x) (t_frame x).
Definition set_t_ppid (v : Z) (x : task) : task :=
  Task (t_need_sched x) (t_signal x) (t_blocked x) (t_blocked_saved x) (t_sigactions x) (t_state x) (t_priority x) (t_counter x) (t_stime x) (t_utime x) (t_cstime x) (t_cutime x) (t_alarm x) (t_uid x) (t_euid x) (t_suid x) (t_gid x) (t_egid x) (t_sgid x) (t_umask x) (t_exit_code x) (t_pid x) v (t_pgid x) (t_tty x) (t_session x) (t_sleep_spot x) (t_rlims x) (t_bitmap x) (t_check x) (t_frame x).
Definition set_t_pgid (v : Z) (x : task) : task :=
  Task (t_need_sched x) (t_signal x) (t_blocked x) (t_blocked_saved x) (t_sigactions x) (t_state x) (t_priority x) (t_counter x) (t_stime x) (t_utime x) (t_cstime x) (t_cutime x) (t_alarm x) (t_uid x) (t_euid x) (t_suid x) (t_gid x) (t_egid x) (t_sgid x) (t_umask x) (t_exit_code x) (t_pid x) (t_ppid x) v (t_tty x) (t_session x) (t_sleep_spot x) (t_rlims x) (t_bitmap x) (t_check x) (t_frame x).
Definition set_t_tty (v : Z) (x : task) : task :=
  Task (t_need_sched x) (t_signal x) (t_blocked x) (t_blocked_saved x) (t_sigactions x) (t_state x) (t_priority x) (t_counter x) (t_stime x) (t_utime x) (t_cstime x) (t_cutime x) (t_alarm x) (t_uid x) (t_euid x) (t_suid x) (t_gid x) (t_egid x) (t_sgid x) (t_umask x) (t_exit_code x) (t_pid x) (t_ppid x) (t_pgid x) v (t_session x) (t_sleep_spot x) (t_rlims x) (t_bitmap x) (t_check x) (t_frame x).
Definition set_t_session (v : Z) (x : task) : task :=
  Task (t_need_sched x) (t_signal x) (t_blocked x) (t_blocked_saved x) (t_sigactions x) (t_state x) (t_priority x) (t_counter x) (t_stime x) (t_utime x) (t_cstime x) (t_cutime x) (t_alarm x) (t_uid x) (t_euid x) (t_suid x) (t_gid x) (t_egid x) (t_sgid x) (t_umask x) (t_exit_code x) (t_pid x) (t_ppid x) (t_pgid x) (t_tty x) v (t_sleep_spot x) (t_rlims x) (t_bitmap x) (t_check x) (t_frame x).
Definition set_t_sleep_spot (v : option Z) (x : task) : task :=
  Task (t_need_sched x) (t_signal x) (t_blocked x) (t_blocked_saved x) (t_sigactions x) (t_state x) (t_priority x) (t_counter x) (t_stime x) (t_utime x) (t_cstime x) (t_cutime x) (t_alarm x) (t_uid x) (t_euid x) (t_suid x) (t_gid x) (t_egid x) (t_sgid x) (t_umask x) (t_exit_code x) (t_pid x) (t_ppid x) (t_pgid x) (t_tty x) (t_session x) v (t_rlims x) (t_bitmap x) (t_check x) (t_frame x).
Definition set_t_rlims (v : list rlimit) (x : task) : task :=
  Task (t_need_sched x) (t_signal x) (t_blocked x) (t_blocked_saved x) (t_sigactions x) (t_state x) (t_priority x) (t_counter x) (t_stime x) (t_utime x) (t_cstime x) (t_cutime x) (t_alarm x) (t_uid x) (t_euid x) (t_suid x) (t_gid x) (t_egid x) (t_sgid x) (t_umask x) (t_exit_code x) (t_pid x) (t_ppid x) (t_pgid x) (t_tty x) (t_session x) (t_sleep_spot x) v (t_bitmap x) (t_check x) (t_frame x).
Definition set_t_bitmap (v : list Z) (x : task) : task :=
  Task (t_need_sched x) (t_signal x) (t_blocked x) (t_blocked_saved x) (t_sigactions x) (t_state x) (t_priority x) (t_counter x) (t_stime x) (t_utime x) (t_cstime x) (t_cutime x) (t_alarm x) (t_uid x) (t_euid x) (t_suid x) (t_gid x) (t_egid x) (t_sgid x) (t_umask x) (t_exit_code x) (t_pid x) (t_ppid x) (t_pgid x) (t_tty x) (t_session x) (t_sleep_spot x) (t_rlims x) v (t_check x) (t_frame x).
Definition set_t_check (v : bool) (x : task) : task :=
  Task (t_need_sched x) (t_signal x) (t_blocked x) (t_blocked_saved x) (t_sigactions x) (t_state x) (t_priority x) (t_counter x) (t_stime x) (t_utime x) (t_cstime x) (t_cutime x) (t_alarm x) (t_uid x) (t_euid x) (t_suid x) (t_gid x) (t_egid x) (t_sgid x) (t_umask x) (t_exit_code x) (t_pid x) (t_ppid x) (t_pgid x) (t_tty x) (t_session x) (t_sleep_spot x) (t_rlims x) (t_bitmap x) v (t_frame x).
Definition set_t_frame (v : option Z) (x : task) : task :=
  Task (t_need_sched x) (t_signal x) (t_blocked x) (t_blocked_saved x) (t_sigactions x) (t_state x) (t_priority x) (t_counter x) (t_stime x) (t_utime x) (t_cstime x) (t_cutime x) (t_alarm x) (t_uid x) (t_euid x) (t_suid x) (t_gid x) (t_egid x) (t_sgid x) (t_umask x) (t_exit_code x) (t_pid x) (t_ppid x) (t_pgid x) (t_tty x) (t_session x) (t_sleep_spot x) (t_rlims x) (t_bitmap x) (t_check x) v.

(** A [list_t *] of a process: [list], [clist], [plist] or [pglist]. *)
Inductive kptr := KRun (p : Z) | KClist (p : Z) | KPlist (p : Z) | KPg (p : Z).
#[export] Instance kptr_eq_dec : EqDecision kptr.
Proof. solve_decision. Defined.

Record kst := Kst {
  tasks : gmap Z task;
  current : Z;
  knext : kptr → kptr;
  kprev : kptr → kptr;
  wq_head : Z → option Z;
  wq_next : Z → option Z;
  nowticks : Z;
  owners : list Z;
  next_pid : Z;
  tss_bitmap : list Z;
}.

Definition upd_tasks (f : gmap Z task → gmap Z task) (x : kst) : kst :=
  Kst (f (tasks x)) (current x) (knext x) (kprev x) (wq_head x) (wq_next x) (nowticks x) (owners x) (next_pid x) (tss_bitmap x).
Definition upd_current (f : Z → Z) (x : kst) : kst :=
  Kst (tasks x) (f (current x)) (knext x) (kprev x) (wq_head x) (wq_next x) (nowticks x) (owners x) (next_pid x) (tss_bitmap x).
Definition upd_knext (f : (kptr → kptr) → (kptr → kptr)) (x : kst) : kst :=
  Kst (tasks x) (current x) (f (knext x)) (kprev x) (wq_head x) (wq_next x) (nowticks x) (owners x) (next_pid x) (tss_bitmap x).
Definition upd_kprev (f : (kptr → kptr) → (kptr → kptr)) (x : kst) : kst :=
  Kst (tasks x) (current x) (knext x) (f (kprev x)) (wq_head x) (wq_next x) (nowticks x) (owners x) (next_pid x) (tss_bitmap x).
Definition upd_wq_head (f : (Z → option Z) → (Z → option Z)) (x : kst) : kst :=
  Kst (tasks x) (current x) (knext x) (kprev x) (f (wq_head x)) (wq_next x) (nowticks x) (owners x) (next_pid x) (tss_bitmap x).
Definition upd_wq_next (f : (Z → option Z) → (Z → option Z)) (x : kst) : kst :=
  Kst (tasks x) (current x) (knext x) (kprev x) (wq_head x) (f (wq_next x)) (nowticks x) (owners x) (next_pid x) (tss_bitmap x).
Definition upd_nowticks (f : Z → Z) (x : kst) : kst :=
  Kst (tasks x) (current x) (knext x) (kprev x) (wq_head x) (wq_next x) (f (nowticks x)) (owners x) (next_pid x) (tss_bitmap x).
Definition upd_owners (f : list Z → list Z) (x : kst) : kst :=
  Kst (tasks x) (current x) (knext x) (kprev x) (wq_head x) (wq_next x) (nowticks x) (f (owners x)) (next_pid x) (tss_bitmap x).
Definition upd_next_pid (f : Z → Z) (x : kst) : kst :=
  Kst (tasks x) (current x) (knext x) (kprev x) (wq_head x) (wq_next x) (nowticks x) (owners x) (f (next_pid x)) (tss_bitmap x).
Definition upd_tss_bitmap (f : list Z → list Z) (x : kst) : kst :=
  Kst (tasks x) (current x) (knext x) (kprev x) (wq_head x) (wq_next x) (nowticks x) (owners x) (next_pid x) (f (tss_bitmap x)).

Definition null_task : task :=
  Task false 0 0 0 [] 0 0 0 0 0 0 0 0 0 0 0 0 0 0 0 0 0 0 0 0 0 None [] [] false None.
Definition task_at (s : kst) (p : Z) : task := default null_task (tasks s !! p).
Definition upd_task (p : Z) (f : task → task) : kst → kst := upd_tasks (alter f p).
(** [current->...] *)
Definition cur (s : kst) : task := task_at s (current s).
Definition upd_cur (f : task → task) (s : kst) : kst := upd_task (current s) f s.

#[export] Instance kst_links : LinkStore kst kptr := {
  nxt s p := knext s p;
  prv s p := kprev s p;
  set_nxt p v := upd_knext <[p := v]>;
  set_prv p v := upd_kprev <[p := v]>;
  linkable _ _ := True;
}.
#[export] Instance kst_links_laws : LinkLaws kst kptr.
Proof.
  split; try done; intros s p v q _; simpl; (destruct (decide (q = p)) as [->|];
    [by rewrite fn_lookup_insert|by rewrite fn_lookup_insert_ne]).
Qed.

(** Steps on the links leave the rest alone. *)
Lemma tasks_add_tail (h n : kptr) s : tasks (list_add_tail h n s) = tasks s.
Proof. done. Qed.
Lemma tasks_del (e : kptr) s : tasks (list_del e s) = tasks s.
Proof. done. Qed.
