(* ===== verification/Sched.v ===== *)
(** * The scheduler (kernel/sched.c)

    The run queue, whose head is the [list] of the idle process, the choice of
    the next process by [schedule], and the wait queues.  [switch_to] gives the
    processor to the process chosen: the state then belongs to that process,
    which goes on in [__sleepon] when it slept ([resume]).  Masking bottom
    halves and interrupts has no effect on one sequence of steps. *)

From S2P Require Import Prelude Dlist Task.
From stdpp Require Import base numbers functions gmap list relations.

Local Open Scope Z_scope.

Definition run_queue : kptr := KRun IDLEPID.
Definition RLIM_INFINITY : Z := 0xffffffff.
Definition TTY_NUM : Z := 2 + 2 * 4.
Definition NOTTY : Z := TTY_NUM + 1.
Definition OPEN_MAX : Z := 32.

(** The idle process, as [sched_init] fills it in; what is in the I/O bitmap
    of the process it leaves alone. *)
Definition idle_task_struct (bitmap : list Z) : task := Task
  false 0 0 0 (replicate (Z.to_nat SIGNR) null_action) TASK_RUNNING 10 10 0 0 0 0 0
  SU_UID SU_UID SU_UID SU_GID SU_GID SU_GID (* 0022 *) 18 0 IDLEPID IDLEPID IDLEPID NOTTY IDLEPID None
  (<[7%nat := Rlimit OPEN_MAX OPEN_MAX]> (<[6%nat := Rlimit NR_TASKS NR_TASKS]>
    (replicate (Z.to_nat RLIM_NLIMITS) (Rlimit RLIM_INFINITY RLIM_INFINITY))))
  bitmap false None.
Definition sched_init (s : kst) : kst :=
  let s := upd_tasks (λ _, {[ IDLEPID := idle_task_struct (t_bitmap (task_at s IDLEPID)) ]}) s in
  let s := list_head_init (KPg IDLEPID) (list_head_init (KPlist IDLEPID) (list_head_init (KClist IDLEPID) s)) in
  let s := upd_tss_bitmap (λ b, replicate 129 0xff ++ drop 129 b) s in
  list_head_init run_queue s.

Definition add_run (p : Z) (s : kst) : kst :=
  if list_empty run_queue s then list_add_head run_queue (KRun p) s
  else list_add_tail run_queue (KRun p) s.
Definition del_run (p : Z) : kst → kst := list_del (KRun p).
Definition is_run_quene_empty : kst → bool := list_empty run_queue.

(** The loop over the run queue for the largest counter. *)
Fixpoint pick_loop (fuel : nat) (tmp : kptr) (counter : Z) (sel : option Z) (s : kst) : option (Z * option Z) :=
  match fuel with
  | O => None
  | S fuel =>
      if decide (tmp = run_queue) then Some (counter, sel)
      else
        match tmp with
        | KRun p =>
            let c := t_counter (task_at s p) in
            if counter <? c then pick_loop fuel (nxt s tmp) c (Some p) s
            else pick_loop fuel (nxt s tmp) counter sel s
        | _ => None
        end
  end.
(** [p->counter = p->priority] *)
Definition refill_one (p : kptr) (s : kst) : kst :=
  match p with
  | KRun p => upd_task p (λ t, set_t_counter (t_priority t) t) s
  | _ => s
  end.
Definition refill : M kst unit := λ s,
  match list_foreach (S (size (tasks s))) run_queue refill_one s with
  | Some s' => Ret tt s'
  | None => Die
  end.
(** [repeat]: the process chosen. *)
Fixpoint choose_next (fuel : nat) : M kst Z :=
  match fuel with
  | O => die
  | S fuel =>
      r ← gets (λ s, pick_loop (S (size (tasks s))) (nxt s run_queue) 0 None s);
      '(counter, sel) ← from_opt r;
      if counter =? 0 then refill;; choose_next fuel
      else from_opt sel
  end.
(** One turn finds a process, or fills the counters for the next. *)
Definition schedule : M kst unit :=
  modify (upd_cur (set_t_need_sched false));;
  e ← gets (list_empty run_queue);
  if (e : bool) then modify (upd_current (λ _, IDLEPID))
  else
    sel ← choose_next 2;
    modify (upd_current (λ _, sel)).

(** ** Wait queues: [*p] is [wq_head p], the node of a process [wq_next] *)
Definition add_wait_queue (q w : Z) (s : kst) : kst :=
  upd_wq_head <[q := Some w]> (upd_wq_next <[w := wq_head s q]> s).

(** [while(tmp && tmp->next != wait)] *)
Fixpoint wait_prev (fuel : nat) (tmp : option Z) (w : Z) (s : kst) : option (option Z) :=
  match tmp with
  | None => Some None
  | Some t =>
      if decide (wq_next s t = Some w) then Some (Some t)
      else
        match fuel with
        | O => None
        | S fuel => wait_prev fuel (wq_next s t) w s
        end
  end.
Definition remove_wait_queue (q w : Z) : M kst unit :=
  h ← gets (λ s, wq_head s q);
  n ← gets (λ s, wq_next s w);
  (if decide (h = Some w) then modify (upd_wq_head <[q := n]>)
   else
     tmp ← gets (λ s, wait_prev (size (tasks s)) h w s);
     tmp ← from_opt tmp;
     t ← from_opt tmp;
     modify (upd_wq_next <[t := n]>));;
  modify (upd_wq_next <[w := None]>).

(** Where a process goes on that was given the processor. *)
Definition resume : M kst unit :=
  c ← gets current;
  f ← gets (λ s, t_frame (cur s));
  match f with
  | Some q =>
      remove_wait_queue q c;;
      modify (upd_cur (set_t_frame None))
  | None => mret tt
  end.

(** [__sleepon], up to where another process runs. *)
Definition sleep_on (q : option Z) (st : Z) : M kst unit :=
  match q with
  | None => mret tt
  | Some q =>
      c ← gets current;
      p ← gets (λ s, t_pid (cur s));
      die_if (p =? 0);;
      modify (del_run c);;
      modify (upd_cur (set_t_state st));;
      modify (add_wait_queue q c);;
      modify (upd_cur (set_t_frame (Some q)));;
      schedule;;
      resume
  end.
Definition sleepon (q : option Z) : M kst unit := sleep_on q TASK_UNINTERRUPTIBLE.
Definition interrupt_sleepon (q : option Z) : M kst unit := sleep_on q TASK_INTERRUPTIBLE.

Definition wake_one (p : Z) (s : kst) : kst :=
  let st := t_state (task_at s p) in
  if (st =? TASK_UNINTERRUPTIBLE) || (st =? TASK_INTERRUPTIBLE) then
    add_run p (upd_task p (λ t, set_t_sleep_spot None (set_t_state TASK_RUNNING t)) s)
  else s.
Fixpoint wake_loop (fuel : nat) (tmp : Z) (s : kst) : option kst :=
  match fuel with
  | O => None
  | S fuel =>
      let s := wake_one tmp s in
      match wq_next s tmp with
      | Some t => wake_loop fuel t s
      | None => Some s
      end
  end.
Definition wakeup (q : option Z) : M kst unit := λ s,
  match (q ← q; wq_head s q) with
  | None => Ret tt s
  | Some t =>
      match wake_loop (size (tasks s)) t s with
      | Some s => Ret tt (upd_cur (set_t_need_sched true) s)
      | None => Die
      end
  end.

(** [timer_bottom] (driver/timer.c): the time slice of the running process. *)
Definition timer_slice (s : kst) : kst :=
  if negb (current s =? IDLEPID) then
    if 0 <? t_counter (cur s) then upd_cur (λ t, set_t_counter (t_counter t - 1) t) s
    else upd_cur (set_t_need_sched true) s
  else if negb (list_empty run_queue s) then upd_cur (set_t_need_sched true) s
  else s.
(** [ret_with_reschedule] (kernel/system.S) *)
Definition reschedule : M kst unit :=
  n ← gets (λ s, t_need_sched (cur s));
  when n (schedule;; resume).
(** One turn of the loop of [idle_task]. *)
Definition idle_turn : M kst unit :=
  e ← gets is_run_quene_empty;
  if (e : bool) then mret tt else schedule;; resume.
(** A timer interrupt of a process in user mode, or of the halted idle
    process. *)
Definition turn : M kst unit :=
  modify timer_slice;;
  c ← gets current;
  if c =? IDLEPID then idle_turn else reschedule.
