(* ===== verification/Runq.v ===== *)
(** * Scheduling: the invariant of the queues, and fairness

    The run queue holds exactly the processes that can run, a wait queue
    exactly those inside [__sleepon] on it, and a process that can not run is
    on a wait queue or dead.  Every step of the scheduler keeps this.  A process
    that can run gets the processor within a bounded number of time slices. *)

From S2P Require Import Prelude Dlist Task Sched.
From stdpp Require Import base numbers functions gmap list relations.

Local Open Scope Z_scope.

Implicit Types (s : kst).

Definition alive s (p : Z) : Prop := is_Some (tasks s !! p).
Definition counter s (p : Z) : Z := t_counter (task_at s p).
Definition prio s (p : Z) : Z := t_priority (task_at s p).
Definition st s (p : Z) : Z := t_state (task_at s p).
Definition frm s (p : Z) : option Z := t_frame (task_at s p).

(** From [h], following [wq_next], come the processes of [l]. *)
Fixpoint chain s (h : option Z) (l : list Z) : Prop :=
  match l with
  | [] => h = None
  | p :: l => h = Some p ∧ chain s (wq_next s p) l
  end.

Definition sleeping (v : Z) : bool := (v =? TASK_UNINTERRUPTIBLE) || (v =? TASK_INTERRUPTIBLE).

Record sinv s (rq : list Z) (wl : Z → list Z) : Prop := {
  si_run : is_list s run_queue (KRun <$> rq);
  si_rq p : p ∈ rq ↔ p ≠ 0 ∧ alive s p ∧ st s p = TASK_RUNNING;
  si_chain q : chain s (wq_head s q) (wl q);
  si_nodup q : NoDup (wl q);
  si_wl p q : p ∈ wl q ↔ alive s p ∧ frm s p = Some q;
  si_state p : alive s p → st s p = TASK_RUNNING ∨ sleeping (st s p) = true ∧ is_Some (frm s p) ∨
    st s p = TASK_ZOMBIE ∧ frm s p = None;
  si_idle : alive s 0 ∧ frm s 0 = None;
  si_pid p : alive s p → t_pid (task_at s p) = p;
  si_cur : alive s (current s);
}.
(** The running process can run, and is not inside [__sleepon]. *)
Definition runs s : Prop := current s ≠ 0 → st s (current s) = TASK_RUNNING.
Definition awake s : Prop := runs s ∧ frm s (current s) = None.

Lemma task_at_upd p f s j : task_at (upd_task p f s) j =
  if decide (j = p) then (if tasks s !! p then f (task_at s p) else null_task) else task_at s j.
Proof.
  unfold task_at, upd_task. simpl. destruct (decide (j = p)) as [->|Hne]; [|by rewrite lookup_alter_ne by done].
  rewrite lookup_alter_eq. by destruct (tasks s !! p).
Qed.
Lemma alive_upd p f s j : alive (upd_task p f s) j ↔ alive s j.
Proof. unfold alive, upd_task. simpl. by rewrite lookup_alter_is_Some. Qed.
Lemma task_at_alive p f s : alive s p → task_at (upd_task p f s) p = f (task_at s p).
Proof. intros [t Ht]. by rewrite task_at_upd, decide_True, Ht. Qed.
Lemma task_at_other p f s j : j ≠ p → task_at (upd_task p f s) j = task_at s j.
Proof. intros Hne. by rewrite task_at_upd, decide_False. Qed.

Lemma task_at_field {B} (g : task → B) p f s j : (∀ t, g (f t) = g t) → g (task_at (upd_task p f s) j) = g (task_at s j).
Proof. intros Hg. rewrite task_at_upd. case_decide; [subst|done]. unfold task_at. destruct (tasks s !! p); [apply Hg|done]. Qed.

(** What scheduling leaves alone: of a process all but these fields, and all
    links but those of the run queue. *)
Definition tview (t : task) : task :=
  set_t_need_sched false (set_t_state 0 (set_t_counter 0 (set_t_sleep_spot None (set_t_frame None t)))).
Record calm s s' : Prop := {
  cm_links k : (∀ p, k ≠ KRun p) → nxt s' k = nxt s k ∧ prv s' k = prv s k;
  cm_view p : tview (task_at s' p) = tview (task_at s p);
  cm_alive p : alive s' p ↔ alive s p;
  cm_zombie p : st s' p = TASK_ZOMBIE ↔ st s p = TASK_ZOMBIE;
  cm_owners : owners s' = owners s;
  cm_next_pid : next_pid s' = next_pid s;
}.
#[export] Instance calm_preorder : PreOrder calm.
Proof.
  split; [by split|]. intros s1 s2 s3 [A1 A2 A3 A4 A5 A6] [B1 B2 B3 B4 B5 B6]. split; try congruence.
  - intros k Hk. destruct (A1 k Hk), (B1 k Hk). split; congruence.
  - intros p. by rewrite B3.
  - intros p. by rewrite B4.
Qed.
Lemma calm_upd p f s : (∀ t, tview (f t) = tview t) → (t_state (f (task_at s p)) = TASK_ZOMBIE ↔ st s p = TASK_ZOMBIE) → calm s (upd_task p f s).
Proof.
  intros H1 H2. split; try done.
  - intros j. rewrite task_at_upd. case_decide; [subst|done]. unfold task_at. by destruct (tasks s !! p).
  - intros j. apply alive_upd.
  - intros j. unfold st. rewrite task_at_upd. case_decide; [subst|done]. unfold st, task_at in *. by destruct (tasks s !! p).
Qed.
(** A change of the links of the run queue. *)
Lemma calm_run s s' rq : (∀ k, k ∉ run_queue :: (KRun <$> rq) → nxt s' k = nxt s k ∧ prv s' k = prv s k) → tasks s' = tasks s →
  owners s' = owners s → next_pid s' = next_pid s → calm s s'.
Proof.
  intros Hl Ht Ho Hn. split; [|intros p; unfold st, alive, task_at; by rewrite ?Ht..|done|done].
  intros k Hk. apply Hl. intros [->|(x & -> & _)%list_elem_of_fmap]%elem_of_cons; by eapply Hk.
Qed.

Lemma rq_len s rq wl : sinv s rq wl → (length rq <= size (tasks s))%nat.
Proof.
  intros Hs. assert (NoDup rq) as Hnd by (pose proof (is_list_NoDup _ _ _ (si_run _ _ _ Hs)) as Hn; by apply NoDup_fmap_1 in Hn).
  rewrite <-(size_list_to_set (C:=gset Z) rq) by done. rewrite <-size_dom. apply subseteq_size.
  intros p Hp%elem_of_list_to_set. apply (si_rq _ _ _ Hs) in Hp as (_ & Ha & _). by apply elem_of_dom.
Qed.

(** ** Choosing *)

(** The first process of [l] with the largest counter above [c]. *)
Fixpoint pick s (l : list Z) (c : Z) (sel : option Z) : Z * option Z :=
  match l with
  | [] => (c, sel)
  | p :: l => if c <? counter s p then pick s l (counter s p) (Some p) else pick s l c sel
  end.

Lemma pick_loop_pick s l1 l2 c sel fuel : is_list s run_queue (KRun <$> (l1 ++ l2)) → (length l2 < fuel)%nat →
  pick_loop fuel (fst_or run_queue (KRun <$> l2)) c sel s = Some (pick s l2 c sel).
Proof.
  revert l1 l2 c sel. induction fuel as [|fuel IH]; intros l1 l2 c sel Hl Hf; [lia|]. destruct l2 as [|p l2]; [done|].
  change (fst_or run_queue (KRun <$> (p :: l2))) with (KRun p). cbn [pick_loop]. rewrite decide_False.
  2: { intros Heq. apply is_list_hd_notin in Hl. apply Hl. rewrite <-Heq. apply list_elem_of_fmap. exists p. set_solver. }
  assert (nxt s (KRun p) = fst_or run_queue (KRun <$> l2)) as ->.
  { rewrite fmap_app, fmap_cons, cons_middle, app_assoc in Hl. apply is_list_next in Hl as [Hn _]. by rewrite lst_snoc in Hn. }
  simpl in Hf. assert (is_list s run_queue (KRun <$> ((l1 ++ [p]) ++ l2))) as Hl' by (by rewrite <-app_assoc).
  simpl. unfold counter. destruct (c <? _); apply (IH (l1 ++ [p])); done || lia.
Qed.

Lemma pick_spec s l c sel : let '(c', sel') := pick s l c sel in
  (∀ j, j ∈ l → counter s j <= c') ∧ c <= c' ∧
  (c' = c ∧ sel' = sel ∨ ∃ p, p ∈ l ∧ sel' = Some p ∧ counter s p = c' ∧ c < c').
Proof.
  revert c sel. induction l as [|p l IH]; intros c sel; simpl.
  - split; [intros j Hj; by apply elem_of_nil in Hj|]. split; [lia|by left].
  - destruct (Z.ltb_spec c (counter s p)) as [Hc|Hc].
    + specialize (IH (counter s p) (Some p)). destruct (pick s l (counter s p) (Some p)) as [c' sel']. destruct IH as (H1 & H2 & H3).
      split; [intros j [->|Hj]%elem_of_cons; [lia|by apply H1]|]. split; [lia|]. right.
      destruct H3 as [[-> ->]|(p' & Hp' & -> & E & ?)]; [exists p|exists p']; set_solver by lia.
    + specialize (IH c sel). destruct (pick s l c sel) as [c' sel']. destruct IH as (H1 & H2 & H3).
      split; [intros j [->|Hj]%elem_of_cons; [lia|by apply H1]|]. split; [lia|].
      destruct H3 as [?|(p' & Hp' & -> & E & ?)]; [by left|right; exists p'; set_solver by lia].
Qed.

(** All counters of the run queue are set to the priorities. *)
Definition refilled s (rq : list Z) : kst := foldl (λ s p, refill_one p s) s (KRun <$> rq).

Lemma refill_eq s rq wl : sinv s rq wl → refill s = Ret tt (refilled s rq).
Proof.
  intros Hs. unfold refill. rewrite (list_foreach_fold run_queue refill_one (KRun <$> rq)); [done|..].
  - by intros [] s' q.
  - done.
  - apply Hs.
  - rewrite length_fmap. pose proof (rq_len _ _ _ Hs). lia.
Qed.

(** What filling the counters leaves alone. *)
Lemma refilled_task s rq j : NoDup rq → (∀ p, p ∈ rq → alive s p) →
  task_at (refilled s rq) j = if decide (j ∈ rq) then set_t_counter (prio s j) (task_at s j) else task_at s j.
Proof.
  unfold refilled. revert s. induction rq as [|p rq IH]; intros s Hnd Ha; [by rewrite decide_False by apply not_elem_of_nil|].
  apply NoDup_cons in Hnd as [Hp Hnd]. rewrite fmap_cons. simpl foldl. rewrite IH; [|done|].
  2: { intros x Hx. apply alive_upd, Ha. by right. }
  unfold prio. destruct (decide (j = p)) as [->|Hne].
  - rewrite decide_False by done. rewrite (decide_True (P:=p ∈ p :: rq)) by left. rewrite task_at_alive; [done|]. apply Ha. left.
  - rewrite task_at_other by done. destruct (decide (j ∈ rq)) as [Hj|Hj].
    + by rewrite decide_True by (by right).
    + by rewrite decide_False by (intros [|]%elem_of_cons; done).
Qed.
Lemma refilled_rest s rq : let s' := refilled s rq in
  (∀ j, alive s' j ↔ alive s j) ∧ current s' = current s ∧ knext s' = knext s ∧ kprev s' = kprev s ∧ wq_head s' = wq_head s ∧
  wq_next s' = wq_next s ∧ size (tasks s') = size (tasks s).
Proof.
  unfold refilled. revert s. induction rq as [|p rq IH]; intros s; [done|]. cbv zeta. rewrite fmap_cons. cbn [foldl].
  destruct (IH (refill_one (KRun p) s)) as (H1 & H2 & H3 & H4 & H5 & H6 & H7). split.
  - intros j. rewrite H1. simpl. apply alive_upd.
  - do 5 (split; [done|]). etrans; [exact H7|]. simpl. rewrite <-!size_dom. by rewrite dom_alter_L.
Qed.

Lemma refilled_stay s rq j : st (refilled s rq) j = st s j ∧ frm (refilled s rq) j = frm s j.
Proof.
  unfold refilled. revert s. induction rq as [|p rq IH]; intros s; [done|]. rewrite fmap_cons. cbn [foldl].
  destruct (IH (refill_one (KRun p) s)) as [-> ->]. unfold st, frm, refill_one. by rewrite (task_at_field t_state), (task_at_field t_frame).
Qed.
Lemma refilled_calm s rq : calm s (refilled s rq).
Proof.
  unfold refilled. revert s. induction rq as [|p rq IH]; intros s; [done|]. rewrite fmap_cons. cbn [foldl].
  etransitivity; [|apply IH]. by apply calm_upd.
Qed.

(** A step that changes no link, no wait queue and of the processes neither
    state nor place. *)
Lemma sinv_same s s' rq wl : sinv s rq wl → knext s' = knext s → kprev s' = kprev s → wq_head s' = wq_head s → wq_next s' = wq_next s →
  (∀ j, alive s' j ↔ alive s j) → (∀ j, st s' j = st s j ∧ frm s' j = frm s j ∧ t_pid (task_at s' j) = t_pid (task_at s j)) →
  alive s (current s') → sinv s' rq wl.
Proof.
  intros [H1 H2 H3 H4 H5 H6 H7 H8 H9] E1 E2 E3 E4 Ha Ht Hc. split.
  - eapply is_list_frame; [exact H1| |done]. intros q _. simpl. by rewrite E1, E2.
  - intros p. rewrite H2, Ha. by destruct (Ht p) as (-> & _).
  - intros q. rewrite E3. specialize (H3 q). revert H3. generalize (wq_head s q). induction (wl q) as [|p l IH]; intros h; [done|].
    simpl. rewrite E4. intros [-> Hch]. split; [done|by apply IH].
  - done.
  - intros p q. rewrite H5, Ha. by destruct (Ht p) as (_ & -> & _).
  - intros p. destruct (Ht p) as (-> & -> & _). rewrite Ha. apply H6.
  - rewrite Ha. destruct (Ht 0) as (_ & -> & _). done.
  - intros p. destruct (Ht p) as (_ & _ & ->). rewrite Ha. apply H8.
  - by rewrite Ha.
Qed.

Lemma refilled_sinv s rq wl : sinv s rq wl → sinv (refilled s rq) rq wl ∧
  ∀ j, counter (refilled s rq) j = if decide (j ∈ rq) then prio s j else counter s j.
Proof.
  intros Hs. destruct (refilled_rest s rq) as (R1 & R2 & R3 & R4 & R5 & R6 & _).
  assert (∀ j, task_at (refilled s rq) j = if decide (j ∈ rq) then set_t_counter (prio s j) (task_at s j) else task_at s j) as Ht.
  { intros j. apply refilled_task.
    - pose proof (is_list_NoDup _ _ _ (si_run _ _ _ Hs)) as Hn. by apply NoDup_fmap_1 in Hn.
    - intros p Hp. by apply (si_rq _ _ _ Hs) in Hp as (_ & ? & _). }
  split.
  - apply (sinv_same s); [exact Hs|done|done|done|done|done| |rewrite R2; apply (si_cur _ _ _ Hs)].
    intros j. unfold st, frm. rewrite Ht. by case_decide.
  - intros j. unfold counter. rewrite Ht. by case_decide.
Qed.

(** What [choose_next] needs: else no process is ever found. *)
Definition choosable s (rq : list Z) : Prop := ∃ j, j ∈ rq ∧ (0 < counter s j ∨ 0 < prio s j).

(** The process found has the largest counter, after the counters were filled
    when none was left. *)
Record chosen s (rq : list Z) (p : Z) (s' : kst) : Prop := {
  ch_in : p ∈ rq;
  ch_pos : 0 < counter s' p;
  ch_max j : j ∈ rq → counter s' j <= counter s' p;
  ch_state : s' = s ∨ (∀ j, j ∈ rq → counter s j <= 0) ∧ s' = refilled s rq;
}.

Lemma choose_turn s rq wl fuel : sinv s rq wl → let '(c, sel) := pick s rq 0 None in
  choose_next (S fuel) s = if c =? 0 then choose_next fuel (refilled s rq) else (from_opt sel : M kst Z) s.
Proof.
  intros Hs. destruct (pick s rq 0 None) as [c sel] eqn:E. cbn [choose_next]. mstep.
  rewrite (is_list_nxt_hd _ _ _ (si_run _ _ _ Hs)), (pick_loop_pick s [] rq 0 None).
  - rewrite E. simpl from_opt. mstep. destruct (c =? 0); [|done]. by rewrite (bind_eval _ _ _ _ _ (refill_eq _ _ _ Hs)).
  - apply Hs.
  - pose proof (rq_len _ _ _ Hs). lia.
Qed.
Lemma choose_now s rq wl fuel : sinv s rq wl → (∃ j, j ∈ rq ∧ 0 < counter s j) →
  ∃ p, choose_next (S fuel) s = Ret p s ∧ p ∈ rq ∧ 0 < counter s p ∧ ∀ j, j ∈ rq → counter s j <= counter s p.
Proof.
  intros Hs (j & Hj & Hc). pose proof (choose_turn s rq wl fuel Hs) as Ht. pose proof (pick_spec s rq 0 None) as Hp.
  destruct (pick s rq 0 None) as [c sel]. destruct Hp as (H1 & H2 & H3). pose proof (H1 j Hj).
  destruct H3 as [[-> _]|(p & Hp & -> & <- & Hpos)]; [lia|]. exists p. rewrite Ht, (proj2 (Z.eqb_neq _ 0)) by lia. done.
Qed.
Lemma choose_spec s rq wl fuel : sinv s rq wl → choosable s rq → ∃ p s', choose_next (S (S fuel)) s = Ret p s' ∧ chosen s rq p s' ∧ sinv s' rq wl.
Proof.
  intros Hs (j & Hj & Hc). pose proof (pick_spec s rq 0 None) as Hp. pose proof (choose_turn s rq wl (S fuel) Hs) as Ht.
  destruct (decide (Exists (λ j, 0 < counter s j) rq)) as [(i & Hi & Hpos)%Exists_exists|Hn].
  - destruct (choose_now s rq wl (S fuel) Hs) as (p & He & H1 & H2 & H3); [by exists i|].
    exists p, s. split; [done|]. split; [|done]. split; [done..|by left].
  - assert (∀ i, i ∈ rq → counter s i <= 0) as Hz.
    { intros i Hi. destruct (Z.le_gt_cases (counter s i) 0); [done|]. exfalso. apply Hn, Exists_exists. exists i. split; [done|lia]. }
    destruct (pick s rq 0 None) as [c sel]. destruct Hp as (_ & _ & H3).
    assert (c = 0) as -> by (destruct H3 as [[-> _]|(p & Hp & _ & <- & Hpos)]; [done|pose proof (Hz p Hp); lia]).
    destruct (refilled_sinv s rq wl Hs) as [Hs' Hcn].
    destruct (choose_now (refilled s rq) rq wl fuel Hs') as (p & He & G1 & G2 & G3).
    { exists j. split; [done|]. rewrite Hcn, decide_True by done. pose proof (Hz j Hj). lia. }
    exists p, (refilled s rq). split; [by rewrite Ht|]. split; [|done]. split; [done..|by right].
Qed.

(** ** Giving the processor away *)

Lemma sinv_upd s rq wl p f : sinv s rq wl → (∀ t, t_state (f t) = t_state t ∧ t_frame (f t) = t_frame t ∧ t_pid (f t) = t_pid t) →
  sinv (upd_task p f s) rq wl.
Proof.
  intros Hs Hf. apply (sinv_same s); [exact Hs|done|done|done|done|apply alive_upd| |apply (si_cur _ _ _ Hs)].
  intros j. unfold st, frm. rewrite task_at_upd. case_decide; [subst|done]. unfold task_at. destruct (tasks s !! p); [apply Hf|done].
Qed.

Record scheduled s (rq : list Z) (s' : kst) : Prop := {
  sc_next : rq = [] ∧ current s' = 0 ∨
    current s' ∈ rq ∧ 0 < counter s' (current s') ∧ ∀ j, j ∈ rq → counter s' j <= counter s' (current s');
  sc_counter : (∀ j, counter s' j = counter s j) ∨
    (∀ j, j ∈ rq → counter s j <= 0) ∧ (∀ j, counter s' j = if decide (j ∈ rq) then prio s j else counter s j);
  sc_prio j : prio s' j = prio s j;
  sc_calm : calm s s';
  sc_stay j : st s' j = st s j ∧ (j ≠ current s' → frm s' j = frm s j);
}.

Lemma schedule_spec s rq wl : sinv s rq wl → rq = [] ∨ choosable s rq →
  ∃ s', schedule s = Ret tt s' ∧ sinv s' rq wl ∧ scheduled s rq s'.
Proof.
  intros Hs Hc. set (s0 := upd_cur (set_t_need_sched false) s).
  assert (sinv s0 rq wl) as Hs0 by (by apply sinv_upd).
  assert (∀ j, st s0 j = st s j ∧ frm s0 j = frm s j) as Hsf.
  { intros j. unfold st, frm, s0, upd_cur. by rewrite !(task_at_field t_state), !(task_at_field t_frame). }
  assert (∀ j, counter s0 j = counter s j ∧ prio s0 j = prio s j) as Hcp.
  { intros j. unfold counter, prio, s0, upd_cur. by rewrite !(task_at_field t_counter), !(task_at_field t_priority). }
  unfold schedule. mstep. fold s0. pose proof (list_empty_spec _ _ _ (si_run _ _ _ Hs0)) as He. rewrite He.
  destruct rq as [|r rq].
  - rewrite bool_decide_true by done. eexists. split; [done|]. split.
    + apply (sinv_same s0); try done; apply (si_idle _ _ _ Hs0).
    + split; [by left|left; intros; apply Hcp|apply Hcp| |intros j; destruct (Hsf j); done]. transitivity s0; [by apply calm_upd|done].
  - rewrite bool_decide_false by done. destruct Hc as [|(j & Hj & Hpos)]; [done|].
    destruct (choose_spec s0 (r :: rq) wl 0 Hs0) as (p & s1 & E & [C1 C2 C3 C4] & Hs1).
    { exists j. split; [done|]. destruct (Hcp j) as [-> ->]. done. }
    rewrite (bind_eval _ _ _ _ _ E). cbv beta iota. unfold modify. eexists. split; [done|].
    pose proof (proj1 (si_rq _ _ _ Hs1 p) C1) as (_ & Ha & Hst).
    split; [apply (sinv_same s1); done|]. split.
    + right. done.
    + destruct C4 as [->|[Hz ->]]; [left; intros i; apply Hcp|right]. split; [intros i Hi; rewrite <-(proj1 (Hcp i)); by apply Hz|].
      intros i. rewrite <-(proj2 (Hcp i)), <-(proj1 (Hcp i)). apply (proj2 (refilled_sinv s0 _ wl Hs0)).
    + intros i. rewrite <-(proj2 (Hcp i)). destruct C4 as [->|[_ ->]]; [done|]. unfold prio at 1. simpl.
      change (task_at (upd_current _ ?x) i) with (task_at x i).
      rewrite refilled_task; [by case_decide|..].
      * pose proof (is_list_NoDup _ _ _ (si_run _ _ _ Hs0)) as Hn. by apply NoDup_fmap_1 in Hn.
      * intros x Hx. by apply (si_rq _ _ _ Hs0) in Hx as (_ & ? & _).
    + transitivity s0; [by apply calm_upd|]. transitivity s1; [|done]. destruct C4 as [->|[_ ->]]; [done|apply refilled_calm].
    + intros i. destruct (Hsf i) as [<- <-]. destruct C4 as [->|[_ ->]]; [done|]. destruct (refilled_stay s0 (r :: rq) i) as [<- <-]. done.
Qed.

(** ** Wait queues *)

Lemma wchain_frame s s' h l : (∀ p, p ∈ l → wq_next s' p = wq_next s p) → chain s h l → chain s' h l.
Proof.
  revert h. induction l as [|p l IH]; intros h Hf; [done|]. intros [-> Hc]. split; [done|]. rewrite Hf by left.
  apply IH; [|done]. intros x Hx. apply Hf. by right.
Qed.
Lemma wchain_app s h l1 p l2 : chain s h (l1 ++ p :: l2) → chain s (wq_next s p) l2.
Proof. revert h. induction l1 as [|x l1 IH]; intros h [_ Hc]; [done|]. by apply IH in Hc. Qed.
(** The node in front of [p]. *)
Lemma wchain_prev s h l1 t p l2 : chain s h (l1 ++ t :: p :: l2) → wq_next s t = Some p.
Proof. intros Hc%wchain_app. by destruct Hc. Qed.

Lemma wait_prev_spec s h l1 t p l2 fuel : chain s h (l1 ++ t :: p :: l2) → NoDup (l1 ++ t :: p :: l2) → (length l1 <= fuel)%nat →
  wait_prev fuel h p s = Some (Some t).
Proof.
  revert h fuel. induction l1 as [|x l1 IH]; intros h fuel Hc Hnd Hf.
  - destruct Hc as [-> [Hn _]]. by destruct fuel; simpl; rewrite decide_True.
  - simpl in Hf. destruct fuel as [|fuel]; [lia|]. pose proof Hc as [-> Hc']. simpl. rewrite decide_False.
    + apply IH; [done| |lia]. simpl in Hnd. by apply NoDup_cons in Hnd as [_ ?].
    + intros Hx. destruct l1 as [|y l1]; simpl in Hc'; destruct Hc' as [Hy Hc']; rewrite Hx in Hy; injection Hy as <-.
      * simpl in Hnd. apply NoDup_cons in Hnd as [_ Hnd]. apply NoDup_cons in Hnd as [Hn _]. apply Hn. left.
      * simpl in Hnd. apply NoDup_cons in Hnd as [_ Hnd]. apply NoDup_cons in Hnd as [Hn _]. apply Hn. set_solver.
Qed.

Lemma wchain_del s h l1 t p l2 : chain s h (l1 ++ t :: p :: l2) → NoDup (l1 ++ t :: p :: l2) →
  chain (upd_wq_next <[p := None]> (upd_wq_next <[t := wq_next s p]> s)) h (l1 ++ t :: l2).
Proof.
  intros Hc Hnd. assert (p ∉ l1 ++ t :: l2 ∧ t ∉ l1 ++ l2) as [Hp Ht].
  { rewrite cons_middle, app_assoc, <-Permutation_middle in Hnd. rewrite NoDup_cons in Hnd. destruct Hnd as [Hp Hnd].
    rewrite <-app_assoc in Hp, Hnd. split; [done|]. simpl in Hnd. rewrite <-Permutation_middle in Hnd. by apply NoDup_cons in Hnd as [? _]. }
  revert h Hc. induction l1 as [|x l1 IH]; intros h [-> Hc]; simpl.
  - destruct Hc as [_ Hc]. split; [done|]. rewrite fn_lookup_insert_ne by set_solver. rewrite fn_lookup_insert.
    eapply wchain_frame; [|exact Hc]. intros y Hy. simpl. rewrite !fn_lookup_insert_ne; [done|set_solver|set_solver].
  - split; [done|]. simpl in Hnd. apply NoDup_cons in Hnd as [_ Hnd].
    rewrite !fn_lookup_insert_ne by set_solver. apply IH; [done|set_solver|set_solver|done].
Qed.

Lemma wl_len s rq wl q : sinv s rq wl → (length (wl q) <= size (tasks s))%nat.
Proof.
  intros Hs. rewrite <-(size_list_to_set (C:=gset Z) (wl q)) by apply Hs. rewrite <-size_dom. apply subseteq_size.
  intros p Hp%elem_of_list_to_set. apply (si_wl _ _ _ Hs) in Hp as (Ha & _). by apply elem_of_dom.
Qed.

Lemma remove_spec s rq wl q p : sinv s rq wl → p ∈ wl q → ∃ s' l, remove_wait_queue q p s = Ret tt s' ∧
  chain s' (wq_head s' q) l ∧ NoDup l ∧ (∀ j, j ∈ l ↔ j ∈ wl q ∧ j ≠ p) ∧
  (∀ q', q' ≠ q → chain s' (wq_head s' q') (wl q')) ∧
  tasks s' = tasks s ∧ current s' = current s ∧ knext s' = knext s ∧ kprev s' = kprev s ∧
  owners s' = owners s ∧ next_pid s' = next_pid s.
Proof.
  intros Hs Hp. pose proof (si_chain _ _ _ Hs q) as Hc. pose proof (si_nodup _ _ _ Hs q) as Hnd.
  pose proof (wl_len _ _ _ q Hs) as Hlen. apply (si_wl _ _ _ Hs) in Hp as Hpf.
  assert (∀ q' j, j ∈ wl q' → j ∈ wl q → q' = q) as Hone.
  { intros q' j H1%(si_wl _ _ _ Hs) H2%(si_wl _ _ _ Hs). destruct H1, H2. congruence. }
  apply list_elem_of_split in Hp as (l1 & l2 & Hl). rewrite Hl in Hc, Hnd, Hlen.
  assert (p ∉ l1 ++ l2 ∧ NoDup (l1 ++ l2)) as [Hp Hnd'].
  { pose proof Hnd as Hx. rewrite <-Permutation_middle in Hx. by apply NoDup_cons in Hx. }
  unfold remove_wait_queue. mstep. destruct l1 as [|x l1 _] using rev_ind.
  - simpl in Hc, Hp, Hnd'. destruct Hc as [Hh Hc]. rewrite decide_True by done. mstep. unfold modify.
    eexists _, l2. split; [done|]. split; [|split; [done|split; [rewrite Hl; set_solver|split; [|done]]]].
    + simpl. rewrite fn_lookup_insert. eapply wchain_frame; [|exact Hc]. intros y Hy. simpl. rewrite fn_lookup_insert_ne; [done|set_solver].
    + intros q' Hq. simpl. rewrite fn_lookup_insert_ne by done. eapply wchain_frame; [|apply Hs].
      intros y Hy. simpl. rewrite fn_lookup_insert_ne; [done|]. intros <-. apply Hq, (Hone q' p Hy). rewrite Hl. set_solver.
  - rewrite <-app_assoc in Hc, Hnd, Hp, Hlen, Hnd'. simpl in Hc, Hnd, Hp, Hnd'. rewrite decide_False.
    2: { destruct l1 as [|y l1]; destruct Hc as [Hh _]; rewrite Hh; intros [= ->]; apply Hp; set_solver. }
    mstep. rewrite length_app in Hlen. simpl in Hlen.
    rewrite (wait_prev_spec s _ l1 x p l2) by (done || lia). simpl from_opt. mstep. unfold modify.
    eexists _, (l1 ++ x :: l2). split; [done|]. split; [|split; [done|split; [rewrite Hl; set_solver|split; [|done]]]].
    + simpl. by apply wchain_del.
    + intros q' Hq. eapply wchain_frame; [|apply Hs]. intros y Hy. simpl.
      rewrite !fn_lookup_insert_ne; [done|intros <-; apply Hq, (Hone q' x Hy); rewrite Hl; set_solver|
        intros <-; apply Hq, (Hone q' p Hy); rewrite Hl; set_solver].
Qed.

Lemma resume_spec s rq wl : sinv s rq wl → runs s → ∃ s' wl', resume s = Ret tt s' ∧ sinv s' rq wl' ∧ awake s' ∧ current s' = current s ∧
  calm s s' ∧ (∀ j, st s' j = st s j ∧ (j ≠ current s → frm s' j = frm s j)) ∧
  ∀ j, counter s' j = counter s j ∧ prio s' j = prio s j ∧ (alive s' j ↔ alive s j).
Proof.
  intros Hs Hst. unfold resume. mstep. change (t_frame (cur s)) with (frm s (current s)). destruct (frm s (current s)) as [q|] eqn:Hf.
  2: { exists s, wl. split; [done|]. split; [done|]. split; [by split|]. done. }
  pose proof (si_cur _ _ _ Hs) as Ha. unfold runs in Hst. set (c := current s) in *.
  destruct (remove_spec s rq wl q c Hs) as (s1 & l & He & Hch & Hnd & Hel & Hoth & E1 & E2 & E3 & E4 & E5 & E6); [by apply (si_wl _ _ _ Hs)|].
  rewrite (bind_eval _ _ _ _ _ He). cbv beta iota. unfold modify. set (s' := upd_cur (set_t_frame None) s1).
  assert (∀ j, task_at s' j = if decide (j = c) then set_t_frame None (task_at s c) else task_at s j) as Ht.
  { intros j. unfold s', upd_cur. rewrite E2. fold c. rewrite task_at_upd. unfold task_at at 2. rewrite E1. destruct Ha as [t Ht].
    rewrite Ht. case_decide; [|done]. unfold task_at. rewrite E1. done. }
  assert (∀ j, alive s' j ↔ alive s j) as Hal by (intros j; unfold s', upd_cur; rewrite alive_upd; unfold alive; by rewrite E1).
  assert (∀ j, st s' j = st s j ∧ t_pid (task_at s' j) = t_pid (task_at s j)) as Hst'.
  { intros j. unfold st. rewrite Ht. case_decide; [by subst|done]. }
  assert (∀ j, frm s' j = if decide (j = c) then None else frm s j) as Hfr by (intros j; unfold frm; rewrite Ht; by case_decide).
  assert (c ≠ 0) as Hc0 by (intros E; rewrite E in Hf; rewrite (proj2 (si_idle _ _ _ Hs)) in Hf; done).
  exists s', (<[q := l]> wl). split; [done|]. split; [|split; [|split; [done|split; [|split]]]].
  - destruct Hs as [H1 H2 H3 H4 H5 H6 H7 H8 H9]. split.
    + eapply is_list_frame; [exact H1| |done]. intros x _. unfold s'. simpl. by rewrite E3, E4.
    + intros p. rewrite H2, Hal. by destruct (Hst' p) as [-> _].
    + intros q'. destruct (decide (q' = q)) as [->|Hne]; [rewrite fn_lookup_insert|rewrite fn_lookup_insert_ne by done].
      * apply (wchain_frame s1); [done|exact Hch].
      * apply (wchain_frame s1); [done|by apply Hoth].
    + intros q'. destruct (decide (q' = q)) as [->|Hne]; [by rewrite fn_lookup_insert|by rewrite fn_lookup_insert_ne].
    + intros p q'. rewrite Hal, Hfr. destruct (decide (q' = q)) as [->|Hne].
      * rewrite fn_lookup_insert, Hel, H5. case_decide; [subst|]; naive_solver.
      * rewrite fn_lookup_insert_ne, H5 by done. case_decide; [subst; naive_solver|done].
    + intros p. rewrite Hal, Hfr. destruct (Hst' p) as [-> _]. intros Hp. case_decide as E; [|by apply H6].
      subst. left. by apply Hst.
    + rewrite Hal, Hfr. case_decide; [done|]. done.
    + intros p. rewrite Hal. destruct (Hst' p) as [_ ->]. apply H8.
    + replace (current s') with c by (unfold s', upd_cur; simpl; by rewrite E2). by rewrite Hal.
  - unfold awake, runs. replace (current s') with c by (unfold s', upd_cur; simpl; by rewrite E2).
    rewrite Hfr, decide_True by done. by destruct (Hst' c) as [-> _].
  - transitivity s1; [apply (calm_run _ _ []); [intros; simpl; by rewrite E3, E4|done..]|by apply calm_upd].
  - intros j. split; [apply Hst'|]. intros Hj. rewrite Hfr, decide_False; [done|]. exact Hj.
  - intros j. rewrite Hal. unfold counter, prio. rewrite Ht. case_decide; [by subst|done].
Qed.

Lemma scheduled_runs s rq wl s' : sinv s' rq wl → scheduled s rq s' → runs s'.
Proof. intros Hs [[[_ Hc]|[Hc _]] _ _ _ _] Hn; [done|]. by apply (si_rq _ _ _ Hs) in Hc as (_ & _ & ?). Qed.

(** The running process leaves the run queue for a wait queue. *)
Definition gone (c q v : Z) s : kst :=
  upd_task c (set_t_frame (Some q)) (add_wait_queue q c (upd_task c (set_t_state v) (del_run c s))).

Lemma gone_sinv s rq wl q v : sinv s rq wl → awake s → current s ≠ 0 → sleeping v = true → ∃ rq',
  sinv (gone (current s) q v s) rq' (<[q := current s :: wl q]> wl) ∧ (∀ j, j ∈ rq' ↔ j ∈ rq ∧ j ≠ current s) ∧
  ∀ j, counter (gone (current s) q v s) j = counter s j ∧ prio (gone (current s) q v s) j = prio s j ∧
    (alive (gone (current s) q v s) j ↔ alive s j).
Proof.
  intros Hs [Hrun Hfr] Hc0 Hv. set (c := current s) in *. pose proof (si_cur _ _ _ Hs) as Ha. fold c in Ha.
  assert (c ∈ rq) as Hin by (apply (si_rq _ _ _ Hs); split; [done|split; [done|by apply Hrun]]).
  pose proof (is_list_NoDup _ _ _ (si_run _ _ _ Hs)) as Hnd. apply NoDup_fmap_1 in Hnd.
  apply list_elem_of_split in Hin as (l1 & l2 & Hl). pose proof (si_run _ _ _ Hs) as Hq. rewrite Hl, fmap_app, fmap_cons in Hq.
  assert (c ∉ l1 ++ l2) as Hnc by (rewrite Hl, <-Permutation_middle in Hnd; by apply NoDup_cons in Hnd as [? _]).
  set (s' := gone c q v s). assert (∀ j, alive s' j ↔ alive s j) as Hal by (intros j; unfold s', gone; rewrite alive_upd; apply (alive_upd c (set_t_state v) (del_run c s))).
  assert (∀ j, task_at s' j = if decide (j = c) then set_t_frame (Some q) (set_t_state v (task_at s c)) else task_at s j) as Ht.
  { intros j. unfold s', gone. destruct (decide (j = c)) as [->|Hne].
    - rewrite task_at_alive; [|by apply (alive_upd c)]. change (task_at (add_wait_queue q c ?x) c) with (task_at x c).
      by rewrite task_at_alive.
    - rewrite task_at_other by done. change (task_at (add_wait_queue q c ?x) j) with (task_at x j). by rewrite task_at_other. }
  assert (∀ q', c ∉ wl q') as Hcw by (intros q' [_ Hx]%(si_wl _ _ _ Hs); by rewrite Hfr in Hx).
  assert (∀ q' h, chain s h (wl q') → chain s' h (wl q')) as Hch.
  { intros q' h. apply wchain_frame. intros x Hx. unfold s'. simpl. rewrite fn_lookup_insert_ne; [done|]. intros <-. by apply (Hcw q'). }
  exists (l1 ++ l2). split; [|split; [intros j; rewrite Hl; set_solver|]].
  - destruct Hs as [H1 H2 H3 H4 H5 H6 H7 H8 H9]. split.
    + pose proof (list_del_is_list s run_queue (KRun <$> l1) (KRun c) (KRun <$> l2) Hq) as Hq'. rewrite <-fmap_app in Hq'.
      eapply is_list_frame; [exact Hq'|done|done].
    + intros p. unfold st. rewrite Hal, Ht. case_decide as E; [subst p; split; [done|intros (_ & _ & Hx); simpl in Hx; by subst v]|].
      transitivity (p ∈ rq); [rewrite Hl; set_solver|apply H2].
    + intros q'. destruct (decide (q' = q)) as [->|Hne].
      * rewrite fn_lookup_insert. unfold s'. simpl. rewrite !fn_lookup_insert. split; [done|]. by apply Hch.
      * rewrite fn_lookup_insert_ne by done. unfold s'. simpl. rewrite fn_lookup_insert_ne by done. by apply Hch.
    + intros q'. destruct (decide (q' = q)) as [->|Hne]; [rewrite fn_lookup_insert|by rewrite fn_lookup_insert_ne].
      apply NoDup_cons. by split.
    + intros p q'. unfold frm. rewrite Hal, Ht. destruct (decide (q' = q)) as [->|Hne].
      * rewrite fn_lookup_insert, elem_of_cons, H5. case_decide; [subst; naive_solver|]. naive_solver.
      * rewrite fn_lookup_insert_ne by done. case_decide as E; [subst p|by rewrite H5]. split; [by intros ?%Hcw|]. intros [_ [= ->]]. done.
    + intros p. unfold st, frm. rewrite Hal, Ht. case_decide; [intros _; right; left; by split|apply H6].
    + unfold frm. rewrite Hal, Ht, decide_False by done. done.
    + intros p. rewrite Hal, Ht. case_decide; [subst; by apply H8|apply H8].
    + by rewrite Hal.
  - intros j. unfold counter, prio. rewrite Hal, Ht. case_decide; [by subst|done].
Qed.

Lemma gone_calm s rq wl q v : sinv s rq wl → awake s → current s ≠ 0 → sleeping v = true → calm s (gone (current s) q v s).
Proof.
  intros Hs [Hr _] Hc Hv. set (c := current s) in *.
  assert (c ∈ rq) as Hin by (apply (si_rq _ _ _ Hs); split; [done|split; [apply (si_cur _ _ _ Hs)|by apply Hr]]).
  apply list_elem_of_split in Hin as (l1 & l2 & Hl). pose proof (si_run _ _ _ Hs) as Hq. rewrite Hl, fmap_app, fmap_cons in Hq.
  unfold gone. transitivity (del_run c s).
  { apply (calm_run _ _ rq); [|done..]. intros k Hk. apply (list_del_others s run_queue (KRun <$> l1) (KRun c) (KRun <$> l2)); [done|].
    by rewrite Hl, fmap_app, fmap_cons in Hk. }
  transitivity (upd_task c (set_t_state v) (del_run c s)).
  { apply calm_upd; [done|]. simpl. change (st (del_run c s) c) with (st s c).
    assert (st s c = TASK_RUNNING) as -> by by apply Hr. split; [|done]. by intros ->. }
  etransitivity; [|by apply calm_upd]. done.
Qed.

(** ** Waking *)

(** A process is left as it was, or made to run. *)
Definition woke s s' : Prop := ∀ j, st s' j = TASK_RUNNING ∨ st s' j = st s j ∧ t_sleep_spot (task_at s' j) = t_sleep_spot (task_at s j).
#[export] Instance woke_preorder : PreOrder woke.
Proof.
  split; [by right|]. intros s1 s2 s3 H1 H2 j. destruct (H2 j) as [?|[-> ->]]; [by left|]. apply H1.
Qed.

Lemma add_run_list s rq p : is_list s run_queue (KRun <$> rq) → p ∉ rq → p ≠ 0 → is_list (add_run p s) run_queue (KRun <$> (rq ++ [p])).
Proof.
  intros Hl Hp Hp0. assert (KRun p ∉ run_queue :: (KRun <$> rq)) as Hn.
  { intros [[= ->]|(x & [= ->] & Hx)%list_elem_of_fmap]%elem_of_cons; done. }
  unfold add_run. rewrite (list_empty_spec _ _ _ Hl), fmap_app. destruct rq as [|r rq].
  - rewrite bool_decide_true by done. by apply (list_add_head_is_list s run_queue []).
  - rewrite bool_decide_false by done. by apply (list_add_tail_is_list s).
Qed.

Lemma add_run_calm s rq p : is_list s run_queue (KRun <$> rq) → p ∉ rq → p ≠ 0 → calm s (add_run p s).
Proof.
  intros Hl Hp Hp0. assert (KRun p ∉ run_queue :: (KRun <$> rq)) as Hn.
  { intros [[= ->]|(x & [= ->] & Hx)%list_elem_of_fmap]%elem_of_cons; done. }
  unfold add_run. destruct (list_empty run_queue s); (apply (calm_run _ _ (p :: rq)); [|done..]); intros k Hk.
  - apply (list_add_head_others s run_queue (KRun <$> rq)); [done..|]. set_solver.
  - apply (list_add_tail_others s run_queue (KRun <$> rq)); [done..|]. set_solver.
Qed.

Lemma wake_one_spec s rq wl p : sinv s rq wl → alive s p → p ≠ 0 →
  let s' := wake_one p s in
  let rq' := if sleeping (st s p) then rq ++ [p] else rq in
  sinv s' rq' wl ∧ (is_Some (frm s p) → p ∈ rq') ∧ wq_next s' = wq_next s ∧ current s' = current s ∧
  (∀ j, counter s' j = counter s j ∧ prio s' j = prio s j ∧ frm s' j = frm s j ∧ (j ≠ p → st s' j = st s j)) ∧ (∀ j, alive s' j ↔ alive s j) ∧
  size (tasks s') = size (tasks s) ∧ calm s s' ∧ woke s s'.
Proof.
  intros Hs Ha Hp0. cbv zeta. unfold wake_one. change (t_state (task_at s p)) with (st s p).
  change ((st s p =? _) || _) with (sleeping (st s p)). destruct (sleeping (st s p)) eqn:Hsl.
  2: { split; [done|]. split; [|done]. intros [q Hq]. apply (si_rq _ _ _ Hs). split; [done|]. split; [done|].
       destruct (si_state _ _ _ Hs p Ha) as [?|[[Hx _]|[_ Hx]]]; [done|congruence|congruence]. }
  assert (p ∉ rq) as Hn.
  { intros (_ & _ & Hx)%(si_rq _ _ _ Hs). by rewrite Hx in Hsl. }
  set (f := λ t, set_t_sleep_spot None (set_t_state TASK_RUNNING t)). set (s1 := upd_task p f s).
  assert (tasks (add_run p s1) = tasks s1 ∧ current (add_run p s1) = current s1 ∧ wq_head (add_run p s1) = wq_head s1 ∧
    wq_next (add_run p s1) = wq_next s1) as (E1 & E2 & E3 & E4) by (unfold add_run; by case_match).
  assert (∀ j, task_at (add_run p s1) j = if decide (j = p) then f (task_at s p) else task_at s j) as Ht.
  { intros j. unfold task_at at 1. rewrite E1. change (task_at s1 j = if decide (j = p) then f (task_at s p) else task_at s j).
    case_decide; [subst; by apply task_at_alive|by apply task_at_other]. }
  assert (∀ j, alive (add_run p s1) j ↔ alive s j) as Hal by (intros j; unfold alive; rewrite E1; apply alive_upd).
  assert (∀ j, st (add_run p s1) j = if decide (j = p) then TASK_RUNNING else st s j) as Hst
    by (intros j; unfold st; rewrite Ht; by case_decide).
  assert (∀ j, frm (add_run p s1) j = frm s j) as Hfr by (intros j; unfold frm; rewrite Ht; case_decide; by subst).
  split; [|split; [intros _; set_solver|split; [done|split; [done|split; [|split; [done|split; [|split]]]]]]].
  - destruct Hs as [H1 H2 H3 H4 H5 H6 H7 H8 H9]. split.
    + apply add_run_list; [|done|done]. eapply is_list_frame; [exact H1|done|done].
    + intros j. rewrite elem_of_app, list_elem_of_singleton, H2, Hal, Hst. case_decide; [subst; naive_solver|]. naive_solver.
    + intros q. rewrite E3. eapply wchain_frame; [|apply H3]. intros x _. by rewrite E4.
    + done.
    + intros j q. by rewrite H5, Hal, Hfr.
    + intros j. rewrite Hal, Hst, Hfr. case_decide; [by left|apply H6].
    + by rewrite Hal, Hfr.
    + intros j. rewrite Hal, Ht. case_decide; [subst; by apply H8|apply H8].
    + rewrite Hal, E2. done.
  - intros j. unfold counter, prio. rewrite Hst, Hfr, Ht. case_decide; [by subst|done].
  - rewrite E1, <-!size_dom. unfold s1, upd_task. simpl. by rewrite dom_alter_L.
  - transitivity s1; [apply calm_upd; [done|]; simpl; split; [done|by intros E; rewrite E in Hsl]|].
    apply (add_run_calm s1 rq); [|done|done]. eapply is_list_frame; [apply Hs|done|done].
  - intros j. rewrite Hst, Ht. case_decide; [by left|by right].
Qed.

(** The processes of a wait queue that are asleep, in order. *)
Lemma wake_loop_spec l s rq wl fuel p : sinv s rq wl → chain s (Some p) l → (∀ j, j ∈ l → alive s j ∧ j ≠ 0 ∧ is_Some (frm s j)) →
  NoDup l → (length l <= fuel)%nat →
  ∃ s', wake_loop fuel p s = Some s' ∧ sinv s' (rq ++ filter (λ j, sleeping (st s j) = true) l) wl ∧
    (∀ j, j ∈ l → j ∈ rq ++ filter (λ j, sleeping (st s j) = true) l) ∧ current s' = current s ∧ calm s s' ∧ woke s s' ∧
    ∀ j, counter s' j = counter s j ∧ prio s' j = prio s j ∧ frm s' j = frm s j ∧ (alive s' j ↔ alive s j) ∧ (j ∉ l → st s' j = st s j).
Proof.
  revert s rq fuel p. induction l as [|x l IH]; intros s rq fuel p Hs Hc Hal Hnd Hf; [done|]. destruct Hc as [[= ->] Hc].
  simpl in Hf. destruct fuel as [|fuel]; [lia|]. destruct (Hal x) as (Ha & Hx0 & Hfx); [left|]. apply NoDup_cons in Hnd as [Hxl Hnd].
  destruct (wake_one_spec s rq wl x Hs Ha Hx0) as (Hs1 & Hin & E1 & E2 & E3 & E4 & E5 & E6 & E7). set (s1 := wake_one x s) in *.
  set (rq1 := if sleeping (st s x) then rq ++ [x] else rq) in *.
  assert (filter (λ j, sleeping (st s1 j) = true) l = filter (λ j, sleeping (st s j) = true) l) as Hfl.
  { clear -E3 Hxl. induction l as [|y l IH]; [done|]. rewrite !filter_cons. destruct (E3 y) as (_ & _ & _ & ->); [|set_solver].
    case_decide; [f_equal|]; apply IH; set_solver. }
  assert (rq ++ filter (λ j, sleeping (st s j) = true) (x :: l) = rq1 ++ filter (λ j, sleeping (st s j) = true) l) as ->.
  { unfold rq1. rewrite filter_cons. destruct (sleeping (st s x)); [by rewrite decide_True, <-app_assoc|by rewrite decide_False]. }
  cbn [wake_loop]. fold s1. rewrite E1. destruct l as [|y l].
  - simpl in Hc. rewrite Hc. exists s1. rewrite app_nil_r. split; [done|]. split; [done|]. split; [intros j ->%list_elem_of_singleton; by apply Hin|].
    split; [done|]. split; [done|]. split; [done|]. intros j. destruct (E3 j) as (? & ? & ? & Hst). do 4 (split; [done|]). intros Hj. apply Hst. set_solver.
  - pose proof Hc as [Hy _]. rewrite Hy in Hc |- *.
    destruct (IH s1 rq1 fuel y Hs1) as (s' & He & Hs' & Hin' & Ec & Ecm & Ewk & E').
    + eapply wchain_frame; [|exact Hc]. intros z _. by rewrite E1.
    + intros j Hj. rewrite E4. destruct (E3 j) as (_ & _ & -> & _). apply Hal. by right.
    + done.
    + lia.
    + rewrite Hfl in Hs', Hin'. exists s'. split; [done|]. split; [done|]. split.
      { intros j [->|Hj]%elem_of_cons; [apply elem_of_app; left; by apply Hin|by apply Hin']. }
      split; [by rewrite Ec|]. split; [by etransitivity|]. split; [by etransitivity|]. intros j. destruct (E' j) as (-> & -> & -> & Ha' & Hst), (E3 j) as (-> & -> & -> & Hst1).
      do 3 (split; [done|]). split; [by rewrite Ha', E4|]. intros Hj. rewrite Hst by set_solver. apply Hst1. set_solver.
Qed.

Lemma wakeup_spec s rq wl q : sinv s rq wl → ∃ s' rq', wakeup q s = Ret tt s' ∧ sinv s' rq' wl ∧ (∀ j, j ∈ rq → j ∈ rq') ∧
  (∀ a j, q = Some a → j ∈ wl a → j ∈ rq') ∧ (∀ j, j ∈ rq' → j ∈ rq ∨ ∃ a, q = Some a ∧ j ∈ wl a) ∧ current s' = current s ∧
  calm s s' ∧ woke s s' ∧ ∀ j, counter s' j = counter s j ∧ prio s' j = prio s j ∧ frm s' j = frm s j ∧ (alive s' j ↔ alive s j).
Proof.
  intros Hs. unfold wakeup. destruct q as [a|]; simpl; [|exists s, rq; split; [done|]; naive_solver].
  pose proof (si_chain _ _ _ Hs a) as Hc. destruct (wq_head s a) as [p|] eqn:Hh.
  2: { exists s, rq. split; [done|]. destruct (wl a) as [|x l] eqn:E; [|by destruct Hc]. split; [done|]. split; [done|].
       split; [intros a' j [= <-]; rewrite E; by intros ?%elem_of_nil|]. split; [by left|done]. }
  destruct (wake_loop_spec (wl a) s rq wl (size (tasks s)) p Hs Hc) as (s1 & He & Hs1 & Hin & Ec & Ecm & Ewk & E1).
  { intros j [Ha Hf]%(si_wl _ _ _ Hs). split; [done|]. split; [|by eexists]. intros ->. by rewrite (proj2 (si_idle _ _ _ Hs)) in Hf. }
  { apply Hs. } { by eapply wl_len. }
  rewrite He. eexists _, _. split; [done|]. split; [apply sinv_upd; [exact Hs1|done]|].
  split; [set_solver|]. split; [intros a' j [= <-]; apply Hin|].
  split; [intros j [Hj|[_ Hj]%list_elem_of_filter]%elem_of_app; [by left|right; eauto]|]. split; [done|].
  split; [etransitivity; [exact Ecm|]; by apply calm_upd|]. split.
  { transitivity s1; [done|]. intros j. right. unfold st, upd_cur. by rewrite (task_at_field t_state), (task_at_field t_sleep_spot). }
  intros j. unfold counter, prio, frm, upd_cur. rewrite alive_upd.
  rewrite (task_at_field t_counter), (task_at_field t_priority), (task_at_field t_frame) by done.
  destruct (E1 j) as (? & ? & ? & ? & _). done.
Qed.

(** ** The steps of the kernel *)

(** What the steps keep: the queues, and that each process
    has a time slice to get. *)
Record kinv s (rq : list Z) (wl : Z → list Z) : Prop := {
  ki_sinv : sinv s rq wl;
  ki_awake : awake s;
  ki_prio p : alive s p → 0 < prio s p;
  ki_count p : 0 <= counter s p;
}.
Definition good s : Prop := ∃ rq wl, kinv s rq wl.

Lemma prios_choosable s rq wl : sinv s rq wl → (∀ p, alive s p → 0 < prio s p) → rq = [] ∨ choosable s rq.
Proof.
  intros Hs Hp. destruct rq as [|r rq]; [by left|right]. exists r. split; [left|]. right.
  destruct (proj1 (si_rq _ _ _ Hs r)) as (H0 & Ha & _); [left|]. by apply Hp.
Qed.

(** [schedule] and what follows in the process it chooses. *)
Lemma switch_spec s rq wl : sinv s rq wl → (rq = [] ∨ choosable s rq) → ∃ s' wl', (schedule;; resume) s = Ret tt s' ∧ sinv s' rq wl' ∧
  awake s' ∧ scheduled s rq s'.
Proof.
  intros Hs Hc. destruct (schedule_spec s rq wl Hs Hc) as (s1 & He & Hs1 & Hsc).
  destruct (resume_spec s1 rq wl Hs1 (scheduled_runs _ _ _ _ Hs1 Hsc)) as (s2 & wl2 & He2 & Hs2 & Haw & Ec & Hcm & Hst & Hcp).
  exists s2, wl2. split; [by rewrite (bind_eval _ _ _ _ _ He)|]. split; [done|]. split; [done|].
  destruct Hsc as [S1 S2 S3 S4 S5]. split.
  - rewrite Ec. destruct S1 as [?|(H1 & H2 & H3)]; [by left|right]. split; [done|]. rewrite (proj1 (Hcp _)). split; [done|].
    intros j Hj. rewrite (proj1 (Hcp j)). by apply H3.
  - destruct S2 as [H1|[H1 H2]]; [left; intros j; by rewrite (proj1 (Hcp j))|right]. split; [done|]. intros j.
    rewrite (proj1 (Hcp j)). apply H2.
  - intros j. rewrite (proj1 (proj2 (Hcp j))). apply S3.
  - by etransitivity.
  - intros j. destruct (Hst j) as [-> Hj], (S5 j) as [-> Hj']. split; [done|]. rewrite Ec. intros Hne. rewrite Hj by done. by apply Hj'.
Qed.

Definition total (f : Z → Z) (l : list Z) : Z := foldr (λ j a, f j + a) 0 l.
Lemma total_le f g l : (∀ j, j ∈ l → f j <= g j) → total f l <= total g l.
Proof.
  induction l as [|x l IH]; intros H; [done|]. simpl. pose proof (H x ltac:(left)).
  assert (total f l <= total g l) by (apply IH; intros j Hj; apply H; by right). lia.
Qed.
Lemma total_add f g l : total (λ j, f j + g j) l = total f l + total g l.
Proof. induction l as [|x l IH]; [done|]. simpl in *. lia. Qed.
Lemma total_lt f g l x : (∀ j, j ∈ l → f j <= g j) → x ∈ l → f x + 1 <= g x → total f l + 1 <= total g l.
Proof.
  induction l as [|y l IH]; intros H Hx Hlt; [by apply elem_of_nil in Hx|]. simpl. pose proof (H y ltac:(left)).
  apply elem_of_cons in Hx as [<-|Hx].
  - assert (total f l <= total g l) by (apply total_le; intros j Hj; apply H; by right). lia.
  - assert (total f l + 1 <= total g l) by (apply IH; [intros j Hj; apply H; by right|done|done]). lia.
Qed.

(** The processes but the idle one, the slices left to them, their priorities. *)
Definition procs s : list Z := filter (λ p, p ≠ 0) (elements (dom (tasks s))).
Definition slices s : Z := total (counter s) (procs s).
Definition quota s : Z := total (prio s) (procs s).
Lemma procs_in s p : p ∈ procs s ↔ p ≠ 0 ∧ alive s p.
Proof. unfold procs. by rewrite list_elem_of_filter, elem_of_elements, elem_of_dom. Qed.
Lemma procs_eq s s' : (∀ j, alive s' j ↔ alive s j) → procs s' = procs s.
Proof.
  intros H. unfold procs. assert (dom (tasks s') = dom (tasks s)) as ->; [|done].
  apply set_eq. intros j. rewrite !elem_of_dom. apply H.
Qed.
(** Whether the running process is the idle one or has used its slice up. *)
Definition spent s : Z := if (current s =? 0) || (counter s (current s) <=? 0) then 1 else 0.
Lemma spent_range s : 0 <= spent s <= 1.
Proof. unfold spent. by destruct (_ || _). Qed.
(** What must go by before [p] runs. *)
Definition ahead s (p : Z) : Z := 2 * slices s + (if 0 <? counter s p then 0 else 2 * quota s) + spent s.

Lemma ahead_same s s' p : (∀ j, alive s' j ↔ alive s j) → (∀ j, counter s' j = counter s j ∧ prio s' j = prio s j) → current s' = current s →
  ahead s' p = ahead s p.
Proof.
  intros Ha H Hc. unfold ahead, spent, slices, quota. rewrite (procs_eq s s') by done.
  assert (∀ l, total (counter s') l = total (counter s) l ∧ total (prio s') l = total (prio s) l) as Ht.
  { induction l as [|x l [IH1 IH2]]; [done|]. simpl. rewrite IH1, IH2. by destruct (H x) as [-> ->]. }
  destruct (Ht (procs s)) as [-> ->]. rewrite Hc. by rewrite !(proj1 (H _)).
Qed.

(** A step after which the invariant holds, the processes that waited for the
    processor still do, and [n] less is ahead of them. *)
Definition advances (n : Z) s (rq : list Z) s' : Prop := ∃ rq' wl', kinv s' rq' wl' ∧ calm s s' ∧
  ∀ p, p ∈ rq → p ≠ current s → p ∈ rq' ∧ ahead s' p + n <= ahead s p.

Lemma scheduled_ahead s rq wl s' p : sinv s rq wl → (∀ p, alive s p → 0 < prio s p) → (∀ p, 0 <= counter s p) →
  scheduled s rq s' → p ∈ rq → ahead s' p + spent s <= ahead s p.
Proof.
  intros Hs Hpr Hcn [S1 S2 S3 Hcm _] Hp. pose proof (cm_alive _ _ Hcm) as S4. assert (spent s' = 0) as Hsp.
  { unfold spent. destruct S1 as [[-> _]|(H1 & H2 & _)]; [by apply elem_of_nil in Hp|].
    apply (si_rq _ _ _ Hs) in H1 as (H0 & _). by rewrite (proj2 (Z.eqb_neq _ _) H0), (proj2 (Z.leb_gt _ _) H2). }
  assert (∀ j, j ∈ procs s → 0 < prio s j) as Hpos by (intros j [? ?]%procs_in; by apply Hpr).
  assert (quota s' = quota s) as Hq.
  { unfold quota. rewrite (procs_eq s s') by done. apply Z.le_antisymm; apply total_le; intros j _; by rewrite S3. }
  assert (0 <= quota s) as Hq0.
  { transitivity (total (λ _, 0) (procs s)); [|apply total_le; intros j Hj; pose proof (Hpos j Hj); lia].
    clear. induction (procs s); simpl; lia. }
  unfold ahead. rewrite Hsp, Hq. destruct S2 as [S2|[S2 S2']].
  - rewrite S2. assert (slices s' <= slices s) by (unfold slices; rewrite (procs_eq s s') by done; apply total_le; intros j _; by rewrite S2).
    destruct (0 <? counter s p); lia.
  - assert (slices s' <= slices s + quota s) as Hsl.
    { unfold slices, quota. rewrite (procs_eq s s'), <-total_add by done. apply total_le. intros j Hj. rewrite S2'.
      pose proof (Hpos j Hj). pose proof (Hcn j). case_decide; lia. }
    rewrite (proj2 (Z.ltb_ge 0 (counter s p))) by by apply S2. rewrite S2', decide_True by done.
    apply (si_rq _ _ _ Hs) in Hp as (? & ? & _). rewrite (proj2 (Z.ltb_lt 0 (prio s p))) by by apply Hpr. lia.
Qed.

Lemma switch_advances s rq wl : sinv s rq wl → (∀ p, alive s p → 0 < prio s p) → (∀ p, 0 <= counter s p) →
  ∃ s' wl', (schedule;; resume) s = Ret tt s' ∧ kinv s' rq wl' ∧ scheduled s rq s' ∧ ∀ p, p ∈ rq → ahead s' p + spent s <= ahead s p.
Proof.
  intros Hs Hpr Hcn. destruct (switch_spec s rq wl Hs) as (s' & wl' & He & Hs' & Haw & Hsc); [by eapply prios_choosable|].
  exists s', wl'. split; [done|]. split; [|split; [done|intros p; by eapply scheduled_ahead]].
  destruct Hsc as [_ S2 S3 Hcm _]. pose proof (cm_alive _ _ Hcm) as S4. split; [done|done| |].
  - intros p. rewrite S3, S4. apply Hpr.
  - intros p. destruct S2 as [S2|[_ S2]]; rewrite S2; [apply Hcn|]. case_decide as Hp; [|apply Hcn].
    apply (si_rq _ _ _ Hs) in Hp as (? & ? & _). apply Z.lt_le_incl. by apply Hpr.
Qed.

(** [__sleepon] leaves the run queue and switches. *)
Lemma sleep_switch s rq wl q v : sinv s rq wl → current s ≠ 0 → sleep_on (Some q) v s = (schedule;; resume) (gone (current s) q v s).
Proof.
  intros Hs Hc. pose proof (si_pid _ _ _ Hs _ (si_cur _ _ _ Hs)) as Hpid. unfold sleep_on. mstep. unfold cur.
  rewrite Hpid, (proj2 (Z.eqb_neq _ _) Hc). simpl die_if. by mstep.
Qed.

Lemma sleep_advances s rq wl q v : kinv s rq wl → sleeping v = true → current s ≠ 0 → ∃ s', sleep_on q v s = Ret tt s' ∧ advances 0 s rq s'.
Proof.
  intros [Hs Haw Hpr Hcn] Hv Hc. destruct q as [q|].
  2: { exists s. split; [done|]. exists rq, wl. split; [done|]. split; [done|]. intros p Hp _. split; [done|lia]. }
  rewrite (sleep_switch s rq wl q v Hs Hc).
  destruct (gone_sinv s rq wl q v Hs Haw Hc Hv) as (rq' & Hg & Hrq & Hk).
  destruct (switch_advances _ _ _ Hg) as (s' & wl' & He & Hki & Hsc & Hah).
  { intros p. destruct (Hk p) as (_ & -> & ->). apply Hpr. } { intros p. destruct (Hk p) as (-> & _). apply Hcn. }
  exists s'. split; [exact He|]. exists rq', wl'. split; [done|].
  split; [etransitivity; [by eapply gone_calm|apply Hsc]|]. intros p Hp Hpc. split; [apply Hrq; done|].
  assert (ahead (gone (current s) q v s) p = ahead s p) as <-.
  { apply ahead_same; [apply Hk|intros j; split; apply Hk|done]. }
  pose proof (Hah p ltac:(by apply Hrq)). pose proof (spent_range (gone (current s) q v s)). lia.
Qed.

(** The process is on the queue then, and another runs. *)
Lemma sleep_sleeps s rq wl q v s' : kinv s rq wl → sleeping v = true → current s ≠ 0 → sleep_on (Some q) v s = Ret tt s' →
  frm s' (current s) = Some q ∧ st s' (current s) = v ∧ current s' ≠ current s.
Proof.
  intros [Hs Haw Hpr Hcn] Hv Hc He. rewrite (sleep_switch s rq wl q v Hs Hc) in He.
  destruct (gone_sinv s rq wl q v Hs Haw Hc Hv) as (rq' & Hg & Hrq & Hk).
  destruct (switch_advances _ _ _ Hg) as (x & wl' & Hx & Hki & [S1 _ _ _ S5] & _).
  { intros p. destruct (Hk p) as (_ & -> & ->). apply Hpr. } { intros p. destruct (Hk p) as (-> & _). apply Hcn. }
  assert (x = s') as -> by congruence. assert (current s' ≠ current s) as Hne.
  { destruct S1 as [[_ ->]|(Hin & _)]; [done|]. by apply Hrq in Hin as [_ ?]. }
  pose proof (si_cur _ _ _ Hs) as Ha. destruct (S5 (current s)) as [-> ->]; [|done]. split; [|split; [|done]]; unfold frm, st, gone.
  - rewrite task_at_alive; [done|]. by apply alive_upd.
  - rewrite (task_at_field t_state) by done. change (task_at (add_wait_queue q (current s) ?x) (current s)) with (task_at x (current s)).
    by rewrite task_at_alive.
Qed.

Lemma wakeup_advances s rq wl q : kinv s rq wl → ∃ s', wakeup q s = Ret tt s' ∧ advances 0 s rq s'.
Proof.
  intros [Hs Haw Hpr Hcn]. destruct (wakeup_spec s rq wl q Hs) as (s' & rq' & He & Hs' & Hin & _ & _ & Ec & Hcm & _ & Hk).
  exists s'. split; [done|]. exists rq', wl. split; [|split; [done|]].
  - split; [done| | |].
    + unfold awake, runs. rewrite Ec. destruct (Hk (current s)) as (_ & _ & -> & _). destruct Haw as [Hr Hf]. split; [|done].
      intros H0. assert (current s ∈ rq') as Hc by (apply Hin, (si_rq _ _ _ Hs); split; [done|split; [apply (si_cur _ _ _ Hs)|by apply Hr]]).
      by apply (si_rq _ _ _ Hs') in Hc as (_ & _ & ?).
    + intros p. destruct (Hk p) as (_ & -> & _ & ->). apply Hpr.
    + intros p. destruct (Hk p) as (-> & _). apply Hcn.
  - intros p Hp _. split; [by apply Hin|]. rewrite (ahead_same s s'); [lia|apply Hk| |done]. intros j. split; apply Hk.
Qed.

(** What leaves state, place, slices and priorities alone. *)
Lemma kinv_upd s rq wl p f : kinv s rq wl →
  (∀ t, t_state (f t) = t_state t ∧ t_frame (f t) = t_frame t ∧ t_pid (f t) = t_pid t ∧ t_priority (f t) = t_priority t) →
  (∀ t, 0 <= t_counter t → 0 <= t_counter (f t)) → kinv (upd_task p f s) rq wl.
Proof.
  intros [Hs [Hr Hf] Hpr Hcn] H1 H2. split.
  - apply sinv_upd; [done|]. intros t. destruct (H1 t) as (? & ? & ? & _). done.
  - unfold awake, runs, st, frm. rewrite (task_at_field t_state), (task_at_field t_frame) by apply H1. done.
  - intros j. rewrite alive_upd. unfold prio. rewrite (task_at_field t_priority) by apply H1. apply Hpr.
  - intros j. unfold counter. rewrite task_at_upd. case_decide; [subst|apply Hcn]. destruct (tasks s !! p); [apply H2, Hcn|done].
Qed.

Lemma ask_kinv s rq wl : kinv s rq wl → let s' := upd_cur (set_t_need_sched true) s in
  kinv s' rq wl ∧ t_need_sched (cur s') = true ∧ ∀ p, ahead s' p = ahead s p.
Proof.
  intros Hk. split; [by apply kinv_upd|]. split.
  - unfold cur, upd_cur. simpl. rewrite task_at_alive; [done|]. apply (si_cur _ _ _ (ki_sinv _ _ _ Hk)).
  - intros p. apply ahead_same; [intros; apply alive_upd| |done]. intros j. unfold counter, prio, upd_cur.
    by rewrite (task_at_field t_counter), (task_at_field t_priority).
Qed.
Lemma use_kinv s rq wl : kinv s rq wl → current s ≠ 0 → 0 < counter s (current s) → let s' := upd_cur (λ t, set_t_counter (t_counter t - 1) t) s in
  kinv s' rq wl ∧ ∀ p, p ≠ current s → ahead s' p + 1 <= ahead s p.
Proof.
  intros [Hs [Hr Hf] Hpr Hcn] H0 Hpos. cbv zeta. set (s' := upd_cur _ s). pose proof (si_cur _ _ _ Hs) as Ha.
  assert (∀ j, counter s' j = if decide (j = current s) then counter s j - 1 else counter s j) as Hc.
  { intros j. unfold counter, s', upd_cur. case_decide; [subst; by rewrite task_at_alive|by rewrite task_at_other]. }
  assert (∀ j, prio s' j = prio s j) as Hp by (intros j; unfold prio, s', upd_cur; by rewrite (task_at_field t_priority)).
  assert (∀ j, alive s' j ↔ alive s j) as Hal by (intros; apply alive_upd). split.
  - split; [by apply sinv_upd| | |].
    + unfold awake, runs, st, frm, s', upd_cur. by rewrite (task_at_field t_state), (task_at_field t_frame).
    + intros p. rewrite Hal, Hp. apply Hpr.
    + intros p. rewrite Hc. pose proof (Hcn p). case_decide; [subst|]; lia.
  - intros p Hne. unfold ahead. rewrite Hc, decide_False by done.
    assert (quota s' <= quota s) by (unfold quota; rewrite (procs_eq s s') by done; apply total_le; intros; by rewrite Hp).
    assert (slices s' + 1 <= slices s) as Hsl.
    { unfold slices. rewrite (procs_eq s s') by done. apply (total_lt _ _ _ (current s)).
      - intros j _. rewrite Hc. case_decide; lia.
      - by apply procs_in.
      - rewrite Hc, decide_True by done. lia. }
    assert (spent s = 0) as -> by (unfold spent; by rewrite (proj2 (Z.eqb_neq _ _) H0), (proj2 (Z.leb_gt _ _) Hpos)).
    pose proof (spent_range s'). destruct (0 <? counter s p); lia.
Qed.

(** A timer tick takes from what is ahead, or asks for a switch. *)
Lemma tick_advances s rq wl : kinv s rq wl → let s' := timer_slice s in
  kinv s' rq wl ∧ calm s s' ∧ current s' = current s ∧ ∀ p, p ∈ rq → p ≠ current s → ahead s' p <= ahead s p ∧
    (ahead s' p + 1 <= ahead s p ∨ spent s' = 1 ∧ (t_need_sched (cur s') = true ∨ current s = 0)).
Proof.
  intros Hk. cbv zeta. unfold timer_slice. destruct (ask_kinv s rq wl Hk) as (A1 & A2 & A3).
  pose proof (list_empty_spec _ _ _ (si_run _ _ _ (ki_sinv _ _ _ Hk))) as He.
  destruct (Z.eqb_spec (current s) IDLEPID) as [E|E]; simpl negb; cbv iota.
  - rewrite He. destruct rq as [|r rq].
    + split; [done|]. split; [done|]. split; [done|]. intros p Hp. by apply elem_of_nil in Hp.
    + rewrite bool_decide_false by done. simpl negb. cbv iota. split; [done|]. split; [by apply calm_upd|]. split; [done|]. intros p _ _. rewrite A3. split; [done|right].
      split; [|by right]. unfold spent. simpl. by rewrite (proj2 (Z.eqb_eq _ 0) E).
  - change (t_counter (cur s)) with (counter s (current s)). destruct (Z.ltb_spec 0 (counter s (current s))) as [Hpos|Hz].
    + destruct (use_kinv s rq wl Hk E Hpos) as [B1 B2]. split; [done|]. split; [by apply calm_upd|]. split; [done|]. intros p _ Hne. pose proof (B2 p Hne). split; [lia|by left].
    + split; [done|]. split; [by apply calm_upd|]. split; [done|]. intros p _ _. rewrite A3. split; [done|right]. split; [|by left].
      unfold spent, counter, upd_cur. simpl. rewrite (task_at_field t_counter) by done. fold (counter s (current s)).
      by rewrite (proj2 (Z.leb_le _ _) Hz), orb_true_r.
Qed.

Lemma reschedule_advances s rq wl : kinv s rq wl → ∃ s' wl', reschedule s = Ret tt s' ∧ kinv s' rq wl' ∧ calm s s' ∧ ∀ p, p ∈ rq →
  ahead s' p + (if t_need_sched (cur s) then spent s else 0) <= ahead s p.
Proof.
  intros Hk. unfold reschedule. mstep. destruct (t_need_sched (cur s)).
  - destruct (switch_advances s rq wl) as (s' & wl' & He & Hk' & [_ _ _ Hcm _] & Hah); [apply Hk..|]. exists s', wl'. done.
  - exists s, wl. split; [done|]. split; [done|]. split; [done|]. intros; lia.
Qed.
Lemma idle_advances s rq wl : kinv s rq wl → ∃ s' wl', idle_turn s = Ret tt s' ∧ kinv s' rq wl' ∧ calm s s' ∧ ∀ p, p ∈ rq → ahead s' p + spent s <= ahead s p.
Proof.
  intros Hk. unfold idle_turn, is_run_quene_empty. mstep. rewrite (list_empty_spec _ _ _ (si_run _ _ _ (ki_sinv _ _ _ Hk))).
  destruct rq as [|r rq].
  - exists s, wl. split; [done|]. split; [done|]. split; [done|]. intros p Hp. by apply elem_of_nil in Hp.
  - rewrite bool_decide_false by done. destruct (switch_advances s (r :: rq) wl) as (s' & wl' & He & Hk' & [_ _ _ Hcm _] & Hah); [apply Hk..|].
    exists s', wl'. done.
Qed.

Lemma turn_advances s rq wl : kinv s rq wl → ∃ s', turn s = Ret tt s' ∧ advances 1 s rq s'.
Proof.
  intros Hk. unfold turn. mstep. destruct (tick_advances s rq wl Hk) as (Hk1 & Hcm & Ec & Hah). set (s1 := timer_slice s) in *.
  pose proof (spent_range s1) as Hsp.
  destruct (Z.eqb_spec (current s1) IDLEPID) as [E|E].
  - destruct (idle_advances s1 rq wl Hk1) as (s' & wl' & He & Hk' & Hcm' & Hah'). exists s'. split; [done|]. exists rq, wl'. split; [done|]. split; [by transitivity s1|].
    intros p Hp Hne. split; [done|]. pose proof (Hah' p Hp). destruct (Hah p Hp Hne) as [? [?|[? _]]]; lia.
  - destruct (reschedule_advances s1 rq wl Hk1) as (s' & wl' & He & Hk' & Hcm' & Hah'). exists s'. split; [done|]. exists rq, wl'. split; [done|]. split; [by transitivity s1|].
    intros p Hp Hne. split; [done|]. pose proof (Hah' p Hp) as Hx. destruct (Hah p Hp Hne) as [? [?|[Hs1 [Hn|Hn]]]].
    + destruct (t_need_sched (cur s1)); lia.
    + rewrite Hn in Hx. lia.
    + by rewrite <-Ec in Hn.
Qed.

(** What goes on in the kernel, as far as the scheduler is concerned; a turn
    counts 1. *)
Inductive kstep : Z → kst → kst → Prop :=
  | ks_sleep q v s s' : sleeping v = true → current s ≠ 0 → sleep_on q v s = Ret tt s' → kstep 0 s s'
  | ks_wakeup q s s' : wakeup q s = Ret tt s' → kstep 0 s s'
  | ks_tick s : kstep 0 s (timer_slice s)
  | ks_resched s s' : reschedule s = Ret tt s' → kstep 0 s s'
  | ks_idle s s' : current s = 0 → idle_turn s = Ret tt s' → kstep 0 s s'
  | ks_turn s s' : turn s = Ret tt s' → kstep 1 s s'.
(** Steps while [p] does not run, with [n] turns among them. *)
Inductive waits (p : Z) : Z → kst → kst → Prop :=
  | wt_nil s : waits p 0 s s
  | wt_cons n m s s1 s' : current s ≠ p → kstep n s s1 → waits p m s1 s' → waits p (n + m) s s'.

Lemma kstep_advances n s s' rq wl : kstep n s s' → kinv s rq wl → advances n s rq s'.
Proof.
  intros Hst Hk. destruct Hst as [q v s s' Hv Hc He|q s s' He|s|s s' He|s s' Hc He|s s' He].
  - destruct (sleep_advances s rq wl q v Hk Hv Hc) as (x & Hx & Ha). congruence.
  - destruct (wakeup_advances s rq wl q Hk) as (x & Hx & Ha). congruence.
  - destruct (tick_advances s rq wl Hk) as (Hk' & Hcm & _ & Hah). exists rq, wl. split; [done|]. split; [done|]. intros p Hp Hne. split; [done|].
    pose proof (proj1 (Hah p Hp Hne)). lia.
  - destruct (reschedule_advances s rq wl Hk) as (x & wl' & Hx & Hk' & Hcm & Hah). assert (x = s') as -> by congruence.
    exists rq, wl'. split; [done|]. split; [done|]. intros p Hp _. split; [done|]. pose proof (Hah p Hp).
    pose proof (spent_range s). destruct (t_need_sched (cur s)); lia.
  - destruct (idle_advances s rq wl Hk) as (x & wl' & Hx & Hk' & Hcm & Hah). assert (x = s') as -> by congruence.
    exists rq, wl'. split; [done|]. split; [done|]. intros p Hp _. split; [done|]. pose proof (Hah p Hp).
    pose proof (spent_range s). lia.
  - destruct (turn_advances s rq wl Hk) as (x & Hx & Ha). congruence.
Qed.

Definition ksteps : relation kst := rtc (λ s s', ∃ n, kstep n s s').
Lemma ksteps_good s s' : good s → ksteps s s' → good s'.
Proof.
  intros Hg Hr. induction Hr as [s|s s1 s' [n Hst] _ IH]; [done|]. apply IH. destruct Hg as (rq & wl & Hk).
  destruct (kstep_advances n s s1 rq wl Hst Hk) as (rq' & wl' & Hk' & _). by exists rq', wl'.
Qed.

Lemma total_nonneg f l : (∀ j, j ∈ l → 0 <= f j) → 0 <= total f l.
Proof.
  induction l as [|x l IH]; intros H; [done|]. simpl. pose proof (H x ltac:(left)).
  assert (0 <= total f l) by (apply IH; intros j Hj; apply H; by right). lia.
Qed.
Lemma ahead_bound s rq wl p : kinv s rq wl → 0 <= ahead s p <= 2 * slices s + 2 * quota s + 1.
Proof.
  intros [_ _ Hpr Hcn]. assert (0 <= slices s) by (apply total_nonneg; intros; apply Hcn).
  assert (0 <= quota s) by (apply total_nonneg; intros j [? ?]%procs_in; by apply Z.lt_le_incl, Hpr).
  unfold ahead. pose proof (spent_range s). destruct (0 <? counter s p); lia.
Qed.
Lemma waits_ahead p n s s' rq wl : waits p n s s' → kinv s rq wl → p ∈ rq →
  ∃ rq' wl', kinv s' rq' wl' ∧ p ∈ rq' ∧ ahead s' p + n <= ahead s p.
Proof.
  intros Hw. revert rq wl. induction Hw as [s|n m s s1 s' Hc Hst _ IH]; intros rq wl Hk Hp.
  - exists rq, wl. split; [done|]. split; [done|]. lia.
  - destruct (kstep_advances n s s1 rq wl Hst Hk) as (rq1 & wl1 & Hk1 & _ & Hah). destruct (Hah p Hp) as [Hp1 Ha1]; [done|].
    destruct (IH rq1 wl1 Hk1 Hp1) as (rq' & wl' & Hk' & Hp' & Ha'). exists rq', wl'. split; [done|]. split; [done|]. lia.
Qed.

Fixpoint turns (n : nat) : M kst unit :=
  match n with
  | O => mret tt
  | S n => turn;; turns n
  end.
Lemma turns_reach p : p ≠ 0 → ∀ (k : nat) s rq wl, kinv s rq wl → p ∈ rq → ahead s p <= Z.of_nat k →
  ∃ n s', (n <= k + 1)%nat ∧ turns n s = Ret tt s' ∧ current s' = p ∧ good s'.
Proof.
  intros Hp0. induction k as [|k IH]; intros s rq wl Hk Hp Hle; (destruct (decide (current s = p)) as [E|E];
    [exists 0%nat, s; split; [lia|]; split; [done|]; split; [done|by exists rq, wl]|]);
    destruct (turn_advances s rq wl Hk) as (s1 & He & rq1 & wl1 & Hk1 & _ & Hah); destruct (Hah p Hp) as [Hp1 Ha1]; [done| |done|].
  - pose proof (ahead_bound s1 rq1 wl1 p Hk1). lia.
  - destruct (IH s1 rq1 wl1 Hk1 Hp1) as (n & s' & Hn & Ht & Hc & Hg); [lia|]. exists (S n), s'. split; [lia|].
    split; [|done]. cbn [turns]. by rewrite (bind_eval _ _ _ _ _ He).
Qed.

(** ** Processes come and go *)

(** The idle process alone. *)
Lemma alone_kinv s t : tasks s = {[ 0 := t ]} → is_list s run_queue [] → current s = 0 → (∀ q, wq_head s q = None) →
  t_frame t = None → t_pid t = 0 → t_state t = TASK_RUNNING → 0 < t_priority t → 0 <= t_counter t → kinv s [] (λ _, []).
Proof.
  intros E Hl Hc Hq T1 T2 T3 T5 T4. assert (∀ p, alive s p ↔ p = 0) as Hal.
  { intros p. unfold alive. rewrite E, lookup_singleton_is_Some. naive_solver. }
  assert (task_at s 0 = t) as Ht by (unfold task_at; by rewrite E, lookup_singleton_eq).
  split; [split| | |].
  - done.
  - intros p. rewrite Hal. split; [by intros ?%elem_of_nil|naive_solver].
  - intros q. by apply Hq.
  - intros _. apply NoDup_nil_2.
  - intros p q. rewrite Hal. split; [by intros ?%elem_of_nil|]. intros [-> Hf]. unfold frm in Hf. rewrite Ht in Hf. congruence.
  - intros p ->%Hal. left. unfold st. by rewrite Ht.
  - rewrite Hal. unfold frm. by rewrite Ht.
  - intros p ->%Hal. by rewrite Ht.
  - by apply Hal.
  - unfold awake, runs, frm. by rewrite Hc, Ht.
  - intros p ->%Hal. unfold prio. by rewrite Ht.
  - intros p. unfold counter. destruct (decide (p = 0)) as [->|Hne]; [by rewrite Ht|]. unfold task_at.
    by rewrite E, lookup_singleton_ne.
Qed.
Lemma boot_kinv s : current s = 0 → (∀ q, wq_head s q = None) → kinv (sched_init s) [] (λ _, []).
Proof.
  intros Hc Hq. apply (alone_kinv _ (idle_task_struct (t_bitmap (task_at s IDLEPID)))); [done| |exact Hc|exact Hq|done..].
  by apply list_head_init_is_list.
Qed.

(** [task[nr] = p], [add_run(p)] of [copy_process]. *)
Definition enter (p : Z) (t : task) (s : kst) : kst := add_run p (upd_tasks <[p := t]> s).

Lemma enter_kinv s rq wl p t : kinv s rq wl → ¬ alive s p → p ≠ 0 → t_state t = TASK_RUNNING → t_frame t = None → t_pid t = p →
  0 < t_priority t → 0 <= t_counter t → kinv (enter p t s) (rq ++ [p]) wl.
Proof.
  intros [Hs [Hr Hf] Hpr Hcn] Hna Hp0 T1 T2 T3 T4 T5. set (s1 := upd_tasks <[p := t]> s). set (s' := enter p t s).
  assert (tasks s' = tasks s1 ∧ current s' = current s1 ∧ wq_head s' = wq_head s1 ∧ wq_next s' = wq_next s1) as (E1 & E2 & E3 & E4)
    by (unfold s', enter, add_run; by case_match).
  assert (∀ j, task_at s' j = if decide (j = p) then t else task_at s j) as Ht.
  { intros j. unfold task_at. rewrite E1. unfold s1. simpl. destruct (decide (j = p)) as [->|];
      [by rewrite lookup_insert_eq|by rewrite lookup_insert_ne]. }
  assert (∀ j, alive s' j ↔ j = p ∨ alive s j) as Hal.
  { intros j. unfold alive. rewrite E1. unfold s1. simpl. destruct (decide (j = p)) as [->|].
    - rewrite lookup_insert_eq. split; [by left|by eexists].
    - rewrite lookup_insert_ne by done. naive_solver. }
  assert (∀ j, alive s j → j ≠ p) as Hne by (by intros j Ha ->).
  assert (p ∉ rq) as Hn by (by intros (_ & Ha & _)%(si_rq _ _ _ Hs)). pose proof (si_cur _ _ _ Hs) as Hc.
  split; [destruct Hs as [H1 H2 H3 H4 H5 H6 H7 H8 H9]; split| | |].
  - apply add_run_list; [|done|done]. eapply is_list_frame; [exact H1|done|done].
  - intros j. unfold st. rewrite elem_of_app, list_elem_of_singleton, H2, Hal, Ht. case_decide; [subst; naive_solver|].
    unfold st. naive_solver.
  - intros q. rewrite E3. eapply wchain_frame; [|apply H3]. intros x _. by rewrite E4.
  - done.
  - intros j q. unfold frm. rewrite H5, Hal, Ht. case_decide; [subst; rewrite T2; naive_solver|]. unfold frm. naive_solver.
  - intros j. unfold st, frm. rewrite Hal, Ht. case_decide; [subst; by left|]. intros [?|?]; [done|by apply H6].
  - unfold frm. rewrite Hal, Ht. destruct H7. split; [by right|]. case_decide; [by subst|done].
  - intros j. rewrite Hal, Ht. case_decide; [by subst|]. intros [?|?]; [done|by apply H8].
  - rewrite Hal, E2. by right.
  - unfold awake, runs, st, frm. rewrite E2. change (current s1) with (current s). by rewrite Ht, decide_False by by apply Hne.
  - intros j. unfold prio. rewrite Hal, Ht. case_decide; [done|]. intros [?|?]; [done|by apply Hpr].
  - intros j. unfold counter. rewrite Ht. case_decide; [done|apply Hcn].
Qed.

(** ** The theorems *)

(** C0. Whatever sequence of sleeps, wake ups, timer ticks and switches the
    kernel goes through from a state in which the run queue holds exactly the
    processes that can run and each wait queue exactly the processes inside
    [__sleepon] on it, the queues are so again; and in each state reached the
    operations return, none meets a broken list or fails to find a process. *)
Theorem sched_invariant s s' : good s → ksteps s s' → good s' ∧ (∀ q, ∃ s1, wakeup q s' = Ret tt s1) ∧
  (∀ q v, sleeping v = true → current s' ≠ 0 → ∃ s1, sleep_on q v s' = Ret tt s1) ∧ (∃ s1, reschedule s' = Ret tt s1) ∧ ∃ s1, turn s' = Ret tt s1.
Proof.
  intros Hg Hr. pose proof (ksteps_good _ _ Hg Hr) as (rq & wl & Hk). split; [by exists rq, wl|]. split; [|split; [|split]].
  - intros q. destruct (wakeup_advances s' rq wl q Hk) as (s1 & ? & _). by exists s1.
  - intros q v Hv Hc. destruct (sleep_advances s' rq wl q v Hk Hv Hc) as (s1 & ? & _). by exists s1.
  - destruct (reschedule_advances s' rq wl Hk) as (s1 & _ & ? & _). by exists s1.
  - destruct (turn_advances s' rq wl Hk) as (s1 & ? & _). by exists s1.
Qed.

(** C0. [schedule] ends: with a process in the run queue that has some of its
    time slice left or a priority, the search for the next process succeeds,
    at the latest after the counters were filled once; the process chosen is
    of the run queue, none there has a larger counter, and the counters are
    those of before, or all were used up and have become the priorities. *)
Theorem schedule_ends s rq wl : sinv s rq wl → choosable s rq → ∃ s', schedule s = Ret tt s' ∧ sinv s' rq wl ∧
  current s' ∈ rq ∧ 0 < counter s' (current s') ∧ (∀ j, j ∈ rq → counter s' j <= counter s' (current s')) ∧
  ((∀ j, counter s' j = counter s j) ∨
   (∀ j, j ∈ rq → counter s j <= 0) ∧ ∀ j, counter s' j = if decide (j ∈ rq) then prio s j else counter s j).
Proof.
  intros Hs Hc. destruct (schedule_spec s rq wl Hs) as (s' & He & Hs' & [S1 S2 _ _ _]); [by right|].
  exists s'. split; [done|]. split; [done|]. destruct S1 as [[-> _]|(H1 & H2 & H3)]; [|done].
  destruct Hc as (j & Hj & _). by apply elem_of_nil in Hj.
Qed.

(** C0. A process that can run gets the processor: while it does not, however
    the other processes sleep, are woken and are switched between, no more
    timer interrupts of running programs or of the idle process can go by
    than twice what is left of all time slices and twice the priorities of all
    processes. *)
Theorem fair_share p n s s' : good s → p ≠ 0 → alive s p → st s p = TASK_RUNNING → waits p n s s' → n <= 2 * slices s + 2 * quota s + 1.
Proof.
  intros (rq & wl & Hk) H0 Ha Hst Hw. destruct (waits_ahead p n s s' rq wl Hw Hk) as (rq' & wl' & Hk' & _ & Hle).
  - by apply (si_rq _ _ _ (ki_sinv _ _ _ Hk)).
  - pose proof (ahead_bound s rq wl p Hk). pose proof (ahead_bound s' rq' wl' p Hk'). lia.
Qed.

(** C0. A wake up reaches each sleeper: after [wakeup] of the queue a process
    sleeps on, timer interrupts bring the process back to the processor, out of
    [__sleepon], within the bound of the time slices and priorities. *)
Theorem woken_runs p q s : good s → alive s p → frm s p = Some q → ∃ s1 n s2, wakeup (Some q) s = Ret tt s1 ∧ turns n s1 = Ret tt s2 ∧
  Z.of_nat n <= 2 * slices s1 + 2 * quota s1 + 2 ∧ current s2 = p ∧ frm s2 p = None.
Proof.
  intros (rq & wl & Hk) Ha Hf. pose proof (ki_sinv _ _ _ Hk) as Hs.
  assert (p ≠ 0) as H0 by (intros ->; by rewrite (proj2 (si_idle _ _ _ Hs)) in Hf).
  destruct (wakeup_spec s rq wl (Some q) Hs) as (s1 & rq1 & He & Hs1 & _ & Hin & _).
  destruct (wakeup_advances s rq wl (Some q) Hk) as (x & Hx & rq2 & wl2 & Hk2 & _). assert (x = s1) as -> by congruence.
  assert (p ∈ rq2) as Hp.
  { apply (si_rq _ _ _ (ki_sinv _ _ _ Hk2)), (si_rq _ _ _ Hs1), (Hin q); [done|]. by apply (si_wl _ _ _ Hs). }
  pose proof (ahead_bound s1 rq2 wl2 p Hk2).
  destruct (turns_reach p H0 (Z.to_nat (ahead s1 p)) s1 rq2 wl2 Hk2 Hp) as (n & s2 & Hn & Ht & Hc & rq' & wl' & Hk'); [lia|].
  exists s1, n, s2. split; [done|]. split; [done|]. split; [lia|]. split; [done|]. rewrite <-Hc. apply Hk'.
Qed.

(** ** A small system: the idle process and three others *)
Definition blank : kst := Kst ∅ 0 id id (λ _, None) (λ _, None) 0 [] 1 [].
Definition demo_task (p c : Z) : task :=
  set_t_pid p (set_t_priority 5 (set_t_counter c (idle_task_struct []))).
Definition demo : kst := enter 3 (demo_task 3 0) (enter 2 (demo_task 2 7) (enter 1 (demo_task 1 2) (sched_init blank))).
Definition ok_state {A} (c : outcome kst A) : kst := match c with Ret _ s => s | _ => blank end.
(** Process 2 runs, and then sleeps on queue 1000. *)
Definition demo2 : kst := ok_state (turn demo).
Definition demo3 : kst := ok_state (sleepon (Some 1000) demo2).

Lemma demo_kinv : kinv demo [1; 2; 3] (λ _, []).
Proof.
  assert (∀ s rq wl p c, kinv s rq wl → ¬ alive s p → p ≠ 0 → 0 <= c → kinv (enter p (demo_task p c) s) (rq ++ [p]) wl) as H.
  { intros s rq wl p c Hk Hn H0 Hc. by apply enter_kinv. }
  unfold demo. apply (H _ [1; 2]); [apply (H _ [1]); [apply (H _ []); [by apply boot_kinv|..]|..]|..]; try done;
    unfold alive; rewrite <-not_eq_None_Some; vm_compute; auto.
Qed.
Lemma demo_good : good demo.
Proof. eexists _, _. apply demo_kinv. Qed.
Lemma demo2_steps : waits 3 1 demo demo2.
Proof.
  change 1 with (1 + 0) at 1. eapply wt_cons; [by vm_compute|apply ks_turn|apply wt_nil].
  unfold demo2. by destruct (turn_advances demo _ _ demo_kinv) as (s' & -> & _).
Qed.
Lemma demo3_steps : ksteps demo demo3.
Proof.
  destruct demo_good as (rq & wl & Hk).
  destruct (kstep_advances 1 demo demo2 rq wl) as (rq2 & wl2 & Hk2 & _); [|done|].
  { apply ks_turn. unfold demo2. by destruct (turn_advances demo rq wl Hk) as (s' & -> & _). }
  transitivity demo2; apply rtc_once.
  - exists 1. apply ks_turn. unfold demo2. by destruct (turn_advances demo rq wl Hk) as (s' & -> & _).
  - exists 0. assert (current demo2 ≠ 0) as H0 by by vm_compute.
    apply (ks_sleep (Some 1000) TASK_UNINTERRUPTIBLE); [done|done|]. unfold demo3, sleepon.
    by destruct (sleep_advances demo2 rq2 wl2 (Some 1000) TASK_UNINTERRUPTIBLE Hk2 eq_refl H0) as (s' & -> & _).
Qed.
Lemma sched_invariant_witness : good demo ∧ good demo3 ∧ current demo3 = 1 ∧ frm demo3 2 = Some 1000.
Proof.
  split; [exact demo_good|]. split; [apply (sched_invariant demo demo3 demo_good demo3_steps)|]. by vm_compute.
Defined.
Lemma schedule_ends_witness : ∃ s', schedule demo = Ret tt s' ∧ sinv s' [1; 2; 3] (λ _, []) ∧ current s' ∈ [1; 2; 3].
Proof.
  destruct (schedule_ends demo [1; 2; 3] (λ _, [])) as (s' & He & Hs & Hc & _); [apply demo_kinv| |by exists s'].
  exists 2. split; [set_solver|]. left. by vm_compute.
Defined.
Lemma fair_share_witness : waits 3 1 demo demo2 ∧ 1 <= 2 * slices demo + 2 * quota demo + 1.
Proof.
  split; [exact demo2_steps|]. apply (fair_share 3 1 demo demo2); [exact demo_good|done|by eexists|by vm_compute|exact demo2_steps].
Defined.
Lemma woken_runs_witness : ∃ s1 n s2, wakeup (Some 1000) demo3 = Ret tt s1 ∧ turns n s1 = Ret tt s2 ∧
  Z.of_nat n <= 2 * slices s1 + 2 * quota s1 + 2 ∧ current s2 = 2 ∧ frm s2 2 = None.
Proof.
  apply (woken_runs 2 1000 demo3).
  - exact (ksteps_good _ _ demo_good demo3_steps).
  - unfold alive. rewrite <-not_eq_None_Some. by vm_compute.
  - by vm_compute.
Defined.
