(* ===== verification/Signal.v ===== *)
(** * Signals (kernel/signal.c, the signal calls of kernel/syscall.c)

    A pending signal is a bit of [t_signal], a blocked one a bit of
    [t_blocked].  An argument that points to a structure of the user is given
    with what it points to, and a structure stored for the user is returned
    beside the result of the call. *)

From S2P Require Import Prelude Dlist Task Sched.
From stdpp Require Import base numbers functions gmap list.

Local Open Scope Z_scope.

Definition TO_IGN : Z := 0.
Definition TO_KILL : Z := 1.
Definition TO_CORE : Z := 2.
Definition def_action : list Z := [
  TO_KILL; TO_KILL; TO_KILL; TO_KILL; TO_KILL; TO_KILL; TO_KILL; TO_KILL;
  TO_KILL; TO_KILL; TO_KILL; TO_KILL; TO_KILL; TO_KILL; TO_KILL; TO_KILL;
  TO_IGN; TO_IGN; TO_IGN; TO_IGN; TO_IGN; TO_IGN; TO_KILL; TO_KILL;
  TO_KILL; TO_KILL; TO_KILL; TO_KILL; TO_KILL; TO_KILL; TO_KILL; TO_KILL].

Definition SIGKILL : Z := 9.
Definition SIGCHLD : Z := 17.
Definition SIGSTOP : Z := 19.
Definition SIG_BLOCK : Z := 0.
Definition SIG_UNBLOCK : Z := 1.
Definition SIG_SETMASK : Z := 2.
Definition CANNOTBLOCKSIG : Z := Z.lor (Z.shiftl 1 (SIGKILL - 1)) (Z.shiftl 1 (SIGSTOP - 1)).

(** ** Checks of addresses (include/cnix/kernel.h) *)
Definition PAGE_SIZE : Z := 4096.
Definition USER_ADDR : Z := 0x40000000.
Definition cklimit (param : Z) (s : kst) : bool :=
  t_check (cur s) && (PAGE_SIZE <=? u32 param) && (u32 param <? USER_ADDR).
Definition ckoverflow (param size : Z) (s : kst) : bool :=
  t_check (cur s) && truth param && (u32 (param + size) <? u32 param).
(** [cklimit(p) || ckoverflow(p, size)] *)
Definition ckuser (param size : Z) (s : kst) : bool := cklimit param s || ckoverflow param size s.

(** ** Finding a signal *)

(** [(signal & (1 << signum)) && !(blocked & (1 << signum))] *)
Definition pending (t : task) (signum : Z) : bool :=
  has (t_signal t) (Z.shiftl 1 signum) && negb (has (t_blocked t) (Z.shiftl 1 signum)).
(** The [for] loop from [signum]. *)
Fixpoint scan_sig (fuel : nat) (signum : Z) (t : task) : Z :=
  match fuel with
  | O => signum
  | S fuel =>
      if signum <? SIGNR then
        if pending t signum then signum else scan_sig fuel (signum + 1) t
      else signum
  end.
Definition next_sig (signum : Z) (t : task) : Z := scan_sig (Z.to_nat SIGNR) (signum + 1) t.

Definition sa_of (t : task) (signum : Z) : option sigaction := zget (t_sigactions t) signum.

(** [anysig]: its argument is not used. *)
Fixpoint anysig_loop (fuel : nat) (signum : Z) (t : task) : option bool :=
  match fuel with
  | O => None
  | S fuel =>
      let signum := next_sig signum t in
      if SIGNR <=? signum then Some false
      else
        a ← sa_of t signum;
        if sa_handler a =? SIG_IGN then
          if truth (t_signal t) then anysig_loop fuel signum t else Some false
        else if sa_handler a =? SIG_DFL then
          d ← zget def_action signum;
          if d =? TO_IGN then
            if truth (t_signal t) then anysig_loop fuel signum t else Some false
          else if (d =? TO_KILL) || (d =? TO_CORE) then Some true
          else None
        else Some true
  end.
Definition anysig (p : Z) : M kst bool :=
  t ← gets cur;
  if negb (truth (t_signal t)) then mret false
  else from_opt (anysig_loop (S (Z.to_nat SIGNR)) (-1) t).

(** What [do_with_signal] finds to do: nothing, to end the process, or to call
    a handler. *)
Inductive sigverdict :=
  | SNone
  | SExit (code : Z)
  | SCall (signum : Z) (a : sigaction).

Definition clear_sig (signum : Z) (t : task) : task :=
  set_t_signal (Z.land (t_signal t) (Z.lnot (Z.shiftl 1 signum))) t.
Fixpoint signal_loop (fuel : nat) (signum : Z) (t : task) : option (sigverdict * task) :=
  match fuel with
  | O => None
  | S fuel =>
      let signum := next_sig signum t in
      if SIGNR <=? signum then Some (SNone, t)
      else
        let t := clear_sig signum t in
        if t_pid t <=? 1 then Some (SNone, t)
        else
          a ← sa_of t signum;
          if sa_handler a =? SIG_IGN then
            if truth (t_signal t) then signal_loop fuel signum t else Some (SNone, t)
          else if sa_handler a =? SIG_DFL then
            d ← zget def_action signum;
            if d =? TO_IGN then
              if truth (t_signal t) then signal_loop fuel signum t else Some (SNone, t)
            else if (d =? TO_KILL) || (d =? TO_CORE) then Some (SExit (signum + 1), t)
            else None
          else Some (SCall signum a, t)
  end.

(** ** Sending *)

Definition sendsig (p signum : Z) : M kst unit :=
  die_if (signum <=? 0);;
  t ← gets (λ s, task_at s p);
  a ← from_opt (sa_of t (signum - 1));
  d ← from_opt (zget def_action (signum - 1));
  if (sa_handler a =? SIG_IGN) || ((sa_handler a =? SIG_DFL) && (d =? TO_IGN)) then mret tt
  else
    modify (upd_task p (λ t, set_t_signal (Z.lor (t_signal t) (Z.shiftl 1 (signum - 1))) t));;
    c ← gets current;
    q ← gets (λ s, t_sleep_spot (task_at s p));
    when (negb (p =? c)) (wakeup q).

(** [task[pid]]: outside of the table nothing is known of what is read. *)
Definition task_slot (pid : Z) : M kst (option task) :=
  die_if ((pid <? 0) || (NR_TASKS <=? pid));;
  gets (λ s, tasks s !! pid).

(** [foreach(tmp, pos, &task[pid]->pglist)] *)
Fixpoint kill_ring (fuel : nat) (hd pos : kptr) (signum : Z) : M kst unit :=
  match fuel with
  | O => die
  | S fuel =>
      nx ← gets (λ s, nxt s pos);
      match pos with
      | KPg t => sendsig t signum
      | _ => die
      end;;
      if decide (nx = hd) then mret tt else kill_ring fuel hd nx signum
  end.

(** [(current->euid != SU_UID) && ...] *)
Definition kill_denied (t : task) (s : kst) : bool :=
  negb (t_euid (cur s) =? SU_UID) && negb (t_euid (cur s) =? t_euid t) && negb (t_uid (cur s) =? t_uid t).

Definition sys_kill (pid signum : Z) : M kst Z :=
  if (signum <? 1) || (SIGNR <? signum) then mret (- EINVAL)
  else
    c ← gets cur;
    if (pid =? 0) && negb (t_euid c =? SU_UID) then mret (- EPERM)
    else if pid <? 0 then
      if -1 <=? pid then mret (- EINVAL)
      else
        t ← task_slot (- pid);
        match t with
        | None => mret (- ESRCH)
        | Some t =>
            if negb (t_pgid t =? - pid) then mret (- ESRCH)
            else
              d ← gets (kill_denied t);
              if (d : bool) then mret (- EPERM)
              else
                n ← gets (λ s, size (tasks s));
                kill_ring (S n) (KPg (- pid)) (KPg (- pid)) signum;;
                mret 0
        end
    else
      t ← task_slot pid;
      match t with
      | None => mret (- ESRCH)
      | Some t =>
          d ← gets (kill_denied t);
          if (d : bool) then mret (- EPERM)
          else sendsig pid signum;; mret 0
      end.

(** ** System calls *)

Definition upd_action (signum : Z) (f : sigaction → sigaction) : kst → kst :=
  upd_cur (λ t, set_t_sigactions (zalter f (signum - 1) (t_sigactions t)) t).
Definition set_handler (h : Z) (a : sigaction) : sigaction := Sigaction h (sa_mask a) (sa_flags a).
(** [sa_mask &= ~CANNOTBLOCKSIG] *)
Definition allow_kill (m : Z) : Z := Z.land m (Z.lnot CANNOTBLOCKSIG).
Definition mask_action (a : sigaction) : sigaction := Sigaction (sa_handler a) (allow_kill (sa_mask a)) (sa_flags a).

Definition sys_signal (signum handler : Z) : M kst Z :=
  if (signum <? 1) || (SIGNR <? signum) then mret SIG_ERR
  else
    b ← gets (cklimit handler);
    if (b : bool) then mret SIG_ERR
    else
      t ← gets cur;
      a ← from_opt (sa_of t (signum - 1));
      modify (upd_action signum (set_handler handler));;
      mret (sa_handler a).

Definition sys_sigaction (signum : Z) (act : Z * sigaction) (oact : Z) : M kst (Z * option sigaction) :=
  if (signum <? 1) || (SIGNR <? signum) then mret (- EINVAL, None)
  else
    b ← gets (ckuser oact 12);
    if truth oact && b then mret (- EFAULT, None)
    else
      t ← gets cur;
      a ← from_opt (sa_of t (signum - 1));
      let old := if truth oact then Some a else None in
      if truth act.1 then
        b ← gets (cklimit act.1);
        b' ← gets (cklimit (sa_handler act.2));
        if (b || b' : bool) then mret (- EFAULT, old)
        else
          modify (upd_action signum (λ _, mask_action act.2));;
          mret (0, old)
      else mret (0, old).

Definition sys_sigprocmask (how : Z) (set : Z * Z) (oset : Z) : M kst (Z * option Z) :=
  b ← gets (ckuser oset 4);
  if truth oset && b then mret (- EFAULT, None)
  else
    t ← gets cur;
    let old := if truth oset then Some (t_blocked t) else None in
    if truth set.1 then
      b ← gets (ckuser set.1 4);
      if (b : bool) then mret (- EFAULT, old)
      else if how =? SIG_BLOCK then
        modify (upd_cur (λ t, set_t_blocked (allow_kill (Z.lor (t_blocked t) set.2)) t));; mret (0, old)
      else if how =? SIG_UNBLOCK then
        modify (upd_cur (λ t, set_t_blocked (allow_kill (Z.land (t_blocked t) (Z.lnot set.2))) t));; mret (0, old)
      else if how =? SIG_SETMASK then
        modify (upd_cur (set_t_blocked (allow_kill set.2)));; mret (0, old)
      else mret (- EINVAL, old)
    else mret (0, old).

Definition sys_sigpending (set : Z) : M kst (Z * option Z) :=
  b ← gets (ckuser set 4);
  t ← gets cur;
  if (b : bool) then mret (- EFAULT, None) else mret (0, Some (t_signal t)).

(** [wait = NULL; current->sleep_spot = &wait; sleepon(&wait)], the variable
    being at [wait]. *)
Definition sleep_own (wait : Z) : M kst unit :=
  modify (upd_wq_head <[wait := None]>);;
  modify (upd_cur (set_t_sleep_spot (Some wait)));;
  Sched.sleepon (Some wait).

Definition sys_pause (wait : Z) : M kst Z :=
  sleep_own wait;; mret (- EINTR).

Definition sys_sigsuspend (wait : Z) (sigmask : Z * Z) : M kst Z :=
  b ← gets (ckuser sigmask.1 4);
  if negb (truth sigmask.1) || b then mret (- EFAULT)
  else
    modify (upd_cur (λ t, set_t_blocked_saved (t_blocked t) t));;
    modify (upd_cur (set_t_blocked (allow_kill sigmask.2)));;
    sleep_own wait;;
    mret (- EINTR).

(** ** Which signal is found *)

Lemma scan_sig_spec fuel n t : n <= SIGNR → SIGNR - n <= Z.of_nat fuel → let r := scan_sig fuel n t in
  n <= r <= SIGNR ∧ (∀ i, n <= i < r → pending t i = false) ∧ (r < SIGNR → pending t r = true).
Proof.
  revert n. induction fuel as [|fuel IH]; intros n Hn Hf; cbn [scan_sig].
  - split; [lia|]. split; intros; lia.
  - destruct (Z.ltb_spec n SIGNR) as [Hlt|Hge]; [|split; [lia|split; intros; lia]].
    destruct (pending t n) eqn:Hp; [split; [lia|split; [intros; lia|done]]|].
    destruct (IH (n + 1)) as (H1 & H2 & H3); [lia|lia|]. split; [lia|]. split; [|done]. intros i Hi.
    destruct (decide (i = n)) as [->|]; [done|]. apply H2. lia.
Qed.
Lemma next_sig_spec n t : -1 <= n < SIGNR → let r := next_sig n t in
  n < r <= SIGNR ∧ (∀ i, n < i < r → pending t i = false) ∧ (r < SIGNR → pending t r = true).
Proof.
  intros Hn. destruct (scan_sig_spec (Z.to_nat SIGNR) (n + 1) t) as (H1 & H2 & H3); [lia|lia|].
  split; [unfold next_sig; lia|]. split; [|done]. intros i Hi. apply H2. unfold next_sig in Hi. lia.
Qed.

(** A signal found has an effect: it is not ignored. *)
Definition heeded (t : task) (n : Z) : bool :=
  match sa_of t n, zget def_action n with
  | Some a, Some d => negb ((sa_handler a =? SIG_IGN) || ((sa_handler a =? SIG_DFL) && (d =? TO_IGN)))
  | _, _ => false
  end.
Definition deliverable (t : task) (n : Z) : bool := pending t n && heeded t n.
(** The effect of signal [n]. *)
Definition verdict (t : task) (n : Z) : sigverdict :=
  match sa_of t n with
  | Some a => if sa_handler a =? SIG_DFL then SExit (n + 1) else SCall n a
  | None => SNone
  end.

Lemma def_action_kill n d : zget def_action n = Some d → d = TO_IGN ∨ d = TO_KILL.
Proof.
  intros Hd. assert (0 <= n < 32) as Hn.
  { assert (is_Some (zget def_action n)) as Hs by (by eexists). by apply zget_is_Some in Hs. }
  assert (n ∈ seqZ 0 32) as Hi by (by apply elem_of_seqZ).
  assert (Forall (λ n, default TO_IGN (zget def_action n) = TO_IGN ∨ default TO_IGN (zget def_action n) = TO_KILL) (seqZ 0 32)) as Hall.
  { apply (bool_decide_eq_true_1 _). by vm_compute. }
  rewrite Forall_forall in Hall. specialize (Hall n Hi). by rewrite Hd in Hall.
Qed.

Definition full (t : task) : Prop := zlen (t_sigactions t) = SIGNR.

Lemma full_actions t n : full t → 0 <= n < SIGNR → ∃ a d, sa_of t n = Some a ∧ zget def_action n = Some d.
Proof.
  intros Hl Hn. assert (is_Some (sa_of t n)) as [a Ha] by (apply zget_is_Some; unfold full in Hl; lia).
  assert (is_Some (zget def_action n)) as [d Hd] by (by apply zget_is_Some). by exists a, d.
Qed.

(** What the code does with signal [n] in either of its loops. *)
Lemma sig_cases {A} t n (ign : option A) (kill : A) (call : sigaction → A) : full t → 0 <= n < SIGNR → ∃ a, sa_of t n = Some a ∧
  (a ← sa_of t n;
   if sa_handler a =? SIG_IGN then ign
   else if sa_handler a =? SIG_DFL then
     d ← zget def_action n;
     if d =? TO_IGN then ign else if (d =? TO_KILL) || (d =? TO_CORE) then Some kill else None
   else Some (call a)) = if heeded t n then Some (if sa_handler a =? SIG_DFL then kill else call a) else ign.
Proof.
  intros Hf Hn. destruct (full_actions t n Hf Hn) as (a & d & Ha & Hd). exists a. split; [done|]. unfold heeded. rewrite Ha, Hd. simpl.
  destruct (sa_handler a =? SIG_IGN) eqn:E1; [done|]. destruct (sa_handler a =? SIG_DFL) eqn:E2; simpl; [|done].
  by destruct (def_action_kill n d Hd) as [-> | ->].
Qed.

Lemma anysig_loop_spec fuel n t : full t → -1 <= n < SIGNR → SIGNR - n <= Z.of_nat fuel → t_signal t ≠ 0 →
  ∃ b, anysig_loop fuel n t = Some b ∧ (b = true ↔ ∃ i, n < i < SIGNR ∧ deliverable t i = true).
Proof.
  intros Hf. revert n. induction fuel as [|fuel IH]; intros n Hn Hfu Hs; [lia|]. cbn [anysig_loop].
  destruct (next_sig_spec n t Hn) as (H1 & H2 & H3). set (r := next_sig n t) in *.
  assert (∀ i, n < i < r → deliverable t i = false) as Hno by (intros i Hi; unfold deliverable; by rewrite H2).
  destruct (Z.leb_spec SIGNR r) as [Hr|Hr].
  { exists false. split; [done|]. split; [done|]. intros (i & Hi & Hd). rewrite Hno in Hd by lia. done. }
  destruct (IH r) as (b & Hb & Hiff); [lia|lia|done|].
  destruct (sig_cases t r (if truth (t_signal t) then anysig_loop fuel r t else Some false) true (λ _, true) Hf) as (a & Ha & ->); [lia|].
  destruct (heeded t r) eqn:Hh.
  - exists true. split; [by destruct (_ =? _)|]. split; [intros _|done]. exists r. split; [lia|]. unfold deliverable. by rewrite H3, Hh.
  - rewrite (proj2 (truth_true _) Hs), Hb. exists b. split; [done|]. rewrite Hiff. split; intros (i & Hi & Hd); exists i.
    + split; [lia|done].
    + split; [|done]. destruct (Z.lt_trichotomy i r) as [|[->|]]; [rewrite Hno in Hd by lia; done| |lia].
      unfold deliverable in Hd. by rewrite Hh, andb_false_r in Hd.
Qed.

Lemma has_shift x i : 0 <= i → has x (Z.shiftl 1 i) = Z.testbit x i.
Proof. intros Hi. unfold has. rewrite Z.shiftl_1_l. by apply land_pow2_testbit. Qed.
Lemma clear_sig_bit r t i : 0 <= r → 0 <= i → Z.testbit (t_signal (clear_sig r t)) i = Z.testbit (t_signal t) i && negb (i =? r).
Proof.
  intros Hr Hi. simpl. rewrite Z.land_spec, Z.lnot_spec, Z.shiftl_1_l, Z.pow2_bits_eqb by done. by rewrite (Z.eqb_sym r).
Qed.
Lemma pending_clear r t i : 0 <= r → 0 <= i → pending (clear_sig r t) i = pending t i && negb (i =? r).
Proof.
  intros Hr Hi. unfold pending. rewrite !has_shift by done. rewrite clear_sig_bit by done. change (t_blocked (clear_sig r t)) with (t_blocked t).
  by destruct (Z.testbit (t_signal t) i), (Z.testbit (t_blocked t) i), (i =? r).
Qed.

(** In [t'] the pending signals between [n] and [r] are gone, the rest is as in
    [t]. *)
Record taken (t t' : task) (n r : Z) : Prop := {
  tk_rest : t' = set_t_signal (t_signal t') t;
  tk_bits i : 0 <= i → Z.testbit (t_signal t') i = Z.testbit (t_signal t) i && negb (bool_decide (n < i <= r) && pending t i);
}.
Lemma taken_step t t' n m r : 0 <= m <= r → n < m → (∀ i, n < i < m → pending t i = false) → pending t m = true →
  taken (clear_sig m t) t' m r → taken t t' n r.
Proof.
  intros Hm Hnm Hno Hp [H1 H2]. split; [exact H1|]. intros i Hi. rewrite H2, clear_sig_bit, pending_clear by lia.
  assert (pending t i = true → Z.testbit (t_signal t) i = true) as Hpt.
  { unfold pending. rewrite has_shift by done. by destruct (Z.testbit _ i). }
  destruct (Z.eqb_spec i m) as [->|Hne].
  - rewrite Hp, (bool_decide_true (n < m <= r)) by lia. simpl. by rewrite !andb_false_r.
  - simpl negb. rewrite !andb_true_r. destruct (bool_decide_reflect (m < i <= r)) as [Hmi|Hmi].
    + by rewrite bool_decide_true by lia.
    + destruct (bool_decide_reflect (n < i <= r)); [|done]. by rewrite Hno by lia.
Qed.
Lemma taken_none t n r : (∀ i, n < i <= r → pending t i = false) → taken t t n r.
Proof.
  intros H. split; [by destruct t|]. intros i Hi. destruct (bool_decide_reflect (n < i <= r)) as [Hn|]; [rewrite H by done|]; by rewrite andb_true_r.
Qed.

(** The lowest signal of [t] above [n] that has an effect decides. *)
Inductive sig_outcome (t : task) (n : Z) : sigverdict → task → Prop :=
  | so_none t' : (∀ i, n < i < SIGNR → deliverable t i = false) → taken t t' n (SIGNR - 1) → sig_outcome t n SNone t'
  | so_some r t' : n < r < SIGNR → deliverable t r = true → (∀ i, n < i < r → deliverable t i = false) → taken t t' n r →
      sig_outcome t n (verdict t r) t'.

Lemma sig_outcome_step t n m v t' : -1 <= n → n < m < SIGNR → (∀ i, n < i < m → pending t i = false) → pending t m = true → heeded t m = false →
  sig_outcome (clear_sig m t) m v t' → sig_outcome t n v t'.
Proof.
  intros Hn Hm Hno Hp Hh Ho.
  assert (∀ i, m < i → deliverable (clear_sig m t) i = deliverable t i) as Hd.
  { intros i Hi. unfold deliverable. rewrite pending_clear by lia. rewrite (proj2 (Z.eqb_neq i m)) by lia. by rewrite andb_true_r. }
  assert (∀ i, n < i <= m → deliverable t i = false) as Hlow.
  { intros i Hi. unfold deliverable. destruct (decide (i = m)) as [->|]; [by rewrite Hh, andb_false_r|by rewrite Hno by lia]. }
  destruct Ho as [t' H1 H2|r t' Hr H1 H2 H3].
  - apply so_none; [|eapply taken_step; [..|exact H2]; done || lia]. intros i Hi. destruct (Z.le_gt_cases i m); [apply Hlow; lia|].
    rewrite <-Hd by lia. apply H1. lia.
  - change (verdict (clear_sig m t) r) with (verdict t r). rewrite Hd in H1 by lia. apply so_some; [lia|done| |].
    + intros i Hi. destruct (Z.le_gt_cases i m); [apply Hlow; lia|]. rewrite <-Hd by lia. apply H2. lia.
    + eapply taken_step; [..|exact H3]; done || lia.
Qed.

Lemma signal_loop_spec fuel n t : full t → 1 < t_pid t → -1 <= n < SIGNR → SIGNR - n <= Z.of_nat fuel →
  ∃ v t', signal_loop fuel n t = Some (v, t') ∧ sig_outcome t n v t'.
Proof.
  revert n t. induction fuel as [|fuel IH]; intros n t Hf Hpid Hn Hfu; [lia|]. cbn [signal_loop].
  destruct (next_sig_spec n t Hn) as (H1 & H2 & H3). set (r := next_sig n t) in *.
  assert (∀ i, n < i < r → deliverable t i = false) as Hno by (intros i Hi; unfold deliverable; by rewrite H2).
  destruct (Z.leb_spec SIGNR r) as [Hr|Hr].
  { exists SNone, t. split; [done|]. apply so_none; [intros; apply Hno; lia|]. apply taken_none. intros; apply H2; lia. }
  change (t_pid (clear_sig r t)) with (t_pid t). rewrite (proj2 (Z.leb_gt _ _) Hpid).
  assert (pending t r = true) as Hp by by apply H3.
  destruct (IH r (clear_sig r t)) as (v & t' & He & Ho); [done|done|lia|lia|].
  destruct (sig_cases (clear_sig r t) r (if truth (t_signal (clear_sig r t)) then signal_loop fuel r (clear_sig r t) else Some (SNone, clear_sig r t))
    (SExit (r + 1), clear_sig r t) (λ a, (SCall r a, clear_sig r t)) Hf) as (a & Ha & Hc); [lia|]. rewrite Hc.
  change (sa_of (clear_sig r t) r) with (sa_of t r) in Ha.
  change (heeded (clear_sig r t) r) with (heeded t r). destruct (heeded t r) eqn:Hh.
  - exists (verdict t r), (clear_sig r t). split; [unfold verdict; rewrite Ha; by destruct (sa_handler a =? SIG_DFL)|].
    apply so_some; [lia|unfold deliverable; by rewrite Hp, Hh|done|].
    apply (taken_step t _ n r r); [lia|lia|done|done|]. apply taken_none. intros; lia.
  - destruct (truth (t_signal (clear_sig r t))) eqn:Ht.
    + exists v, t'. split; [done|]. apply (sig_outcome_step t n r); [lia|lia|done..].
    + exists SNone, (clear_sig r t). split; [done|]. apply truth_false in Ht.
      assert (∀ i, r < i → pending (clear_sig r t) i = false) as Hz.
      { intros i Hi. unfold pending. rewrite has_shift, Ht, Z.bits_0 by lia. done. }
      apply (sig_outcome_step t n r); [lia|lia|done|done|done|]. apply so_none.
      * intros i Hi. unfold deliverable. by rewrite Hz by lia.
      * apply taken_none. intros i Hi. apply Hz. lia.
Qed.
