(* ===== verification/Stable.v ===== *)
(** * Facts about every process

    What holds of each process of the table and does not speak of the fields
    the scheduler writes is kept by all of it: this file shows so once, for
    [sched.c], [sendsig] and the calls that send signals. *)

From S2P Require Import Prelude Dlist Task Sched Runq Signal.
From stdpp Require Import base numbers functions gmap list relations.

Local Open Scope Z_scope.

Implicit Types (s : kst).

(** The slots used are those of the table, the next one to be tried is one,
    and [P] holds of each process. *)
Definition all_tasks (P : task → Prop) s : Prop :=
  map_Forall (λ p t, 0 <= p < NR_TASKS ∧ P t) (tasks s) ∧ 1 <= next_pid s < NR_TASKS.

(** [P] does not depend on the scheduler's fields, nor on the pending signals. *)
Class Local (P : task → Prop) : Prop := {
  local_view t t' : tview t = tview t' → P t → P t';
  local_signal t v : P t → P (set_t_signal v t);
}.

Section all.
Context (P : task → Prop).

Lemma all_upd p f s : (∀ t, P t → P (f t)) → all_tasks P s → all_tasks P (upd_task p f s).
Proof.
  intros Hf [Hs Hn]. split; [|done]. intros q t. simpl. destruct (decide (q = p)) as [->|Hne].
  - rewrite lookup_alter_eq. intros (t0 & Ht & ->)%fmap_Some_1. destruct (Hs p t0 Ht). split; [done|by apply Hf].
  - rewrite lookup_alter_ne by done. apply Hs.
Qed.
Lemma all_upd_cur f s : (∀ t, P t → P (f t)) → all_tasks P s → all_tasks P (upd_cur f s).
Proof. apply all_upd. Qed.
Lemma all_same s s' : tasks s' = tasks s → next_pid s' = next_pid s → all_tasks P s → all_tasks P s'.
Proof. unfold all_tasks. by intros -> ->. Qed.

Context `{!Local P}.
Lemma all_sched p f s : (∀ t, tview (f t) = tview t) → all_tasks P s → all_tasks P (upd_task p f s).
Proof. intros Hf. apply all_upd. intros t. by apply local_view. Qed.
Lemma all_sched_cur f s : (∀ t, tview (f t) = tview t) → all_tasks P s → all_tasks P (upd_cur f s).
Proof. apply all_sched. Qed.

Lemma stable_refill : stable (all_tasks P) refill.
Proof.
  assert (∀ fuel s pos tmp, all_tasks P s →
    match foreach_loop fuel run_queue tmp pos refill_one s with Some s' => all_tasks P s' | None => True end) as Hl.
  { intros fuel. induction fuel as [|fuel IH]; intros s pos tmp Hs; [done|]. simpl. case_decide; [done|]. apply IH.
    destruct tmp; [by apply all_sched|done..]. }
  intros s Hs. unfold refill, list_foreach. specialize (Hl (Datatypes.S (size (tasks s))) s (nxt s (nxt s run_queue)) (nxt s run_queue) Hs).
  by case_match.
Qed.
Lemma stable_choose fuel : stable (all_tasks P) (choose_next fuel).
Proof. pose proof stable_refill. induction fuel as [|fuel IH]; simpl; stab. Qed.
Lemma stable_schedule : stable (all_tasks P) schedule.
Proof.
  pose proof stable_choose. unfold schedule. stab; intros; apply stable_modify; intros; try (by apply all_sched_cur); by eapply all_same.
Qed.
Lemma stable_resume : stable (all_tasks P) resume.
Proof.
  unfold resume, remove_wait_queue.
  stab; intros; apply stable_modify; intros; try (by apply all_sched_cur); by eapply all_same.
Qed.
Lemma stable_sleep_on q v : stable (all_tasks P) (sleep_on q v).
Proof.
  pose proof stable_schedule. pose proof stable_resume. unfold sleep_on.
  stab; intros; apply stable_modify; intros; try (by apply all_sched_cur); by eapply all_same.
Qed.
Lemma all_wake_one p s : all_tasks P s → all_tasks P (wake_one p s).
Proof.
  intros Hs. unfold wake_one. case_match; [|done].
  apply (all_same (upd_task p (λ t, set_t_sleep_spot None (set_t_state TASK_RUNNING t)) s)); [unfold add_run; by case_match..|by apply all_sched].
Qed.
Lemma stable_wakeup q : stable (all_tasks P) (wakeup q).
Proof.
  intros s Hs. unfold wakeup. destruct (q ← q; wq_head s q) as [t|]; [|done]. generalize (size (tasks s)). intros fuel.
  revert t s Hs. induction fuel as [|fuel IH]; intros t s Hs; [done|]. simpl. pose proof (all_wake_one t s Hs) as Hw.
  destruct (wq_next (wake_one t s) t); [by apply IH|by apply all_sched_cur].
Qed.
Lemma stable_sendsig p n : stable (all_tasks P) (sendsig p n).
Proof.
  pose proof stable_wakeup. unfold sendsig. stab; intros; apply stable_modify. intros. apply all_upd; [|done]. intros. by apply local_signal.
Qed.
Lemma stable_kill_ring fuel hd pos n : stable (all_tasks P) (kill_ring fuel hd pos n).
Proof. pose proof stable_sendsig. revert pos. induction fuel as [|fuel IH]; intros pos; simpl; stab. Qed.
Lemma stable_sys_kill pid n : stable (all_tasks P) (sys_kill pid n).
Proof. pose proof stable_sendsig. pose proof stable_kill_ring. unfold sys_kill, task_slot. stab. Qed.
Lemma all_timer_slice s : all_tasks P s → all_tasks P (timer_slice s).
Proof. intros Hs. unfold timer_slice. repeat case_match; try done; by apply all_sched_cur. Qed.
End all.
