(* ===== verification/Family.v ===== *)
(** * Creating, ending and waiting for processes (kernel/fork.c, kernel/exec.c)

    The process table, the lists of children and the rings of the process
    groups.  A process is linked into the list [KClist] of its parent by its
    [KPlist], and into the ring of its group by its [KPg].  The files and the
    memory of a process are of the file system and of the allocator; here an
    allocation is told to succeed or not, and the rest of their work is left
    out. *)

From S2P Require Import Prelude Dlist Task Sched Runq Signal.
From stdpp Require Import base numbers functions gmap list relations.

Local Open Scope Z_scope.

Implicit Types (s : kst).

(** ** fork *)

(** [find_empty_process]: the loop with [i] and [j] counters of the code. *)
Fixpoint empty_loop (fuel : nat) (i : Z) : M kst Z :=
  match fuel with
  | O => mret (- EAGAIN)
  | S fuel =>
      t ← task_slot i;
      match t with
      | None =>
          modify (upd_next_pid (λ _, i mod (NR_TASKS - 1) + 1));;
          mret i
      | Some _ =>
          let i := if i =? NR_TASKS - 1 then 1 else i in
          empty_loop fuel (i + 1)
      end
  end.
Definition find_empty_process : M kst Z :=
  i ← gets next_pid;
  empty_loop (Z.to_nat NR_TASKS) i.

(** The new process, a copy of the running one; it is not in [__sleepon]. *)
Definition forked (nr : Z) (c : task) : task :=
  set_t_signal 0 (set_t_sleep_spot None (set_t_ppid (t_pid c) (set_t_pid nr (set_t_alarm 0
    (set_t_cutime 0 (set_t_cstime 0 (set_t_utime 0 (set_t_stime 0 (set_t_frame None c))))))))).
Definition copy_process (nr : Z) (page dir mmaps : bool) : M kst Z :=
  if negb page then mret (- EAGAIN)
  else if negb dir then mret (- EAGAIN)
  else if negb mmaps then mret (- ENOMEM)
  else
    c ← gets current;
    t ← gets cur;
    modify (list_head_init (KClist nr));;
    modify (list_add_head (KClist c) (KPlist nr));;
    modify (list_add_head (KPg c) (KPg nr));;
    modify (upd_tasks <[nr := forked nr t]>);;
    modify (add_run nr);;
    modify (upd_cur (set_t_need_sched true));;
    mret 0.
(** [sys_fork] and [kernel_thread] *)
Definition sys_fork (page dir mmaps : bool) : M kst Z :=
  i ← find_empty_process;
  if i <? 0 then mret i
  else
    ret ← copy_process i page dir mmaps;
    if ret <? 0 then mret ret else mret i.

(** ** exit *)

Definition SA_NOCLDSTOP : Z := 1.

(** [list_foreach(tmp, pos, &current->clist)] *)
Definition adopt (p : kptr) (s : kst) : kst :=
  match p with
  | KPlist t => list_add_tail (KClist INITPID) p (list_del p (upd_task t (set_t_ppid INITPID) s))
  | _ => s
  end.
(** A loop over a list of the process table. *)
Definition each (hd : kptr) (body : kptr → kst → kst) : M kst unit := λ s,
  match list_foreach (S (size (tasks s))) hd body s with
  | Some s' => Ret tt s'
  | None => Die
  end.
Definition on_group (f : task → task) (p : kptr) (s : kst) : kst :=
  match p with KPg j => upd_task j f s | _ => s end.

(** The children become those of the init process. *)
Definition leave_children : M kst unit :=
  c ← gets current;
  e ← gets (list_empty (KClist c));
  when (negb e)
    (each (KClist c) adopt;;
     q ← gets (λ s, t_sleep_spot (task_at s INITPID));
     wakeup q).
(** The terminal and the process group. *)
Definition leave_group : M kst unit :=
  c ← gets current;
  t ← gets cur;
  o ← gets (λ s, zget (owners s) (t_tty t - 1));
  let owned := negb (t_tty t =? NOTTY) && bool_decide (o = Some (t_pid t)) in
  e ← gets (list_empty (KPg c));
  if negb e then
    nx ← gets (λ s, nxt s (KPg c));
    (if owned then
       modify (upd_owners (zset (t_tty t - 1) 0));;
       each (KPg c) (on_group (set_t_tty NOTTY))
     else mret tt);;
    (if t_pid t =? t_pgid t then
       match nx with
       | KPg j =>
           pgid ← gets (λ s, t_pid (task_at s j));
           each (KPg c) (on_group (set_t_pgid pgid))
       | _ => die
       end
     else mret tt);;
    modify (list_del (KPg c))
  else when owned (modify (upd_owners (zset (t_tty t - 1) 0))).

(** [do_exit] from where the files and mappings are gone. *)
Definition exit_process (exitcode : Z) : M kst unit :=
  modify (upd_cur (set_t_alarm 0));;
  c ← gets current;
  pp ← gets (λ s, t_ppid (cur s));
  leave_children;;
  p ← gets (λ s, task_at s pp);
  a ← from_opt (sa_of p (SIGCHLD - 1));
  when (negb (has (sa_flags a) SA_NOCLDSTOP)) (sendsig pp SIGCHLD);;
  leave_group;;
  modify (del_run c);;
  modify (upd_cur (set_t_state TASK_ZOMBIE));;
  modify (upd_cur (set_t_exit_code exitcode));;
  p ← gets (λ s, task_at s pp);
  when (0 <? t_exit_code p) (wakeup (t_sleep_spot p));;
  schedule;;
  resume.

(** ** wait *)

Definition WNOHANG : Z := 1.
Definition WUNTRACED : Z := 2.

(** A call returns a number, with the status stored, or the process sleeps and
    goes on later. *)
Inductive waited :=
  | WRet (ret : Z) (status : option Z)
  | WSlept.

(** [list_foreach(tmp, pos, &current->clist)] with the [t] it ends with: the
    first that passes [stop], else the last one seen that passes [ok]. *)
Fixpoint child_loop (fuel : nat) (hd tmp : kptr) (ok stop : task → bool) (sel : option Z) (s : kst) : option (option Z) :=
  match fuel with
  | O => None
  | S fuel =>
      if decide (tmp = hd) then Some sel
      else
        match tmp with
        | KPlist p =>
            let t := task_at s p in
            if ok t then
              if stop t then Some (Some p) else child_loop fuel hd (nxt s tmp) ok stop (Some p) s
            else child_loop fuel hd (nxt s tmp) ok stop sel s
        | _ => None
        end
  end.
Definition child (ok stop : task → bool) : M kst (option Z) :=
  c ← gets current;
  r ← gets (λ s, child_loop (S (size (tasks s))) (KClist c) (nxt s (KClist c)) ok stop None s);
  from_opt r.

Definition zombie (t : task) : bool := t_state t =? TASK_ZOMBIE.

(** The child leaves the table. *)
Definition reap (p : Z) (status : bool) : M kst waited :=
  t ← gets (λ s, task_at s p);
  modify (list_del (KPlist p));;
  modify (upd_tasks (delete (t_pid t)));;
  mret (WRet (t_pid t) (if status then Some (t_exit_code t) else None)).

(** Where the process goes to sleep; [wait] is where its variable is. *)
Definition wait_sleep (wait : Z) : M kst waited :=
  modify (upd_cur (set_t_exit_code 1));;
  sleep_own wait;;
  mret WSlept.
(** What it does when it goes on: [true] when a signal but [SIGCHLD] came. *)
Definition wait_woken : M kst bool :=
  modify (upd_cur (set_t_exit_code 0));;
  t ← gets cur;
  mret (truth (t_signal t) && negb (has (t_signal t) (Z.shiftl 1 (SIGCHLD - 1)))).

(** From [check_again]. *)
Definition wait_check (wait : Z) (status : bool) (option : Z) : M kst waited :=
  t ← child (λ _, true) zombie;
  t ← from_opt t;
  z ← gets (λ s, zombie (task_at s t));
  if (z : bool) then reap t status
  else if option =? WNOHANG then mret (WRet 0 None)
  else wait_sleep wait.
Definition do_wait (wait : Z) (status : bool) (option : Z) : M kst waited :=
  c ← gets current;
  e ← gets (list_empty (KClist c));
  if (e : bool) then mret (WRet (- ECHILD) None)
  else wait_check wait status option.
(** [do_wait] after its [sleepon]. *)
Definition do_wait_again (wait : Z) (status : bool) (option : Z) : M kst waited :=
  intr ← wait_woken;
  if (intr : bool) then mret (WRet (- EINTR) None)
  else wait_check wait status option.

(** From [do_again]. *)
Definition waitpid_check (wait pid : Z) (status : bool) (option : Z) : M kst waited :=
  if pid =? -1 then do_wait wait status option
  else
    c ← gets cur;
    t1 ← (if 0 <? pid then child (λ t, t_pid t =? pid) (λ _, true)
          else child (λ t, t_pgid t =? (if pid =? 0 then t_pgid c else - pid)) zombie);
    match t1 with
    | None => mret (WRet (- ECHILD) None)
    | Some t1 =>
        t ← gets (λ s, task_at s t1);
        if negb (zombie t) && (option =? WNOHANG) then mret (WRet 0 None)
        else if zombie t then reap t1 status
        else if (t_state t =? TASK_STOPPED) && (option =? WUNTRACED) then mret (WRet pid None)
        else wait_sleep wait
    end.
Definition do_waitpid (wait pid : Z) (status : bool) (option : Z) : M kst waited :=
  c ← gets current;
  e ← gets (list_empty (KClist c));
  if (e : bool) then mret (WRet (- ECHILD) None)
  else if negb (option =? 0) && negb (option =? WNOHANG) && negb (option =? WUNTRACED) then mret (WRet (- EINVAL) None)
  else waitpid_check wait pid status option.
(** [do_waitpid] after [wait_for_child] slept; with [pid] -1 it is
    [do_wait] that did. *)
Definition do_waitpid_again (wait pid : Z) (status : bool) (option : Z) : M kst waited :=
  if pid =? -1 then do_wait_again wait status option
  else
    intr ← wait_woken;
    if (intr : bool) then mret (WRet (- EINTR) None)
    else waitpid_check wait pid status option.
