(* ===== verification/Sigframe.v ===== *)
(** * Calling a signal handler and returning from it (kernel/signal.c)

    Before a process goes back to its program the kernel looks for a signal.
    To call a handler it saves the registers and the code of the way back on
    the stack of the program.  The registers of the program are passed to the
    definitions and returned changed; the memory of the program is a function
    from addresses to bytes. *)

From S2P Require Import Prelude Dlist Task Sched Runq Signal Stable Family.
From stdpp Require Import base numbers functions gmap list relations.

Local Open Scope Z_scope.

Implicit Types (s : kst).

(** A register holds an unsigned 32-bit number. *)
Record regs_t := Regs {
  r_ebx : Z; r_ecx : Z; r_edx : Z; r_esi : Z; r_edi : Z; r_ebp : Z; r_eax : Z; r_ds : Z; r_es : Z; r_index : Z;
  r_eip : Z; r_cs : Z; r_eflags : Z; r_esp : Z; r_ss : Z;
}.
Definition regs_words (r : regs_t) : list Z := [
  r_ebx r; r_ecx r; r_edx r; r_esi r; r_edi r; r_ebp r; r_eax r; r_ds r; r_es r; r_index r;
  r_eip r; r_cs r; r_eflags r; r_esp r; r_ss r].
Definition set_eip_esp (eip esp : Z) (r : regs_t) : regs_t :=
  Regs (r_ebx r) (r_ecx r) (r_edx r) (r_esi r) (r_edi r) (r_ebp r) (r_eax r) (r_ds r) (r_es r) (r_index r)
    eip (r_cs r) (r_eflags r) esp (r_ss r).
Definition set_segments (r : regs_t) : regs_t :=
  Regs (r_ebx r) (r_ecx r) (r_edx r) (r_esi r) (r_edi r) (r_ebp r) (r_eax r) 0x23 0x23 (r_index r)
    (r_eip r) (r_cs r) (r_eflags r) (r_esp r) 0x23.

(** ** The memory of the program *)
Definition umem : Type := Z → Z.
Definition store8 (a v : Z) (m : umem) : umem := λ x, if x =? a then v else m x.
Definition store32 (a v : Z) (m : umem) : umem := λ x,
  if (a <=? x) && (x <? a + 4) then v / 256 ^ (x - a) mod 256 else m x.
Definition load32 (a : Z) (m : umem) : Z := m a + 256 * m (a + 1) + 256 ^ 2 * m (a + 2) + 256 ^ 3 * m (a + 3).
Fixpoint store_words (a : Z) (ws : list Z) (m : umem) : umem :=
  match ws with [] => m | w :: ws => store_words (a + 4) ws (store32 a w m) end.
Fixpoint store_bytes (a : Z) (bs : list Z) (m : umem) : umem :=
  match bs with [] => m | b :: bs => store_bytes (a + 1) bs (store8 a b m) end.
Definition load_regs (a : Z) (m : umem) : regs_t :=
  let w i := load32 (a + 4 * i) m in
  Regs (w 0) (w 1) (w 2) (w 3) (w 4) (w 5) (w 6) (w 7) (w 8) (w 9) (w 10) (w 11) (w 12) (w 13) (w 14).

(** [movl $__NR_sigreturn, %eax; int $0x80] *)
Definition retcode : list Z := [0xb8; 0x77; 0x00; 0x00; 0x00; 0xcd; 0x80].
Definition REGS_SIZE : Z := 60.
Definition FRAME_SIZE : Z := 52.
(** [sf_retcode] is behind [sf_retaddr] and [sf_siginfo]. *)
Definition RETCODE : Z := 16.

(** The frame of a handler, built at [frameptr] below the saved registers. *)
Definition build_frame (regsave frameptr signum : Z) (oldregs : regs_t) (m : umem) : umem :=
  let m := store_words regsave (regs_words oldregs) m in
  let m := store32 frameptr (u32 (frameptr + RETCODE)) m in
  let m := store32 (frameptr + 4) (signum + 1) m in
  let m := store32 (frameptr + 8) (u32 (-1)) m in
  let m := store32 (frameptr + 12) 0 m in
  let m := store_bytes (frameptr + RETCODE) retcode m in
  store32 (frameptr + 48) 0 m.

(** What is done about the signal found. *)
Definition signal_act (oldregs : regs_t) (m : umem) (v : sigverdict) : M kst (regs_t * umem) :=
  match v with
  | SNone => mret (oldregs, m)
  | SExit code => exit_process code;; mret (oldregs, m)
  | SCall signum a =>
      modify (upd_cur (λ t, set_t_blocked_saved (t_blocked t) t));;
      modify (upd_cur (set_t_blocked (sa_mask a)));;
      let regsave := u32 (r_esp oldregs - REGS_SIZE) in
      let frameptr := u32 (regsave - FRAME_SIZE) in
      mret (set_eip_esp (u32 (sa_handler a)) frameptr oldregs, build_frame regsave frameptr signum oldregs m)
  end.
Definition do_with_signal (oldregs : regs_t) (m : umem) : M kst (regs_t * umem) :=
  t ← gets cur;
  die_if (negb (truth (t_signal t)));;
  r ← from_opt (signal_loop (S (Z.to_nat SIGNR)) (-1) t);
  modify (upd_cur (set_t_signal (t_signal r.2)));;
  signal_act oldregs m r.1.

Definition do_sigreturn (regs : regs_t) (m : umem) : M kst regs_t :=
  let regsave := load_regs (u32 (r_esp regs - 4 + FRAME_SIZE)) m in
  if r_cs regsave =? 0x1b then
    t ← gets cur;
    when (truth (t_blocked_saved t))
      (modify (upd_cur (λ t, set_t_blocked (t_blocked_saved t) t));;
       modify (upd_cur (set_t_blocked_saved 0)));;
    mret (set_segments regsave)
  else mret regs.
(** The result goes to the saved [%eax]. *)
Definition sys_sigreturn (regs : regs_t) (m : umem) : M kst (Z * regs_t) :=
  regs ← do_sigreturn regs m;
  mret (r_eax regs, regs).

(** ** What is stored is read back *)

Definition word_ok (w : Z) : Prop := 0 <= w < 2 ^ 32.
Definition regs_ok (r : regs_t) : Prop := Forall word_ok (regs_words r).

Lemma load32_ext a m m' : (∀ x, a <= x < a + 4 → m' x = m x) → load32 a m' = load32 a m.
Proof. intros H. unfold load32. by rewrite !H by lia. Qed.
Lemma store32_other a v m x : x < a ∨ a + 4 <= x → store32 a v m x = m x.
Proof. intros H. unfold store32. destruct (Z.leb_spec a x), (Z.ltb_spec x (a + 4)); simpl; done || lia. Qed.
Lemma load32_store32 a v m : word_ok v → load32 a (store32 a v m) = v.
Proof.
  unfold word_ok. intros Hv. assert (∀ i, 0 <= i < 4 → store32 a v m (a + i) = v / 256 ^ i mod 256) as Hb.
  { intros i Hi. unfold store32. rewrite (proj2 (Z.leb_le _ _)), (proj2 (Z.ltb_lt _ _)) by lia. simpl. by replace (a + i - a) with i by lia. }
  assert (store32 a v m a = v mod 256) as H0 by (rewrite <-(Z.add_0_r a) at 2; rewrite Hb by lia; by rewrite Z.div_1_r).
  unfold load32. rewrite H0, !Hb by lia. change (256 ^ 1) with 256.
  change (256 ^ 2) with 65536. change (256 ^ 3) with 16777216.
  pose proof (Z.div_mod v 256 ltac:(lia)). pose proof (Z.div_mod (v / 256) 256 ltac:(lia)) as H1. pose proof (Z.div_mod (v / 65536) 256 ltac:(lia)) as H2.
  rewrite Z.div_div in H1, H2 by lia. change (256 * 256) with 65536 in H1. change (65536 * 256) with 16777216 in H2.
  assert (v / 16777216 < 256) by (apply Z.div_lt_upper_bound; lia). pose proof (Z.div_pos v 16777216 ltac:(lia) ltac:(lia)).
  rewrite (Z.mod_small (v / 16777216)) by lia. lia.
Qed.
Lemma store_words_other a ws m x : x < a ∨ a + 4 * zlen ws <= x → store_words a ws m x = m x.
Proof.
  revert a m. induction ws as [|w ws IH]; intros a m Hx; [done|]. unfold zlen in *. simpl in *.
  rewrite IH by lia. apply store32_other. lia.
Qed.
Lemma load_store_words a ws m (i : nat) w : Forall word_ok ws → ws !! i = Some w → load32 (a + 4 * Z.of_nat i) (store_words a ws m) = w.
Proof.
  revert a m i. induction ws as [|v ws IH]; intros a m i Hw Hi; [done|]. apply Forall_cons in Hw as [Hv Hw]. destruct i as [|i]; simpl in *.
  - injection Hi as ->. rewrite Z.add_0_r. etransitivity; [|by apply (load32_store32 a w m)]. apply load32_ext. intros x Hx.
    apply store_words_other. lia.
  - replace (a + 4 * Z.of_nat (S i)) with (a + 4 + 4 * Z.of_nat i) by lia. by apply IH.
Qed.
Lemma store_bytes_other a bs m x : x < a ∨ a + zlen bs <= x → store_bytes a bs m x = m x.
Proof.
  revert a m. induction bs as [|b bs IH]; intros a m Hx; [done|]. unfold zlen in *. simpl in *. rewrite IH by lia.
  unfold store8. rewrite (proj2 (Z.eqb_neq x a)) by lia. done.
Qed.
Lemma store_bytes_at a bs m (i : nat) b : bs !! i = Some b → store_bytes a bs m (a + Z.of_nat i) = b.
Proof.
  revert a m i. induction bs as [|v bs IH]; intros a m i Hi; [done|]. destruct i as [|i]; simpl in *.
  - injection Hi as ->. rewrite store_bytes_other by lia. unfold store8. by rewrite Z.add_0_r, Z.eqb_refl.
  - replace (a + Z.of_nat (S i)) with (a + 1 + Z.of_nat i) by lia. by apply IH.
Qed.

Lemma load_regs_stored a r m : regs_ok r → load_regs a (store_words a (regs_words r) m) = r.
Proof.
  intros Hr. pose proof (λ i w, load_store_words a (regs_words r) m i w Hr) as H. destruct r. unfold load_regs.
  f_equal; [by apply (H 0%nat)|by apply (H 1%nat)|by apply (H 2%nat)|by apply (H 3%nat)|by apply (H 4%nat)|by apply (H 5%nat)|by apply (H 6%nat)|
    by apply (H 7%nat)|by apply (H 8%nat)|by apply (H 9%nat)|by apply (H 10%nat)|by apply (H 11%nat)|by apply (H 12%nat)|by apply (H 13%nat)|
    by apply (H 14%nat)].
Qed.
Lemma load_regs_ext a m m' : (∀ x, a <= x < a + REGS_SIZE → m' x = m x) → load_regs a m' = load_regs a m.
Proof.
  unfold REGS_SIZE. intros H. unfold load_regs. f_equal; apply load32_ext; intros x Hx; apply H; lia.
Qed.

(** The frame below the registers leaves them alone. *)
Lemma build_frame_regs f n r m : regs_ok r → load_regs (f + FRAME_SIZE) (build_frame (f + FRAME_SIZE) f n r m) = r.
Proof.
  intros Hr. etransitivity; [|by apply (load_regs_stored (f + FRAME_SIZE) r m)]. apply load_regs_ext. intros x Hx.
  unfold build_frame, FRAME_SIZE, RETCODE in *. rewrite !store32_other, store_bytes_other, !store32_other by (change (zlen retcode) with 7; lia). done.
Qed.
(** The handler finds the way back, and the number of the signal. *)
Lemma build_frame_code f n r m : word_ok (f + RETCODE) → word_ok (n + 1) → let m' := build_frame (f + FRAME_SIZE) f n r m in
  load32 f m' = f + RETCODE ∧ load32 (f + 4) m' = n + 1 ∧ ∀ (i : nat) b, retcode !! i = Some b → m' (f + RETCODE + Z.of_nat i) = b.
Proof.
  intros Hf Hn. unfold build_frame, RETCODE, FRAME_SIZE in *. cbv zeta.
  assert (u32 (f + 16) = f + 16) as -> by (by apply u32_small). split; [|split].
  - etransitivity; [|by apply (load32_store32 f (f + 16) (store_words (f + 52) (regs_words r) m))]. apply load32_ext. intros x Hx.
    rewrite !store32_other, store_bytes_other, !store32_other by (change (zlen retcode) with 7; lia). done.
  - etransitivity; [|by apply (load32_store32 (f + 4) (n + 1) (store32 f (f + 16) (store_words (f + 52) (regs_words r) m)))].
    apply load32_ext. intros x Hx. rewrite store32_other, store_bytes_other, !store32_other by (change (zlen retcode) with 7; lia). done.
  - intros i b Hb. assert (i < 7)%nat by (by apply lookup_lt_Some in Hb). rewrite store32_other by lia. by apply store_bytes_at.
Qed.

(** ** The theorems *)

(** C0. [do_with_signal] serves the lowest signal that is pending, not blocked
    and not ignored: its handler is called, or the process ends with the number
    of the signal.  The signals below it that are ignored are dropped, the
    blocked ones and those above it stay pending.  With no such signal the
    program goes on. *)
Theorem signal_delivery s regs m : full (cur s) → 1 < t_pid (cur s) → t_signal (cur s) ≠ 0 → ∃ v t', sig_outcome (cur s) (-1) v t' ∧
  do_with_signal regs m s = signal_act regs m v (upd_cur (set_t_signal (t_signal t')) s).
Proof.
  intros Hf Hp Hs. destruct (signal_loop_spec (S (Z.to_nat SIGNR)) (-1) (cur s) Hf Hp) as (v & t' & He & Ho); [done|done|].
  exists v, t'. split; [done|]. unfold do_with_signal. mstep. rewrite (proj2 (truth_true _) Hs). simpl die_if. mstep.
  rewrite He. simpl from_opt. by mstep.
Qed.

(** C0. [anysig], which the calls that sleep ask after waking, answers yes
    exactly when [do_with_signal] would find a signal to serve. *)
Theorem anysig_exact s p : full (cur s) → ∃ b, anysig p s = Ret b s ∧ (b = true ↔ ∃ n, 0 <= n < SIGNR ∧ deliverable (cur s) n = true).
Proof.
  intros Hf. unfold anysig. mstep. destruct (Z.eq_dec (t_signal (cur s)) 0) as [E|E].
  - rewrite (proj2 (truth_false _) E). exists false. split; [done|]. split; [done|]. intros (n & Hn & Hd). unfold deliverable, pending in Hd.
    rewrite has_shift, E, Z.bits_0 in Hd by lia. done.
  - rewrite (proj2 (truth_true _) E). destruct (anysig_loop_spec (S (Z.to_nat SIGNR)) (-1) (cur s) Hf) as (b & -> & Hb); [done|done|done|].
    exists b. split; [done|]. rewrite Hb. split; intros (n & Hn & Hd); exists n; (split; [lia|done]).
Qed.

Section handler.
Context (oldregs : regs_t) (m : umem) (n : Z) (Hr : regs_ok oldregs) (Hesp : REGS_SIZE + FRAME_SIZE <= r_esp oldregs).
Let f : Z := r_esp oldregs - (REGS_SIZE + FRAME_SIZE).

Local Lemma frame_addr : u32 (r_esp oldregs - REGS_SIZE) = f + FRAME_SIZE ∧ u32 (f + FRAME_SIZE - FRAME_SIZE) = f ∧ word_ok (f + RETCODE).
Proof.
  assert (word_ok (r_esp oldregs)) as He by (unfold regs_ok in Hr; rewrite Forall_forall in Hr; apply Hr; unfold regs_words; set_solver).
  unfold word_ok, f, REGS_SIZE, FRAME_SIZE, RETCODE in *. rewrite !u32_small by lia. lia.
Qed.
Lemma handler_called s a : alive s (current s) → ∃ s1, signal_act oldregs m (SCall n a) s =
    Ret (set_eip_esp (u32 (sa_handler a)) f oldregs, build_frame (f + FRAME_SIZE) f n oldregs m) s1 ∧
  alive s1 (current s1) ∧ t_blocked (cur s1) = sa_mask a ∧ t_blocked_saved (cur s1) = t_blocked (cur s).
Proof.
  intros Ha. destruct frame_addr as (E1 & E2 & _). unfold signal_act. mstep. rewrite E1, E2. eexists. split; [done|].
  unfold cur, upd_cur. simpl. rewrite !alive_upd. split; [done|]. rewrite task_at_alive by by rewrite alive_upd. by rewrite task_at_alive.
Qed.
Lemma handler_returns s1 regs2 m2 : r_cs oldregs = 0x1b → alive s1 (current s1) → r_esp regs2 = f + 4 →
  (∀ x, f + FRAME_SIZE <= x < r_esp oldregs → m2 x = build_frame (f + FRAME_SIZE) f n oldregs m x) →
  ∃ s2, do_sigreturn regs2 m2 s1 = Ret (set_segments oldregs) s2 ∧
    t_blocked (cur s2) = if t_blocked_saved (cur s1) =? 0 then t_blocked (cur s1) else t_blocked_saved (cur s1).
Proof.
  intros Hcs Ha Hr2 Hm2. destruct frame_addr as (E1 & _ & Hok). unfold do_sigreturn. rewrite Hr2.
  assert (u32 (f + 4 - 4 + FRAME_SIZE) = f + FRAME_SIZE) as ->.
  { rewrite <-E1. replace (f + 4 - 4 + FRAME_SIZE) with (r_esp oldregs - REGS_SIZE); [done|]. unfold f. lia. }
  assert (load_regs (f + FRAME_SIZE) m2 = oldregs) as ->.
  { rewrite (load_regs_ext _ (build_frame (f + FRAME_SIZE) f n oldregs m)); [by apply build_frame_regs|].
    intros x Hx. apply Hm2. unfold f, REGS_SIZE, FRAME_SIZE in *. lia. }
  rewrite Hcs. simpl. mstep. unfold truth. destruct (t_blocked_saved (cur s1) =? 0) eqn:E; simpl when.
  - exists s1. done.
  - mstep. eexists. split; [done|]. unfold cur, upd_cur. simpl. rewrite (task_at_field t_blocked) by done. by rewrite task_at_alive.
Qed.
End handler.

(** C0. A handler is called on the stack of the program and the program goes on
    after it as if nothing had happened.  The call gets a frame with the number
    of the signal, the way back and its code, and memory outside of the frame is
    not touched; the signals of the action's mask are blocked.  When the handler
    has returned, whatever it did to the registers, [do_sigreturn] restores all
    registers but the data segments, which it sets.  The mask is restored when it
    was not empty; an empty mask is not restored, the mask of the action stays. *)
Theorem handler_roundtrip s oldregs m n a : alive s (current s) → 0 <= n < SIGNR → regs_ok oldregs →
  REGS_SIZE + FRAME_SIZE <= r_esp oldregs → r_cs oldregs = 0x1b →
  ∃ regs1 m1 s1, signal_act oldregs m (SCall n a) s = Ret (regs1, m1) s1 ∧
    r_eip regs1 = u32 (sa_handler a) ∧ t_blocked (cur s1) = sa_mask a ∧
    load32 (r_esp regs1) m1 = r_esp regs1 + RETCODE ∧ load32 (r_esp regs1 + 4) m1 = n + 1 ∧
    (∀ (i : nat) b, retcode !! i = Some b → m1 (r_esp regs1 + RETCODE + Z.of_nat i) = b) ∧
    (∀ x, x < r_esp regs1 ∨ r_esp oldregs <= x → m1 x = m x) ∧
    ∀ regs2 m2, r_esp regs2 = r_esp regs1 + 4 → (∀ x, r_esp regs1 + FRAME_SIZE <= x < r_esp oldregs → m2 x = m1 x) →
      ∃ s2, do_sigreturn regs2 m2 s1 = Ret (set_segments oldregs) s2 ∧
        t_blocked (cur s2) = if t_blocked (cur s) =? 0 then sa_mask a else t_blocked (cur s).
Proof.
  intros Ha Hn Hr He Hcs. destruct (handler_called oldregs m n Hr He s a Ha) as (s1 & E1 & Ha1 & Hb & Hs). set (f := r_esp oldregs - _) in *.
  eexists _, _, s1. split; [exact E1|]. destruct (frame_addr oldregs Hr He) as (_ & _ & Hok).
  destruct (build_frame_code f n oldregs m Hok) as (B1 & B2 & B3); [unfold word_ok, SIGNR in *; lia|].
  split; [done|]. split; [done|]. split; [done|]. split; [done|]. split; [done|]. split.
  - intros x Hx. change (x < f ∨ r_esp oldregs <= x) in Hx. unfold build_frame, f, REGS_SIZE, FRAME_SIZE, RETCODE in *.
    rewrite store32_other, store_bytes_other, !store32_other, store_words_other by
      (change (zlen retcode) with 7; change (zlen (regs_words oldregs)) with 15; lia). done.
  - intros regs2 m2 H2 Hm2. destruct (handler_returns oldregs m n Hr He s1 regs2 m2 Hcs Ha1 H2 Hm2) as (s2 & E2 & Hb2).
    exists s2. split; [done|]. by rewrite Hb2, Hb, Hs.
Qed.

(** ** Process 2 of the small system of Runq.v gets SIGTERM *)
Definition demo_sig : kst := upd_cur (set_t_signal (Z.shiftl 1 14)) demo2.
Definition demo_regs : regs_t := Regs 1 2 3 4 5 6 7 0x23 0x23 0 0x40001000 0x1b 0x202 0x7ffff000 0x23.
Lemma signal_delivery_witness : ∃ v t', sig_outcome (cur demo_sig) (-1) v t' ∧
  do_with_signal demo_regs (λ _, 0) demo_sig = signal_act demo_regs (λ _, 0) v (upd_cur (set_t_signal (t_signal t')) demo_sig).
Proof. apply (signal_delivery demo_sig demo_regs (λ _, 0)); by vm_compute. Defined.
Lemma anysig_exact_witness : ∃ b, anysig 2 demo_sig = Ret b demo_sig ∧ (b = true ↔ ∃ n, 0 <= n < SIGNR ∧ deliverable (cur demo_sig) n = true).
Proof. apply (anysig_exact demo_sig 2). by vm_compute. Defined.
Lemma handler_roundtrip_witness : ∃ regs1 m1 s1, signal_act demo_regs (λ _, 0) (SCall 14 (Sigaction 0x40002000 1 0)) demo2 = Ret (regs1, m1) s1 ∧
  load32 (r_esp regs1 + 4) m1 = 15.
Proof.
  destruct (handler_roundtrip demo2 demo_regs (λ _, 0) 14 (Sigaction 0x40002000 1 0)) as (regs1 & m1 & s1 & H1 & _ & _ & _ & H2 & _).
  - unfold alive. rewrite <-not_eq_None_Some. by vm_compute.
  - done.
  - by repeat constructor.
  - done.
  - done.
  - exact (ex_intro _ regs1 (ex_intro _ m1 (ex_intro _ s1 (conj H1 H2)))).
Defined.
