(* ===== verification/Proc.v ===== *)
(** * System calls on processes (kernel/syscall.c)

    User and group numbers, process groups and sessions, limits, masks and I/O
    permissions.  A [uid_t] is a [short] and a [gid_t] a [char]: an argument is
    cut to its width. *)

From S2P Require Import Prelude Dlist Task Sched Runq Signal Stable Family.
From stdpp Require Import base numbers functions gmap list relations.

Local Open Scope Z_scope.

Implicit Types (s : kst).

Definition s16 (z : Z) : Z := (z + 2 ^ 15) mod 2 ^ 16 - 2 ^ 15.
Definition s8 (z : Z) : Z := (z + 2 ^ 7) mod 2 ^ 8 - 2 ^ 7.

(** ** User and group numbers *)

Definition sys_getuid : M kst Z := gets (λ s, t_uid (cur s)).
Definition sys_geteuid : M kst Z := gets (λ s, t_euid (cur s)).
Definition sys_getgid : M kst Z := gets (λ s, t_gid (cur s)).
Definition sys_getegid : M kst Z := gets (λ s, t_egid (cur s)).

Definition sys_setuid (uid : Z) : M kst Z :=
  let uid := s16 uid in
  c ← gets cur;
  if t_euid c =? SU_UID then
    modify (upd_cur (λ t, set_t_suid uid (set_t_euid uid (set_t_uid uid t))));; mret 0
  else if (uid =? t_uid c) || (uid =? t_suid c) then
    modify (upd_cur (set_t_euid uid));; mret 0
  else mret (- EPERM).
Definition sys_setgid (gid : Z) : M kst Z :=
  let gid := s8 gid in
  c ← gets cur;
  if t_egid c =? SU_UID then
    modify (upd_cur (λ t, set_t_sgid gid (set_t_egid gid (set_t_gid gid t))));; mret 0
  else if (gid =? t_gid c) || (gid =? t_sgid c) then
    modify (upd_cur (set_t_egid gid));; mret 0
  else mret (- EPERM).
Definition sys_setreuid (ruid euid : Z) : M kst Z :=
  let ruid := s16 ruid in
  let euid := s16 euid in
  c ← gets cur;
  if t_euid c =? SU_UID then
    modify (upd_cur (λ t, set_t_euid euid (set_t_uid ruid t)));; mret 0
  else if negb (ruid =? t_uid c) && negb (ruid =? t_euid c) then mret (- EPERM)
  else if negb (euid =? t_uid c) && negb (euid =? t_suid c) then mret (- EPERM)
  else modify (upd_cur (λ t, set_t_euid euid (set_t_uid ruid t)));; mret 0.
Definition sys_setregid (rgid egid : Z) : M kst Z :=
  let rgid := s8 rgid in
  let egid := s8 egid in
  c ← gets cur;
  if t_egid c =? SU_UID then
    modify (upd_cur (λ t, set_t_egid egid (set_t_gid rgid t)));; mret 0
  else if negb (rgid =? t_gid c) && negb (rgid =? t_egid c) then mret (- EPERM)
  else if negb (egid =? t_gid c) && negb (egid =? t_sgid c) then mret (- EPERM)
  else modify (upd_cur (λ t, set_t_egid egid (set_t_gid rgid t)));; mret 0.

(** [list] is a pointer, given with the first number it points to. *)
Definition sys_getgroups (size list : Z) : M kst (Z * option Z) :=
  b ← gets (ckuser list size);
  c ← gets cur;
  if (b : bool) then mret (- EFAULT, None)
  else if size <=? 0 then mret (0, None)
  else if negb (truth list) then mret (- EFAULT, None)
  else mret (1, Some (t_gid c)).
Definition sys_setgroups (size : Z) (list : Z * Z) : M kst Z :=
  b ← gets (ckuser list.1 size);
  c ← gets cur;
  if (b : bool) then mret (- EFAULT)
  else if size <=? 0 then mret 0
  else if negb (truth list.1) then mret (- EFAULT)
  else if negb (t_euid c =? SU_UID) && negb (t_egid c =? SU_GID) then mret (- EPERM)
  else modify (upd_cur (set_t_gid (s8 list.2)));; mret 1.

(** ** Process groups and sessions *)

Definition sys_getpid : M kst Z := gets (λ s, t_pid (cur s)).
Definition sys_getppid : M kst Z := gets (λ s, t_ppid (cur s)).
Definition sys_getpgrp : M kst Z := gets (λ s, t_pgid (cur s)).
Definition bad_pid (pid : Z) : bool := (pid <? 0) || (NR_TASKS - 1 <? pid).

Definition sys_getpgid (pid : Z) : M kst Z :=
  c ← gets cur;
  if pid =? 0 then mret (t_pgid c)
  else if bad_pid pid then mret (- EINVAL)
  else
    t ← task_slot pid;
    match t with
    | None => mret (- ESRCH)
    | Some t => if negb (t_pid c =? pid) && negb (t_pid c =? t_ppid t) then mret (- EPERM) else mret (t_pgid t)
    end.
Definition sys_getsid (pid : Z) : M kst Z :=
  c ← gets cur;
  if bad_pid pid then mret (- EINVAL)
  else if pid =? 0 then mret (t_session c)
  else
    t ← task_slot pid;
    match t with
    | None => mret (- ESRCH)
    | Some t => if negb (t_session c =? t_session t) then mret (- EPERM) else mret (t_session t)
    end.

(** The process leaves its group: its terminal and its place in the ring. *)
Definition quit_group (pid : Z) : M kst unit :=
  t ← gets (λ s, task_at s pid);
  o ← gets (λ s, zget (owners s) (t_tty t - 1));
  let owned := negb (t_tty t =? NOTTY) && bool_decide (o = Some (t_pid t)) in
  e ← gets (list_empty (KPg pid));
  if negb e then
    nx ← gets (λ s, nxt s (KPg pid));
    match nx with
    | KPg j =>
        t1 ← gets (λ s, task_at s j);
        when owned (modify (upd_owners (zset (t_tty t - 1) (t_pid t1))));;
        when (t_pid t =? t_pgid t) (each (KPg pid) (on_group (set_t_pgid (t_pid t1))));;
        modify (list_del1 (KPg pid))
    | _ => die
    end
  else when owned (modify (upd_owners (zset (t_tty t - 1) 0))).
Definition sys_setpgid (pid pgid : Z) : M kst Z :=
  if bad_pid pid then mret (- EINVAL)
  else if bad_pid pgid then mret (- EINVAL)
  else
    t ← task_slot pid;
    g ← task_slot pgid;
    match t, g with
    | Some t, Some g =>
        if negb (t_session t =? t_session g) then mret (- EPERM)
        else
          c ← gets cur;
          let pid := if pid =? 0 then t_pid c else pid in
          t ← task_slot pid;
          t ← from_opt t;
          if t_pgid t =? pgid then mret 0
          else if (pid =? pgid) && (t_pgid t =? pid) then mret 0
          else if negb (pid =? pgid) && negb (t_pid g =? t_pgid g) then mret (- EINVAL)
          else if negb (t_pid c =? pid) && negb (t_pid c =? t_ppid t) then mret (- EPERM)
          else
            quit_group pid;;
            modify (upd_task pid (set_t_pgid pgid));;
            g ← gets (λ s, task_at s pgid);
            modify (upd_task pid (set_t_tty (t_tty g)));;
            mret 0
    | _, _ => mret (- ESRCH)
    end.
Definition sys_setsid : M kst Z :=
  p ← gets (λ s, t_pid (cur s));
  ret ← sys_setpgid p p;
  if ret <? 0 then mret ret
  else
    modify (upd_cur (set_t_tty NOTTY));;
    modify (upd_cur (λ t, set_t_session (t_pid t) t));;
    gets (λ s, t_pid (cur s)).

(** ** Limits, the mask of new files, times *)

Definition sys_getrlimit (resource rlim : Z) : M kst (Z * option rlimit) :=
  if (resource <? 0) || (RLIM_NLIMITS <=? resource) then mret (- EINVAL, None)
  else
    b ← gets (ckuser rlim 8);
    if (b : bool) then mret (- EFAULT, None)
    else
      c ← gets cur;
      r ← from_opt (zget (t_rlims c) resource);
      mret (0, Some r).
Definition sys_setrlimit (resource : Z) (rlim : Z * rlimit) : M kst Z :=
  if (resource <? 0) || (RLIM_NLIMITS <=? resource) then mret (- EINVAL)
  else
    b ← gets (cklimit rlim.1);
    if (b : bool) then mret (- EFAULT)
    else if rlim_max rlim.2 <? rlim_cur rlim.2 then mret (- EINVAL)
    else
      c ← gets cur;
      r ← from_opt (zget (t_rlims c) resource);
      if negb (t_euid c =? SU_UID) && (rlim_max r <? rlim_max rlim.2) then mret (- EPERM)
      else
        modify (upd_cur (λ t, set_t_rlims (zset resource (Rlimit (rlim_cur rlim.2) (rlim_max rlim.2)) (t_rlims t)) t));;
        mret 0.

Definition sys_umask (mask : Z) : M kst Z :=
  let mask := u16 mask in
  c ← gets cur;
  if mask =? 0 then mret (t_umask c)
  else modify (upd_cur (set_t_umask mask));; mret mask.

Definition sys_times (buff : Z) : M kst (Z * option (Z * Z * Z * Z)) :=
  b ← gets (ckuser buff 16);
  c ← gets cur;
  n ← gets nowticks;
  if (b : bool) then mret (- EFAULT, None)
  else mret (n, Some (t_utime c, t_stime c, t_cutime c, t_cstime c)).

(** ** I/O permissions: a bit that is clear permits its port *)

Definition bits : list Z := [1; 3; 7; 15; 31; 63; 127; 255].
(** [bitmap[i] &= ~(bits[n] << m)], or [|=]. *)
Definition io_byte (turn_on : bool) (i n m : Z) : M kst unit :=
  b ← from_opt (zget bits n);
  die_if (128 <=? i);;
  modify (upd_cur (λ t, set_t_bitmap (zalter (λ x,
    if turn_on then Z.land x (Z.lnot (Z.shiftl b m)) else u8 (Z.lor x (Z.shiftl b m))) i (t_bitmap t)) t)).
Definition io_load : M kst unit :=
  c ← gets cur;
  modify (upd_tss_bitmap (λ b, memcpy b 0 (t_bitmap c))).
(** From the [memset] on; a store behind the bitmap is not followed further. *)
Definition io_bytes (turn_on : bool) (from num : Z) : M kst Z :=
  die_if (128 <? from / 8 + num / 8);;
  modify (upd_cur (λ t, set_t_bitmap (memcpy (t_bitmap t) (from / 8) (replicate (Z.to_nat (num / 8)) (if turn_on then 0 else 0xff))) t));;
  let from := from + num / 8 * 8 in
  let n := num mod 8 in
  when (0 <? n) (io_byte turn_on (from / 8) n 0);;
  io_load;;
  mret 0.
Definition sys_ioperm (from num : Z) (turn_on : bool) : M kst Z :=
  if (0x3ff <? from) || (0x3ff <? u32 (from + num)) then mret (- EINVAL)
  else
    c ← gets cur;
    if negb (t_euid c =? SU_UID) then mret (- EACCES)
    else if num =? 0 then mret 0
    else
      let m := from mod 8 in
      if 0 <? m then
        let n := if num <? 8 - m then num else 8 - m in
        io_byte turn_on (from / 8) n m;;
        if num <=? n then io_load;; mret 0
        else io_bytes turn_on (from + n) (num - n)
      else io_bytes turn_on from num.

(** ** Identities do not grow *)

Inductive id_call :=
  | CSetuid (uid : Z)
  | CSetgid (gid : Z)
  | CSetreuid (ruid euid : Z)
  | CSetregid (rgid egid : Z)
  | CSetgroups (size : Z) (list : Z * Z).
Definition id_run (c : id_call) : M kst Z :=
  match c with
  | CSetuid uid => sys_setuid uid
  | CSetgid gid => sys_setgid gid
  | CSetreuid ruid euid => sys_setreuid ruid euid
  | CSetregid rgid egid => sys_setregid rgid egid
  | CSetgroups size list => sys_setgroups size list
  end.
Fixpoint id_runs (cs : list id_call) : M kst unit :=
  match cs with
  | [] => mret tt
  | c :: cs => id_run c;; id_runs cs
  end.

Definition uids (t : task) : list Z := [t_uid t; t_euid t; t_suid t].
Definition gids (t : task) : list Z := [t_gid t; t_egid t; t_sgid t].

(** One call of a process without a privileged number. *)
Lemma id_run_confined c s : alive s (current s) → 0 ∉ uids (cur s) → 0 ∉ gids (cur s) → ∃ r s', id_run c s = Ret r s' ∧
  alive s' (current s') ∧ (∀ x, x ∈ uids (cur s') → x ∈ uids (cur s)) ∧ (∀ x, x ∈ gids (cur s') → x ∈ gids (cur s)).
Proof.
  intros Ha Hu Hg. assert (t_euid (cur s) ≠ 0 ∧ t_egid (cur s) ≠ 0) as [He Hge] by (unfold uids, gids in *; set_solver).
  assert (∀ f r, (∀ x, x ∈ uids (f (cur s)) → x ∈ uids (cur s)) → (∀ x, x ∈ gids (f (cur s)) → x ∈ gids (cur s)) →
    ∃ r' s', (modify (upd_cur f);; mret r : M kst Z) s = Ret r' s' ∧ alive s' (current s') ∧
      (∀ x, x ∈ uids (cur s') → x ∈ uids (cur s)) ∧ (∀ x, x ∈ gids (cur s') → x ∈ gids (cur s))) as Hset.
  { intros f r H1 H2. eexists r, _. split; [done|]. unfold upd_cur. simpl. rewrite alive_upd. split; [done|].
    unfold cur. simpl. rewrite task_at_alive by done. done. }
  assert (∀ r, ∃ r' s', (mret r : M kst Z) s = Ret r' s' ∧ alive s' (current s') ∧
    (∀ x, x ∈ uids (cur s') → x ∈ uids (cur s)) ∧ (∀ x, x ∈ gids (cur s') → x ∈ gids (cur s))) as Hret by (intros r; by exists r, s).
  assert (∀ x a b : Z, negb (x =? a) && negb (x =? b) = false → x = a ∨ x = b) as Hor by (intros x a b; destruct (Z.eqb_spec x a), (Z.eqb_spec x b); simpl; auto; done).
  destruct c as [uid|gid|ruid euid|rgid egid|size list]; cbn [id_run]; unfold sys_setuid, sys_setgid, sys_setreuid, sys_setregid, sys_setgroups; mstep;
    rewrite ?(proj2 (Z.eqb_neq _ SU_UID) He), ?(proj2 (Z.eqb_neq _ SU_UID) Hge), ?(proj2 (Z.eqb_neq _ SU_GID) Hge).
  - destruct (_ || _) eqn:E; [|apply Hret]. apply orb_true_iff in E. rewrite !Z.eqb_eq in E.
    apply Hset; unfold uids; simpl; [|done]. intros x. rewrite !elem_of_cons. naive_solver.
  - destruct (_ || _) eqn:E; [|apply Hret]. apply orb_true_iff in E. rewrite !Z.eqb_eq in E.
    apply Hset; unfold gids; simpl; [done|]. intros x. rewrite !elem_of_cons. naive_solver.
  - destruct (negb (s16 ruid =? _) && _) eqn:E1; [apply Hret|]. destruct (negb (s16 euid =? _) && _) eqn:E2; [apply Hret|].
    apply Hor in E1, E2. apply Hset; unfold uids; simpl; [|done]. intros x. rewrite !elem_of_cons. naive_solver.
  - destruct (negb (s8 rgid =? _) && _) eqn:E1; [apply Hret|]. destruct (negb (s8 egid =? _) && _) eqn:E2; [apply Hret|].
    apply Hor in E1, E2. apply Hset; unfold gids; simpl; [done|]. intros x. rewrite !elem_of_cons. naive_solver.
  - simpl negb. destruct (ckuser _ _ _), (size <=? 0), (truth list.1); apply Hret.
Qed.

(** C0. A process without privileges can not gain any: whatever calls of
    [setuid], [setgid], [setreuid], [setregid] and [setgroups] it makes, each of
    its user numbers afterwards is one of the user numbers it had, and each group
    number one of its group numbers. *)
Theorem ids_confined cs s : alive s (current s) → 0 ∉ uids (cur s) → 0 ∉ gids (cur s) → ∃ s', id_runs cs s = Ret tt s' ∧
  (∀ x, x ∈ uids (cur s') → x ∈ uids (cur s)) ∧ (∀ x, x ∈ gids (cur s') → x ∈ gids (cur s)).
Proof.
  revert s. induction cs as [|c cs IH]; intros s Ha Hu Hg; [by exists s|].
  destruct (id_run_confined c s Ha Hu Hg) as (r & s1 & E1 & Ha1 & Hu1 & Hg1).
  destruct (IH s1 Ha1) as (s' & E & Hu' & Hg'); [naive_solver|naive_solver|]. exists s'. split; [|split; intros x Hx; auto].
  cbn [id_runs]. by rewrite (bind_eval _ _ _ _ _ E1).
Qed.

(** Process 2 of the small system of Runq.v as user 500 of group 20. *)
Definition demo_user : kst := upd_cur (λ t, set_t_uid 500 (set_t_euid 500 (set_t_suid 500 (set_t_gid 20 (set_t_egid 20 (set_t_sgid 20 t)))))) demo2.
Lemma ids_confined_witness : ∃ s', id_runs [CSetuid 0; CSetreuid 500 0; CSetgroups 1 (0x50000000, 0)] demo_user = Ret tt s' ∧
  (∀ x, x ∈ uids (cur s') → x ∈ uids (cur demo_user)) ∧ (∀ x, x ∈ gids (cur s') → x ∈ gids (cur demo_user)).
Proof.
  apply (ids_confined [CSetuid 0; CSetreuid 500 0; CSetgroups 1 (0x50000000, 0)] demo_user).
  - unfold alive. rewrite <-not_eq_None_Some. by vm_compute.
  - change (uids (cur demo_user)) with [500; 500; 500]. set_solver.
  - change (gids (cur demo_user)) with [20; 20; 20]. set_solver.
Defined.
