(* ===== verification/Tree.v ===== *)
(** * The family of processes under fork, exit and wait

    The list of children of a process holds exactly the processes it is the
    parent of, no parent is a zombie, and the processes that are not zombies
    are on the rings of their groups.  Fork, exit and wait keep this together
    with the invariant of the scheduler. *)

From S2P Require Import Prelude Dlist Task Sched Runq Signal Family.
From stdpp Require Import base numbers functions gmap list relations.

Local Open Scope Z_scope.

Implicit Types (s : kst).

Definition ppid s (p : Z) : Z := t_ppid (task_at s p).
Definition living s (p : Z) : Prop := alive s p ∧ st s p ≠ TASK_ZOMBIE.
#[export] Instance KPg_inj : Inj (=) (=) KPg.
Proof. by intros ?? [=]. Qed.
#[export] Instance KPlist_inj : Inj (=) (=) KPlist.
Proof. by intros ?? [=]. Qed.

Record fam s (F : Z → list Z) : Prop := {
  fm_lists : lists_ok (alive s) KClist s (λ p, KPlist <$> F p);
  fm_in p j : alive s p → (j ∈ F p ↔ alive s j ∧ j ≠ 0 ∧ ppid s j = p);
  fm_parent j : alive s j → living s (ppid s j);
  fm_rings : rings_ok KPg (living s) s;
  fm_idle : living s 0 ∧ ppid s 0 = 0;
}.
(** The invariant of the scheduler and of the families. *)
Definition pinv s rq wl F : Prop := kinv s rq wl ∧ fam s F.

(** ** Steps that leave the families alone *)

Lemma rings_same (dom dom' : Z → Prop) s s' : (∀ p, dom' p ↔ dom p) → (∀ p, nxt s' (KPg p) = nxt s (KPg p) ∧ prv s' (KPg p) = prv s (KPg p)) →
  rings_ok KPg dom s → rings_ok KPg dom' s'.
Proof.
  intros Hd Hl Hr p Hp%Hd. destruct (Hr p Hp) as (l & Hlp & Hall). exists l. split.
  - eapply is_list_frame; [exact Hlp| |done]. intros q Hq. rewrite <-fmap_cons in Hq. apply list_elem_of_fmap in Hq as (x & -> & _). apply Hl.
  - eapply Forall_impl; [exact Hall|]. intros x. apply Hd.
Qed.
Lemma lists_same (dom dom' : Z → Prop) s s' (F : Z → list Z) : (∀ p, dom' p ↔ dom p) →
  (∀ p, nxt s' (KClist p) = nxt s (KClist p) ∧ prv s' (KClist p) = prv s (KClist p)) →
  (∀ p, nxt s' (KPlist p) = nxt s (KPlist p) ∧ prv s' (KPlist p) = prv s (KPlist p)) →
  lists_ok dom KClist s (λ p, KPlist <$> F p) → lists_ok dom' KClist s' (λ p, KPlist <$> F p).
Proof.
  intros Hd Hc Hp Hl. apply (lists_ok_dom dom); [apply Hd|]. eapply lists_ok_frame; [exact Hl| |done].
  intros i q _ [->|(x & -> & _)%list_elem_of_fmap]%elem_of_cons; [apply Hc|apply Hp].
Qed.
(** What the families depend on. *)
Lemma fam_same s s' F : (∀ k, (∀ p, k ≠ KRun p) → nxt s' k = nxt s k ∧ prv s' k = prv s k) → (∀ p, ppid s' p = ppid s p) →
  (∀ p, alive s' p ↔ alive s p) → (∀ p, st s' p = TASK_ZOMBIE ↔ st s p = TASK_ZOMBIE) → fam s F → fam s' F.
Proof.
  intros Hl Hpp Ha Hz [H1 H2 H3 H4 H5]. assert (∀ p, living s' p ↔ living s p) as Hlv by (intros p; unfold living; by rewrite Ha, Hz).
  split.
  - apply (lists_same (alive s) _ s); [done|intros; by apply Hl..|done].
  - intros p j. rewrite !Ha, Hpp. apply H2.
  - intros j. rewrite Ha, Hlv, Hpp. apply H3.
  - apply (rings_same (living s) _ s); [done|intros; by apply Hl|done].
  - by rewrite Hlv, Hpp.
Qed.
Lemma calm_fam s s' F : calm s s' → fam s F → fam s' F.
Proof.
  intros [H1 H2 H3 H4 _ _]. apply fam_same; [done| |done|done]. intros p. exact (f_equal t_ppid (H2 p)).
Qed.
Lemma kinv_links s s' rq wl : kinv s rq wl → tasks s' = tasks s → current s' = current s → wq_head s' = wq_head s → wq_next s' = wq_next s →
  (∀ p, nxt s' (KRun p) = nxt s (KRun p) ∧ prv s' (KRun p) = prv s (KRun p)) → kinv s' rq wl.
Proof.
  intros [[H1 H2 H3 H4 H5 H6 H7 H8 H9] Haw Hpr Hcn] Et Ec Eh En Hl.
  assert (∀ p, task_at s' p = task_at s p) as Ht by (intros p; unfold task_at; by rewrite Et).
  assert (∀ p, st s' p = st s p ∧ frm s' p = frm s p ∧ prio s' p = prio s p ∧ counter s' p = counter s p) as Hf
    by (intros p; unfold st, frm, prio, counter; by rewrite Ht).
  assert (∀ p, alive s' p ↔ alive s p) as Ha by (intros p; unfold alive; by rewrite Et).
  split; [split| | |].
  - eapply is_list_frame; [exact H1| |done]. intros q [->|(x & -> & _)%list_elem_of_fmap]%elem_of_cons; apply Hl.
  - intros p. rewrite H2, Ha. by destruct (Hf p) as (-> & _).
  - intros q. rewrite Eh. eapply wchain_frame; [|apply H3]. intros x _. by rewrite En.
  - done.
  - intros p q. rewrite H5, Ha. by destruct (Hf p) as (_ & -> & _).
  - intros p. rewrite Ha. destruct (Hf p) as (-> & -> & _). apply H6.
  - rewrite Ha. by destruct (Hf 0) as (_ & -> & _).
  - intros p. rewrite Ha, Ht. apply H8.
  - by rewrite Ha, Ec.
  - unfold awake, runs. rewrite Ec. by destruct (Hf (current s)) as (-> & -> & _).
  - intros p. rewrite Ha. destruct (Hf p) as (_ & _ & -> & _). apply Hpr.
  - intros p. destruct (Hf p) as (_ & _ & _ & ->). apply Hcn.
Qed.

(** The running process is no zombie. *)
Lemma current_runs s rq wl F : pinv s rq wl F → alive s (current s) ∧ st s (current s) = TASK_RUNNING ∧ frm s (current s) = None.
Proof.
  intros [Hk Hf]. pose proof (ki_sinv _ _ _ Hk) as Hs. destruct (ki_awake _ _ _ Hk) as [Hr Hfr]. pose proof (si_cur _ _ _ Hs) as Hc.
  split; [done|]. split; [|done]. destruct (decide (current s = 0)) as [E|]; [|by apply Hr].
  destruct (si_state _ _ _ Hs (current s) Hc) as [?|[[_ [q Hq]]|[Hz _]]]; [done|congruence|].
  rewrite E in Hz. by destruct (fm_idle _ _ Hf) as [[] _].
Qed.
Lemma current_living s rq wl F : pinv s rq wl F → living s (current s).
Proof. intros (Hc & Hst & _)%current_runs. split; [done|]. by rewrite Hst. Qed.

(** ** fork *)

Definition next_slot (i : Z) : Z := (if i =? NR_TASKS - 1 then 1 else i) + 1.

Lemma empty_loop_spec fuel i s : 1 <= i < NR_TASKS →
  (∃ k, (k < fuel)%nat ∧ tasks s !! Nat.iter k next_slot i = None ∧ 1 <= Nat.iter k next_slot i < NR_TASKS ∧
     empty_loop fuel i s = Ret (Nat.iter k next_slot i) (upd_next_pid (λ _, Nat.iter k next_slot i mod (NR_TASKS - 1) + 1) s)) ∨
  (∀ k, (k < fuel)%nat → alive s (Nat.iter k next_slot i)) ∧ empty_loop fuel i s = Ret (- EAGAIN) s.
Proof.
  revert i. induction fuel as [|fuel IH]; intros i Hi; [right; split; [intros; lia|done]|].
  cbn [empty_loop]. unfold task_slot. rewrite bind_assoc. unfold die_if.
  rewrite (proj2 (orb_false_iff _ _)) by (split; [apply Z.ltb_ge|apply Z.leb_gt]; lia). mstep.
  destruct (tasks s !! i) as [t|] eqn:E.
  - assert (1 <= next_slot i < NR_TASKS) as Hn by (unfold next_slot, NR_TASKS in *; destruct (Z.eqb_spec i (64 - 1)); lia).
    destruct (IH (next_slot i) Hn) as [(k & Hk & H1 & H2 & H3)|[H1 H2]].
    + left. exists (Datatypes.S k). rewrite Nat.iter_succ_r. split; [lia|done].
    + right. split; [|done]. intros [|k] Hk; [by eexists|]. rewrite Nat.iter_succ_r. apply H1. lia.
  - left. exists 0%nat. split; [lia|]. done.
Qed.
(** The slots looked at are all but the first two. *)
Lemma slots_seen i x : 1 <= i < NR_TASKS → 2 <= x < NR_TASKS → ∃ k, (k < Z.to_nat NR_TASKS)%nat ∧ Nat.iter k next_slot i = x.
Proof.
  intros Hi Hx.
  assert (Forall (λ i, Forall (λ x, Exists (λ k, Nat.iter k next_slot i = x) (seq 0 (Z.to_nat NR_TASKS))) (seqZ 2 62)) (seqZ 1 63)) as Hall.
  { apply (bool_decide_eq_true_1 _). by vm_compute. }
  rewrite Forall_forall in Hall. specialize (Hall i). rewrite Forall_forall in Hall.
  assert (Exists (λ k, Nat.iter k next_slot i = x) (seq 0 (Z.to_nat NR_TASKS))) as (k & Hk%elem_of_seq & E)%Exists_exists.
  { unfold NR_TASKS in *. apply Hall; apply elem_of_seqZ; lia. }
  exists k. split; [lia|done].
Qed.

Section fork.
Context s rq wl F nr (Hp : pinv s rq wl F) (Hn : ¬ alive s nr) (Hn0 : nr ≠ 0).
Let c : Z := current s.
Let s1 : kst := list_head_init (KClist nr) s.
Let s2 : kst := list_add_head (KClist c) (KPlist nr) s1.
Let s3 : kst := list_add_head (KPg c) (KPg nr) s2.
Let s4 : kst := enter nr (forked nr (cur s)) s3.
Let F' : Z → list Z := <[c := nr :: F c]> (<[nr := []]> F).

Local Lemma fork_cur : living s c ∧ c ≠ nr.
Proof. pose proof (current_living _ _ _ _ Hp) as Hc. split; [done|]. intros E. apply Hn. rewrite <-E. apply Hc. Qed.
Local Lemma fork_fresh k : k = KClist nr ∨ k = KPlist nr → fresh_node (alive s) KClist (λ p, KPlist <$> F p) k.
Proof.
  intros Hk p Ha [E|(x & E & Hx)%list_elem_of_fmap]%elem_of_cons; destruct Hk; subst; simplify_eq.
  apply (fm_in _ _ (proj2 Hp)) in Hx; naive_solver.
Qed.
Local Lemma fork_lists2 : lists_ok (λ i, i = nr ∨ alive s i) KClist s2 (λ p, KPlist <$> F' p).
Proof.
  destruct fork_cur as [[Hca _] Hcn].
  pose proof (lists_ok_new (alive s) KClist s (λ p, KPlist <$> F p) nr (fm_lists _ _ (proj2 Hp)) Hn (fork_fresh _ (or_introl eq_refl)) I) as H1.
  eapply (lists_ok_add_head _ _ _ _ c (KPlist nr)) in H1; [|by right| |done].
  - eapply lists_ok_ext; [|exact H1]. intros i _. unfold F'. simpl. destruct (decide (i = c)) as [->|Hi].
    + rewrite !fn_lookup_insert, fmap_cons. by rewrite fn_lookup_insert_ne.
    + rewrite !(fn_lookup_insert_ne _ c) by done. destruct (decide (i = nr)) as [->|];
        [by rewrite !fn_lookup_insert|by rewrite !fn_lookup_insert_ne].
  - intros i [->|Hi]; [rewrite fn_lookup_insert; set_solver|]. rewrite fn_lookup_insert_ne by (by intros ->).
    by apply (fork_fresh (KPlist nr) (or_intror eq_refl)).
Qed.
(** The links of other kinds. *)
Local Lemma fork_links12 k : (∀ p, k ≠ KClist p) → (∀ p, k ≠ KPlist p) → nxt s2 k = nxt s k ∧ prv s2 k = prv s k.
Proof.
  intros Hk1 Hk2. destruct fork_cur as [[Hca _] Hcn].
  pose proof (lists_ok_new (alive s) KClist s (λ p, KPlist <$> F p) nr (fm_lists _ _ (proj2 Hp)) Hn (fork_fresh _ (or_introl eq_refl)) I) as H1.
  pose proof (lk_list _ _ _ _ H1 c (or_intror Hca)) as Hl. rewrite fn_lookup_insert_ne in Hl by done.
  destruct (list_add_head_others s1 (KClist c) (KPlist <$> F c) (KPlist nr) k Hl) as [E1 E2].
  - intros Hin. apply (fork_fresh (KPlist nr) (or_intror eq_refl) c Hca Hin).
  - done.
  - rewrite !elem_of_cons, list_elem_of_fmap. naive_solver.
  - fold s2 in E1, E2. rewrite E1, E2. unfold s1. simpl. by rewrite !fn_lookup_insert_ne.
Qed.
Local Lemma fork_rings2 : rings_ok KPg (living s) s2.
Proof. apply (rings_same (living s) _ s); [done|intros p; by apply fork_links12|apply (fm_rings _ _ (proj2 Hp))]. Qed.
Local Lemma fork_links3 k : (∀ p, k ≠ KPg p) → nxt s3 k = nxt s2 k ∧ prv s3 k = prv s2 k.
Proof.
  intros Hk. destruct (fork_rings2 c) as (l & Hl & Hall); [apply fork_cur|]. rewrite Forall_forall in Hall.
  apply (list_add_head_others s2 (KPg c) (KPg <$> l) (KPg nr)); [done| |done|].
  - intros [[= E]|(x & [= ->] & Hx)%list_elem_of_fmap]%elem_of_cons; [by apply (proj2 fork_cur)|]. by apply Hn, Hall.
  - rewrite !elem_of_cons, list_elem_of_fmap. naive_solver.
Qed.
Local Lemma fork_kinv3 : kinv s3 rq wl.
Proof.
  apply (kinv_links s); [apply Hp|done..|]. intros p. destruct (fork_links3 (KRun p)) as [E1 E2]; [done|]. rewrite E1, E2. by apply fork_links12.
Qed.
Local Lemma fork_task p : task_at s4 p = if decide (p = nr) then forked nr (cur s) else task_at s p.
Proof.
  unfold task_at at 1. replace (tasks s4) with (<[nr := forked nr (cur s)]> (tasks s)) by (unfold s4, enter, add_run; by case_match).
  destruct (decide (p = nr)) as [->|]; [by rewrite lookup_insert_eq|by rewrite lookup_insert_ne].
Qed.
Local Lemma fork_alive p : alive s4 p ↔ p = nr ∨ alive s p.
Proof.
  unfold alive. replace (tasks s4) with (<[nr := forked nr (cur s)]> (tasks s)) by (unfold s4, enter, add_run; by case_match).
  destruct (decide (p = nr)) as [->|]; [rewrite lookup_insert_eq; split; [by left|by eexists]|]. rewrite lookup_insert_ne by done. naive_solver.
Qed.
Local Lemma fork_kinv4 : kinv s4 (rq ++ [nr]) wl.
Proof.
  destruct (current_runs _ _ _ _ Hp) as (Ha & Hst & _). destruct Hp as [Hk _]. apply enter_kinv; [exact fork_kinv3|done|done| | | | |]; try done.
  - by apply (ki_prio _ _ _ Hk).
  - apply (ki_count _ _ _ Hk (current s)).
Qed.
Local Lemma fork_links4 k : (∀ p, k ≠ KRun p) → nxt s4 k = nxt s3 k ∧ prv s4 k = prv s3 k.
Proof.
  intros Hk. unfold s4, enter. pose proof (ki_sinv _ _ _ fork_kinv3) as Hs.
  destruct (add_run_calm (upd_tasks <[nr := forked nr (cur s)]> s3) rq nr) as [H1 _ _ _ _ _]; [eapply is_list_frame; [apply (si_run _ _ _ Hs)|done|done]| |done|by apply H1].
  intros (_ & Ha & _)%(si_rq _ _ _ Hs). done.
Qed.
Local Lemma fork_living p : living s4 p ↔ p = nr ∨ living s p.
Proof.
  unfold living, st. rewrite fork_alive, fork_task. destruct (current_runs _ _ _ _ Hp) as (_ & Hst & _). unfold st in Hst.
  destruct (decide (p = nr)) as [->|Hne]; [|naive_solver]. split; [by left|]. intros _. split; [by left|].
  change (t_state (forked nr (cur s))) with (t_state (task_at s (current s))). by rewrite Hst.
Qed.
Lemma fork_fam : fam s4 F'.
Proof.
  destruct fork_cur as [Hcl Hcn]. destruct Hp as [Hk Hf]. split.
  - apply (lists_same (λ i, i = nr ∨ alive s i) _ s2); [apply fork_alive| | |exact fork_lists2];
      intros p; [destruct (fork_links4 (KClist p)) as [-> ->]|destruct (fork_links4 (KPlist p)) as [-> ->]]; by try apply fork_links3.
  - intros p j Ha. unfold ppid. rewrite fork_alive, fork_task. apply fork_alive in Ha as [->|Ha].
    + unfold F'. rewrite fn_lookup_insert_ne, fn_lookup_insert by done. split; [by intros ?%elem_of_nil|]. intros (Hj & Hj0 & E). exfalso.
      case_decide as Ej; [|destruct Hj as [|Hj]; [done|]; apply Hn; rewrite <-E; apply (fm_parent _ _ Hf j Hj)].
      simpl in E. assert (t_pid (cur s) = c) as Epid by (apply (si_pid _ _ _ (ki_sinv _ _ _ Hk)), Hcl). congruence.
    + assert (p ≠ nr) as Hpn by (by intros ->). assert (j ∈ F' p ↔ j ∈ F p ∨ j = nr ∧ p = c) as ->.
      { unfold F'. destruct (decide (p = c)) as [->|]; [rewrite fn_lookup_insert; set_solver|].
        rewrite !fn_lookup_insert_ne by done. naive_solver. }
      rewrite (fm_in _ _ Hf p j Ha). case_decide as Ej; [subst j|unfold ppid; naive_solver]. simpl.
      assert (t_pid (cur s) = c) as -> by (apply (si_pid _ _ _ (ki_sinv _ _ _ Hk)), Hcl). split; [naive_solver|].
      intros (_ & _ & ->). by right.
  - intros j. rewrite fork_alive, fork_living. unfold ppid. rewrite fork_task. case_decide as Ej.
    + intros _. simpl. assert (t_pid (cur s) = c) as -> by (apply (si_pid _ _ _ (ki_sinv _ _ _ Hk)), Hcl). by right.
    + intros [|Hj]; [done|]. right. by apply (fm_parent _ _ Hf).
  - apply (rings_same (λ i, i = nr ∨ living s i) _ s3); [apply fork_living|intros p; by apply fork_links4|].
    apply (rings_add KPg (living s) s2 c nr fork_rings2 Hcl); [by intros [? _]|done].
  - rewrite fork_living. destruct (fm_idle _ _ Hf). split; [by right|]. unfold ppid. by rewrite fork_task, decide_False by done.
Qed.
Lemma fork_spec : ∃ s', copy_process nr true true true s = Ret 0 s' ∧
  tasks s' = alter (set_t_need_sched true) c (<[nr := forked nr (cur s)]> (tasks s)) ∧ current s' = c ∧ next_pid s' = next_pid s ∧
  pinv s' (rq ++ [nr]) wl F'.
Proof.
  exists (upd_cur (set_t_need_sched true) s4). split; [reflexivity|].
  assert (tasks s4 = <[nr := forked nr (cur s)]> (tasks s) ∧ current s4 = c ∧ next_pid s4 = next_pid s) as (E1 & E2 & E3)
    by (unfold s4, enter, add_run; by case_match).
  pose proof fork_kinv4 as Hk4. pose proof fork_fam as Hf4. clearbody s4. unfold upd_cur. rewrite E2.
  split; [simpl; by rewrite E1|]. split; [done|]. split; [done|]. split; [by apply kinv_upd|].
  eapply calm_fam; [|exact Hf4]. by apply calm_upd.
Qed.
End fork.

(** ** wait *)

Fixpoint pick_child s (l : list Z) (ok stop : task → bool) (sel : option Z) : option Z :=
  match l with
  | [] => sel
  | p :: l =>
      if ok (task_at s p) then if stop (task_at s p) then Some p else pick_child s l ok stop (Some p)
      else pick_child s l ok stop sel
  end.
Lemma child_loop_pick s hd l1 l2 ok stop sel fuel : is_list s (KClist hd) (KPlist <$> (l1 ++ l2)) → (length l2 < fuel)%nat →
  child_loop fuel (KClist hd) (fst_or (KClist hd) (KPlist <$> l2)) ok stop sel s = Some (pick_child s l2 ok stop sel).
Proof.
  revert l1 l2 sel. induction fuel as [|fuel IH]; intros l1 l2 sel Hl Hf; [lia|]. destruct l2 as [|p l2]; [cbn; by rewrite decide_True|].
  change (fst_or (KClist hd) (KPlist <$> (p :: l2))) with (KPlist p). cbn [child_loop]. rewrite decide_False by done.
  assert (nxt s (KPlist p) = fst_or (KClist hd) (KPlist <$> l2)) as ->.
  { rewrite fmap_app, fmap_cons, cons_middle, app_assoc in Hl. apply is_list_next in Hl as [Hn _]. by rewrite lst_snoc in Hn. }
  simpl in Hf. assert (is_list s (KClist hd) (KPlist <$> ((l1 ++ [p]) ++ l2))) as Hl' by (by rewrite <-app_assoc).
  simpl. destruct (ok _); [destruct (stop _); [done|]|]; apply (IH (l1 ++ [p])); done || lia.
Qed.
(** What is picked: the first that stops the search, else the last one that
    will do. *)
Lemma pick_child_spec s l ok stop sel :
  (∃ p, pick_child s l ok stop sel = Some p ∧ p ∈ l ∧ ok (task_at s p) = true ∧
     (stop (task_at s p) = true ∨ ∀ j, j ∈ l → ok (task_at s j) = true → stop (task_at s j) = false)) ∨
  pick_child s l ok stop sel = sel ∧ ∀ j, j ∈ l → ok (task_at s j) = false.
Proof.
  revert sel. induction l as [|p l IH]; intros sel; [right; split; [done|]; by intros j ?%elem_of_nil|]. simpl.
  destruct (ok (task_at s p)) eqn:Ho; [destruct (stop (task_at s p)) eqn:Hs|].
  - left. exists p. split; [done|]. split; [left|]. split; [done|by left].
  - destruct (IH (Some p)) as [(x & E & Hx & Ho' & Hd)|[-> Hall]].
    + left. exists x. split; [done|]. split; [by right|]. split; [done|]. destruct Hd as [?|Hd]; [by left|right].
      intros j [->|Hj]%elem_of_cons Hj'; [done|by apply Hd].
    + left. exists p. split; [done|]. split; [left|]. split; [done|right]. intros j [->|Hj]%elem_of_cons Hj'; [done|].
      by rewrite Hall in Hj'.
  - destruct (IH sel) as [(x & E & Hx & Ho' & Hd)|[-> Hall]].
    + left. exists x. split; [done|]. split; [by right|]. split; [done|]. destruct Hd as [?|Hd]; [by left|right].
      intros j [->|Hj]%elem_of_cons Hj'; [by rewrite Ho in Hj'|by apply Hd].
    + right. split; [done|]. intros j [->|Hj]%elem_of_cons; [done|by apply Hall].
Qed.

Lemma children_len s rq wl F c : pinv s rq wl F → alive s c → (length (F c) <= size (tasks s))%nat.
Proof.
  intros [_ Hf] Hc. pose proof (lk_list _ _ _ _ (fm_lists _ _ Hf) c Hc) as Hl. pose proof (is_list_NoDup _ _ _ Hl) as Hnd.
  apply NoDup_fmap_1 in Hnd. rewrite <-(size_list_to_set (C:=gset Z) (F c)) by done. rewrite <-size_dom. apply subseteq_size.
  intros p Hp%elem_of_list_to_set. apply (fm_in _ _ Hf) in Hp as (Ha & _); [|done]. by apply elem_of_dom.
Qed.
Lemma child_eval s rq wl F ok stop : pinv s rq wl F → child ok stop s = Ret (pick_child s (F (current s)) ok stop None) s.
Proof.
  intros Hp. pose proof (current_living _ _ _ _ Hp) as [Hc _]. pose proof (lk_list _ _ _ _ (fm_lists _ _ (proj2 Hp)) _ Hc) as Hl.
  unfold child. mstep. rewrite (is_list_nxt_hd _ _ _ Hl), (child_loop_pick s _ [] (F (current s))); [done|done|].
  pose proof (children_len _ _ _ _ _ Hp Hc). lia.
Qed.

(** A zombie leaves the table. *)
Lemma kinv_delete s rq wl p : kinv s rq wl → alive s p → st s p = TASK_ZOMBIE → p ≠ 0 → p ≠ current s → kinv (upd_tasks (delete p) s) rq wl.
Proof.
  intros [Hs [Hr Hfr] Hpr Hcn] Hp Hz H0 Hc. set (s' := upd_tasks (delete p) s).
  assert (∀ j, alive s' j ↔ alive s j ∧ j ≠ p) as Ha.
  { intros j. unfold alive, s'. simpl. destruct (decide (j = p)) as [->|]; [rewrite lookup_delete_eq|rewrite lookup_delete_ne by done; naive_solver].
    split; [by intros [? ?]|naive_solver]. }
  assert (∀ j, j ≠ p → task_at s' j = task_at s j) as Ht by (intros j Hj; unfold task_at, s'; simpl; by rewrite lookup_delete_ne).
  assert (frm s p = None) as Hfp by (destruct (si_state _ _ _ Hs p Hp) as [E|[[E _]|[_ E]]]; [by rewrite Hz in E|by rewrite Hz in E|done]).
  split; [destruct Hs as [H1 H2 H3 H4 H5 H6 H7 H8 H9]; split| | |].
  - eapply is_list_frame; [exact H1|done|done].
  - intros j. rewrite H2, Ha. destruct (decide (j = p)) as [->|Hne]; [rewrite Hz; naive_solver|]. unfold st. rewrite Ht by done. naive_solver.
  - intros q. eapply wchain_frame; [|apply H3]. done.
  - done.
  - intros j q. rewrite H5, Ha. destruct (decide (j = p)) as [->|Hne]; [rewrite Hfp; naive_solver|]. unfold frm. rewrite Ht by done. naive_solver.
  - intros j [Hj Hne]%Ha. unfold st, frm. rewrite Ht by done. by apply H6.
  - rewrite Ha. destruct H7. unfold frm. by rewrite Ht.
  - intros j [Hj Hne]%Ha. rewrite Ht by done. by apply H8.
  - apply Ha. done.
  - unfold awake, runs, st, frm. change (current s') with (current s). by rewrite Ht by done.
  - intros j [Hj Hne]%Ha. unfold prio. rewrite Ht by done. by apply Hpr.
  - intros j. unfold counter. destruct (decide (j = p)) as [->|]; [|rewrite Ht by done; apply Hcn].
    unfold task_at, s'. simpl. by rewrite lookup_delete_eq.
Qed.

Lemma reap_spec s rq wl F p status : pinv s rq wl F → p ∈ F (current s) → st s p = TASK_ZOMBIE → ∃ s' F',
  reap p status s = Ret (WRet p (if status then Some (t_exit_code (task_at s p)) else None)) s' ∧ pinv s' rq wl F' ∧
  tasks s' = delete p (tasks s) ∧ current s' = current s ∧ (∀ j, j ∈ F' (current s) ↔ j ∈ F (current s) ∧ j ≠ p) ∧
  ∀ c, c ≠ current s → F' c = F c.
Proof.
  intros Hpi Hin Hz. pose proof (current_living _ _ _ _ Hpi) as [Hc Hcz]. pose proof Hpi as [Hk Hf]. set (c := current s) in *.
  apply (fm_in _ _ Hf) in Hin as Hp; [|done]. destruct Hp as (Hpa & Hp0 & Hpp).
  assert (t_pid (task_at s p) = p) as Hpid by (by apply (si_pid _ _ _ (ki_sinv _ _ _ Hk))).
  assert (p ≠ c) as Hpc by (by intros ->).
  apply list_elem_of_split in Hin as (l1 & l2 & Hl).
  destruct (lists_ok_del (alive s) KClist s (λ p, KPlist <$> F p) c (KPlist <$> l1) (KPlist p) (KPlist <$> l2) (fm_lists _ _ Hf) Hc) as [Hls _].
  { by rewrite Hl, fmap_app, fmap_cons. }
  pose proof (lk_list _ _ _ _ (fm_lists _ _ Hf) c Hc) as Hlc. cbn beta in Hlc. rewrite Hl, fmap_app, fmap_cons in Hlc.
  assert (∀ k, (∀ x, k ≠ KClist x) → (∀ x, k ≠ KPlist x) → nxt (list_del (KPlist p) s) k = nxt s k ∧ prv (list_del (KPlist p) s) k = prv s k) as Hoth.
  { intros k H1 H2. apply (list_del_others s (KClist c) (KPlist <$> l1) (KPlist p) (KPlist <$> l2) k Hlc).
    rewrite elem_of_cons, elem_of_app, elem_of_cons, !list_elem_of_fmap. naive_solver. }
  assert (p ∉ l1 ++ l2) as Hnp.
  { pose proof (is_list_NoDup _ _ _ (lk_list _ _ _ _ (fm_lists _ _ Hf) c Hc)) as Hnd. apply NoDup_fmap_1 in Hnd.
    rewrite Hl, <-Permutation_middle in Hnd. by apply NoDup_cons in Hnd as [? _]. }
  set (s1 := list_del (KPlist p) s) in *. set (s' := upd_tasks (delete p) s1).
  assert (∀ j, alive s' j ↔ alive s j ∧ j ≠ p) as Ha.
  { intros j. unfold alive, s'. simpl. destruct (decide (j = p)) as [->|]; [rewrite lookup_delete_eq|rewrite lookup_delete_ne by done; naive_solver].
    split; [by intros [? ?]|naive_solver]. }
  assert (∀ j, j ≠ p → task_at s' j = task_at s j) as Ht by (intros j Hj; unfold task_at, s'; simpl; by rewrite lookup_delete_ne).
  assert (∀ j, living s' j ↔ living s j) as Hlv.
  { intros j. unfold living. rewrite Ha. unfold st. destruct (decide (j = p)) as [->|]; [unfold st in Hz; naive_solver|]. rewrite Ht by done. naive_solver. }
  exists s', (<[c := l1 ++ l2]> F). split; [|split; [split|split; [done|split; [done|split]]]].
  - unfold reap. mstep. by rewrite Hpid.
  - apply kinv_delete; [|done|done|done|done]. apply (kinv_links s); [done..|]. intros x. by apply Hoth.
  - split.
    + apply (lists_ok_dom (alive s)); [intros i Hi; by apply Ha in Hi as [? _]|]. apply (lists_ok_frame _ _ s1); [|done|done].
      eapply lists_ok_ext; [|exact Hls]. intros i _. simpl. destruct (decide (i = c)) as [->|];
        [by rewrite !fn_lookup_insert, fmap_app|by rewrite !fn_lookup_insert_ne].
    + intros q j [Hq Hqp]%Ha. rewrite Ha. pose proof (fm_in _ _ Hf q j Hq) as Hin. destruct (decide (q = c)) as [->|Hne].
      * rewrite fn_lookup_insert. assert (j ∈ l1 ++ l2 ↔ j ∈ F c ∧ j ≠ p) as -> by (rewrite Hl; set_solver). rewrite Hin.
        unfold ppid. destruct (decide (j = p)) as [->|]; [naive_solver|]. rewrite Ht by done. naive_solver.
      * rewrite fn_lookup_insert_ne, Hin by done. unfold ppid in *. destruct (decide (j = p)) as [->|]; [naive_solver|].
        rewrite Ht by done. naive_solver.
    + intros j [Hj Hjp]%Ha. unfold ppid. rewrite Ht by done. apply Hlv. by apply (fm_parent _ _ Hf).
    + apply (rings_same (living s) _ s); [done|intros x; by apply Hoth|apply Hf].
    + destruct (fm_idle _ _ Hf) as [H0l H0p]. split; [by apply Hlv|]. unfold ppid. by rewrite Ht by done.
  - intros j. rewrite fn_lookup_insert, Hl. set_solver.
  - intros x Hx. by rewrite fn_lookup_insert_ne.
Qed.

Lemma pinv_upd s rq wl F p f : pinv s rq wl F →
  (∀ t, t_state (f t) = t_state t ∧ t_frame (f t) = t_frame t ∧ t_pid (f t) = t_pid t ∧ t_priority (f t) = t_priority t) →
  (∀ t, t_counter (f t) = t_counter t ∧ t_ppid (f t) = t_ppid t) → pinv (upd_task p f s) rq wl F.
Proof.
  intros [Hk Hf] H1 H2. split; [apply kinv_upd; [done|done|]; intros t; by rewrite (proj1 (H2 t))|].
  apply (fam_same s); [done| |intros; apply alive_upd| |done].
  - intros j. unfold ppid. apply task_at_field. intros t. apply H2.
  - intros j. unfold st. rewrite (task_at_field t_state); [done|]. intros t. apply H1.
Qed.
(** A queue nobody sleeps on may be made empty. *)
Lemma pinv_queue s rq wl F q : pinv s rq wl F → wl q = [] → pinv (upd_wq_head <[q := None]> s) rq wl F.
Proof.
  intros [[[H1 H2 H3 H4 H5 H6 H7 H8 H9] Haw Hpr Hcn] Hf] Hq. split; [split; [split|done..]|]; try done.
  - eapply is_list_frame; [exact H1|done|done].
  - intros a. apply (wchain_frame s); [done|]. simpl. destruct (decide (a = q)) as [->|]; [|by rewrite fn_lookup_insert_ne].
    rewrite fn_lookup_insert. by rewrite Hq.
  - by apply (fam_same s).
Qed.

Lemma sleep_own_spec s rq wl F wait : pinv s rq wl F → current s ≠ 0 → wl wait = [] → ∃ s' rq' wl', sleep_own wait s = Ret tt s' ∧
  pinv s' rq' wl' F ∧ calm s s' ∧ frm s' (current s) = Some wait ∧ st s' (current s) = TASK_UNINTERRUPTIBLE ∧ current s' ≠ current s.
Proof.
  intros Hp Hc Hw. set (s1 := upd_cur (set_t_sleep_spot (Some wait)) (upd_wq_head <[wait := None]> s)).
  assert (pinv s1 rq wl F) as [Hk1 Hf1] by (by apply pinv_upd; [apply pinv_queue|..]).
  assert (calm s s1) as Hcm by (transitivity (upd_wq_head <[wait := None]> s); [done|by apply calm_upd]).
  destruct (sleep_advances s1 rq wl (Some wait) TASK_UNINTERRUPTIBLE Hk1 eq_refl Hc) as (s' & He & rq' & wl' & Hk' & Hcm' & _).
  destruct (sleep_sleeps s1 rq wl wait TASK_UNINTERRUPTIBLE s' Hk1 eq_refl Hc He) as (H1 & H2 & H3).
  exists s', rq', wl'. split; [exact He|]. split; [split; [done|by apply (calm_fam s1)]|]. split; [by transitivity s1|]. done.
Qed.

(** What [do_wait] and [do_waitpid] make of the child found. *)
Inductive wait_result (s : kst) (wait : Z) (status : bool) (option : Z) (ok : task → bool) : waited → kst → Prop :=
  | wr_none : (∀ j, j ≠ 0 → alive s j → ppid s j = current s → ok (task_at s j) = false) →
      wait_result s wait status option ok (WRet (- ECHILD) None) s
  | wr_reap p s' : p ≠ 0 → alive s p → ppid s p = current s → ok (task_at s p) = true → st s p = TASK_ZOMBIE →
      tasks s' = delete p (tasks s) → current s' = current s →
      wait_result s wait status option ok (WRet p (if status then Some (t_exit_code (task_at s p)) else None)) s'
  | wr_nohang : (∃ j, alive s j ∧ ppid s j = current s ∧ ok (task_at s j) = true) → option = WNOHANG →
      (∀ j, j ≠ 0 → alive s j → ppid s j = current s → ok (task_at s j) = true → st s j ≠ TASK_ZOMBIE) →
      wait_result s wait status option ok (WRet 0 None) s
  | wr_sleep s' : (∃ j, alive s j ∧ ppid s j = current s ∧ ok (task_at s j) = true) → option ≠ WNOHANG →
      (∀ j, j ≠ 0 → alive s j → ppid s j = current s → ok (task_at s j) = true → st s j ≠ TASK_ZOMBIE) →
      frm s' (current s) = Some wait → st s' (current s) = TASK_UNINTERRUPTIBLE → t_exit_code (task_at s' (current s)) = 1 →
      (∀ p, living s' p ↔ living s p) → wait_result s wait status option ok WSlept s'.

Lemma wait_sleep_spec s rq wl F wait : pinv s rq wl F → current s ≠ 0 → wl wait = [] → ∃ s' rq' wl', wait_sleep wait s = Ret WSlept s' ∧
  pinv s' rq' wl' F ∧ frm s' (current s) = Some wait ∧ st s' (current s) = TASK_UNINTERRUPTIBLE ∧ t_exit_code (task_at s' (current s)) = 1 ∧
  ∀ p, living s' p ↔ living s p.
Proof.
  intros Hp Hc Hw. set (s1 := upd_cur (set_t_exit_code 1) s). assert (pinv s1 rq wl F) as Hp1 by by apply pinv_upd.
  destruct (sleep_own_spec s1 rq wl F wait Hp1 Hc Hw) as (s' & rq' & wl' & He & Hp' & Hcm & H1 & H2 & _).
  exists s', rq', wl'. split; [unfold wait_sleep; mstep; fold s1; by rewrite (bind_eval _ _ _ _ _ He)|]. split; [done|]. split; [done|]. split; [done|]. split.
  2: { intros p. unfold living at 1. rewrite (cm_alive _ _ Hcm), (cm_zombie _ _ Hcm). unfold living, s1, upd_cur, st.
       by rewrite alive_upd, (task_at_field t_state). }
  transitivity (t_exit_code (task_at s1 (current s))); [exact (f_equal t_exit_code (cm_view _ _ Hcm (current s)))|].
  unfold s1, upd_cur. rewrite task_at_alive; [done|]. apply (current_living _ _ _ _ Hp).
Qed.

Section wait.
Context s rq wl F (wait : Z) (status : bool) (opt : Z) (Hp : pinv s rq wl F) (Hc : current s ≠ 0) (Hw : wl wait = []).

Local Lemma my_child j : j ∈ F (current s) ↔ alive s j ∧ j ≠ 0 ∧ ppid s j = current s.
Proof. apply (fm_in _ _ (proj2 Hp)), (current_living _ _ _ _ Hp). Qed.

Definition settled (ok : task → bool) (c : M kst waited) : Prop := ∃ w s' rq' wl' F',
  c s = Ret w s' ∧ wait_result s wait status opt ok w s' ∧ pinv s' rq' wl' F'.

(** With the child [p] found: reap it, return, or sleep. *)
Lemma settle (ok : task → bool) p : p ∈ F (current s) → ok (task_at s p) = true →
  (zombie (task_at s p) = true ∨ ∀ j, j ∈ F (current s) → ok (task_at s j) = true → zombie (task_at s j) = false) →
  settled ok (if zombie (task_at s p) then reap p status else if opt =? WNOHANG then mret (WRet 0 None) else wait_sleep wait).
Proof.
  intros Hin Hok Hz. pose proof (proj1 (my_child p) Hin) as (Ha & H0 & Hpp). unfold settled. destruct (zombie (task_at s p)) eqn:Ez.
  - apply Z.eqb_eq in Ez. destruct (reap_spec s rq wl F p status Hp Hin Ez) as (s' & F' & He & Hp' & Ht & Ec & _).
    eexists _, s', rq, wl, F'. split; [exact He|]. split; [by apply wr_reap|done].
  - destruct Hz as [|Hz]; [done|]. assert (∀ j, j ≠ 0 → alive s j → ppid s j = current s → ok (task_at s j) = true → st s j ≠ TASK_ZOMBIE) as Hall.
    { intros j Hj0 Hja Hjp Hjok Hst. assert (zombie (task_at s j) = false) as E by (apply Hz; [by apply my_child|done]).
      apply Z.eqb_neq in E. done. }
    assert (∃ j, alive s j ∧ ppid s j = current s ∧ ok (task_at s j) = true) as Hex by (by exists p).
    destruct (Z.eqb_spec opt WNOHANG) as [E|E].
    + eexists _, s, rq, wl, F. split; [done|]. split; [by apply wr_nohang|done].
    + destruct (wait_sleep_spec s rq wl F wait Hp Hc Hw) as (s' & rq' & wl' & He & Hp' & H1 & H2 & H3 & H4).
      eexists _, s', rq', wl', F. split; [exact He|]. split; [by apply wr_sleep|done].
Qed.

Lemma clist_empty : list_empty (KClist (current s)) s = bool_decide (F (current s) = []).
Proof.
  pose proof (current_living _ _ _ _ Hp) as [Ha _].
  rewrite (list_empty_spec _ _ _ (lk_list _ _ _ _ (fm_lists _ _ (proj2 Hp)) _ Ha)). apply bool_decide_ext. by destruct (F (current s)).
Qed.
Lemma wait_check_settled : F (current s) ≠ [] → settled (λ _, true) (wait_check wait status opt).
Proof.
  intros Hne. destruct (pick_child_spec s (F (current s)) (λ _, true) zombie None) as [(p & E & Hin & Hok & Hz)|[_ Hall]].
  - destruct (settle (λ _, true) p Hin Hok Hz) as (w & s' & rq' & wl' & F' & He & Hr). exists w, s', rq', wl', F'. split; [|done].
    unfold wait_check. rewrite (bind_eval _ _ _ _ _ (child_eval _ _ _ _ _ _ Hp)), E. simpl from_opt. by mstep.
  - destruct (F (current s)) as [|x l]; [done|]. by specialize (Hall x ltac:(left)).
Qed.
Lemma do_wait_settled : settled (λ _, true) (do_wait wait status opt).
Proof.
  unfold settled, do_wait. mstep. rewrite clist_empty. destruct (decide (F (current s) = [])) as [E|E].
  - rewrite bool_decide_true by done. exists (WRet (- ECHILD) None), s, rq, wl, F. split; [done|]. split; [|done]. apply wr_none.
    intros j H0 Ha Hpp. assert (j ∈ F (current s)) as Hj by by apply my_child. rewrite E in Hj. by apply elem_of_nil in Hj.
  - rewrite bool_decide_false by done. by apply wait_check_settled.
Qed.

(** The children [do_waitpid] waits for. *)
Definition wanted (pid : Z) (c t : task) : bool :=
  if pid =? -1 then true
  else if 0 <? pid then t_pid t =? pid
  else t_pgid t =? (if pid =? 0 then t_pgid c else - pid).

Lemma waitpid_check_settled pid : settled (wanted pid (cur s)) (waitpid_check wait pid status opt).
Proof.
  unfold waitpid_check. destruct (Z.eqb_spec pid (-1)) as [E|E].
  { subst. exact do_wait_settled. }
  assert (∃ sel, (if 0 <? pid then child (λ t, t_pid t =? pid) (λ _, true)
     else child (λ t, t_pgid t =? (if pid =? 0 then t_pgid (cur s) else - pid)) zombie) s = Ret sel s ∧
    ((∃ p, sel = Some p ∧ p ∈ F (current s) ∧ wanted pid (cur s) (task_at s p) = true ∧
       (zombie (task_at s p) = true ∨ ∀ j, j ∈ F (current s) → wanted pid (cur s) (task_at s j) = true → zombie (task_at s j) = false)) ∨
     sel = None ∧ ∀ j, j ∈ F (current s) → wanted pid (cur s) (task_at s j) = false)) as (sel & He & Hsel).
  { unfold wanted. rewrite (proj2 (Z.eqb_neq _ _) E). destruct (0 <? pid).
    - eexists. split; [apply (child_eval _ _ _ _ _ _ Hp)|].
      destruct (pick_child_spec s (F (current s)) (λ t, t_pid t =? pid) (λ _, true) None) as [(p & -> & Hin & Hok & _)|[-> Hall]]; [left|by right].
      exists p. split; [done|]. split; [done|]. split; [done|]. destruct (zombie (task_at s p)) eqn:Ez; [by left|right]. intros j Hj Hjok.
      assert (∀ x, x ∈ F (current s) → (t_pid (task_at s x) =? pid) = true → x = pid) as Hone.
      { intros x (Hxa & _)%my_child Hx. apply Z.eqb_eq in Hx. rewrite <-Hx. symmetry. by apply (si_pid _ _ _ (ki_sinv _ _ _ (proj1 Hp))). }
      by rewrite (Hone j Hj Hjok), <-(Hone p Hin Hok).
    - eexists. split; [apply (child_eval _ _ _ _ _ _ Hp)|]. apply pick_child_spec. }
  unfold settled. mstep. rewrite (bind_eval _ _ _ _ _ He). cbv beta iota. destruct Hsel as [(p & -> & Hin & Hok & Hz)|[-> Hall]].
  - destruct (settle _ p Hin Hok Hz) as (w & s' & rq' & wl' & F' & Hx & Hr). exists w, s', rq', wl', F'. split; [|done]. mstep.
    destruct (zombie (task_at s p)) eqn:Ez; [done|]. simpl negb. rewrite andb_true_l. destruct (opt =? WNOHANG); [done|].
    rewrite (proj2 (Z.eqb_neq _ TASK_STOPPED)); [done|]. apply my_child in Hin as (Ha & _).
    destruct (si_state _ _ _ (ki_sinv _ _ _ (proj1 Hp)) p Ha) as [Hst|[[Hst _]|[Hst _]]]; unfold st in Hst; intros Es; by rewrite Es in Hst.
  - exists (WRet (- ECHILD) None), s, rq, wl, F. split; [done|]. split; [|done]. apply wr_none. intros j H0 Ha Hpp. by apply Hall, my_child.
Qed.
Lemma do_waitpid_settled pid : opt ∈ [0; WNOHANG; WUNTRACED] → settled (wanted pid (cur s)) (do_waitpid wait pid status opt).
Proof.
  intros Ho. unfold settled, do_waitpid. mstep. rewrite clist_empty. destruct (decide (F (current s) = [])) as [E|E].
  - rewrite bool_decide_true by done. exists (WRet (- ECHILD) None), s, rq, wl, F. split; [done|]. split; [|done]. apply wr_none.
    intros j H0 Ha Hpp. assert (j ∈ F (current s)) as Hj by by apply my_child. rewrite E in Hj. by apply elem_of_nil in Hj.
  - rewrite bool_decide_false by done. rewrite (proj2 (andb_false_iff _ _)); [apply waitpid_check_settled|].
    rewrite !elem_of_cons, elem_of_nil in Ho. destruct Ho as [->|[->|[->|[]]]]; auto.
Qed.
End wait.

(** ** exit *)

Section adopt.
Context s rq wl F c x l (Hp : pinv s rq wl F) (Hc : living s c) (Hi : living s INITPID) (Hci : c ≠ INITPID) (Hx : F c = x :: l).
Let F1 : Z → list Z := <[c := l]> F.
Let F2 : Z → list Z := <[INITPID := F INITPID ++ [x]]> F1.

Local Lemma adopt_child : alive s x ∧ x ≠ 0 ∧ ppid s x = c.
Proof. apply (fm_in _ _ (proj2 Hp)); [apply Hc|]. rewrite Hx. left. Qed.
Lemma adopt_links : let s' := adopt (KPlist x) s in lists_ok (alive s) KClist s' (λ p, KPlist <$> F2 p) ∧
  ∀ k, (∀ p, k ≠ KClist p) → (∀ p, k ≠ KPlist p) → nxt s' k = nxt s k ∧ prv s' k = prv s k.
Proof.
  pose proof (fm_lists _ _ (proj2 Hp)) as Hls. cbn [adopt]. set (s1 := upd_task x (set_t_ppid INITPID) s).
  assert (lists_ok (alive s) KClist s1 (λ p, KPlist <$> F p)) as Hls1 by (eapply lists_ok_frame; [exact Hls|done|done]).
  assert (∀ k, nxt s1 k = nxt s k ∧ prv s1 k = prv s k) as Hs1 by done. clearbody s1.
  destruct (lists_ok_del (alive s) KClist s1 _ c [] (KPlist x) (KPlist <$> l) Hls1) as [Hls2 Hfr]; [apply Hc|by rewrite Hx, fmap_cons|].
  pose proof (lists_ok_add_tail _ _ _ _ INITPID (KPlist x) Hls2 (proj1 Hi) Hfr I) as Hls3.
  pose proof (lk_list _ _ _ _ Hls1 c (proj1 Hc)) as Hlc. cbn beta in Hlc. rewrite Hx, fmap_cons in Hlc.
  pose proof (lk_list _ _ _ _ Hls2 INITPID (proj1 Hi)) as Hli. rewrite fn_lookup_insert_ne in Hli by done. split.
  - eapply lists_ok_ext; [|exact Hls3]. intros i _. unfold F2, F1. cbn beta.
    destruct (decide (i = INITPID)) as [->|]; [rewrite !fn_lookup_insert, fn_lookup_insert_ne, fmap_app by done; done|].
    rewrite !(fn_lookup_insert_ne _ INITPID) by done. destruct (decide (i = c)) as [->|]; [by rewrite !fn_lookup_insert|by rewrite !fn_lookup_insert_ne].
  - intros k H1 H2. destruct (list_del_others s1 (KClist c) [] (KPlist x) (KPlist <$> l) k Hlc) as [E1 E2].
    { simpl. rewrite !elem_of_cons, list_elem_of_fmap. naive_solver. }
    destruct (list_add_tail_others (list_del (KPlist x) s1) (KClist INITPID) (KPlist <$> F INITPID) (KPlist x) k Hli) as [E3 E4].
    + intros Hin. apply (Hfr INITPID (proj1 Hi)). by rewrite fn_lookup_insert_ne.
    + done.
    + rewrite !elem_of_cons, list_elem_of_fmap. naive_solver.
    + rewrite E3, E4, E1, E2. apply Hs1.
Qed.
Local Lemma adopt_in p j : alive s p → j ∈ F2 p ↔ (j ∈ F p ∧ j ≠ x) ∨ (j = x ∧ p = INITPID).
Proof.
  intros Ha. pose proof adopt_child as (Hxa & Hx0 & Hxp).
  assert (NoDup (F c)) as Hnd.
  { pose proof (is_list_NoDup _ _ _ (lk_list _ _ _ _ (fm_lists _ _ (proj2 Hp)) c (proj1 Hc))) as Hn. by apply NoDup_fmap_1 in Hn. }
  rewrite Hx in Hnd. apply NoDup_cons in Hnd as [Hxl _]. unfold F2, F1. pose proof (proj1 (fm_in _ _ (proj2 Hp) p j Ha)) as Hin.
  destruct (decide (p = INITPID)) as [->|Hpi].
  - rewrite fn_lookup_insert, elem_of_app, list_elem_of_singleton. destruct (decide (j = x)) as [->|]; naive_solver.
  - rewrite fn_lookup_insert_ne by done. destruct (decide (p = c)) as [->|Hpc].
    + rewrite fn_lookup_insert, Hx. set_solver.
    + rewrite fn_lookup_insert_ne by done. split; [|naive_solver]. intros Hj. left. split; [done|]. intros ->. apply Hpc.
      destruct (Hin Hj) as (_ & _ & <-). done.
Qed.

Context s' (Et : tasks s' = alter (set_t_ppid INITPID) x (tasks s)) (Ec : current s' = current s) (Eh : wq_head s' = wq_head s)
  (En : wq_next s' = wq_next s) (Hls : lists_ok (alive s) KClist s' (λ p, KPlist <$> F2 p))
  (Hoth : ∀ k, (∀ p, k ≠ KClist p) → (∀ p, k ≠ KPlist p) → nxt s' k = nxt s k ∧ prv s' k = prv s k).

Lemma adopt_pinv : pinv s' rq wl F2.
Proof.
  pose proof adopt_child as (Hxa & Hx0 & Hxp). destruct Hp as [Hk Hf].
  assert (∀ j, task_at s' j = task_at (upd_task x (set_t_ppid INITPID) s) j) as Ht by (intros j; unfold task_at; by rewrite Et).
  assert (∀ j, alive s' j ↔ alive s j) as Ha by (intros j; unfold alive; rewrite Et; apply (alive_upd x (set_t_ppid INITPID))).
  assert (∀ j, ppid s' j = if decide (j = x) then INITPID else ppid s j) as Hpp.
  { intros j. unfold ppid. rewrite Ht. destruct (decide (j = x)) as [->|]; [by rewrite task_at_alive|by rewrite task_at_other]. }
  assert (∀ j, living s' j ↔ living s j) as Hlv.
  { intros j. unfold living, st. by rewrite Ha, Ht, (task_at_field t_state). }
  split; [apply (kinv_links (upd_task x (set_t_ppid INITPID) s)); [by apply kinv_upd|done..|intros p; by apply Hoth]|]. split.
  - apply (lists_ok_dom (alive s)); [apply Ha|done].
  - intros p j Hpa%Ha. rewrite (adopt_in p j Hpa), Ha, Hpp, (fm_in _ _ Hf p j Hpa). case_decide; [subst j|]; naive_solver.
  - intros j Hj%Ha. rewrite Hlv, Hpp. case_decide; [done|by apply (fm_parent _ _ Hf)].
  - apply (rings_same (living s) _ s); [done|intros p; by apply Hoth|apply Hf].
  - rewrite Hlv, Hpp, decide_False by done. apply Hf.
Qed.
End adopt.
Lemma adopt_step s rq wl F c x l : pinv s rq wl F → living s c → living s INITPID → c ≠ INITPID → F c = x :: l →
  let s' := adopt (KPlist x) s in
  pinv s' rq wl (<[INITPID := F INITPID ++ [x]]> (<[c := l]> F)) ∧ tasks s' = alter (set_t_ppid INITPID) x (tasks s) ∧ current s' = current s.
Proof.
  intros Hp Hc Hi Hci Hx. destruct (adopt_links s rq wl F c x l Hp Hc Hi Hci Hx) as [H1 H2]. split; [|done].
  by apply (adopt_pinv s rq wl F c x l).
Qed.

(** What the exit of [c] may change of other processes: parents, groups and
    terminals, and what a wake up changes. *)
Definition tkept (t t' : task) : Prop :=
  t_pid t' = t_pid t ∧ t_sigactions t' = t_sigactions t ∧ t_blocked t' = t_blocked t ∧ t_blocked_saved t' = t_blocked_saved t ∧
  t_uid t' = t_uid t ∧ t_euid t' = t_euid t ∧ (t_exit_code t' = t_exit_code t).
#[export] Instance tkept_preorder : PreOrder tkept.
Proof. split; [by intros t|]. unfold tkept. intros t1 t2 t3. naive_solver congruence. Qed.
Record kkept s s' : Prop := {
  kk_alive p : alive s' p ↔ alive s p;
  kk_living p : living s' p ↔ living s p;
  kk_task p : tkept (task_at s p) (task_at s' p);
  kk_current : current s' = current s;
  kk_woke : woke s s';
  kk_frm p : frm s' p = frm s p;
}.
#[export] Instance kkept_preorder : PreOrder kkept.
Proof.
  split; [by split|]. intros s1 s2 s3 [A1 A2 A3 A4 A5 A6] [B1 B2 B3 B4 B5 B6]. split.
  - intros p. by rewrite B1.
  - intros p. by rewrite B2.
  - intros p. by transitivity (task_at s2 p).
  - congruence.
  - by transitivity s2.
  - congruence.
Qed.
Lemma kkept_upd s p f : (∀ t, tkept t (f t) ∧ t_state (f t) = t_state t ∧ t_sleep_spot (f t) = t_sleep_spot t ∧ t_frame (f t) = t_frame t) →
  kkept s (upd_task p f s).
Proof.
  intros H. split; [intros; apply alive_upd| | |done|intros j; right; split|intros j]; [| |apply task_at_field, H..].
  - intros j. unfold living, st. rewrite alive_upd, (task_at_field t_state); [done|]. intros t. apply H.
  - intros j. rewrite task_at_upd. case_decide; [subst|done]. unfold task_at. destruct (tasks s !! p); [apply H|done].
Qed.
Lemma kkept_tasks s s' : tasks s' = tasks s → current s' = current s → kkept s s'.
Proof.
  intros Et Ec. assert (∀ p, task_at s' p = task_at s p) as Ht by (intros p; unfold task_at; by rewrite Et).
  split; [intros p; unfold alive; by rewrite Et|intros p; unfold living, st, alive; by rewrite Ht, Et|intros p; by rewrite Ht|done|
    intros p; right; unfold st; by rewrite Ht|intros p; unfold frm; by rewrite Ht].
Qed.
Lemma calm_kkept s s' : calm s s' → woke s s' → (∀ p, frm s' p = frm s p) → current s' = current s → kkept s s'.
Proof.
  intros [_ H2 H3 H4 _ _] Hw Hf Hc. split; [done| |intros p; unfold tkept|done..].
  - intros p. unfold living. by rewrite H3, H4.
  - specialize (H2 p). repeat split; [exact (f_equal t_pid H2)|exact (f_equal t_sigactions H2)|exact (f_equal t_blocked H2)|
      exact (f_equal t_blocked_saved H2)|exact (f_equal t_uid H2)|exact (f_equal t_euid H2)|exact (f_equal t_exit_code H2)].
Qed.

Lemma pinv_calm_wakeup s rq wl F q : pinv s rq wl F → ∃ s' rq', wakeup q s = Ret tt s' ∧ pinv s' rq' wl F ∧ calm s s' ∧ kkept s s'.
Proof.
  intros [Hk Hf]. destruct (wakeup_spec s rq wl q (ki_sinv _ _ _ Hk)) as (s' & rq' & He & Hs' & _ & _ & _ & Ec & Hcm & Hwk & Hj).
  destruct (wakeup_advances s rq wl q Hk) as (x & Hx & rq2 & wl2 & Hk2 & _). assert (x = s') as -> by congruence.
  exists s', rq'. split; [done|]. split; [|split; [done|]].
  - split; [|by eapply calm_fam]. destruct Hk2 as [_ A2 A3 A4]. by split.
  - apply calm_kkept; [done|done|intros p; apply Hj|done].
Qed.

Lemma adopt_loop l s rq wl F c fuel : pinv s rq wl F → living s c → living s INITPID → c ≠ INITPID → F c = l → (length l < fuel)%nat →
  ∃ s' F', foreach_loop fuel (KClist c) (fst_or (KClist c) (KPlist <$> l)) (nxt s (fst_or (KClist c) (KPlist <$> l))) adopt s = Some s' ∧
    pinv s' rq wl F' ∧ F' c = [] ∧ kkept s s' ∧ (∀ j, j ∈ l → ppid s' j = INITPID) ∧ ∀ j, j ∉ l → ppid s' j = ppid s j.
Proof.
  revert s F fuel. induction l as [|x l IH]; intros s F fuel Hp Hc Hi Hci Hl Hf; simpl in Hf; (destruct fuel as [|fuel]; [lia|]).
  - exists s, F. cbn. rewrite decide_True by done. split; [done|]. split; [done|]. split; [done|]. split; [done|]. split; [by intros j ?%elem_of_nil|done].
  - destruct (adopt_step s rq wl F c x l Hp Hc Hi Hci Hl) as (Hp1 & Et & Ec). set (s1 := adopt (KPlist x) s) in *.
    set (F1 := <[INITPID := F INITPID ++ [x]]> (<[c := l]> F)) in *.
    assert (alive s x) as Hxa.
    { assert (x ∈ F c) as Hx by (rewrite Hl; left). apply (fm_in _ _ (proj2 Hp)) in Hx; [apply Hx|apply Hc]. }
    assert (∀ j, task_at s1 j = task_at (upd_task x (set_t_ppid INITPID) s) j) as Ht by (intros j; unfold task_at; by rewrite Et).
    assert (kkept s s1) as Hkk.
    { transitivity (upd_task x (set_t_ppid INITPID) s); [by apply kkept_upd|]. split; [|intros p; unfold living, st|intros p; by rewrite Ht|done|intros p; unfold st|intros p; unfold frm; by rewrite Ht].
      - intros p. unfold alive. by rewrite Et.
      - rewrite Ht. unfold alive. by rewrite Et.
      - rewrite Ht. by right. }
    assert (F1 c = l) as HF1 by (unfold F1; rewrite fn_lookup_insert_ne, fn_lookup_insert by done; done).
    destruct (IH s1 F1 fuel Hp1) as (s' & F' & He & Hp' & HF' & Hk' & H1 & H2); [by apply (kk_living _ _ Hkk)|by apply (kk_living _ _ Hkk)|done|done|lia|].
    exists s', F'. split; [|split; [done|split; [done|split; [by transitivity s1|]]]].
    + pose proof (lk_list _ _ _ _ (fm_lists _ _ (proj2 Hp)) c (proj1 Hc)) as Hlc. cbn beta in Hlc. rewrite Hl, fmap_cons in Hlc.
      pose proof (is_list_next s (KClist c) [KPlist x] (KPlist <$> l) Hlc) as [Hnx _]. change (lst (KClist c) [KPlist x]) with (KPlist x) in Hnx.
      change (fst_or (KClist c) (KPlist <$> (x :: l))) with (KPlist x). rewrite Hnx. cbn [foreach_loop]. rewrite decide_False by done. exact He.
    + assert (x ∉ l) as Hxl.
      { pose proof (is_list_NoDup _ _ _ (lk_list _ _ _ _ (fm_lists _ _ (proj2 Hp)) c (proj1 Hc))) as Hnd. cbn beta in Hnd.
        apply NoDup_fmap_1 in Hnd. rewrite Hl in Hnd. by apply NoDup_cons in Hnd as [? _]. }
      split.
      * intros j [->|Hj]%elem_of_cons; [|by apply H1]. rewrite H2 by done. unfold ppid. by rewrite Ht, task_at_alive.
      * intros j Hj. rewrite H2 by set_solver. unfold ppid. rewrite Ht, task_at_other; [done|]. set_solver.
Qed.

Lemma leave_children_spec s rq wl F : pinv s rq wl F → current s ≠ INITPID → living s INITPID → ∃ s' rq' F',
  leave_children s = Ret tt s' ∧ pinv s' rq' wl F' ∧ F' (current s) = [] ∧ kkept s s' ∧
  (∀ j, j ∈ F (current s) → ppid s' j = INITPID) ∧ ∀ j, j ∉ F (current s) → ppid s' j = ppid s j.
Proof.
  intros Hp Hci Hi. pose proof (current_living _ _ _ _ Hp) as Hc. unfold leave_children. mstep. rewrite (clist_empty _ _ _ _ Hp).
  destruct (decide (F (current s) = [])) as [E|E].
  - rewrite bool_decide_true by done. exists s, rq, F. split; [done|]. split; [done|]. split; [done|]. split; [done|]. split; [|done].
    rewrite E. by intros j ?%elem_of_nil.
  - rewrite bool_decide_false by done. simpl when.
    destruct (adopt_loop (F (current s)) s rq wl F (current s) (S (size (tasks s))) Hp Hc Hi Hci eq_refl) as (s1 & F1 & He & Hp1 & HF1 & Hk1 & H1 & H2).
    { pose proof (children_len _ _ _ _ _ Hp (proj1 Hc)). lia. }
    assert (each (KClist (current s)) adopt s = Ret tt s1) as He1.
    { unfold each, list_foreach. rewrite (is_list_nxt_hd _ _ _ (lk_list _ _ _ _ (fm_lists _ _ (proj2 Hp)) _ (proj1 Hc))). by rewrite He. }
    rewrite (bind_eval _ _ _ _ _ He1). cbv beta iota. mstep.
    destruct (pinv_calm_wakeup s1 rq wl F1 (t_sleep_spot (task_at s1 INITPID)) Hp1) as (s2 & rq2 & Hw & Hp2 & Hcm & Hkk).
    exists s2, rq2, F1. split; [done|]. split; [done|]. split; [done|]. split; [transitivity s1; [done|exact Hkk]|].
    assert (∀ j, ppid s2 j = ppid s1 j) as Hpp by (intros j; exact (f_equal t_ppid (cm_view _ _ Hcm j))).
    split; intros j Hj; rewrite Hpp; [by apply H1|by apply H2].
Qed.

Lemma sendsig_spec s rq wl F p n : pinv s rq wl F → full (task_at s p) → 1 <= n <= SIGNR → ∃ s' rq', sendsig p n s = Ret tt s' ∧
  pinv s' rq' wl F ∧ kkept s s' ∧ ∀ j, ppid s' j = ppid s j.
Proof.
  intros Hp Hf Hn. unfold sendsig. rewrite (proj2 (Z.leb_gt n 0)) by lia. simpl die_if. mstep.
  destruct (full_actions _ (n - 1) Hf) as (a & d & Ha & Hd); [lia|]. rewrite Ha, Hd. simpl from_opt. mstep.
  destruct (_ || _); [by exists s, rq|]. mstep.
  set (s1 := upd_task p (λ t, set_t_signal (Z.lor (t_signal t) (Z.shiftl 1 (n - 1))) t) s).
  assert (pinv s1 rq wl F) as Hp1 by by apply pinv_upd.
  assert (kkept s s1) as Hk1 by by apply kkept_upd. assert (∀ j, ppid s1 j = ppid s j) as Hpp1 by (intros j; by apply task_at_field).
  destruct (negb (p =? current s1)); [|by exists s1, rq]. simpl when.
  destruct (pinv_calm_wakeup s1 rq wl F (t_sleep_spot (task_at s1 p)) Hp1) as (s2 & rq2 & Hw & Hp2 & Hcm & Hkk).
  exists s2, rq2. split; [done|]. split; [done|]. split; [transitivity s1; [done|exact Hkk]|].
  intros j. rewrite <-Hpp1. exact (f_equal t_ppid (cm_view _ _ Hcm j)).
Qed.

(** A loop over a ring that changes nothing but terminals and groups. *)
Lemma each_group s rq wl F c l f : pinv s rq wl F → is_list s (KPg c) (KPg <$> l) → Forall (living s) l →
  (∀ t, t_state (f t) = t_state t ∧ t_frame (f t) = t_frame t ∧ t_pid (f t) = t_pid t ∧ t_priority (f t) = t_priority t) →
  (∀ t, t_counter (f t) = t_counter t ∧ t_ppid (f t) = t_ppid t) → (∀ t, tkept t (f t) ∧ t_sleep_spot (f t) = t_sleep_spot t) →
  ∃ s', each (KPg c) (on_group f) s = Ret tt s' ∧ pinv s' rq wl F ∧ kkept s s' ∧ (∀ j, ppid s' j = ppid s j) ∧
    knext s' = knext s ∧ kprev s' = kprev s.
Proof.
  intros Hp Hl Hall H1 H2 H3. unfold each. rewrite (list_foreach_fold _ _ (KPg <$> l)).
  - eexists. split; [done|]. clear Hl Hall. revert s Hp. induction l as [|x l IH]; intros s Hp; [done|]. rewrite fmap_cons. cbn [foldl].
    assert (pinv (on_group f (KPg x) s) rq wl F) as Hp1 by by apply pinv_upd.
    destruct (IH _ Hp1) as (A1 & A2 & A3 & A4 & A5). split; [done|]. split; [|split; [|done]].
    + transitivity (on_group f (KPg x) s); [|done]. apply kkept_upd. intros t. destruct (H1 t) as (? & ? & _), (H3 t). done.
    + intros j. rewrite A3. apply task_at_field. apply H2.
  - by intros [] s' q.
  - done.
  - done.
  - rewrite length_fmap. assert (NoDup l) as Hnd by (apply is_list_NoDup in Hl; by apply NoDup_fmap_1 in Hl).
    enough (length l <= size (tasks s))%nat by lia. rewrite <-(size_list_to_set (C:=gset Z) l) by done. rewrite <-size_dom. apply subseteq_size.
    intros p Hin%elem_of_list_to_set. rewrite Forall_forall in Hall. apply elem_of_dom. by apply Hall.
Qed.

(** After it the process is on no ring; the rest of the family is as it was. *)
Record leaving s F c : Prop := {
  lv_lists : lists_ok (alive s) KClist s (λ p, KPlist <$> F p);
  lv_in p j : alive s p → (j ∈ F p ↔ alive s j ∧ j ≠ 0 ∧ ppid s j = p);
  lv_parent j : alive s j → living s (ppid s j);
  lv_rings : rings_ok KPg (λ p, living s p ∧ p ≠ c) s;
  lv_idle : living s 0 ∧ ppid s 0 = 0;
}.
Lemma rings_alone s c : rings_ok KPg (living s) s → is_list s (KPg c) [] → rings_ok KPg (λ p, living s p ∧ p ≠ c) s.
Proof.
  intros Hr Hl p [Hp Hpc]. destruct (Hr p Hp) as (l & Hlp & Hall). exists l. split; [done|]. rewrite Forall_forall in Hall |- *.
  intros x Hx. split; [by apply Hall|]. intros ->.
  assert (p ∈ [c]) as Hin by (apply (ring_same KPg s c [] p l c); [done|done|left|by right]). by apply list_elem_of_singleton in Hin.
Qed.

Lemma fam_leaving s F c : fam s F → is_list s (KPg c) [] → leaving s F c.
Proof. intros [H1 H2 H3 H4 H5] Hl. split; try done. by apply rings_alone. Qed.
Lemma del_leaving s rq wl F c x l : pinv s rq wl F → living s c → is_list s (KPg c) (KPg <$> x :: l) →
  let s' := list_del (KPg c) s in kinv s' rq wl ∧ leaving s' F c ∧ kkept s s' ∧ ∀ j, ppid s' j = ppid s j.
Proof.
  intros [Hk [H1 H2 H3 H4 H5]] Hc Hl. cbv zeta. set (s' := list_del (KPg c) s).
  assert (is_list s (KPg x) ((KPg <$> l) ++ KPg c :: [])) as Hl1 by (by apply is_list_rotate).
  assert (∀ k, (∀ p, k ≠ KPg p) → nxt s' k = nxt s k ∧ prv s' k = prv s k) as Hoth.
  { intros k Hk'. apply (list_del_others s (KPg x) (KPg <$> l) (KPg c) [] k Hl1).
    rewrite elem_of_cons, elem_of_app, elem_of_cons, list_elem_of_fmap, elem_of_nil. naive_solver. }
  split; [apply (kinv_links s); [done..|intros p; by apply Hoth]|]. split; [|split; [by apply kkept_tasks|done]]. split; try done.
  - apply (lists_same (alive s) _ s); [done|intros p; by apply Hoth..|done].
  - by apply (rings_del KPg (living s) s c x l).
Qed.

Lemma leave_group_spec s rq wl F : pinv s rq wl F → ∃ s', leave_group s = Ret tt s' ∧ kinv s' rq wl ∧ leaving s' F (current s) ∧
  kkept s s' ∧ ∀ j, ppid s' j = ppid s j.
Proof.
  intros Hp. pose proof (current_living _ _ _ _ Hp) as Hc. destruct (fm_rings _ _ (proj2 Hp) _ Hc) as (l & Hl & Hall).
  unfold leave_group. mstep. rewrite (list_empty_spec _ _ _ Hl). set (owned := _ && _). set (own := upd_owners _).
  assert (∀ s rq wl F, pinv s rq wl F → pinv (own s) rq wl F ∧ kkept s (own s)) as Hown.
  { intros s0 rq0 wl0 F0 [Hk0 Hf0]. split; [|by apply kkept_tasks]. split; [by apply (kinv_links s0)|by apply (fam_same s0)]. }
  destruct l as [|x l].
  - rewrite bool_decide_true by done. cbv beta iota delta [negb]. destruct owned; simpl when.
    + destruct (Hown s rq wl F Hp) as [[Hk' Hf'] Hkk]. exists (own s). split; [done|]. split; [done|]. split; [|done].
      apply fam_leaving; [done|]. eapply is_list_frame; [exact Hl|done|done].
    + exists s. split; [done|]. split; [apply Hp|]. split; [|done]. apply fam_leaving; [apply Hp|done].
  - rewrite bool_decide_false by done. cbv beta iota delta [negb]. mstep.
    rewrite (is_list_nxt_hd _ _ _ Hl). change (fst_or (KPg (current s)) (KPg <$> x :: l)) with (KPg x).
    assert (∃ s1, (if owned then modify own;; each (KPg (current s)) (on_group (set_t_tty NOTTY)) else mret tt) s = Ret tt s1 ∧ pinv s1 rq wl F ∧
      kkept s s1 ∧ (∀ j, ppid s1 j = ppid s j) ∧ knext s1 = knext s ∧ kprev s1 = kprev s) as (s1 & He1 & Hp1 & Hk1 & Hpp1 & En1 & Ep1).
    { destruct owned; [|by exists s]. mstep. destruct (Hown s rq wl F Hp) as [Hp' Hkk].
      destruct (each_group (own s) rq wl F (current s) (x :: l) (set_t_tty NOTTY) Hp') as (s1 & He & A1 & A2 & A3 & A4 & A5);
        [eapply is_list_frame; [exact Hl|done|done]|done|done|done|done|].
      exists s1. split; [exact He|]. split; [done|]. split; [by transitivity (own s)|]. done. }
    rewrite (bind_eval _ _ _ _ _ He1). cbv beta iota. clear He1.
    assert (is_list s1 (KPg (current s)) (KPg <$> x :: l)) as Hl1 by (eapply is_list_frame; [exact Hl|intros; simpl; by rewrite En1, Ep1|done]).
    assert (∃ s2, (if t_pid (cur s) =? t_pgid (cur s) then
        pgid ← gets (λ s, t_pid (task_at s x)); each (KPg (current s)) (on_group (set_t_pgid pgid)) else mret tt) s1 = Ret tt s2 ∧ pinv s2 rq wl F ∧
      kkept s1 s2 ∧ (∀ j, ppid s2 j = ppid s1 j) ∧ knext s2 = knext s1 ∧ kprev s2 = kprev s1) as (s2 & He2 & Hp2 & Hk2 & Hpp2 & En2 & Ep2).
    { destruct (t_pid (cur s) =? t_pgid (cur s)); [|by exists s1]. mstep. pose proof (kk_current _ _ Hk1) as Ec. rewrite <-Ec in Hl1 |- *.
      destruct (each_group s1 rq wl F (current s1) (x :: l) (set_t_pgid (t_pid (task_at s1 x))) Hp1 Hl1) as (s2 & He & A1 & A2 & A3 & A4 & A5);
        [|done|done|done|by exists s2]. eapply Forall_impl; [exact Hall|]. intros p. apply (kk_living _ _ Hk1). }
    rewrite (bind_eval _ _ _ _ _ He2). cbv beta iota. clear He2.
    assert (is_list s2 (KPg (current s)) (KPg <$> x :: l)) as Hl2 by (eapply is_list_frame; [exact Hl1|intros; simpl; by rewrite En2, Ep2|done]).
    destruct (del_leaving s2 rq wl F (current s) x l Hp2) as (B1 & B2 & B3 & B4); [apply (kk_living _ _ Hk2), (kk_living _ _ Hk1), Hc|done|].
    exists (list_del (KPg (current s)) s2). split; [done|]. split; [done|]. split; [done|]. split; [by etransitivity; [|etransitivity]|].
    intros j. by rewrite B4, Hpp2, Hpp1.
Qed.

(** The process is a zombie from here on. *)
Definition ended (c e : Z) s : kst := upd_task c (set_t_exit_code e) (upd_task c (set_t_state TASK_ZOMBIE) (del_run c s)).

Section ended.
Context s rq wl (e : Z) (Hk : kinv s rq wl) (Hc : current s ≠ 0).
Let c : Z := current s.
Let s' : kst := ended c e s.

Local Lemma ended_cur : alive s c ∧ c ∈ rq ∧ frm s c = None.
Proof.
  pose proof (ki_sinv _ _ _ Hk) as Hs. destruct (ki_awake _ _ _ Hk) as [Hr Hf]. pose proof (si_cur _ _ _ Hs) as Ha. split; [done|]. split; [|done].
  apply (si_rq _ _ _ Hs). split; [done|]. split; [done|by apply Hr].
Qed.
Lemma ended_task j : task_at s' j = if decide (j = c) then set_t_exit_code e (set_t_state TASK_ZOMBIE (task_at s c)) else task_at s j.
Proof.
  destruct ended_cur as (Ha & _). unfold s', ended. destruct (decide (j = c)) as [->|Hne].
  - rewrite task_at_alive by by apply (alive_upd c). by rewrite task_at_alive.
  - by rewrite !task_at_other.
Qed.
Lemma ended_alive j : alive s' j ↔ alive s j.
Proof. unfold s', ended. by rewrite !alive_upd. Qed.
Lemma ended_links k : (∀ p, k ≠ KRun p) → nxt s' k = nxt s k ∧ prv s' k = prv s k.
Proof.
  intros Hk'. destruct ended_cur as (_ & Hin & _). pose proof (si_run _ _ _ (ki_sinv _ _ _ Hk)) as Hq.
  apply list_elem_of_split in Hin as (l1 & l2 & Hl). rewrite Hl, fmap_app, fmap_cons in Hq.
  apply (list_del_others s run_queue (KRun <$> l1) (KRun c) (KRun <$> l2) k Hq).
  intros [->|[(x & -> & _)%list_elem_of_fmap|[->|(x & -> & _)%list_elem_of_fmap]%elem_of_cons]%elem_of_app]%elem_of_cons; by eapply Hk'.
Qed.
Lemma ended_sinv : ∃ rq', sinv s' rq' wl ∧ ∀ j, j ∈ rq' ↔ j ∈ rq ∧ j ≠ c.
Proof.
  destruct ended_cur as (Ha & Hin & Hf). pose proof (ki_sinv _ _ _ Hk) as Hs.
  pose proof (is_list_NoDup _ _ _ (si_run _ _ _ Hs)) as Hnd. apply NoDup_fmap_1 in Hnd.
  apply list_elem_of_split in Hin as (l1 & l2 & Hl). pose proof (si_run _ _ _ Hs) as Hq. rewrite Hl, fmap_app, fmap_cons in Hq.
  assert (c ∉ l1 ++ l2) as Hnc by (rewrite Hl, <-Permutation_middle in Hnd; by apply NoDup_cons in Hnd as [? _]).
  exists (l1 ++ l2). split; [|intros j; rewrite Hl; set_solver].
  assert (∀ j, st s' j = if decide (j = c) then TASK_ZOMBIE else st s j) as Hst by (intros j; unfold st; rewrite ended_task; by case_decide).
  assert (∀ j, frm s' j = frm s j) as Hfr by (intros j; unfold frm; rewrite ended_task; case_decide; by subst).
  destruct Hs as [H1 H2 H3 H4 H5 H6 H7 H8 H9]. split.
  - pose proof (list_del_is_list s run_queue (KRun <$> l1) (KRun c) (KRun <$> l2) Hq) as Hq'. rewrite <-fmap_app in Hq'.
    eapply is_list_frame; [exact Hq'|done|done].
  - intros p. rewrite ended_alive, Hst. case_decide as E; [subst p; naive_solver|].
    transitivity (p ∈ rq); [rewrite Hl; set_solver|apply H2].
  - intros q. eapply wchain_frame; [|apply H3]. done.
  - done.
  - intros p q. by rewrite ended_alive, Hfr, H5.
  - intros p. rewrite ended_alive, Hst, Hfr. case_decide; [subst; by auto|apply H6].
  - by rewrite ended_alive, Hfr.
  - intros p. rewrite ended_alive, ended_task. case_decide; [subst; by apply H8|apply H8].
  - by rewrite ended_alive.
Qed.
Lemma ended_fam F : leaving s F c → F c = [] → fam s' F.
Proof.
  intros [H1 H2 H3 H4 H5] HF. destruct ended_cur as (Ha & _).
  assert (∀ j, living s' j ↔ living s j ∧ j ≠ c) as Hlv.
  { intros j. unfold living, st. rewrite ended_alive, ended_task. case_decide as E; [subst j; simpl; naive_solver|naive_solver]. }
  assert (∀ j, ppid s' j = ppid s j) as Hpp by (intros j; unfold ppid; rewrite ended_task; case_decide; by subst).
  split.
  - apply (lists_same (alive s) _ s); [apply ended_alive|intros; by apply ended_links..|done].
  - intros p j. rewrite !ended_alive, Hpp. apply H2.
  - intros j Hj%ended_alive. rewrite Hlv, Hpp. split; [by apply H3|]. intros E.
    destruct (decide (j = 0)) as [->|Hj0].
    + rewrite (proj2 H5) in E. done.
    + assert (j ∈ F c) as Hin by (by apply H2). rewrite HF in Hin. by apply elem_of_nil in Hin.
  - apply (rings_same (λ p, living s p ∧ p ≠ c) _ s); [done|intros; by apply ended_links|done].
  - rewrite Hlv, Hpp. by destruct H5.
Qed.
End ended.

(** The zombie and the processes around it. *)
Record exited s (e : Z) s' : Prop := {
  ex_zombie : st s' (current s) = TASK_ZOMBIE ∧ t_exit_code (task_at s' (current s)) = e;
  ex_current : current s' ≠ current s;
  ex_alive j : alive s' j ↔ alive s j;
  ex_living j : living s' j ↔ living s j ∧ j ≠ current s;
  ex_parent j : j ≠ 0 → alive s j → ppid s' j = if decide (ppid s j = current s) then INITPID else ppid s j;
  ex_wakes pp q : pp = ppid s (current s) → 0 < t_exit_code (task_at s pp) → frm s pp = Some q → t_sleep_spot (task_at s pp) = Some q →
    st s' pp = TASK_RUNNING;
}.

(** The parent that waits is woken. *)
Lemma exit_wake s rq wl pp : sinv s rq wl → ∃ s1 rq1, when (0 <? t_exit_code (task_at s pp)) (wakeup (t_sleep_spot (task_at s pp))) s = Ret tt s1 ∧
  sinv s1 rq1 wl ∧ calm s s1 ∧ current s1 = current s ∧ (∀ p, prio s1 p = prio s p ∧ counter s1 p = counter s p) ∧
  ∀ q, 0 < t_exit_code (task_at s pp) → frm s pp = Some q → t_sleep_spot (task_at s pp) = Some q ∨ st s pp = TASK_RUNNING → alive s pp →
    st s1 pp = TASK_RUNNING.
Proof.
  intros Hs. destruct (0 <? t_exit_code (task_at s pp)) eqn:E; simpl when.
  - destruct (wakeup_spec s rq wl (t_sleep_spot (task_at s pp)) Hs) as (s1 & rq1 & He & Hs1 & Hin & Hwl & Hfrom & Ec & Hcm & Hwk & Hj).
    exists s1, rq1. split; [done|]. split; [done|]. split; [done|]. split; [done|]. split; [intros p; split; apply Hj|].
    intros q _ Hfr [Hsp|Hst] Ha.
    + assert (pp ∈ rq1) as Hd by (apply (Hwl q); [done|by apply (si_wl _ _ _ Hs)]). by apply (si_rq _ _ _ Hs1) in Hd as (_ & _ & ?).
    + assert (pp ≠ 0) by (intros ->; by rewrite (proj2 (si_idle _ _ _ Hs)) in Hfr).
      assert (pp ∈ rq1) as Hd by (apply Hin, (si_rq _ _ _ Hs); done). by apply (si_rq _ _ _ Hs1) in Hd as (_ & _ & ?).
  - exists s, rq. split; [done|]. split; [done|]. split; [done|]. split; [done|]. split; [done|].
    intros q Hx. apply Z.ltb_ge in E. lia.
Qed.
(** The last part of [exit_process], from the zombie on. *)
Lemma exit_tail s rq wl F pp : sinv s rq wl → fam s F → (∀ p, alive s p → 0 < prio s p) → (∀ p, 0 <= counter s p) →
  st s (current s) = TASK_ZOMBIE → current s ≠ 0 →
  ∃ s' rq' wl', (p ← gets (λ s, task_at s pp); when (0 <? t_exit_code p) (wakeup (t_sleep_spot p));; schedule;; resume) s = Ret tt s' ∧
    pinv s' rq' wl' F ∧ calm s s' ∧ current s' ≠ current s ∧
    ∀ q, 0 < t_exit_code (task_at s pp) → frm s pp = Some q → t_sleep_spot (task_at s pp) = Some q ∨ st s pp = TASK_RUNNING → alive s pp →
      st s' pp = TASK_RUNNING.
Proof.
  intros Hs Hf Hpr Hcn Hz Hc0. mstep. destruct (exit_wake s rq wl pp Hs) as (s1 & rq1 & He1 & Hs1 & Hcm1 & Ec & Hpc & Hw1).
  rewrite (bind_eval _ _ _ _ _ He1). cbv beta iota.
  destruct (switch_advances s1 rq1 wl Hs1) as (s' & wl' & He & Hk' & [S1 _ _ Hcm S5] & _).
  { intros p. rewrite (cm_alive _ _ Hcm1), (proj1 (Hpc p)). apply Hpr. } { intros p. rewrite (proj2 (Hpc p)). apply Hcn. }
  exists s', rq1, wl'. split; [exact He|]. assert (calm s s') as Hcm2 by by transitivity s1.
  split; [split; [done|by eapply calm_fam]|]. split; [done|]. split.
  - destruct S1 as [[_ ->]|(Hin & _)]; [done|]. intros E. apply (si_rq _ _ _ Hs1) in Hin as (_ & _ & Hr). rewrite E in Hr.
    apply (cm_zombie _ _ Hcm1) in Hz. by rewrite Hz in Hr.
  - intros q H1 H2 H3 H4. rewrite (proj1 (S5 pp)). by eapply Hw1.
Qed.

Lemma exit_spec s rq wl F e : pinv s rq wl F → current s ≠ 0 → current s ≠ INITPID → living s INITPID → full (task_at s (ppid s (current s))) →
  ∃ s' rq' wl' F', exit_process e s = Ret tt s' ∧ pinv s' rq' wl' F' ∧ exited s e s'.
Proof.
  intros Hp Hc0 Hci Hi Hfull. set (c := current s) in *. set (pp := ppid s c). set (s0 := upd_cur (set_t_alarm 0) s).
  assert (pinv s0 rq wl F) as Hp0 by by apply pinv_upd. assert (kkept s s0) as Hk0 by by apply kkept_upd.
  assert (∀ j, ppid s0 j = ppid s j) as Hpp0 by (intros j; by apply task_at_field).
  destruct (leave_children_spec s0 rq wl F Hp0 Hci) as (s1 & rq1 & F1 & He1 & Hp1 & HF1 & Hk1 & Hin1 & Hout1); [by apply (kk_living _ _ Hk0)|].
  assert (kkept s s1) as Hk01 by by transitivity s0.
  assert (full (task_at s1 pp)) as Hfull1 by (unfold full; destruct (kk_task _ _ Hk01 pp) as (_ & -> & _); done).
  destruct (full_actions _ (SIGCHLD - 1) Hfull1) as (a & d & Ha & _); [done|].
  assert (∃ s2 rq2, when (negb (has (sa_flags a) SA_NOCLDSTOP)) (sendsig pp SIGCHLD) s1 = Ret tt s2 ∧ pinv s2 rq2 wl F1 ∧ kkept s1 s2 ∧
    ∀ j, ppid s2 j = ppid s1 j) as (s2 & rq2 & He2 & Hp2 & Hk2 & Hpp2).
  { destruct (negb _); simpl when; [|by exists s1, rq1]. by apply (sendsig_spec s1 rq1 wl F1). }
  destruct (leave_group_spec s2 rq2 wl F1 Hp2) as (s3 & He3 & Hki3 & Hlv3 & Hk3 & Hpp3).
  assert (kkept s s3) as Hk03 by (transitivity s1; [done|]; by transitivity s2). pose proof (kk_current _ _ Hk03) as Ec3. fold c in Ec3.
  pose proof (kk_current _ _ Hk3) as Ec2. rewrite <-Ec2 in Hlv3. assert (F1 (current s3) = []) as HF3 by by rewrite Ec3.
  destruct (ended_sinv s3 rq2 wl e Hki3) as (rq4 & Hs4 & Hrq4); [by rewrite Ec3|].
  pose proof (ended_fam s3 rq2 wl e Hki3 ltac:(by rewrite Ec3) F1 Hlv3 HF3) as Hf4. set (s4 := ended (current s3) e s3) in *.
  assert (∀ j, task_at s4 j = if decide (j = c) then set_t_exit_code e (set_t_state TASK_ZOMBIE (task_at s3 c)) else task_at s3 j) as Ht4.
  { intros j. unfold s4. rewrite (ended_task s3 rq2 wl e Hki3) by by rewrite Ec3. by rewrite Ec3. }
  assert (∀ j, prio s4 j = prio s3 j ∧ counter s4 j = counter s3 j ∧ ppid s4 j = ppid s3 j ∧ frm s4 j = frm s3 j) as Hf34.
  { intros j. unfold prio, counter, ppid, frm. rewrite Ht4. case_decide; by subst. }
  assert (∀ j, alive s4 j ↔ alive s3 j) as Ha4 by (intros j; apply (ended_alive s3)).
  destruct (exit_tail s4 rq4 wl F1 pp Hs4 Hf4) as (s' & rq' & wl' & He5 & Hp' & Hcm & Hne & Hwake).
  { intros p. rewrite Ha4, (proj1 (Hf34 p)). apply (ki_prio _ _ _ Hki3). } { intros p. destruct (Hf34 p) as (_ & -> & _). apply (ki_count _ _ _ Hki3). }
  { change (current s4) with (current s3). rewrite Ec3. unfold st. by rewrite Ht4, decide_True. } { change (current s4) with (current s3). by rewrite Ec3. }
  change (current s4) with (current s3) in Hne. rewrite Ec3 in Hne.
  exists s', rq', wl', F1. split; [|split; [done|]].
  - unfold exit_process. mstep. fold s0. change (current s0) with c. change (t_ppid (cur s0)) with (ppid s0 c). rewrite Hpp0. fold pp.
    rewrite (bind_eval _ _ _ _ _ He1). cbv beta iota. mstep. rewrite Ha. simpl from_opt. mstep. rewrite (bind_eval _ _ _ _ _ He2). cbv beta iota.
    rewrite (bind_eval _ _ _ _ _ He3). cbv beta iota. mstep. rewrite <-Ec3.
    change (upd_cur (set_t_exit_code e) _) with s4. exact He5.
  - pose proof (kk_task _ _ Hk03 pp) as (_ & _ & _ & _ & _ & _ & Hexit). split.
    + split; [apply (cm_zombie _ _ Hcm); unfold st; by rewrite Ht4, decide_True|].
      transitivity (t_exit_code (task_at s4 c)); [exact (f_equal t_exit_code (cm_view _ _ Hcm c))|]. by rewrite Ht4, decide_True.
    + done.
    + intros j. rewrite (cm_alive _ _ Hcm), Ha4. apply Hk03.
    + intros j. unfold living at 1. rewrite (cm_alive _ _ Hcm), (cm_zombie _ _ Hcm), Ha4, <-(kk_living _ _ Hk03). unfold living, st.
      rewrite Ht4. case_decide; [subst; simpl; naive_solver|naive_solver].
    + intros j Hj0 Hja. transitivity (ppid s4 j); [exact (f_equal t_ppid (cm_view _ _ Hcm j))|].
      destruct (Hf34 j) as (_ & _ & -> & _). rewrite Hpp3, Hpp2. pose proof (fm_in _ _ (proj2 Hp) c j (proj1 (current_living _ _ _ _ Hp))) as Hin.
      case_decide as E; [apply Hin1, Hin; by auto|]. rewrite Hout1; [apply Hpp0|]. intros (_ & _ & ?)%Hin. done.
    + intros x q Ex Hx1 Hx2 Hx3. change (x = pp) in Ex. subst x. assert (pp ≠ c) as Hpc.
      { intros E. rewrite E in Hx2. destruct (current_runs _ _ _ _ Hp) as (_ & _ & Hx). fold c in Hx. congruence. }
      apply (Hwake q).
      * rewrite Ht4, decide_False by done. by rewrite Hexit.
      * destruct (Hf34 pp) as (_ & _ & _ & ->). by rewrite (kk_frm _ _ Hk03).
      * unfold st. rewrite !Ht4, !decide_False by done. destruct (kk_woke _ _ Hk03 pp) as [?|[_ ->]]; [by right|by left].
      * apply Ha4, (kk_alive _ _ Hk03). apply (fm_parent _ _ (proj2 Hp)), (current_living _ _ _ _ Hp).
Qed.
