(* ===== verification/System.v ===== *)
(** * The system of processes

    All the calls a process makes, in any order: scheduling, fork, exit, wait,
    signals, identities, groups and limits.  The invariant of the queues and
    families, and what holds of every process, survive each of them. *)

From S2P Require Import Prelude Dlist Task Sched Runq Signal Stable Family Sigframe Proc Tree.
From stdpp Require Import base numbers functions gmap list relations.

Local Open Scope Z_scope.

Implicit Types (s : kst).

(** The queues and families are in order, and there is an init process. *)
Definition ordered s : Prop := (∃ rq wl F, pinv s rq wl F) ∧ living s INITPID.

Lemma ordered_upd p f s : ordered s →
  (∀ t, t_state (f t) = t_state t ∧ t_frame (f t) = t_frame t ∧ t_pid (f t) = t_pid t ∧ t_priority (f t) = t_priority t) →
  (∀ t, t_counter (f t) = t_counter t ∧ t_ppid (f t) = t_ppid t) → ordered (upd_task p f s).
Proof.
  intros [(rq & wl & F & Hp) [Ha Hz]] H1 H2. split; [exists rq, wl, F; by apply pinv_upd|]. split; [by apply alive_upd|].
  unfold st. by rewrite (task_at_field t_state) by apply H1.
Qed.
Lemma ordered_upd_cur f s : ordered s →
  (∀ t, t_state (f t) = t_state t ∧ t_frame (f t) = t_frame t ∧ t_pid (f t) = t_pid t ∧ t_priority (f t) = t_priority t) →
  (∀ t, t_counter (f t) = t_counter t ∧ t_ppid (f t) = t_ppid t) → ordered (upd_cur f s).
Proof. apply ordered_upd. Qed.
(** A change of what neither speaks of. *)
Lemma ordered_rest s s' : ordered s → tasks s' = tasks s → current s' = current s → knext s' = knext s → kprev s' = kprev s →
  wq_head s' = wq_head s → wq_next s' = wq_next s → ordered s'.
Proof.
  intros [(rq & wl & F & Hk & Hf) Hi] E1 E2 E3 E4 E5 E6.
  assert (∀ p, task_at s' p = task_at s p) as Ht by (intros p; unfold task_at; by rewrite E1).
  split; [exists rq, wl, F; split|unfold living, alive, st; by rewrite E1, Ht].
  - apply (kinv_links s); [done..|]. intros p. simpl. by rewrite E3, E4.
  - apply (fam_same s); [intros k _; simpl; by rewrite E3, E4|intros p; unfold ppid; by rewrite Ht|intros p; unfold alive; by rewrite E1|
      intros p; unfold st; by rewrite Ht|done].
Qed.

Lemma ordered_wakeup q : stable ordered (wakeup q).
Proof.
  intros s [(rq & wl & F & Hp) Hi]. destruct (pinv_calm_wakeup s rq wl F q Hp) as (s' & rq' & -> & Hp' & _ & Hk).
  split; [by exists rq', wl, F|by apply (kk_living _ _ Hk)].
Qed.
Ltac upd_tac := intros; first [apply ordered_upd_cur | apply ordered_upd]; done.
Lemma ordered_sendsig p n : stable ordered (sendsig p n).
Proof. pose proof ordered_wakeup. unfold sendsig. stab; intros; apply stable_modify; upd_tac. Qed.
Lemma ordered_kill_ring fuel hd pos n : stable ordered (kill_ring fuel hd pos n).
Proof. pose proof ordered_sendsig. revert pos. induction fuel as [|fuel IH]; intros pos; simpl; stab. Qed.
Lemma ordered_sys_kill pid n : stable ordered (sys_kill pid n).
Proof. pose proof ordered_sendsig. pose proof ordered_kill_ring. unfold sys_kill, task_slot. stab. Qed.
Lemma ordered_id_run c : stable ordered (id_run c).
Proof.
  destruct c; simpl; unfold sys_setuid, sys_setgid, sys_setreuid, sys_setregid, sys_setgroups; stab; intros; apply stable_modify; upd_tac.
Qed.
Lemma ordered_sys_signal n h : stable ordered (sys_signal n h).
Proof. unfold sys_signal, upd_action. stab; intros; apply stable_modify; upd_tac. Qed.
Lemma ordered_sys_sigaction n a o : stable ordered (sys_sigaction n a o).
Proof. unfold sys_sigaction, upd_action. stab; intros; apply stable_modify; upd_tac. Qed.
Lemma ordered_sys_sigprocmask h a o : stable ordered (sys_sigprocmask h a o).
Proof. unfold sys_sigprocmask. stab; intros; apply stable_modify; upd_tac. Qed.
Lemma ordered_do_sigreturn r m : stable ordered (do_sigreturn r m).
Proof. unfold do_sigreturn. stab; intros; apply stable_modify; upd_tac. Qed.
Lemma ordered_sys_setrlimit n r : stable ordered (sys_setrlimit n r).
Proof. unfold sys_setrlimit. stab; intros; apply stable_modify; upd_tac. Qed.
Lemma ordered_sys_umask m : stable ordered (sys_umask m).
Proof. unfold sys_umask. stab; intros; apply stable_modify; upd_tac. Qed.
Lemma ordered_sys_ioperm f n o : stable ordered (sys_ioperm f n o).
Proof.
  assert (∀ o i n m, stable ordered (io_byte o i n m)) as H1 by (intros; unfold io_byte; stab; intros; apply stable_modify; upd_tac).
  assert (stable ordered io_load) as H2.
  { unfold io_load. stab; intros; apply stable_modify; intros s Hs; by apply (ordered_rest s). }
  assert (∀ o f n, stable ordered (io_bytes o f n)) as H3 by (intros; unfold io_bytes; stab; intros; apply stable_modify; upd_tac).
  unfold sys_ioperm. stab.
Qed.

(** ** Groups *)

(** A process leaves its ring; it stays a ring of its own. *)
Lemma pinv_del1 s rq wl F c x l : pinv s rq wl F → living s c → is_list s (KPg c) (KPg <$> x :: l) → pinv (list_del1 (KPg c) s) rq wl F.
Proof.
  intros [Hk Hf] Hc Hl. assert (is_list s (KPg x) ((KPg <$> l) ++ KPg c :: [])) as Hl1 by (by apply is_list_rotate).
  assert (∀ k, (∀ p, k ≠ KPg p) → nxt (list_del1 (KPg c) s) k = nxt s k ∧ prv (list_del1 (KPg c) s) k = prv s k) as Hoth.
  { intros k Hk'. apply (list_del1_others s (KPg x) (KPg <$> l) (KPg c) [] k Hl1).
    rewrite elem_of_cons, elem_of_app, elem_of_cons, list_elem_of_fmap, elem_of_nil. naive_solver. }
  split; [apply (kinv_links s); [done..|intros p; by apply Hoth]|]. destruct Hf as [H1 H2 H3 H4 H5]. split; try done.
  - apply (lists_same (alive s) _ s); [done|intros p; by apply Hoth..|done].
  - by apply (rings_del1 KPg (living s) s c x l).
Qed.
Lemma quit_group_spec s rq wl F p : pinv s rq wl F → living s p → ∃ s', quit_group p s = Ret tt s' ∧ pinv s' rq wl F ∧ kkept s s'.
Proof.
  intros Hp Hc. destruct (fm_rings _ _ (proj2 Hp) _ Hc) as (l & Hl & Hall). unfold quit_group. mstep. rewrite (list_empty_spec _ _ _ Hl).
  set (owned := _ && _).
  assert (∀ v s rq wl F, pinv s rq wl F → pinv (upd_owners (zset (t_tty (task_at s p) - 1) v) s) rq wl F) as Hown.
  { intros v s0 rq0 wl0 F0 [Hk0 Hf0]. split; [by apply (kinv_links s0)|by apply (fam_same s0)]. }
  destruct l as [|x l].
  - rewrite bool_decide_true by done. cbv beta iota delta [negb]. destruct owned; simpl when; [|by exists s].
    eexists. split; [done|]. split; [by apply Hown|by apply kkept_tasks].
  - rewrite bool_decide_false by done. cbv beta iota delta [negb]. mstep.
    rewrite (is_list_nxt_hd _ _ _ Hl). change (fst_or (KPg p) (KPg <$> x :: l)) with (KPg x). cbv beta iota. mstep.
    assert (∃ s1, when owned (modify (upd_owners (zset (t_tty (task_at s p) - 1) (t_pid (task_at s x))))) s = Ret tt s1 ∧ pinv s1 rq wl F ∧
      kkept s s1 ∧ knext s1 = knext s ∧ kprev s1 = kprev s) as (s1 & He1 & Hp1 & Hk1 & En1 & Ep1).
    { destruct owned; simpl when; [|by exists s]. eexists. split; [done|]. split; [by apply Hown|]. split; [by apply kkept_tasks|done]. }
    rewrite (bind_eval _ _ _ _ _ He1). cbv beta iota. clear He1.
    assert (is_list s1 (KPg p) (KPg <$> x :: l)) as Hl1 by (eapply is_list_frame; [exact Hl|intros; simpl; by rewrite En1, Ep1|done]).
    assert (∃ s2, when (t_pid (task_at s p) =? t_pgid (task_at s p)) (each (KPg p) (on_group (set_t_pgid (t_pid (task_at s x))))) s1 = Ret tt s2 ∧
      pinv s2 rq wl F ∧ kkept s1 s2 ∧ knext s2 = knext s1 ∧ kprev s2 = kprev s1) as (s2 & He2 & Hp2 & Hk2 & En2 & Ep2).
    { destruct (t_pid (task_at s p) =? t_pgid (task_at s p)); simpl when; [|by exists s1].
      destruct (each_group s1 rq wl F p (x :: l) (set_t_pgid (t_pid (task_at s x))) Hp1 Hl1) as (s2 & He & A1 & A2 & A3 & A4 & A5);
        [|done|done|done|by exists s2]. eapply Forall_impl; [exact Hall|]. intros j. apply (kk_living _ _ Hk1). }
    rewrite (bind_eval _ _ _ _ _ He2). cbv beta iota. clear He2.
    assert (is_list s2 (KPg p) (KPg <$> x :: l)) as Hl2 by (eapply is_list_frame; [exact Hl1|intros; simpl; by rewrite En2, Ep2|done]).
    exists (list_del1 (KPg p) s2). split; [done|]. split.
    + apply (pinv_del1 s2 rq wl F p x l); [done|apply (kk_living _ _ Hk2), (kk_living _ _ Hk1), Hc|done].
    + transitivity s1; [done|]. transitivity s2; [done|]. by apply kkept_tasks.
Qed.

Lemma task_slot_eval pid s : 0 <= pid < NR_TASKS → task_slot pid s = Ret (tasks s !! pid) s.
Proof.
  intros Hp. unfold task_slot. rewrite (proj2 (orb_false_iff _ _)); [done|]. split; [apply Z.ltb_ge|apply Z.leb_gt]; lia.
Qed.
Lemma bad_pid_spec pid : bad_pid pid = false ↔ 0 <= pid < NR_TASKS.
Proof. unfold bad_pid, NR_TASKS. rewrite orb_false_iff, Z.ltb_ge, Z.ltb_ge. lia. Qed.

Definition not_zombie s (pid : Z) : Prop := st s (if pid =? 0 then current s else pid) ≠ TASK_ZOMBIE.

Lemma sys_setpgid_ordered s pid pgid : ordered s → (∀ p, alive s p → 0 <= p < NR_TASKS) → not_zombie s pid →
  ∃ r s', sys_setpgid pid pgid s = Ret r s' ∧ ordered s' ∧ kkept s s'.
Proof.
  intros [(rq & wl & F & Hp) Hi] Hrange Hz. assert (∀ r, ∃ r' s', (mret r : M kst Z) s = Ret r' s' ∧ ordered s' ∧ kkept s s') as Hret.
  { intros r. exists r, s. split; [done|]. split; [|done]. split; [by exists rq, wl, F|done]. }
  unfold sys_setpgid. destruct (bad_pid pid) eqn:B1; [apply Hret|]. destruct (bad_pid pgid) eqn:B2; [apply Hret|].
  apply bad_pid_spec in B1, B2. rewrite (bind_eval _ _ _ _ _ (task_slot_eval pid s B1)). cbv beta.
  rewrite (bind_eval _ _ _ _ _ (task_slot_eval pgid s B2)). cbv beta.
  destruct (tasks s !! pid) as [t|] eqn:Et; [|apply Hret]. destruct (tasks s !! pgid) as [g|]; [|apply Hret].
  destruct (negb (t_session t =? t_session g)); [apply Hret|]. mstep.
  pose proof (current_living _ _ _ _ Hp) as Hcl.
  assert (t_pid (cur s) = current s) as -> by (apply (si_pid _ _ _ (ki_sinv _ _ _ (proj1 Hp))), Hcl).
  set (q := if pid =? 0 then current s else pid) in *.
  assert (living s q) as Hq.
  { split; [|exact Hz]. unfold q. destruct (Z.eqb_spec pid 0); [apply Hcl|]. by exists t. }
  rewrite (bind_eval _ _ _ _ _ (task_slot_eval q s (Hrange q (proj1 Hq)))). cbv beta. destruct (proj1 Hq) as [tq ->]. simpl from_opt. mstep.
  repeat (match goal with |- context [if ?b then mret _ else _] => destruct b; [apply Hret|] end).
  destruct (quit_group_spec s rq wl F q Hp Hq) as (s1 & He & Hp1 & Hk1).
  rewrite (bind_eval _ _ _ _ _ He). cbv beta iota. mstep. eexists 0, _. split; [done|]. split.
  - apply ordered_upd; [|done|done]. apply ordered_upd; [|done|done]. split; [by exists rq, wl, F|by apply (kk_living _ _ Hk1)].
  - transitivity s1; [done|]. transitivity (upd_task q (set_t_pgid pgid) s1); by apply kkept_upd.
Qed.

(** ** fork, exit, wait *)

Lemma pinv_next_pid s rq wl F f : pinv s rq wl F → pinv (upd_next_pid f s) rq wl F.
Proof. intros [Hk Hf]. split; [by apply (kinv_links s)|by apply (fam_same s)]. Qed.

(** What fork does: it fails and the processes are as before, or there is one
    more process, a copy of the running one, last in the run queue. *)
Inductive forks s rq wl F : Z → kst → Prop :=
  | fr_fail r s' : r < 0 → tasks s' = tasks s → 1 <= next_pid s' < NR_TASKS → pinv s' rq wl F → forks s rq wl F r s'
  | fr_child nr s' F' : 1 <= nr < NR_TASKS → ¬ alive s nr → 1 <= next_pid s' < NR_TASKS →
      tasks s' = alter (set_t_need_sched true) (current s) (<[nr := forked nr (cur s)]> (tasks s)) → current s' = current s →
      F' = <[current s := nr :: F (current s)]> (<[nr := []]> F) → pinv s' (rq ++ [nr]) wl F' → forks s rq wl F nr s'.
Lemma sys_fork_spec s rq wl F page dir mmaps : pinv s rq wl F → 1 <= next_pid s < NR_TASKS → ∃ r s', sys_fork page dir mmaps s = Ret r s' ∧
  forks s rq wl F r s'.
Proof.
  intros Hp Hn. unfold sys_fork, find_empty_process. rewrite bind_assoc, bind_gets.
  destruct (empty_loop_spec (Z.to_nat NR_TASKS) (next_pid s) s Hn) as [(k & _ & Hf & Hr & E)|[_ E]]; rewrite (bind_eval _ _ _ _ _ E); cbv beta.
  2: { eexists _, s. split; [done|]. by apply fr_fail. }
  set (nr := Nat.iter k next_slot (next_pid s)) in *. set (s1 := upd_next_pid _ s).
  assert (pinv s1 rq wl F) as Hp1 by by apply pinv_next_pid.
  assert (1 <= next_pid s1 < NR_TASKS) as Hn1.
  { unfold s1, NR_TASKS. simpl. pose proof (Z.mod_pos_bound nr (64 - 1)). lia. }
  rewrite (proj2 (Z.ltb_ge nr 0)) by lia.
  assert (¬ alive s1 nr) as Hna by (unfold alive; simpl; rewrite Hf; by intros [? [=]]).
  assert (∀ e, e < 0 → forks s rq wl F e s1) as Hfail by (intros e He; by apply fr_fail).
  destruct page; [|eexists _, s1; split; [done|by apply Hfail]]. destruct dir; [|eexists _, s1; split; [done|by apply Hfail]].
  destruct mmaps; [|eexists _, s1; split; [done|by apply Hfail]].
  destruct (fork_spec s1 rq wl F nr Hp1 Hna) as (s' & He & E1 & E2 & E3 & Hp'); [lia|].
  rewrite (bind_eval _ _ _ _ _ He). exists nr, s'. split; [done|]. apply (fr_child s rq wl F nr s' (<[current s := nr :: F (current s)]> (<[nr := []]> F)));
    [done|done|by rewrite E3|exact E1|exact E2|done|exact Hp'].
Qed.

Lemma copy_process_0 nr s : ∃ s', copy_process nr true true true s = Ret 0 s'.
Proof. eexists. reflexivity. Qed.
(** With memory and a free slot it does not fail. *)
Lemma sys_fork_succeeds s page dir mmaps r s' : 1 <= next_pid s < NR_TASKS → page && dir && mmaps = true →
  (∃ x, 2 <= x < NR_TASKS ∧ tasks s !! x = None) → sys_fork page dir mmaps s = Ret r s' → 0 < r.
Proof.
  intros Hn Hm (x & Hx & Hf) He. destruct page, dir, mmaps; try done. revert He. unfold sys_fork, find_empty_process. rewrite bind_assoc, bind_gets.
  destruct (empty_loop_spec (Z.to_nat NR_TASKS) (next_pid s) s Hn) as [(k & _ & _ & Hr & E)|[Hall _]].
  - rewrite (bind_eval _ _ _ _ _ E). cbv beta. set (nr := Nat.iter k next_slot (next_pid s)) in *. rewrite (proj2 (Z.ltb_ge nr 0)) by lia.
    destruct (copy_process_0 nr (upd_next_pid (λ _, nr mod (NR_TASKS - 1) + 1) s)) as [s2 Hc]. rewrite (bind_eval _ _ _ _ _ Hc).
    intros Hr'. assert (r = nr) as -> by (change ((mret nr : M kst Z) s2 = Ret r s') in Hr'; unfold mret, M_ret in Hr'; congruence). lia.
  - destruct (slots_seen (next_pid s) x Hn Hx) as (k & Hk & E). destruct (Hall k Hk) as [t Ht]. by rewrite E, Hf in Ht.
Qed.

(** ** What holds of each process *)

(** SIGKILL and SIGSTOP are not in the mask. *)
Definition open_mask (m : Z) : Prop := Z.land m CANNOTBLOCKSIG = 0.
Record proc_ok (t : task) : Prop := {
  po_actions : full t;
  po_blocked : open_mask (t_blocked t);
  po_saved : open_mask (t_blocked_saved t);
  po_masks : Forall (λ a, open_mask (sa_mask a)) (t_sigactions t);
  po_limits : zlen (t_rlims t) = RLIM_NLIMITS ∧ Forall (λ r, rlim_cur r <= rlim_max r) (t_rlims t);
}.
#[export] Instance proc_ok_local : Local proc_ok.
Proof.
  split; [|intros t v []; by split]. intros t t' H [H1 H2 H3 H4 H5].
  split; unfold full in *; [rewrite <-(f_equal t_sigactions H : t_sigactions t = t_sigactions t')|rewrite <-(f_equal t_blocked H : t_blocked t = t_blocked t')|
    rewrite <-(f_equal t_blocked_saved H : t_blocked_saved t = t_blocked_saved t')|
    rewrite <-(f_equal t_sigactions H : t_sigactions t = t_sigactions t')|rewrite <-(f_equal t_rlims H : t_rlims t = t_rlims t')]; done.
Qed.
Lemma open_allow m : open_mask (allow_kill m).
Proof. unfold open_mask, allow_kill. rewrite <-Z.land_assoc, (Z.land_comm (Z.lnot _)), Z.land_lnot_diag. apply Z.land_0_r. Qed.
Lemma Forall_zalter {A} (P : A → Prop) f i (l : list A) : Forall P l → (∀ x, P x → P (f x)) → Forall P (zalter f i l).
Proof.
  intros Hl Hf. unfold zalter. destruct (0 <=? i); [|done]. apply Forall_lookup. intros j x Hj. rewrite list_lookup_alter in Hj.
  rewrite Forall_lookup in Hl. case_decide; [|by eapply Hl]. subst. apply fmap_Some_1 in Hj as (y & Hy & ->). by eapply Hf, Hl.
Qed.

Lemma proc_ok_action t n f : proc_ok t → (∀ a, open_mask (sa_mask a) → open_mask (sa_mask (f a))) →
  proc_ok (set_t_sigactions (zalter f n (t_sigactions t)) t).
Proof.
  intros [H1 H2 H3 H4 H5] Hf. split; [|done|done| |done].
  - unfold full. simpl. by rewrite zlen_zalter.
  - simpl. by apply Forall_zalter.
Qed.
Lemma proc_ok_blocked t m : proc_ok t → open_mask m → proc_ok (set_t_blocked m t).
Proof. intros [H1 H2 H3 H4 H5] Hm. by split. Qed.
Lemma proc_ok_saved t m : proc_ok t → open_mask m → proc_ok (set_t_blocked_saved m t).
Proof. intros [H1 H2 H3 H4 H5] Hm. by split. Qed.
#[export] Hint Resolve open_allow proc_ok_action proc_ok_blocked proc_ok_saved po_blocked po_saved : proc_ok.

Notation procs_ok := (all_tasks proc_ok).
(** A step on the running process that keeps [proc_ok]. *)
Ltac proc_tac := intros; first [apply all_upd_cur; [|assumption] | apply all_upd; [|assumption]];
  intros; first [by auto with proc_ok | by match goal with H : proc_ok _ |- _ => destruct H; split end].
Ltac stab_ok := stab; intros; apply stable_modify; first [proc_tac | intros; by eapply all_same].

Lemma procs_sys_signal n h : stable procs_ok (sys_signal n h).
Proof. unfold sys_signal, upd_action. stab_ok. Qed.
Lemma procs_sys_sigaction n a o : stable procs_ok (sys_sigaction n a o).
Proof.
  unfold sys_sigaction, upd_action. stab; intros; apply stable_modify; intros s Hs. apply all_upd_cur; [|done]. intros t Ht.
  apply proc_ok_action; [done|]. intros x _. apply open_allow.
Qed.
Lemma procs_sys_sigprocmask h a o : stable procs_ok (sys_sigprocmask h a o).
Proof. unfold sys_sigprocmask. stab_ok. Qed.
Lemma procs_do_sigreturn r m : stable procs_ok (do_sigreturn r m).
Proof. unfold do_sigreturn. stab_ok. Qed.
Lemma procs_id_run c : stable procs_ok (id_run c).
Proof. destruct c; simpl; unfold sys_setuid, sys_setgid, sys_setreuid, sys_setregid, sys_setgroups; stab_ok. Qed.
Lemma procs_sys_umask m : stable procs_ok (sys_umask m).
Proof. unfold sys_umask. stab_ok. Qed.
Lemma procs_sys_setrlimit n r : stable procs_ok (sys_setrlimit n r).
Proof.
  unfold sys_setrlimit. destruct (rlim_max r.2 <? rlim_cur r.2) eqn:E; [stab|]. apply Z.ltb_ge in E.
  stab; intros; apply stable_modify; intros s Hs. apply all_upd_cur; [|done]. intros t [A1 A2 A3 A4 [A5 A6]].
  split; [done..|]. simpl. split; [by rewrite zlen_zset|]. by apply Forall_zalter.
Qed.
Lemma procs_sys_ioperm f n o : stable procs_ok (sys_ioperm f n o).
Proof.
  assert (∀ o i n m, stable procs_ok (io_byte o i n m)) as H1 by (intros; unfold io_byte; stab_ok).
  assert (stable procs_ok io_load) as H2 by (unfold io_load; stab_ok).
  assert (∀ o f n, stable procs_ok (io_bytes o f n)) as H3 by (intros; unfold io_bytes; stab_ok).
  unfold sys_ioperm. stab.
Qed.
Lemma procs_each hd body : (∀ p s, procs_ok s → procs_ok (body p s)) → stable procs_ok (each hd body).
Proof.
  intros Hb. assert (∀ fuel s pos tmp, procs_ok s →
    match foreach_loop fuel hd tmp pos body s with Some s' => procs_ok s' | None => True end) as Hl.
  { intros fuel. induction fuel as [|fuel IH]; intros s pos tmp Hs; [done|]. simpl. case_decide; [done|]. by apply IH, Hb. }
  intros s Hs. unfold each, list_foreach. specialize (Hl (Datatypes.S (size (tasks s))) s (nxt s (nxt s hd)) (nxt s hd) Hs). by case_match.
Qed.
Lemma procs_on_group f : (∀ t, proc_ok t → proc_ok (f t)) → ∀ p s, procs_ok s → procs_ok (on_group f p s).
Proof. intros Hf [] s Hs; try done. by apply all_upd. Qed.
Lemma procs_tty v t : proc_ok t → proc_ok (set_t_tty v t).
Proof. intros []. by split. Qed.
Lemma procs_pgid v t : proc_ok t → proc_ok (set_t_pgid v t).
Proof. intros []. by split. Qed.
Lemma procs_quit_group p : stable procs_ok (quit_group p).
Proof.
  pose proof (λ hd v, procs_each hd _ (procs_on_group _ (procs_pgid v))). unfold quit_group. stab_ok.
Qed.
Lemma procs_sys_setpgid p g : stable procs_ok (sys_setpgid p g).
Proof. pose proof procs_quit_group. unfold sys_setpgid, task_slot. stab_ok. Qed.
Lemma procs_sys_setsid : stable procs_ok sys_setsid.
Proof. pose proof procs_sys_setpgid. unfold sys_setsid. stab_ok. Qed.
Lemma procs_exit_process e : stable procs_ok (exit_process e).
Proof.
  pose proof (stable_wakeup proc_ok). pose proof (stable_sendsig proc_ok). pose proof (stable_schedule proc_ok). pose proof (stable_resume proc_ok).
  pose proof (λ hd v, procs_each hd _ (procs_on_group _ (procs_pgid v))). pose proof (λ hd v, procs_each hd _ (procs_on_group _ (procs_tty v))).
  assert (∀ hd, stable procs_ok (each hd adopt)).
  { intros hd. apply procs_each. intros p s Hs. destruct p; try done. cbn [adopt]. eapply all_same; [..|apply (all_upd proc_ok p (set_t_ppid INITPID) s)];
      try done. intros t []. by split. }
  assert (stable procs_ok leave_children) by (unfold leave_children; stab).
  assert (stable procs_ok leave_group) by (unfold leave_group; stab_ok).
  unfold exit_process. stab_ok.
Qed.
Lemma procs_sleep_own w : stable procs_ok (sleep_own w).
Proof.
  pose proof (stable_sleep_on proc_ok). unfold sleep_own, Sched.sleepon. stab_ok.
Qed.
Lemma procs_do_waitpid w pid b o : stable procs_ok (do_waitpid w pid b o) ∧ stable procs_ok (do_waitpid_again w pid b o).
Proof.
  pose proof procs_sleep_own. assert (∀ ok stop, stable procs_ok (child ok stop)) by (intros; unfold child; stab).
  assert (∀ p b, stable procs_ok (reap p b)).
  { intros p b'. unfold reap. stab; intros; apply stable_modify; intros s [A1 A2]; split; try done.
    intros q t. simpl. rewrite lookup_delete_Some. intros [_ Hq]. by apply A1. }
  assert (stable procs_ok (wait_sleep w)) by (unfold wait_sleep; stab_ok).
  assert (stable procs_ok wait_woken) by (unfold wait_woken; stab_ok).
  assert (stable procs_ok (wait_check w b o)) by (unfold wait_check; stab).
  assert (stable procs_ok (do_wait w b o)) by (unfold do_wait; stab).
  assert (stable procs_ok (waitpid_check w pid b o)) by (unfold waitpid_check; stab).
  split; [unfold do_waitpid; stab|]. unfold do_waitpid_again, do_wait_again. stab.
Qed.

(** ** Signals are delivered *)

Lemma signal_loop_facts fuel n t v t' : signal_loop fuel n t = Some (v, t') →
  match v with SNone => True | SExit _ => 1 < t_pid t | SCall k a => a ∈ t_sigactions t end.
Proof.
  revert n t. induction fuel as [|fuel IH]; intros n t; [done|]. cbn [signal_loop]. set (r := next_sig n t).
  destruct (SIGNR <=? r); [by intros [= <- _]|]. change (t_pid (clear_sig r t)) with (t_pid t). destruct (Z.leb_spec (t_pid t) 1); [by intros [= <- _]|].
  change (sa_of (clear_sig r t) r) with (sa_of t r). destruct (sa_of t r) as [a|] eqn:Ha; [|done]. simpl.
  pose proof (IH r (clear_sig r t)) as IHr. change (t_pid (clear_sig r t)) with (t_pid t) in IHr.
  change (t_sigactions (clear_sig r t)) with (t_sigactions t) in IHr. destruct (truth (Z.land _ _)).
  all: destruct (sa_handler a =? SIG_IGN); [first [exact IHr|by intros [= <- _]]|].
  all: destruct (sa_handler a =? SIG_DFL); [|intros [= <- _]; unfold sa_of, zget in Ha; destruct (0 <=? r); [by apply list_elem_of_lookup_2 in Ha|done]].
  all: destruct (zget def_action r) as [d|]; [|done]; simpl; destruct (d =? TO_IGN); [first [exact IHr|by intros [= <- _]]|].
  all: destruct (_ || _); [by intros [= <- _]|done].
Qed.

Lemma all_cur P s : all_tasks P s → alive s (current s) → P (cur s).
Proof. intros [Hs _] [t Ht]. unfold cur, task_at. rewrite Ht. by apply (Hs (current s)). Qed.

Lemma procs_do_with_signal regs m s r s' : procs_ok s → alive s (current s) → do_with_signal regs m s = Ret r s' → procs_ok s'.
Proof.
  intros Hs Ha. pose proof (all_cur _ _ Hs Ha) as [_ _ _ Hm _]. unfold do_with_signal. mstep.
  destruct (negb _); [done|]. simpl die_if. mstep. destruct (signal_loop _ _ (cur s)) as [[v t']|] eqn:E; [|done]. simpl from_opt. mstep.
  apply signal_loop_facts in E. set (s1 := upd_cur _ s). assert (procs_ok s1) as Hs1 by proc_tac. simpl.
  destruct v as [|code|n a]; simpl signal_act.
  - by intros [= _ <-].
  - intros He. refine (stable_Ret _ _ _ _ _ _ He Hs1). pose proof (procs_exit_process code). stab.
  - mstep. intros [= _ <-]. rewrite Forall_forall in Hm. specialize (Hm a E).
    apply all_upd_cur; [by auto with proc_ok|]. apply all_upd_cur; [by auto with proc_ok|done].
Qed.
Lemma procs_sys_fork rq wl F page dir mmaps s r s' : pinv s rq wl F → procs_ok s → sys_fork page dir mmaps s = Ret r s' → procs_ok s'.
Proof.
  intros Hp Hs He. destruct (sys_fork_spec s rq wl F page dir mmaps Hp (proj2 Hs)) as (r' & x & Hx & Hf). assert (r' = r ∧ x = s') as [-> ->] by (split; congruence).
  pose proof (all_cur _ _ Hs (proj1 (current_living _ _ _ _ Hp))) as [A1 A2 A3 A4 A5].
  destruct Hf as [r s' _ Et Hn _|nr s' F' Hr _ Hn Et _ _ _]; [split; [rewrite Et; apply Hs|done]|]. split; [|done]. rewrite Et.
  assert (map_Forall (λ p t, 0 <= p < NR_TASKS ∧ proc_ok t) (<[nr := forked nr (cur s)]> (tasks s))) as Hall.
  { apply map_Forall_insert_2; [|apply Hs]. split; [lia|]. by split. }
  intros p t. destruct (decide (p = current s)) as [->|Hne].
  - rewrite lookup_alter_eq. intros (t0 & Ht & ->)%fmap_Some_1. destruct (Hall _ _ Ht) as [? []]. split; [done|by split].
  - rewrite lookup_alter_ne by done. apply Hall.
Qed.

(** ** The steps *)

(** Nobody sleeps on the variable at [wait]: it is on the stack of the process
    that runs. *)
Definition own_queue s (wait : Z) : Prop := ∀ p, alive s p → frm s p ≠ Some wait.

(** What happens in the system.  The idle process makes no call but the fork of
    [kernel_thread], the init process does not exit, and process groups are
    changed of processes that are not zombies. *)
Inductive sstep : kst → kst → Prop :=
  | ss_sched n s s' : kstep n s s' → sstep s s'
  | ss_fork page dir mmaps r s s' : sys_fork page dir mmaps s = Ret r s' → sstep s s'
  | ss_exit e s s' : current s ≠ 0 → current s ≠ INITPID → exit_process e s = Ret tt s' → sstep s s'
  | ss_wait wait pid b o w s s' : current s ≠ 0 → own_queue s wait → do_waitpid wait pid b o s = Ret w s' → sstep s s'
  | ss_wait_again wait pid b o w s s' : current s ≠ 0 → own_queue s wait → do_waitpid_again wait pid b o s = Ret w s' → sstep s s'
  | ss_pause wait r s s' : current s ≠ 0 → own_queue s wait → sys_pause wait s = Ret r s' → sstep s s'
  | ss_sigsuspend wait m r s s' : current s ≠ 0 → own_queue s wait → sys_sigsuspend wait m s = Ret r s' → sstep s s'
  | ss_deliver regs m r s s' : current s ≠ 0 → do_with_signal regs m s = Ret r s' → sstep s s'
  | ss_sigreturn regs m r s s' : do_sigreturn regs m s = Ret r s' → sstep s s'
  | ss_kill pid n r s s' : sys_kill pid n s = Ret r s' → sstep s s'
  | ss_signal n h r s s' : sys_signal n h s = Ret r s' → sstep s s'
  | ss_sigaction n a o r s s' : sys_sigaction n a o s = Ret r s' → sstep s s'
  | ss_sigprocmask h a o r s s' : sys_sigprocmask h a o s = Ret r s' → sstep s s'
  | ss_ids c r s s' : id_run c s = Ret r s' → sstep s s'
  | ss_setpgid pid pgid r s s' : not_zombie s pid → sys_setpgid pid pgid s = Ret r s' → sstep s s'
  | ss_setsid r s s' : sys_setsid s = Ret r s' → sstep s s'
  | ss_setrlimit n l r s s' : sys_setrlimit n l s = Ret r s' → sstep s s'
  | ss_umask m r s s' : sys_umask m s = Ret r s' → sstep s s'
  | ss_ioperm f n o r s s' : sys_ioperm f n o s = Ret r s' → sstep s s'.

Record sys_ok s : Prop := { so_ordered : ordered s; so_procs : procs_ok s }.

Lemma own_queue_wl s rq wl F wait : pinv s rq wl F → own_queue s wait → wl wait = [].
Proof.
  intros [Hk _] Ho. destruct (wl wait) as [|p l] eqn:E; [done|]. assert (p ∈ wl wait) as Hp by (rewrite E; left).
  apply (si_wl _ _ _ (ki_sinv _ _ _ Hk)) in Hp as [Ha Hf]. by apply Ho in Hf.
Qed.
Lemma alive_range P s p : all_tasks P s → alive s p → 0 <= p < NR_TASKS.
Proof. intros [Hs _] [t Ht]. apply (Hs p t Ht). Qed.
Lemma calm_living s s' p : calm s s' → living s' p ↔ living s p.
Proof. intros Hc. unfold living. by rewrite (cm_alive _ _ Hc), (cm_zombie _ _ Hc). Qed.

Lemma ordered_kstep n s s' : ordered s → kstep n s s' → ordered s'.
Proof.
  intros [(rq & wl & F & Hk & Hf) Hi] Hst. destruct (kstep_advances n s s' rq wl Hst Hk) as (rq' & wl' & Hk' & Hcm & _).
  split; [exists rq', wl', F; split; [done|by eapply calm_fam]|by apply (calm_living _ _ _ Hcm)].
Qed.
Lemma procs_kstep n s s' : procs_ok s → kstep n s s' → procs_ok s'.
Proof.
  pose proof (stable_schedule proc_ok) as H1. pose proof (stable_resume proc_ok) as H2. pose proof (stable_sleep_on proc_ok) as H3.
  pose proof (stable_wakeup proc_ok) as H4. assert (stable procs_ok reschedule) as H5 by (unfold reschedule; stab).
  assert (stable procs_ok idle_turn) as H6 by (unfold idle_turn; stab).
  assert (stable procs_ok turn) as H7.
  { unfold turn. stab; intros; apply stable_modify; intros. by apply all_timer_slice; [apply _|]. }
  intros Hs Hst. destruct Hst as [q v s s' _ _ He|q s s' He|s|s s' He|s s' _ He|s s' He];
    [by eapply (stable_Ret _ _ _ _ _ (H3 q v))|by eapply (stable_Ret _ _ _ _ _ (H4 q))|by apply all_timer_slice; [apply _|]|
     by eapply (stable_Ret _ _ _ _ _ H5)|by eapply (stable_Ret _ _ _ _ _ H6)|by eapply (stable_Ret _ _ _ _ _ H7)].
Qed.
Lemma exit_parent_full s rq wl F : pinv s rq wl F → procs_ok s → full (task_at s (ppid s (current s))).
Proof.
  intros Hp Hs. destruct (fm_parent _ _ (proj2 Hp) (current s)) as [[t Ht] _]; [apply (current_living _ _ _ _ Hp)|]. unfold task_at. rewrite Ht.
  by apply (proj1 Hs) in Ht as [_ []].
Qed.
Lemma ordered_exit e s s' : sys_ok s → current s ≠ 0 → current s ≠ INITPID → exit_process e s = Ret tt s' → ordered s'.
Proof.
  intros [[(rq & wl & F & Hp) Hi] Hs] H0 H1 He.
  pose proof (exit_parent_full s rq wl F Hp Hs) as Hf.
  destruct (exit_spec s rq wl F e Hp H0 H1 Hi Hf) as (x & rq' & wl' & F' & Hx & Hp' & Hex). assert (x = s') as -> by congruence.
  split; [by exists rq', wl', F'|]. by apply (ex_living _ _ _ Hex).
Qed.
Lemma ordered_sleep_own wait s s' : ordered s → current s ≠ 0 → own_queue s wait → sleep_own wait s = Ret tt s' → ordered s'.
Proof.
  intros [(rq & wl & F & Hp) Hi] Hc Ho He.
  destruct (sleep_own_spec s rq wl F wait Hp Hc (own_queue_wl _ _ _ _ _ Hp Ho)) as (x & rq' & wl' & Hx & Hp' & Hcm & _).
  assert (x = s') as -> by congruence. split; [by exists rq', wl', F|by apply (calm_living _ _ _ Hcm)].
Qed.
Lemma wait_result_living s wait b o ok w s' : wait_result s wait b o ok w s' → living s INITPID → living s' INITPID.
Proof.
  intros Hw Hi. destruct Hw as [|p s' _ _ _ _ Hz Et _| |s' _ _ _ _ _ _ Hl]; [done| |done|by apply Hl].
  destruct Hi as [Ha Hnz]. assert (p ≠ INITPID) as Hne by (by intros ->). unfold living, alive, st, task_at. rewrite Et.
  by rewrite lookup_delete_ne.
Qed.
Lemma ordered_settled s rq wl F wait b o ok c w s' : pinv s rq wl F → living s INITPID → settled s wait b o ok c → c s = Ret w s' → ordered s'.
Proof.
  intros Hp Hi (w' & x & rq' & wl' & F' & Hx & Hr & Hp') He. assert (w' = w ∧ x = s') as [-> ->] by (split; congruence).
  split; [by exists rq', wl', F'|by eapply wait_result_living].
Qed.
Lemma ordered_do_waitpid wait pid b o w s s' : ordered s → current s ≠ 0 → own_queue s wait → do_waitpid wait pid b o s = Ret w s' → ordered s'.
Proof.
  intros [(rq & wl & F & Hp) Hi] Hc Ho He. pose proof (own_queue_wl _ _ _ _ _ Hp Ho) as Hw.
  destruct (decide (o ∈ [0; WNOHANG; WUNTRACED])) as [Hin|Hin].
  - by eapply (ordered_settled _ _ _ _ _ _ _ _ _ _ _ Hp Hi (do_waitpid_settled s rq wl F wait b o Hp Hc Hw pid Hin)).
  - assert (s' = s) as ->; [|split; [by exists rq, wl, F|done]]. revert He. unfold do_waitpid. mstep. destruct (list_empty _ _); [by intros [= _ <-]|].
    rewrite !elem_of_cons in Hin. rewrite !(proj2 (Z.eqb_neq o _)) by naive_solver. by intros [= _ <-].
Qed.
Lemma ordered_do_waitpid_again wait pid b o w s s' : ordered s → current s ≠ 0 → own_queue s wait →
  do_waitpid_again wait pid b o s = Ret w s' → ordered s'.
Proof.
  intros Hs Hc Ho. set (s1 := upd_cur (set_t_exit_code 0) s). assert (ordered s1) as Hs1 by upd_tac.
  assert (own_queue s1 wait) as Ho1.
  { intros p Ha%alive_upd. unfold frm, s1, upd_cur. rewrite (task_at_field t_frame) by done. by apply Ho. }
  assert (wait_woken s = Ret (truth (t_signal (cur s1)) && negb (has (t_signal (cur s1)) (Z.shiftl 1 (SIGCHLD - 1)))) s1) as Hwk by done.
  pose proof Hs1 as [(rq & wl & F & Hp) Hi]. pose proof (own_queue_wl _ _ _ _ _ Hp Ho1) as Hw. unfold do_waitpid_again, do_wait_again.
  assert (current s1 ≠ 0) as Hc1 by done. clearbody s1.
  destruct (pid =? -1); rewrite (bind_eval _ _ _ _ _ Hwk); destruct (_ && _); [by intros [= _ <-]| |by intros [= _ <-]|].
  - intros He. destruct (decide (F (current s1) = [])) as [E|E].
    + unfold wait_check in He. rewrite (bind_eval _ _ _ _ _ (child_eval _ _ _ _ _ _ Hp)), E in He. done.
    + by eapply (ordered_settled _ _ _ _ _ _ _ _ _ _ _ Hp Hi (wait_check_settled s1 rq wl F wait b o Hp Hc1 Hw E)).
  - intros He. by eapply (ordered_settled _ _ _ _ _ _ _ _ _ _ _ Hp Hi (waitpid_check_settled s1 rq wl F wait b o Hp Hc1 Hw pid)).
Qed.
Lemma ordered_do_with_signal regs m r s s' : sys_ok s → current s ≠ 0 → do_with_signal regs m s = Ret r s' → ordered s'.
Proof.
  intros Hok Hc. pose proof (so_ordered _ Hok) as [(rq & wl & F & Hp) Hi]. unfold do_with_signal. mstep.
  destruct (negb _); [done|]. simpl die_if. mstep. destruct (signal_loop _ _ (cur s)) as [[v t']|] eqn:E; [|done]. simpl from_opt. mstep.
  apply signal_loop_facts in E. set (s1 := upd_cur _ s). assert (ordered s1) as Hs1 by (apply ordered_upd_cur; [apply Hok|done|done]).
  assert (procs_ok s1) as Hps by (apply all_upd_cur; [intros t []; by split|apply Hok]). simpl.
  assert (current s1 = current s) as Ec by done. clearbody s1. destruct v as [|code|n a]; simpl signal_act.
  - by intros [= _ <-].
  - assert (t_pid (cur s) = current s) as Hpid.
    { apply (si_pid _ _ _ (ki_sinv _ _ _ (proj1 Hp))), (current_living _ _ _ _ Hp). }
    intros (u & s2 & He & [= _ <-])%bind_Ret. destruct u. apply (ordered_exit code s1); [by split|by rewrite Ec|rewrite Ec; unfold INITPID; lia|done].
  - mstep. intros [= _ <-]. apply ordered_upd_cur; [|done|done]. by apply ordered_upd_cur.
Qed.
Lemma ordered_sys_setsid r s s' : sys_ok s → sys_setsid s = Ret r s' → ordered s'.
Proof.
  intros [Ho Hs]. pose proof Ho as [(rq & wl & F & Hp) Hi]. unfold sys_setsid. rewrite bind_gets.
  assert (not_zombie s (t_pid (cur s))) as Hz.
  { destruct (current_runs _ _ _ _ Hp) as (Ha & Hst & _). unfold not_zombie.
    assert (t_pid (cur s) = current s) as -> by (by apply (si_pid _ _ _ (ki_sinv _ _ _ (proj1 Hp)))).
    destruct (_ =? 0); by rewrite Hst. }
  destruct (sys_setpgid_ordered s (t_pid (cur s)) (t_pid (cur s)) Ho (λ p, alive_range _ s p Hs) Hz) as (r1 & s1 & He & Ho1 & _).
  rewrite (bind_eval _ _ _ _ _ He). destruct (r1 <? 0); [by intros [= _ <-]|]. mstep. intros [= _ <-].
  apply ordered_upd_cur; [|done|done]. by apply ordered_upd_cur.
Qed.
Lemma ordered_sys_fork page dir mmaps r s s' : sys_ok s → sys_fork page dir mmaps s = Ret r s' → ordered s'.
Proof.
  intros [[(rq & wl & F & Hp) Hi] Hs] He. destruct (sys_fork_spec s rq wl F page dir mmaps Hp (proj2 Hs)) as (r' & x & Hx & Hf).
  assert (r' = r ∧ x = s') as [-> ->] by (split; congruence). destruct Hi as [Ha Hz].
  destruct Hf as [r s' _ Et _ Hp'|nr s' F' _ Hna _ Et _ _ Hp'].
  - split; [by exists rq, wl, F|]. unfold living, alive, st, task_at. by rewrite Et.
  - split; [by exists (rq ++ [nr]), wl, F'|]. assert (nr ≠ INITPID) as Hne by (by intros ->).
    unfold living, alive, st, task_at in *. rewrite Et. destruct (decide (current s = INITPID)) as [->|Hc].
    + rewrite lookup_alter_eq, lookup_insert_ne by done. destruct (tasks s !! INITPID); [|by destruct Ha]. split; [by eexists|done].
    + by rewrite lookup_alter_ne, lookup_insert_ne by done.
Qed.

Lemma sstep_ordered s s' : sys_ok s → sstep s s' → ordered s'.
Proof.
  intros Hok Hst. pose proof (so_ordered _ Hok) as Ho. destruct Hst as [n s s' H|page dir mm r s s' H|e s s' H0 H1 H|w p b o r s s' H0 H1 H|w p b o r s s' H0 H1 H|
    w r s s' H0 H1 H|w m r s s' H0 H1 H|g m r s s' H0 H|g m r s s' H|p n r s s' H|n h r s s' H|n a o r s s' H|h a o r s s' H|c r s s' H|
    p g r s s' H0 H|r s s' H|n l r s s' H|m r s s' H|f n o r s s' H].
  - by eapply ordered_kstep.
  - by eapply ordered_sys_fork.
  - by eapply ordered_exit.
  - by eapply ordered_do_waitpid.
  - by eapply ordered_do_waitpid_again.
  - apply bind_Ret in H as ([] & s1 & He & [= _ <-]). by eapply ordered_sleep_own.
  - revert H. unfold sys_sigsuspend. rewrite bind_gets. destruct (_ || _); [by intros [= _ <-]|]. rewrite !bind_modify.
    intros ([] & s2 & He & [= _ <-])%bind_Ret. eapply (ordered_sleep_own w); [| | |exact He]; [|done|].
    + apply ordered_upd_cur; [|done|done]. by apply ordered_upd_cur.
    + intros p Ha. unfold frm, upd_cur. rewrite !(task_at_field t_frame) by done. apply H1. unfold upd_cur in Ha. by rewrite !alive_upd in Ha.
  - by eapply ordered_do_with_signal.
  - by eapply (stable_Ret _ _ _ _ _ (ordered_do_sigreturn g m)).
  - by eapply (stable_Ret _ _ _ _ _ (ordered_sys_kill p n)).
  - by eapply (stable_Ret _ _ _ _ _ (ordered_sys_signal n h)).
  - by eapply (stable_Ret _ _ _ _ _ (ordered_sys_sigaction n a o)).
  - by eapply (stable_Ret _ _ _ _ _ (ordered_sys_sigprocmask h a o)).
  - by eapply (stable_Ret _ _ _ _ _ (ordered_id_run c)).
  - destruct (sys_setpgid_ordered s p g Ho (λ x, alive_range _ s x (so_procs _ Hok)) H0) as (r' & x & Hx & Hx' & _). congruence.
  - by eapply ordered_sys_setsid.
  - by eapply (stable_Ret _ _ _ _ _ (ordered_sys_setrlimit n l)).
  - by eapply (stable_Ret _ _ _ _ _ (ordered_sys_umask m)).
  - by eapply (stable_Ret _ _ _ _ _ (ordered_sys_ioperm f n o)).
Qed.
Lemma sstep_procs s s' : sys_ok s → sstep s s' → procs_ok s'.
Proof.
  intros Hok Hst. pose proof (so_procs _ Hok) as Hs. pose proof (so_ordered _ Hok) as [(rq & wl & F & Hp) _].
  pose proof (current_living _ _ _ _ Hp) as [Ha _].
  destruct Hst as [n s s' H|page dir mm r s s' H|e s s' H0 H1 H|w p b o r s s' H0 H1 H|w p b o r s s' H0 H1 H|
    w r s s' H0 H1 H|w m r s s' H0 H1 H|g m r s s' H0 H|g m r s s' H|p n r s s' H|n h r s s' H|n a o r s s' H|h a o r s s' H|c r s s' H|
    p g r s s' H0 H|r s s' H|n l r s s' H|m r s s' H|f n o r s s' H].
  - by eapply procs_kstep.
  - by eapply procs_sys_fork.
  - by eapply (stable_Ret _ _ _ _ _ (procs_exit_process e)).
  - by eapply (stable_Ret _ _ _ _ _ (proj1 (procs_do_waitpid w p b o))).
  - by eapply (stable_Ret _ _ _ _ _ (proj2 (procs_do_waitpid w p b o))).
  - refine (stable_Ret _ _ _ _ _ _ H Hs). pose proof procs_sleep_own. unfold sys_pause. stab.
  - refine (stable_Ret _ _ _ _ _ _ H Hs). pose proof procs_sleep_own. unfold sys_sigsuspend. stab_ok.
  - by eapply procs_do_with_signal.
  - by eapply (stable_Ret _ _ _ _ _ (procs_do_sigreturn g m)).
  - by eapply (stable_Ret _ _ _ _ _ (stable_sys_kill proc_ok p n)).
  - by eapply (stable_Ret _ _ _ _ _ (procs_sys_signal n h)).
  - by eapply (stable_Ret _ _ _ _ _ (procs_sys_sigaction n a o)).
  - by eapply (stable_Ret _ _ _ _ _ (procs_sys_sigprocmask h a o)).
  - by eapply (stable_Ret _ _ _ _ _ (procs_id_run c)).
  - by eapply (stable_Ret _ _ _ _ _ (procs_sys_setpgid p g)).
  - by eapply (stable_Ret _ _ _ _ _ procs_sys_setsid).
  - by eapply (stable_Ret _ _ _ _ _ (procs_sys_setrlimit n l)).
  - by eapply (stable_Ret _ _ _ _ _ (procs_sys_umask m)).
  - by eapply (stable_Ret _ _ _ _ _ (procs_sys_ioperm f n o)).
Qed.
Lemma sstep_ok s s' : sys_ok s → sstep s s' → sys_ok s'.
Proof. intros Hok Hst. split; [by eapply sstep_ordered|by eapply sstep_procs]. Qed.
Lemma ssteps_ok s s' : sys_ok s → rtc sstep s s' → sys_ok s'.
Proof. intros Hok Hr. induction Hr as [|s s1 s' Hst _ IH]; [done|]. by eapply IH, sstep_ok. Qed.

(** ** Starting the system *)

Lemma boot_pinv s : current s = 0 → (∀ q, wq_head s q = None) → pinv (sched_init s) [] (λ _, []) (λ _, []).
Proof.
  intros Hc Hq. split; [by apply boot_kinv|].
  assert (∀ p, alive (sched_init s) p → p = 0) as Hal.
  { intros p [t Ht]. change (tasks (sched_init s)) with ({[ 0 := idle_task_struct (t_bitmap (task_at s IDLEPID)) ]} : gmap Z task) in Ht.
    by apply lookup_singleton_Some in Ht as [<- _]. }
  assert (alive (sched_init s) 0) as H0 by by eexists.
  assert (∀ k, k = KClist 0 ∨ k = KPg 0 → is_list (sched_init s) k []) as Hl.
  { intros k [->| ->]; (split_and!; [apply NoDup_singleton|by repeat constructor|done]). }
  split.
  - split; [intros i ->%Hal; apply Hl; by left|]. by intros i j p ->%Hal ->%Hal.
  - intros p j ->%Hal. split; [by intros ?%elem_of_nil|]. by intros (->%Hal & ? & _).
  - intros j ->%Hal. by split.
  - intros p [->%Hal _]. exists []. split; [apply Hl; by right|done].
  - split; [by split|done].
Qed.
Lemma boot_procs s : next_pid s = 1 → procs_ok (sched_init s).
Proof.
  intros Hn. split; [|change (next_pid (sched_init s)) with (next_pid s); by rewrite Hn].
  intros p t Ht. change (tasks (sched_init s)) with ({[ 0 := idle_task_struct (t_bitmap (task_at s IDLEPID)) ]} : gmap Z task) in Ht.
  apply lookup_singleton_Some in Ht as [<- <-]. split; [done|]. split; [done|done|done|..].
  - apply Forall_replicate. done.
  - split; [done|]. by repeat constructor.
Qed.
(** The first process the idle process makes. *)
Lemma first_ok s rq wl F s1 : pinv s rq wl F → procs_ok s → current s = 0 → sys_fork true true true s = Ret INITPID s1 → sys_ok s1.
Proof.
  intros Hp Hps Hc He. split; [|by eapply procs_sys_fork]. destruct (current_runs _ _ _ _ Hp) as (_ & Hst & _). change (t_state (cur s) = TASK_RUNNING) in Hst.
  destruct (sys_fork_spec _ _ _ _ true true true Hp (proj2 Hps)) as (r & x & Hx & Hf).
  assert (r = INITPID ∧ x = s1) as [-> ->] by (split; congruence).
  inversion Hf as [r s' Hr|nr s' F' _ _ _ Et _ _ Hp']; [done|]. subst. split; [by eexists _, _, _|].
  unfold living, alive, st, task_at. rewrite Et, Hc, lookup_alter_ne, lookup_insert_eq by done.
  split; [by eexists|]. change (t_state (cur s) ≠ TASK_ZOMBIE). by rewrite Hst.
Qed.
(** [sched_init] and the [kernel_thread] of the init process. *)
Lemma boot_ok s s1 : current s = 0 → (∀ q, wq_head s q = None) → next_pid s = 1 → sys_fork true true true (sched_init s) = Ret INITPID s1 → sys_ok s1.
Proof.
  intros Hc Hq Hn. pose proof (boot_pinv s Hc Hq) as Hp. pose proof (boot_procs s Hn) as Hps.
  assert (current (sched_init s) = 0) as Hc0 by exact Hc. generalize dependent (sched_init s). intros s0 Hp Hps Hc0. by apply (first_ok s0 [] (λ _, []) (λ _, [])).
Qed.

(** ** The theorems *)

(** The system runs from [sched_init] and the thread of the init process. *)
Definition runs_to s0 s : Prop := ∃ s1, current s0 = 0 ∧ (∀ q, wq_head s0 q = None) ∧ next_pid s0 = 1 ∧
  sys_fork true true true (sched_init s0) = Ret INITPID s1 ∧ rtc sstep s1 s.
Lemma runs_to_ok s0 s : runs_to s0 s → sys_ok s.
Proof. intros (s1 & H1 & H2 & H3 & H4 & Hr). eapply ssteps_ok; [|exact Hr]. by eapply boot_ok. Qed.

(** C0. From the start of the system, whatever processes fork, exit, wait,
    sleep, are scheduled, send and handle signals and change their identities,
    groups and limits, the process table stays in order: the run queue and the
    wait queues hold the right processes, each list of children holds exactly
    the processes whose parent it is, no parent is dead, the process groups are
    proper rings, there is an init process, all slots are in the table and no
    process has a limit above its maximum. *)
Theorem system_invariant s0 s : runs_to s0 s → ∃ rq wl F, sinv s rq wl ∧ fam s F ∧ living s INITPID ∧
  ∀ p t, tasks s !! p = Some t → 0 <= p < NR_TASKS ∧ t_pid t = p ∧ Forall (λ r, rlim_cur r <= rlim_max r) (t_rlims t).
Proof.
  intros [[(rq & wl & F & Hk & Hf) Hi] [Hs _]]%runs_to_ok. exists rq, wl, F. split; [apply Hk|]. split; [done|]. split; [done|].
  intros p t Ht. destruct (Hs p t Ht) as [Hr [_ _ _ _ [_ Hl]]]. split; [done|]. split; [|done].
  pose proof (si_pid _ _ _ (ki_sinv _ _ _ Hk) p) as Hpid. unfold task_at in Hpid. rewrite Ht in Hpid. apply Hpid. by eexists.
Qed.

(** C0. No process ever blocks SIGKILL or SIGSTOP, by whatever calls of
    [sigprocmask], [sigaction], [sigsuspend], by calling handlers with their
    masks and returning from them: such a signal that is sent counts as pending
    at once. *)
Theorem sigkill_not_blocked s0 s p n : runs_to s0 s → alive s p → n = SIGKILL ∨ n = SIGSTOP →
  Z.testbit (t_blocked (task_at s p)) (n - 1) = false ∧
  (Z.testbit (t_signal (task_at s p)) (n - 1) = true → pending (task_at s p) (n - 1) = true).
Proof.
  intros [_ [Hs _]]%runs_to_ok [t Ht] Hn. destruct (Hs p t Ht) as [_ [_ Hb _ _ _]]. assert (task_at s p = t) as -> by (unfold task_at; by rewrite Ht).
  assert (Z.testbit (t_blocked t) (n - 1) = false) as Hbit.
  { pose proof (f_equal (λ z, Z.testbit z (n - 1)) Hb) as Hz. cbv beta in Hz. rewrite Z.land_spec, Z.bits_0 in Hz.
    destruct Hn as [->| ->]; change (Z.testbit CANNOTBLOCKSIG _) with true in Hz; by rewrite andb_true_r in Hz. }
  split; [done|]. intros Hp. unfold pending. rewrite !has_shift by (destruct Hn as [->| ->]; done).
  by rewrite Hp, Hbit.
Qed.

(** C0. [fork] makes a child: with memory and one of the slots 2 to 63 free it
    returns the number of a slot that was free, in which there is then a copy of
    the running process with its own number, the running process as its parent
    and no signal pending; the child can run and is a child of the running
    process, and nothing else changes but that the running process is asked to
    give way.  Without memory or slots it fails and no process changes. *)
Theorem fork_child s page dir mmaps : sys_ok s → ∃ r s', sys_fork page dir mmaps s = Ret r s' ∧
  (r < 0 ∧ tasks s' = tasks s ∨
   1 <= r < NR_TASKS ∧ tasks s !! r = None ∧
   tasks s' = alter (set_t_need_sched true) (current s) (<[r := forked r (cur s)]> (tasks s)) ∧
   ∃ rq wl F, sinv s' rq wl ∧ r ∈ rq ∧ fam s' F ∧ r ∈ F (current s)) ∧
  (page && dir && mmaps = true → (∃ x, 2 <= x < NR_TASKS ∧ tasks s !! x = None) → 0 < r).
Proof.
  intros [[(rq & wl & F & Hp) _] Hs]. destruct (sys_fork_spec s rq wl F page dir mmaps Hp (proj2 Hs)) as (r & s' & He & Hf).
  exists r, s'. split; [done|]. split.
  - destruct Hf as [r s' Hr Et _ _|nr s' F' Hr Hna _ Et Ec EF [Hk' Hf']]; [by left|right]. split; [done|].
    split; [destruct (tasks s !! nr) eqn:E; [by destruct Hna; eexists|done]|]. split; [done|]. exists (rq ++ [nr]), wl, F'.
    split; [apply Hk'|]. split; [set_solver|]. split; [done|]. rewrite EF, fn_lookup_insert. left.
  - intros Hm Hx. eapply sys_fork_succeeds; [apply Hs|exact Hm|exact Hx|exact He].
Qed.

(** C0. [exit] returns to another process.  The process that exits is a zombie
    with its exit code, its children have become those of the init process, and
    its parent, when it waits, is woken; no other process dies or disappears. *)
Theorem exit_hands_over s e : sys_ok s → current s ≠ 0 → current s ≠ INITPID → ∃ s', exit_process e s = Ret tt s' ∧ sys_ok s' ∧
  current s' ≠ current s ∧ st s' (current s) = TASK_ZOMBIE ∧ t_exit_code (task_at s' (current s)) = e ∧
  (∀ j, alive s' j ↔ alive s j) ∧ (∀ j, living s' j ↔ living s j ∧ j ≠ current s) ∧
  (∀ j, j ≠ 0 → alive s j → ppid s' j = if decide (ppid s j = current s) then INITPID else ppid s j) ∧
  ∀ q, let pp := ppid s (current s) in
    0 < t_exit_code (task_at s pp) → frm s pp = Some q → t_sleep_spot (task_at s pp) = Some q → st s' pp = TASK_RUNNING.
Proof.
  intros Hok H0 H1. pose proof Hok as [[(rq & wl & F & Hp) Hi] Hs]. pose proof (exit_parent_full s rq wl F Hp Hs) as Hf.
  destruct (exit_spec s rq wl F e Hp H0 H1 Hi Hf) as (s' & rq' & wl' & F' & He & _ & [[E1 E2] E3 E4 E5 E6 E7]). exists s'. split; [done|].
  split; [by eapply sstep_ok, ss_exit|]. do 6 (split; [done|]). intros q pp. by apply (E7 pp q).
Qed.

(** C0. [waitpid] gives each result when it should.  With no child it was asked
    for it returns -ECHILD.  With such a child that is a zombie it returns the
    number and exit code of one, whose slot is free then.  Otherwise it returns
    0 when told not to wait, else the process sleeps, marked so that the exit of a
    child wakes it. *)
Theorem waitpid_result s wait pid status opt : sys_ok s → current s ≠ 0 → own_queue s wait → opt ∈ [0; WNOHANG; WUNTRACED] →
  ∃ w s', do_waitpid wait pid status opt s = Ret w s' ∧ sys_ok s' ∧ wait_result s wait status opt (wanted pid (cur s)) w s'.
Proof.
  intros Hok H0 Ho Hopt. pose proof Hok as [[(rq & wl & F & Hp) Hi] Hs].
  destruct (do_waitpid_settled s rq wl F wait status opt Hp H0 (own_queue_wl _ _ _ _ _ Hp Ho) pid Hopt) as (w & s' & rq' & wl' & F' & He & Hr & _).
  exists w, s'. split; [done|]. split; [|done]. by eapply sstep_ok, ss_wait.
Qed.

(** ** A small run: the init process forks and waits, the child exits *)
Definition sys0 : kst := ok_state (sys_fork true true true (sched_init blank)).
Definition sys1 : kst := ok_state (turn sys0).
Definition sys2 : kst := ok_state (sys_fork true true true sys1).
Definition sys3 : kst := ok_state (do_waitpid 1000 (-1) true 0 sys2).
Definition sys4 : kst := ok_state (exit_process 7 sys3).
Definition ret_of {A} (c : outcome kst A) : option A := match c with Ret a _ => Some a | _ => None end.
Lemma ok_ret {A} (c : outcome kst A) a : ret_of c = Some a → c = Ret a (ok_state c).
Proof. destruct c; [|done|done]. simpl. by intros [= ->]. Qed.
Lemma own_queue_all s w : bool_decide (map_Forall (λ _ t, t_frame t ≠ Some w) (tasks s)) = true → own_queue s w.
Proof. intros H%bool_decide_eq_true p [t Ht]. unfold frm, task_at. rewrite Ht. by apply (H p). Qed.

Lemma sys0_boot : sys_fork true true true (sched_init blank) = Ret INITPID sys0.
Proof. unfold sys0. apply (ok_ret (sys_fork true true true (sched_init blank))). by vm_compute. Qed.
Lemma sys01 : sstep sys0 sys1.
Proof. apply (ss_sched 1), ks_turn. unfold sys1. apply (ok_ret (turn sys0)). by vm_compute. Qed.
Lemma sys12 : sstep sys1 sys2.
Proof. apply (ss_fork true true true 2). unfold sys2. apply (ok_ret (sys_fork true true true sys1)). by vm_compute. Qed.
Lemma sys2_queue : own_queue sys2 1000.
Proof. apply own_queue_all. by vm_compute. Qed.
Lemma sys23 : sstep sys2 sys3.
Proof.
  apply (ss_wait 1000 (-1) true 0 WSlept); [by vm_compute|exact sys2_queue|].
  unfold sys3. apply (ok_ret (do_waitpid 1000 (-1) true 0 sys2)). by vm_compute.
Qed.
Lemma sys34 : sstep sys3 sys4.
Proof. apply (ss_exit 7); [by vm_compute|by vm_compute|]. unfold sys4. apply (ok_ret (exit_process 7 sys3)). by vm_compute. Qed.
Lemma sys4_runs : runs_to blank sys4.
Proof.
  exists sys0. do 3 (split; [done|]). split; [exact sys0_boot|].
  eapply rtc_l; [exact sys01|]. eapply rtc_l; [exact sys12|]. eapply rtc_l; [exact sys23|]. apply rtc_once. exact sys34.
Qed.
Lemma sys1_ok : sys_ok sys1.
Proof. eapply sstep_ok; [|exact sys01]. by apply (boot_ok blank); [..|exact sys0_boot]. Qed.
Lemma sys3_ok : sys_ok sys3.
Proof. eapply sstep_ok; [|exact sys23]. eapply sstep_ok; [exact sys1_ok|exact sys12]. Qed.

Lemma system_invariant_witness : runs_to blank sys4 ∧ ∃ rq wl F, sinv sys4 rq wl ∧ fam sys4 F ∧ living sys4 INITPID.
Proof.
  split; [exact sys4_runs|]. destruct (system_invariant blank sys4 sys4_runs) as (rq & wl & F & H1 & H2 & H3 & _). by exists rq, wl, F.
Defined.
Lemma sigkill_not_blocked_witness : Z.testbit (t_blocked (task_at sys4 2)) (SIGKILL - 1) = false.
Proof.
  apply (sigkill_not_blocked blank sys4 2 SIGKILL sys4_runs); [|by left]. unfold alive. rewrite <-not_eq_None_Some. by vm_compute.
Defined.
Lemma fork_child_witness : ∃ r s', sys_fork true true true sys1 = Ret r s' ∧ 0 < r.
Proof.
  destruct (fork_child sys1 true true true sys1_ok) as (r & s' & He & _ & H). exists r, s'. split; [done|]. apply H; [done|].
  exists 2. split; [done|]. by vm_compute.
Defined.
Lemma exit_hands_over_witness : ∃ s', exit_process 7 sys3 = Ret tt s' ∧ st s' (current sys3) = TASK_ZOMBIE ∧ current sys3 = 2.
Proof.
  destruct (exit_hands_over sys3 7 sys3_ok) as (s' & He & _ & _ & Hz & _); [by vm_compute|by vm_compute|]. exists s'. split; [done|]. split; [done|].
  by vm_compute.
Defined.
Lemma waitpid_result_witness : ∃ w s', do_waitpid 1000 (-1) true 0 sys2 = Ret w s' ∧ sys_ok s'.
Proof.
  destruct (waitpid_result sys2 1000 (-1) true 0) as (w & s' & He & Hok & _);
    [eapply sstep_ok; [exact sys1_ok|exact sys12]|by vm_compute|exact sys2_queue|set_solver|].
  exact (ex_intro _ w (ex_intro _ s' (conj He Hok))).
Defined.
(** The parent gets the number of the child and its exit code. *)
Example child_reaped : ret_of (do_waitpid_again 1000 (-1) true 0 sys4) = Some (WRet 2 (Some 7)).
Proof. by vm_compute. Qed.
