(* ===== verification/Buddy.v ===== *)
(** * The physical page allocator (mm/page_alloc.c)

    Free blocks of [2^order] pages are kept in ten circular lists threaded
    through the page descriptors [mem_map]; a bitmap per order holds, for each
    pair of buddies, the exclusive or of "is free".  [get_free_pages] takes a
    block from the first large enough list and splits it, [__free_pages] merges
    a block with its free buddies.  The pointers, the list surgery, the 32-bit
    mask arithmetic and the bitmap words are those of the source.

    The specification is the set of free pages: allocation takes an aligned
    range out of it, freeing puts one back. *)

From S2P Require Import Prelude Pages Dlist.
From stdpp Require Import base numbers functions gmap list.

Local Open Scope Z_scope.

Definition PageReserved : Z := 1.
Definition PageDMA : Z := 2.
Definition PageWait : Z := 4.

(** A [struct page *]: null, a free area seen as a page, or a descriptor. *)
Inductive ptr := PNull | PArea (o : Z) | PPage (n : Z).

#[export] Instance ptr_eq_dec : EqDecision ptr.
Proof. solve_decision. Defined.

Record page := Page { p_prev : ptr; p_next : ptr; p_flags : Z; p_count : Z }.

(** [a_map] is the word offset of the area's bitmap in the bitmap memory. *)
Record free_area := Area { a_prev : ptr; a_next : ptr; a_map : Z; a_count : Z }.

(** [bitmem]: the 32-bit words after [mem_map] that hold the bitmaps;
    [frames]: the contents of the page frames, as 1024 words. *)
Record mm_state := MM {
  mem_map : list page;
  free_area_list : list free_area;
  bitmem : list Z;
  frames : gmap Z (list Z);
  nfreepages : Z;
}.

Definition upd_page (n : Z) (f : page → page) (s : mm_state) : mm_state :=
  MM (zalter f n (mem_map s)) (free_area_list s) (bitmem s) (frames s) (nfreepages s).
Definition upd_area (o : Z) (f : free_area → free_area) (s : mm_state) : mm_state :=
  MM (mem_map s) (zalter f o (free_area_list s)) (bitmem s) (frames s) (nfreepages s).
Definition upd_bitmem (f : list Z → list Z) (s : mm_state) : mm_state :=
  MM (mem_map s) (free_area_list s) (f (bitmem s)) (frames s) (nfreepages s).
Definition upd_frames (f : gmap Z (list Z) → gmap Z (list Z)) (s : mm_state) : mm_state :=
  MM (mem_map s) (free_area_list s) (bitmem s) (f (frames s)) (nfreepages s).
Definition upd_nfree (f : Z → Z) (s : mm_state) : mm_state :=
  MM (mem_map s) (free_area_list s) (bitmem s) (frames s) (f (nfreepages s)).

#[export] Instance mm_links : LinkStore mm_state ptr := {
  nxt s p := match p with
    | PNull => PNull
    | PArea o => from_option a_next PNull (zget (free_area_list s) o)
    | PPage n => from_option p_next PNull (zget (mem_map s) n)
    end;
  prv s p := match p with
    | PNull => PNull
    | PArea o => from_option a_prev PNull (zget (free_area_list s) o)
    | PPage n => from_option p_prev PNull (zget (mem_map s) n)
    end;
  set_nxt p v s := match p with
    | PNull => s
    | PArea o => upd_area o (λ a, Area (a_prev a) v (a_map a) (a_count a)) s
    | PPage n => upd_page n (λ g, Page (p_prev g) v (p_flags g) (p_count g)) s
    end;
  set_prv p v s := match p with
    | PNull => s
    | PArea o => upd_area o (λ a, Area v (a_next a) (a_map a) (a_count a)) s
    | PPage n => upd_page n (λ g, Page v (p_next g) (p_flags g) (p_count g)) s
    end;
  linkable s p := match p with
    | PNull => False
    | PArea o => 0 <= o < zlen (free_area_list s)
    | PPage n => 0 <= n < zlen (mem_map s)
    end;
}.

#[export] Instance mm_laws : LinkLaws mm_state ptr.
Proof.
  split; intros s p v q.
  1, 2: intros Hp; destruct p as [|o|n]; [done|..]; destruct q as [|o'|n']; simpl in *;
    try done; rewrite zget_zalter; repeat case_decide; simplify_eq; try done;
    apply zget_is_Some in Hp as [x Hx]; by rewrite Hx.
  1, 2: destruct p as [|o|n]; [done|..]; destruct q as [|o'|n']; simpl in *; try done;
    rewrite zget_zalter; case_decide; subst; try done;
    match goal with |- context [zget ?l ?i] => by destruct (zget l i) end.
  all: destruct p as [|o|n]; [done|..]; destruct q as [|o'|n']; simpl in *;
    by rewrite ?zlen_zalter.
Qed.

(** ** Bitmaps *)

(** [area->map[index / 32] ^= 1 << (index % 32)] *)
Definition area_map (s : mm_state) (o : Z) : Z :=
  from_option a_map 0 (zget (free_area_list s) o).
Definition toggle (o index : Z) (s : mm_state) : mm_state :=
  upd_bitmem (zalter (λ w, Z.lxor w (Z.shiftl 1 (index mod 32))) (area_map s o + index / 32)) s.
(** [area->map[index / 32] & (1 << (index % 32))] *)
Definition map_bit (s : mm_state) (o index : Z) : bool :=
  truth (Z.land (default 0 (zget (bitmem s) (area_map s o + index / 32)))
    (Z.shiftl 1 (index mod 32))).

(** ** Allocation *)

(** The [do ... while(new_order < NR_FREE_LIST)] loop: the order it stops at
    and the list head's successor there. *)
Fixpoint search_area (fuel : nat) (s : mm_state) (new_order : Z) : Z * ptr :=
  let ret := nxt s (PArea new_order) in
  if decide (ret ≠ PArea new_order) then (new_order, ret)
  else
    match fuel with
    | O => (new_order + 1, ret)
    | S fuel =>
        if new_order + 1 <? NR_FREE_LIST then search_area fuel s (new_order + 1)
        else (new_order + 1, ret)
    end.

Definition inc_area_count (o d : Z) : mm_state → mm_state :=
  upd_area o (λ a, Area (a_prev a) (a_next a) (a_map a) (a_count a + d)).

(** One turn of the splitting loop: the front half of the block at [map_nr]
    goes on the list of [new_order]. *)
Definition split_step (new_order map_nr : Z) (s : mm_state) : mm_state :=
  let ret := PPage map_nr in
  let area := PArea new_order in
  let s := set_nxt ret (nxt s area) s in
  let s := set_prv ret area s in
  let s := set_prv (nxt s ret) ret s in
  let s := set_nxt area ret s in
  let s := inc_area_count new_order 1 s in
  toggle new_order (Z.shiftr map_nr (new_order + 1)) s.

(** [while(new_order > order)]: the final [map_nr]. *)
Fixpoint split_block (fuel : nat) (order new_order size map_nr : Z) (s : mm_state)
    : mm_state * Z :=
  match fuel with
  | O => (s, map_nr)
  | S fuel =>
      if order <? new_order then
        let new_order := new_order - 1 in
        let size := Z.shiftr size 1 in
        let s := split_step new_order map_nr s in
        split_block fuel order new_order size (map_nr + size) s
      else (s, map_nr)
  end.

(** [ret - mem_map] *)
Definition page_nr (p : ptr) : M mm_state Z :=
  match p with PPage n => mret n | _ => die end.

Definition zero_page : list Z := replicate 1024 0.
(** The [memset] of [PAGE_SIZE * (1 << order)] bytes at the block. *)
Definition clear_frames (map_nr : Z) (n : nat) (fr : gmap Z (list Z)) : gmap Z (list Z) :=
  foldr (λ i, <[map_nr + Z.of_nat i := zero_page]>) fr (seq 0 n).

Definition get_free_pages (attr order : Z) : M mm_state Z :=
  die_if (NR_FREE_LIST <=? order);;
  found ← gets (λ s, search_area 10 s order);
  let new_order := found.1 in
  let ret := found.2 in
  if new_order =? NR_FREE_LIST then
    if truth (Z.land attr PageWait) then sleepon else mret 0
  else
    let size := Z.shiftl 1 new_order in
    modify (λ s, set_nxt (PArea new_order) (nxt s ret) s);;
    modify (λ s, set_prv (nxt s ret) (PArea new_order) s);;
    map_nr ← page_nr ret;
    modify (toggle new_order (Z.shiftr map_nr (new_order + 1)));;
    r ← gets (split_block 10 order new_order size map_nr);
    let map_nr := r.2 in
    modify (λ _, r.1);;
    modify (upd_page map_nr (λ g, Page (p_prev g) (p_next g) (p_flags g) 1));;
    modify (upd_nfree (λ n, n - Z.shiftl 1 order));;
    modify (upd_frames (clear_frames map_nr (Z.to_nat (Z.shiftl 1 order))));;
    mret (u32 (Z.shiftl map_nr PAGE_SHIFT)).

Definition get_one_page : M mm_state Z :=
  addr ← get_free_pages 0 0;
  if addr =? 0 then mret 0 else mret addr.

(** ** Freeing *)

(** [while(mask + (1 << (NR_FREE_LIST - 1)))]: toggle the pair's bit, stop if
    the buddy is not free, else unlink it and go on with the doubled block. *)
Fixpoint merge_loop (fuel : nat) (o mask map_nr index : Z) (s : mm_state)
    : mm_state * Z * Z :=
  match fuel with
  | O => (s, o, map_nr)
  | S fuel =>
      if truth (u32 (mask + Z.shiftl 1 (NR_FREE_LIST - 1))) then
        let s := toggle o index s in
        if map_bit s o index then (s, o, map_nr)
        else
          let buddy := PPage (Z.lxor map_nr (u32 (- mask))) in
          let prev := prv s buddy in
          let next := nxt s buddy in
          let s := set_nxt prev next s in
          let s := set_prv next prev s in
          let s := inc_area_count o (-1) s in
          let mask := u32 (Z.shiftl mask 1) in
          merge_loop fuel (o + 1) mask (Z.land map_nr mask) (Z.shiftr index 1) s
      else (s, o, map_nr)
  end.

(** "insert into correct pos" *)
Definition insert_block (o map_nr : Z) (s : mm_state) : mm_state :=
  let pg := PPage map_nr in
  let area := PArea o in
  let s := set_nxt pg (nxt s area) s in
  let s := set_prv pg area s in
  let s := set_prv (nxt s area) pg s in
  let s := set_nxt area pg s in
  inc_area_count o 1 s.

Definition __free_pages (addr order : Z) (s : mm_state) : mm_state :=
  let mask := u32 (Z.lnot (Z.shiftl 1 order - 1)) in
  let map_nr := Z.land (Z.shiftr addr PAGE_SHIFT) mask in
  let index := Z.shiftr map_nr (order + 1) in
  let r := merge_loop 10 order mask map_nr index s in
  let s := insert_block r.1.2 r.2 r.1.1 in
  upd_nfree (λ n, n + Z.shiftl 1 order) s.

Definition free_one_page (addr : Z) : M mm_state unit :=
  let map_nr := Z.shiftr addr PAGE_SHIFT in
  pg ← gets (λ s, zget (mem_map s) map_nr);
  pg ← from_opt pg;
  die_if (p_count pg <=? 0);;
  if truth (Z.land (p_flags pg) (Z.shiftl 1 PageReserved)) then mret tt
  else
    modify (upd_page map_nr (λ g, Page (p_prev g) (p_next g) (p_flags g) (p_count g - 1)));;
    if p_count pg - 1 =? 0 then modify (__free_pages addr 0) else mret tt.

(** ** The invariant *)

Abbreviation freelists := (Z → list Z).

Definition npages (s : mm_state) : Z := zlen (mem_map s).

(** A page is free when it lies in a block of some list. *)
Definition is_free (fl : freelists) (p : Z) : Prop :=
  ∃ o n, 0 <= o < NR_FREE_LIST ∧ n ∈ fl o ∧ in_block o n p.

(** The list of every order is linked correctly. *)
Definition chains (s : mm_state) (fl : freelists) : Prop :=
  ∀ o, 0 <= o < NR_FREE_LIST → is_list s (PArea o) (PPage <$> fl o).

(** Blocks are inside memory (page 0 apart), aligned, disjoint, and merged. *)
Record blocks_ok (np : Z) (fl : freelists) : Prop := {
  bo_range o n : 0 <= o < NR_FREE_LIST → n ∈ fl o → 0 < n ∧ n + 2 ^ o <= np ∧ (2 ^ o | n);
  bo_disj o1 n1 o2 n2 : 0 <= o1 < NR_FREE_LIST → 0 <= o2 < NR_FREE_LIST →
    n1 ∈ fl o1 → n2 ∈ fl o2 →
    (o1 = o2 ∧ n1 = n2) ∨ n1 + 2 ^ o1 <= n2 ∨ n2 + 2 ^ o2 <= n1;
  bo_merged o n : 0 <= o < NR_FREE_LIST - 1 → n ∈ fl o → Z.lxor n (2 ^ o) ∉ fl o;
}.

Definition valid_index (np o i : Z) : Prop :=
  0 <= o < NR_FREE_LIST ∧ 0 <= i ∧ i * 2 ^ (o + 1) < np.

(** Each bitmap has a word for every pair of buddies, and they do not overlap. *)
Record layout_ok (s : mm_state) : Prop := {
  lo_areas : zlen (free_area_list s) = NR_FREE_LIST;
  lo_npages : npages s <= 2 ^ 20;
  lo_fits o i : valid_index (npages s) o i → 0 <= area_map s o + i / 32 < zlen (bitmem s);
  lo_sep o i o' i' : valid_index (npages s) o i → valid_index (npages s) o' i' →
    area_map s o + i / 32 = area_map s o' + i' / 32 → o = o';
}.

Definition pair_bit (fl : freelists) (o i : Z) : bool :=
  xorb (bool_decide (i * 2 ^ (o + 1) ∈ fl o)) (bool_decide (i * 2 ^ (o + 1) + 2 ^ o ∈ fl o)).

(** The bit of a pair tells whether exactly one of the two buddies is free. *)
Definition bits_ok (s : mm_state) (fl : freelists) : Prop :=
  ∀ o i, valid_index (npages s) o i → o < NR_FREE_LIST - 1 → map_bit s o i = pair_bit fl o i.

Record buddy_inv (s : mm_state) (fl : freelists) : Prop := {
  bi_chains : chains s fl;
  bi_blocks : blocks_ok (npages s) fl;
  bi_bits : bits_ok s fl;
  bi_layout : layout_ok s;
}.

(** ** Frames: what the link writes leave alone *)

(** [s'] differs from [s] in links and counters only. *)
Record same_maps (s s' : mm_state) : Prop := {
  sm_areas : zlen (free_area_list s') = zlen (free_area_list s);
  sm_map o : area_map s' o = area_map s o;
  sm_bitmem : bitmem s' = bitmem s;
  sm_np : npages s' = npages s;
  sm_frames : frames s' = frames s;
  sm_nfree : nfreepages s' = nfreepages s;
}.

#[export] Instance same_maps_preorder : PreOrder same_maps.
Proof.
  split.
  - intros s. by split.
  - intros s1 s2 s3 [] []. split; intros; congruence.
Qed.

Lemma area_map_upd o f s o' :
  (∀ a, a_map (f a) = a_map a) → area_map (upd_area o f s) o' = area_map s o'.
Proof.
  intros Hf. unfold area_map, upd_area. simpl. rewrite zget_zalter.
  case_decide; [|done]. destruct (zget _ o') as [a|]; simpl; [apply Hf|done].
Qed.

Lemma same_maps_set_nxt p v s : same_maps s (set_nxt p v s).
Proof.
  destruct p as [|o|n]; simpl; [done|split; simpl; try done..].
  - apply zlen_zalter.
  - intros o'. by apply area_map_upd.
  - unfold npages. apply zlen_zalter.
Qed.
Lemma same_maps_set_prv p v s : same_maps s (set_prv p v s).
Proof.
  destruct p as [|o|n]; simpl; [done|split; simpl; try done..].
  - apply zlen_zalter.
  - intros o'. by apply area_map_upd.
  - unfold npages. apply zlen_zalter.
Qed.
Lemma same_maps_count o d s : same_maps s (inc_area_count o d s).
Proof.
  split; simpl; try done.
  - apply zlen_zalter.
  - intros o'. by apply area_map_upd.
Qed.
#[export] Hint Resolve same_maps_set_nxt same_maps_set_prv same_maps_count : cnix.

Lemma same_maps_layout s s' : same_maps s s' → layout_ok s → layout_ok s'.
Proof.
  intros [] []. split; [congruence..| |].
  - intros o i. rewrite sm_np0, sm_map0, sm_bitmem0. apply lo_fits0.
  - intros o i o' i'. rewrite sm_np0, !sm_map0. apply lo_sep0.
Qed.
Lemma same_maps_bits s s' fl : same_maps s s' → bits_ok s fl → bits_ok s' fl.
Proof.
  intros [] Hb o i. rewrite sm_np0. intros Hv Ho. rewrite <-(Hb o i Hv Ho).
  unfold map_bit. by rewrite sm_map0, sm_bitmem0.
Qed.

(** Counters and contents carry no links. *)
Definition same_links (s s' : mm_state) : Prop :=
  (∀ p, nxt s' p = nxt s p ∧ prv s' p = prv s p) ∧ (∀ p, linkable s p → linkable s' p).

Lemma same_links_chains s s' fl : same_links s s' → chains s fl → chains s' fl.
Proof.
  intros [Hl Hk] Hc o Ho. eapply is_list_frame; [by apply Hc|..]; auto.
Qed.

Lemma same_links_upd_area o f s :
  (∀ a, a_next (f a) = a_next a ∧ a_prev (f a) = a_prev a) → same_links s (upd_area o f s).
Proof.
  intros Hf. split.
  - intros [|o'|n]; simpl; try done. rewrite zget_zalter. case_decide; [|done].
    destruct (zget _ o') as [a|]; simpl; [apply Hf|done].
  - intros [|o'|n]; simpl; by rewrite ?zlen_zalter.
Qed.
Lemma same_links_upd_page n f s :
  (∀ g, p_next (f g) = p_next g ∧ p_prev (f g) = p_prev g) → same_links s (upd_page n f s).
Proof.
  intros Hf. split.
  - intros [|o'|n']; simpl; try done. rewrite zget_zalter. case_decide; [|done].
    destruct (zget _ n') as [a|]; simpl; [apply Hf|done].
  - intros [|o'|n']; simpl; by rewrite ?zlen_zalter.
Qed.
Lemma same_links_eq s s' :
  mem_map s' = mem_map s → free_area_list s' = free_area_list s → same_links s s'.
Proof. intros Hm Ha. split; intros [|o|n]; simpl; by rewrite ?Hm, ?Ha. Qed.

(** ** Toggling a bit *)

Lemma map_bit_testbit s o i : map_bit s o i =
  Z.testbit (default 0 (zget (bitmem s) (area_map s o + i / 32))) (i mod 32).
Proof.
  unfold map_bit. rewrite Z.shiftl_1_l. apply land_pow2_testbit.
  pose proof (Z.mod_pos_bound i 32). lia.
Qed.

Lemma map_bit_toggle s o i o' i' :
  layout_ok s → valid_index (npages s) o i → valid_index (npages s) o' i' →
  map_bit (toggle o i s) o' i' =
    if decide (o' = o ∧ i' = i) then negb (map_bit s o i) else map_bit s o' i'.
Proof.
  intros Hlo Hv Hv'. rewrite !map_bit_testbit. unfold toggle. simpl.
  change (area_map (upd_bitmem _ s) o') with (area_map s o').
  rewrite zget_zalter, Z.shiftl_1_l.
  pose proof (Z.mod_pos_bound i 32). pose proof (Z.mod_pos_bound i' 32).
  destruct (decide (area_map s o' + i' / 32 = area_map s o + i / 32)) as [He|Hne].
  - assert (o' = o) as -> by (by eapply lo_sep). assert (i' / 32 = i / 32) by lia.
    destruct (lo_fits s Hlo _ _ Hv) as [Hf1 Hf2].
    rewrite He. destruct (zget (bitmem s) (area_map s o + i / 32)) as [w|] eqn:Hw.
    2: { apply zget_None in Hw. lia. }
    simpl. rewrite Z.lxor_spec, Z.pow2_bits_eqb by lia.
    destruct (Z.eqb_spec (i mod 32) (i' mod 32)) as [Hm|Hm].
    + rewrite decide_True. 2: { split; [done|]. rewrite (Z.div_mod i 32), (Z.div_mod i' 32); lia. }
      rewrite Hm. by destruct (Z.testbit w _).
    + rewrite decide_False by naive_solver. by rewrite xorb_false_r.
  - rewrite decide_False by naive_solver. done.
Qed.

Lemma layout_toggle s o i : layout_ok s → layout_ok (toggle o i s).
Proof.
  intros []. split; try done.
  unfold toggle. simpl. intros o' i' Hv. rewrite zlen_zalter. by apply lo_fits0.
Qed.
Lemma same_links_toggle s o i : same_links s (toggle o i s).
Proof. by apply same_links_eq. Qed.

(** ** One list changes, the others stay *)

Lemma blocks_list_unique np fl o o' n :
  blocks_ok np fl → 0 <= o < NR_FREE_LIST → 0 <= o' < NR_FREE_LIST →
  n ∈ fl o → n ∈ fl o' → o = o'.
Proof.
  intros Hb Ho Ho' Hn Hn'.
  pose proof (bo_disj _ _ Hb o n o' n Ho Ho' Hn Hn') as [[-> _]|[?|?]]; [done|..].
  - pose proof (pow2_pos o). lia.
  - pose proof (pow2_pos o'). lia.
Qed.

Lemma elem_of_PPage (l : list Z) n : PPage n ∈ PPage <$> l ↔ n ∈ l.
Proof. rewrite list_elem_of_fmap. split; [intros (m & [= ->] & ?); done|eauto]. Qed.

Lemma chains_insert s s' np fl o n :
  chains s fl → blocks_ok np fl → 0 <= o < NR_FREE_LIST →
  (∀ o', 0 <= o' < NR_FREE_LIST → n ∉ fl o') → linkable s (PPage n) →
  spliced s s' (PArea o) (PPage n) (fst_or (PArea o) (PPage <$> fl o)) →
  chains s' (<[o := n :: fl o]> fl).
Proof.
  intros Hc Hb Ho Hn Hlk Hsp o' Ho'. destruct (decide (o' = o)) as [->|Hne].
  - rewrite fn_lookup_insert. simpl.
    apply (spliced_is_list s s' (PArea o) [] (PPage <$> fl o)); [by apply Hc|..|done|done].
    simpl. rewrite elem_of_cons, elem_of_PPage. intros [?|Hin]; [done|]. by eapply Hn.
  - rewrite fn_lookup_insert_ne by done. destruct Hsp as (Hnx & Hpv & Hlb).
    eapply is_list_frame; [by apply Hc|..|intros q; apply Hlb].
    intros q Hq.
    assert (q ≠ PArea o) by (rewrite elem_of_cons in Hq; destruct Hq as [->|Hq]; [congruence|];
      apply list_elem_of_fmap in Hq as (? & -> & _); done).
    assert (q ≠ PPage n) by (intros ->; rewrite elem_of_cons, elem_of_PPage in Hq;
      destruct Hq as [?|Hq]; [done|by eapply Hn]).
    rewrite Hnx, Hpv, !decide_False; [done|done|..|done|done].
    intros ->. pose proof (fst_or_elem (PArea o) (PPage <$> fl o)) as Hf.
    apply elem_of_cons in Hf as [?|Hf]; [done|].
    apply list_elem_of_fmap in Hf as (m & Hm & Hin). rewrite Hm in Hq.
    rewrite elem_of_cons, elem_of_PPage in Hq. destruct Hq as [?|Hq]; [done|].
    apply Hne. by eapply blocks_list_unique.
Qed.

Lemma chains_remove s s' np fl o l1 n l2 :
  chains s fl → blocks_ok np fl → 0 <= o < NR_FREE_LIST → fl o = l1 ++ n :: l2 →
  unlinked s s' (lst (PArea o) (PPage <$> l1)) (PPage n) (fst_or (PArea o) (PPage <$> l2)) →
  chains s' (<[o := l1 ++ l2]> fl).
Proof.
  intros Hc Hb Ho Hfl Hul o' Ho'. destruct (decide (o' = o)) as [->|Hne].
  - rewrite fn_lookup_insert, fmap_app.
    eapply unlinked_is_list; [|exact Hul]. rewrite <-fmap_cons, <-fmap_app, <-Hfl. by apply Hc.
  - rewrite fn_lookup_insert_ne by done. destruct Hul as (Hnx & Hpv & Hlb).
    assert (∀ m q, q ∈ PArea o' :: (PPage <$> fl o') → m ∈ PArea o :: (PPage <$> fl o) → q ≠ m)
      as Hdiff.
    { intros m q Hq Hm ->. rewrite elem_of_cons in Hq, Hm.
      destruct Hq as [->|Hq], Hm as [?|Hm]; simplify_eq;
        try (apply list_elem_of_fmap in Hm as (? & ? & ?); simplify_eq; done);
        try (apply list_elem_of_fmap in Hq as (? & ? & ?); simplify_eq; done).
      apply list_elem_of_fmap in Hq as (x & -> & Hx). apply elem_of_PPage in Hm.
      apply Hne. by eapply blocks_list_unique. }
    pose proof (lst_elem (PArea o) (PPage <$> l1)) as Ha.
    pose proof (fst_or_elem (PArea o) (PPage <$> l2)) as Hf.
    eapply is_list_frame; [by apply Hc|..|intros q; apply Hlb].
    intros q Hq. rewrite Hnx, Hpv, !decide_False; [done|..];
      apply Hdiff; try done; rewrite Hfl, fmap_app, fmap_cons; set_solver.
Qed.

(** ** Buddies *)

Lemma pow2_succ o : 0 <= o → 2 ^ (o + 1) = 2 * 2 ^ o.
Proof. intros. rewrite Z.pow_add_r by lia. lia. Qed.

Lemma lxor_pow2_double i o : 0 <= o →
  Z.lxor (i * 2 ^ (o + 1)) (2 ^ o) = i * 2 ^ (o + 1) + 2 ^ o.
Proof.
  intros Ho. symmetry. apply Z.add_nocarry_lxor. apply Z.bits_inj'. intros j Hj.
  rewrite Z.land_spec, Z.bits_0, Z.pow2_bits_eqb by lia.
  destruct (Z.eqb_spec o j) as [<-|]; [|apply andb_false_r].
  rewrite Z.mul_pow2_bits_low by lia. done.
Qed.

(** An aligned block is the front or the back half of its pair. *)
Lemma buddy_cases o n : 0 <= o → (2 ^ o | n) →
  let i := n / 2 ^ (o + 1) in
  (n = i * 2 ^ (o + 1) ∧ Z.lxor n (2 ^ o) = n + 2 ^ o) ∨
  (n = i * 2 ^ (o + 1) + 2 ^ o ∧ Z.lxor n (2 ^ o) = n - 2 ^ o).
Proof.
  intros Ho [q ->] i. pose proof (pow2_pos o Ho). subst i.
  destruct (Z.Even_or_Odd q) as [[k ->]|[k ->]].
  - left. replace (2 * k * 2 ^ o) with (k * 2 ^ (o + 1)) by (rewrite pow2_succ; lia).
    rewrite Z.div_mul by (rewrite pow2_succ; lia). split; [done|]. by apply lxor_pow2_double.
  - right. replace ((2 * k + 1) * 2 ^ o) with (k * 2 ^ (o + 1) + 2 ^ o) by (rewrite pow2_succ; lia).
    rewrite Z.div_add_l by (rewrite pow2_succ; lia).
    rewrite Z.div_small by (rewrite pow2_succ; lia). rewrite Z.add_0_r. split; [done|].
    rewrite <-lxor_pow2_double at 1 by done.
    rewrite Z.lxor_assoc, Z.lxor_nilpotent, Z.lxor_0_r. lia.
Qed.

Lemma buddy_involutive o n : Z.lxor (Z.lxor n (2 ^ o)) (2 ^ o) = n.
Proof. by rewrite Z.lxor_assoc, Z.lxor_nilpotent, Z.lxor_0_r. Qed.

Lemma pair_bit_flip fl fl' o n o' i' :
  0 <= o → 0 <= o' → (2 ^ o | n) →
  (∀ o', o' ≠ o → fl' o' = fl o') →
  (∀ m, m ≠ n → m ∈ fl' o ↔ m ∈ fl o) → (n ∈ fl' o ↔ n ∉ fl o) →
  pair_bit fl' o' i' =
    if decide (o' = o ∧ i' = Z.shiftr n (o + 1)) then negb (pair_bit fl o i') else pair_bit fl o' i'.
Proof.
  intros Ho Ho' Hal Hoth Hm Hn. unfold pair_bit.
  destruct (decide (o' = o)) as [->|Hne].
  2: { rewrite decide_False by naive_solver. by rewrite Hoth. }
  rewrite Z.shiftr_div_pow2 by lia. pose proof (pow2_pos o Ho).
  pose proof (pow2_succ o Ho) as Hs.
  destruct (buddy_cases o n Ho Hal) as [[Hc _]|[Hc _]]; set (i := n / 2 ^ (o + 1)) in *.
  - destruct (decide (i' = i)) as [->|Hi].
    + rewrite decide_True by done. rewrite <-Hc.
      rewrite (bool_decide_ext (n ∈ fl' o) (n ∉ fl o)) by done.
      rewrite (bool_decide_ext (n + 2 ^ o ∈ fl' o) (n + 2 ^ o ∈ fl o)) by (apply Hm; lia).
      rewrite bool_decide_not. by destruct (bool_decide (n ∈ fl o)), (bool_decide (n + 2 ^ o ∈ fl o)).
    + rewrite decide_False by naive_solver.
      f_equal; apply bool_decide_ext, Hm; rewrite Hc; nia.
  - destruct (decide (i' = i)) as [->|Hi].
    + rewrite decide_True by done. rewrite <-Hc.
      rewrite (bool_decide_ext (n ∈ fl' o) (n ∉ fl o)) by done.
      rewrite (bool_decide_ext (i * 2 ^ (o + 1) ∈ fl' o) (i * 2 ^ (o + 1) ∈ fl o)) by (apply Hm; lia).
      rewrite bool_decide_not.
      by destruct (bool_decide (n ∈ fl o)), (bool_decide (i * 2 ^ (o + 1) ∈ fl o)).
    + rewrite decide_False by naive_solver.
      f_equal; apply bool_decide_ext, Hm; rewrite Hc; nia.
Qed.

Lemma valid_index_block np o n :
  0 <= o < NR_FREE_LIST → 0 <= n < np → valid_index np o (Z.shiftr n (o + 1)).
Proof.
  intros Ho Hn. rewrite Z.shiftr_div_pow2 by lia.
  assert (0 < 2 ^ (o + 1)) by (apply pow2_pos; lia).
  split_and!; try lia.
  - apply Z.div_pos; lia.
  - pose proof (Z.mul_div_le n (2 ^ (o + 1))). lia.
Qed.

(** Toggling the pair of [n] follows [n] entering or leaving its list. *)
Lemma bits_toggle s fl fl' o n :
  bits_ok s fl → layout_ok s → 0 <= o < NR_FREE_LIST → 0 <= n < npages s → (2 ^ o | n) →
  (∀ o', o' ≠ o → fl' o' = fl o') →
  (∀ m, m ≠ n → m ∈ fl' o ↔ m ∈ fl o) → (n ∈ fl' o ↔ n ∉ fl o) →
  bits_ok (toggle o (Z.shiftr n (o + 1)) s) fl'.
Proof.
  intros Hb Hlo Ho Hn Hal Hoth Hm Hnn o' i' Hv Ho9.
  change (npages (toggle _ _ s)) with (npages s) in Hv.
  rewrite map_bit_toggle; [|done|by apply valid_index_block|done].
  rewrite (pair_bit_flip fl fl' o n); [|lia|destruct Hv; lia|done..].
  case_decide as Hd; [destruct Hd as [-> ->]|]; by rewrite Hb.
Qed.

(** ** Adding and removing a block *)

(** A range of pages outside every free block. *)
Definition hole (np : Z) (fl : freelists) (o n : Z) : Prop :=
  0 < n ∧ n + 2 ^ o <= np ∧ (2 ^ o | n) ∧
  ∀ o' m, 0 <= o' < NR_FREE_LIST → m ∈ fl o' → n + 2 ^ o <= m ∨ m + 2 ^ o' <= n.

Lemma hole_notin np fl o n o' : 0 <= o → hole np fl o n → 0 <= o' < NR_FREE_LIST → n ∉ fl o'.
Proof.
  intros Ho (_ & _ & _ & Hd) Ho' Hn. pose proof (pow2_pos o Ho).
  pose proof (pow2_pos o' ltac:(lia)). destruct (Hd o' n Ho' Hn); lia.
Qed.

Lemma blocks_insert np fl o n :
  blocks_ok np fl → 0 <= o < NR_FREE_LIST → hole np fl o n →
  (o < NR_FREE_LIST - 1 → Z.lxor n (2 ^ o) ∉ fl o) →
  blocks_ok np (<[o := n :: fl o]> fl).
Proof.
  intros Hb Ho Hh Hbud. pose proof Hh as (H0 & Hnp & Hal & Hd).
  assert (∀ o' m, 0 <= o' < NR_FREE_LIST → m ∈ (<[o := n :: fl o]> fl) o' →
    (o' = o ∧ m = n) ∨ m ∈ fl o') as Hel.
  { intros o' m Ho'. destruct (decide (o' = o)) as [->|].
    - rewrite fn_lookup_insert. set_solver.
    - rewrite fn_lookup_insert_ne by done. auto. }
  split.
  - intros o' m Ho' Hm. apply Hel in Hm; [|done].
    destruct Hm as [[-> ->]|Hm]; [done|by eapply bo_range].
  - intros o1 n1 o2 n2 Ho1 Ho2 Hn1 Hn2.
    apply Hel in Hn1; [|done]. apply Hel in Hn2; [|done].
    destruct Hn1 as [[-> ->]|Hn1], Hn2 as [[-> ->]|Hn2].
    + by left.
    + right. by apply Hd.
    + right. destruct (Hd o1 n1 Ho1 Hn1); auto.
    + by eapply bo_disj.
  - intros o' m Ho' Hm Hx.
    apply Hel in Hm; [|lia]. apply Hel in Hx; [|lia].
    destruct Hm as [[Hoo ->]|Hm], Hx as [[Hox Hx]|Hx]; try subst o'.
    + apply (f_equal (λ z, Z.lxor z n)) in Hx.
      rewrite Z.lxor_nilpotent, (Z.lxor_comm n), Z.lxor_assoc, Z.lxor_nilpotent, Z.lxor_0_r in Hx.
      pose proof (pow2_pos o). lia.
    + by apply (Hbud ltac:(lia)).
    + apply (Hbud ltac:(lia)). by rewrite <-Hx, buddy_involutive.
    + by apply (bo_merged _ _ Hb o' m).
Qed.

Lemma blocks_remove np fl o l1 n l2 :
  blocks_ok np fl → fl o = l1 ++ n :: l2 → blocks_ok np (<[o := l1 ++ l2]> fl).
Proof.
  intros Hb Hfl.
  assert (∀ o' m, m ∈ (<[o := l1 ++ l2]> fl) o' → m ∈ fl o') as Hel.
  { intros o' m. destruct (decide (o' = o)) as [->|].
    - rewrite fn_lookup_insert, Hfl. set_solver.
    - by rewrite fn_lookup_insert_ne. }
  split.
  - intros. eapply bo_range; eauto.
  - intros. eapply bo_disj; eauto.
  - intros o' m Ho' Hm%Hel Hx%Hel. by apply (bo_merged _ _ Hb o' m).
Qed.

Lemma hole_remove np fl o l1 n l2 :
  blocks_ok np fl → 0 <= o < NR_FREE_LIST → NoDup (fl o) → fl o = l1 ++ n :: l2 →
  hole np (<[o := l1 ++ l2]> fl) o n.
Proof.
  intros Hb Ho Hnd Hfl. assert (n ∈ fl o) as Hin by (rewrite Hfl; set_solver).
  destruct (bo_range _ _ Hb o n Ho Hin) as (? & ? & ?). split_and!; try done.
  intros o' m Ho' Hm. destruct (decide (o' = o)) as [->|].
  - rewrite fn_lookup_insert in Hm. rewrite Hfl, <-Permutation_middle in Hnd.
    apply NoDup_cons in Hnd as [Hn _].
    destruct (bo_disj _ _ Hb o n o m Ho Ho) as [[_ ->]|?]; try done.
    rewrite Hfl. set_solver.
  - rewrite fn_lookup_insert_ne in Hm by done.
    destruct (bo_disj _ _ Hb o n o' m Ho Ho') as [[-> ->]|?]; try done.
Qed.

Lemma is_free_insert fl o n p : 0 <= o < NR_FREE_LIST →
  is_free (<[o := n :: fl o]> fl) p ↔ in_block o n p ∨ is_free fl p.
Proof.
  intros Ho. unfold is_free. split.
  - intros (o' & m & Ho' & Hm & Hp). destruct (decide (o' = o)) as [->|].
    + rewrite fn_lookup_insert in Hm. apply elem_of_cons in Hm as [->|Hm]; [by left|].
      right. eauto.
    + rewrite fn_lookup_insert_ne in Hm by done. right. eauto.
  - intros [Hp|(o' & m & Ho' & Hm & Hp)].
    + exists o, n. rewrite fn_lookup_insert. split_and!; [lia..|left|done].
    + exists o', m. split_and!; [lia..| |done]. destruct (decide (o' = o)) as [->|].
      * rewrite fn_lookup_insert. by right.
      * by rewrite fn_lookup_insert_ne.
Qed.

Lemma is_free_remove fl o l1 n l2 p : 0 <= o < NR_FREE_LIST → fl o = l1 ++ n :: l2 →
  is_free fl p ↔ in_block o n p ∨ is_free (<[o := l1 ++ l2]> fl) p.
Proof.
  intros Ho Hfl. unfold is_free. split.
  - intros (o' & m & Ho' & Hm & Hp). destruct (decide (o' = o)) as [->|].
    + destruct (decide (m = n)) as [->|]; [by left|]. right. exists o, m.
      rewrite fn_lookup_insert. rewrite Hfl in Hm. set_solver.
    + right. exists o', m. by rewrite fn_lookup_insert_ne.
  - intros [Hp|(o' & m & Ho' & Hm & Hp)].
    + exists o, n. rewrite Hfl. set_solver.
    + exists o', m. split_and!; [lia..| |done]. destruct (decide (o' = o)) as [->|].
      * rewrite fn_lookup_insert in Hm. rewrite Hfl. set_solver.
      * by rewrite fn_lookup_insert_ne in Hm.
Qed.

Lemma hole_not_free np fl o n p : hole np fl o n → in_block o n p → ¬ is_free fl p.
Proof.
  intros (_ & _ & _ & Hd) Hp (o' & m & Ho' & Hm & Hp'). unfold in_block in *.
  destruct (Hd o' m Ho' Hm); lia.
Qed.

(** ** The list surgery of the source *)

(** What neither splitting nor merging touches. *)
Record same_aux (s s' : mm_state) : Prop := {
  sa_np : npages s' = npages s;
  sa_frames : frames s' = frames s;
  sa_nfree : nfreepages s' = nfreepages s;
}.
#[export] Instance same_aux_preorder : PreOrder same_aux.
Proof.
  split.
  - intros s. by split.
  - intros s1 s2 s3 [] []. split; congruence.
Qed.
Lemma same_maps_aux s s' : same_maps s s' → same_aux s s'.
Proof. intros []. by split. Qed.
Lemma same_aux_toggle o i s : same_aux s (toggle o i s).
Proof. by split. Qed.
#[export] Hint Resolve same_maps_aux same_aux_toggle : cnix.

Lemma unlink_chains s np fl o l1 n l2 :
  chains s fl → blocks_ok np fl → 0 <= o < NR_FREE_LIST → fl o = l1 ++ n :: l2 →
  let a := prv s (PPage n) in
  let b := nxt s (PPage n) in
  a = lst (PArea o) (PPage <$> l1) ∧ b = fst_or (PArea o) (PPage <$> l2) ∧ PPage n ≠ a ∧
  chains (set_prv b a (set_nxt a b s)) (<[o := l1 ++ l2]> fl).
Proof.
  intros Hc Hb Ho Hfl a b. pose proof (Hc o Ho) as Hl.
  rewrite Hfl, fmap_app, fmap_cons in Hl.
  pose proof (node_neighbours _ _ _ _ _ Hl) as (Ha & Hb' & Hla & Hlb & Hna & Hnb).
  subst a b. rewrite Ha, Hb'. split_and!; [done..|].
  eapply chains_remove; [done..|]. by apply unlink_pair.
Qed.

(** The four writes that put a page at the head of an area's list. *)
Definition push_front (o n : Z) (s : mm_state) : mm_state :=
  set_nxt (PArea o) (PPage n)
    (set_prv (nxt s (PArea o)) (PPage n)
      (set_prv (PPage n) (PArea o) (set_nxt (PPage n) (nxt s (PArea o)) s))).

Lemma push_front_chains s fl o n :
  chains s fl → blocks_ok (npages s) fl → layout_ok s → 0 <= o < NR_FREE_LIST →
  hole (npages s) fl o n → chains (push_front o n s) (<[o := n :: fl o]> fl).
Proof.
  intros Hc Hb Hlo Ho Hh.
  assert (∀ o', 0 <= o' < NR_FREE_LIST → n ∉ fl o') as Hn.
  { intros o' Ho'. eapply hole_notin; [|done|done]. lia. }
  assert (linkable s (PPage n)) as Hlk.
  { destruct Hh as (? & ? & _). simpl. unfold npages in *. pose proof (pow2_pos o). lia. }
  eapply chains_insert; [done..|].
  unfold push_front. rewrite <-(is_list_nxt_hd _ _ _ (Hc o Ho)).
  pose proof (splice_head s (PArea o) (PPage <$> fl o) (PPage n)) as Hsp.
  rewrite <-(is_list_nxt_hd _ _ _ (Hc o Ho)) in Hsp.
  apply Hsp; [by apply Hc| |done].
  rewrite elem_of_cons, elem_of_PPage. intros [?|?]; [done|]. by eapply Hn.
Qed.

Lemma push_front_maps o n s : same_maps s (push_front o n s).
Proof.
  unfold push_front. do 3 (etrans; [|apply same_maps_set_nxt || apply same_maps_set_prv]).
  apply same_maps_set_nxt.
Qed.

(** In the splitting loop and in [insert_block] the writes are these. *)
Lemma split_step_eq o n s : 0 <= n < npages s →
  split_step o n s =
    toggle o (Z.shiftr n (o + 1)) (inc_area_count o 1 (push_front o n s)).
Proof.
  intros Hn. unfold split_step, push_front. cbv zeta.
  rewrite nxt_set_prv, nxt_set_nxt by (simpl; unfold npages in Hn; lia).
  by rewrite decide_True.
Qed.

Lemma insert_block_eq o n s : insert_block o n s = inc_area_count o 1 (push_front o n s).
Proof. done. Qed.

(** A block added to a list whose pair's bit is up to date. *)
Lemma push_front_inv s fl o n :
  chains s fl → blocks_ok (npages s) fl → layout_ok s → 0 <= o < NR_FREE_LIST →
  hole (npages s) fl o n → (o < NR_FREE_LIST - 1 → Z.lxor n (2 ^ o) ∉ fl o) →
  let s' := inc_area_count o 1 (push_front o n s) in
  let fl' := <[o := n :: fl o]> fl in
  chains s' fl' ∧ blocks_ok (npages s') fl' ∧ layout_ok s' ∧ same_maps s s'.
Proof.
  intros Hc Hb Hlo Ho Hh Hbud s' fl'.
  assert (same_maps s s') as Hsm by (etrans; [apply push_front_maps|apply same_maps_count]).
  split_and!; [| |by eapply same_maps_layout|done].
  - eapply same_links_chains; [by apply same_links_upd_area|]. by apply push_front_chains.
  - rewrite (sm_np _ _ Hsm). by apply blocks_insert.
Qed.

Lemma hole_range np fl o n : 0 <= o → hole np fl o n → 0 <= n < np.
Proof. intros Ho (? & ? & _). pose proof (pow2_pos o Ho). lia. Qed.

(** ** Splitting *)

Lemma split_step_inv s fl o n :
  buddy_inv s fl → 0 <= o < NR_FREE_LIST - 1 → hole (npages s) fl (o + 1) n →
  let s' := split_step o n s in
  let fl' := <[o := n :: fl o]> fl in
  buddy_inv s' fl' ∧ same_aux s s' ∧ hole (npages s) fl' o (n + 2 ^ o).
Proof.
  intros [Hc Hb Hbits Hlo] Ho Hh s' fl'. pose proof (pow2_pos o ltac:(lia)) as Hp.
  pose proof (pow2_succ o ltac:(lia)) as Hs.
  pose proof Hh as (H0 & Hnp & [q Hq] & Hd). rewrite Hs in *.
  assert (Z.lxor n (2 ^ o) = n + 2 ^ o) as Hx.
  { rewrite Hq. rewrite <-Hs. apply lxor_pow2_double. lia. }
  assert (hole (npages s) fl o n) as Hh1.
  { split_and!; [lia..|exists (2 * q); lia|]. intros o' m Ho' Hm.
    destruct (Hd o' m Ho' Hm); lia. }
  assert (0 <= n < npages s) as Hr by lia.
  destruct (push_front_inv s fl o n) as (Hc' & Hb' & Hlo' & Hsm); [done..|unfold NR_FREE_LIST in *; lia|done| |].
  { intros _. rewrite Hx. intros Hin. destruct (Hd o (n + 2 ^ o)); [unfold NR_FREE_LIST in *; lia|done|lia|lia]. }
  subst s'. rewrite split_step_eq by done. split_and!.
  - split.
    + eapply same_links_chains; [apply same_links_toggle|done].
    + done.
    + eapply bits_toggle; [by eapply same_maps_bits|done|unfold NR_FREE_LIST in *; lia| | |..].
      * by rewrite (sm_np _ _ Hsm).
      * by destruct Hh1 as (_ & _ & ? & _).
      * intros o' Hne. subst fl'. by rewrite fn_lookup_insert_ne.
      * intros m Hm. subst fl'. rewrite fn_lookup_insert. set_solver.
      * subst fl'. rewrite fn_lookup_insert.
        assert (n ∉ fl o) by (eapply hole_notin; [|done|]; unfold NR_FREE_LIST in *; lia).
        set_solver.
    + by apply layout_toggle.
  - etrans; [by apply same_maps_aux|]. apply same_aux_toggle.
  - split_and!; [lia..|exists (2 * q + 1); lia|]. intros o' m Ho' Hm. subst fl'.
    destruct (decide (o' = o)) as [->|].
    + rewrite fn_lookup_insert in Hm. apply elem_of_cons in Hm as [->|Hm]; [lia|].
      destruct (Hd o m Ho' Hm); lia.
    + rewrite fn_lookup_insert_ne in Hm by done. destruct (Hd o' m Ho' Hm); lia.
Qed.

Lemma split_block_inv fuel order k n s fl :
  buddy_inv s fl → 0 <= order <= k → k < NR_FREE_LIST → hole (npages s) fl k n →
  k - order <= Z.of_nat fuel →
  ∃ s' n' fl', split_block fuel order k (2 ^ k) n s = (s', n') ∧
    buddy_inv s' fl' ∧ same_aux s s' ∧ hole (npages s) fl' order n' ∧
    n <= n' ∧ n' + 2 ^ order <= n + 2 ^ k ∧
    ∀ p, is_free fl' p ↔ is_free fl p ∨ (in_block k n p ∧ ¬ in_block order n' p).
Proof.
  revert k n s fl. induction fuel as [|fuel IH]; intros k n s fl Hi Hok Hk Hh Hf; simpl.
  - assert (k = order) as -> by lia. exists s, n, fl. split_and!; try done; try lia.
    intros p. tauto.
  - destruct (Z.ltb_spec order k).
    2: { assert (k = order) as -> by lia. exists s, n, fl. split_and!; try done; try lia.
         intros p. tauto. }
    pose proof (pow2_pos (k - 1) ltac:(lia)) as Hp.
    assert (2 ^ k = 2 * 2 ^ (k - 1)) as H2k.
    { rewrite <-pow2_succ by lia. f_equal. lia. }
    assert (Z.shiftr (2 ^ k) 1 = 2 ^ (k - 1)) as ->.
    { rewrite Z.shiftr_div_pow2 by lia. rewrite H2k, Z.mul_comm. change (2 ^ 1) with 2.
      apply Z.div_mul. lia. }
    destruct (split_step_inv s fl (k - 1) n) as (Hi1 & Hsa1 & Hh1); [done|lia| |].
    { by replace (k - 1 + 1) with k by lia. }
    pose proof (sa_np _ _ Hsa1) as Hnp.
    destruct (IH (k - 1) (n + 2 ^ (k - 1)) _ _ Hi1) as
      (s' & n' & fl' & Heq & Hi' & Hsa' & Hh' & Hlo & Hhi & Hfr); [lia..|by rewrite Hnp|lia|].
    exists s', n', fl'. rewrite Hnp in Hh'. split_and!; try done; try lia.
    + by etrans.
    + intros p. rewrite Hfr, is_free_insert by lia. unfold in_block.
      assert (n' + 2 ^ order <= n + 2 ^ k) by lia. split; [|intros [?|[? ?]]]; [|tauto|].
      * intros [[?|?]|[? ?]]; [right; lia|by left|right; lia].
      * destruct (decide (p < n + 2 ^ (k - 1))); [left; left; lia|right; lia].
Qed.

(** ** Finding a list *)

Lemma nxt_area_empty s fl o : chains s fl → 0 <= o < NR_FREE_LIST →
  nxt s (PArea o) = match fl o with [] => PArea o | n :: _ => PPage n end.
Proof.
  intros Hc Ho. rewrite (is_list_nxt_hd _ _ _ (Hc o Ho)). by destruct (fl o).
Qed.

(** The search stops at the first order with a free block. *)
Lemma search_area_found fuel s fl o k n l :
  chains s fl → 0 <= o <= k → k < NR_FREE_LIST → k - o <= Z.of_nat fuel →
  (∀ j, o <= j < k → fl j = []) → fl k = n :: l →
  search_area fuel s o = (k, PPage n).
Proof.
  revert o. induction fuel as [|fuel IH]; intros o Hc Ho Hk Hf Hempty Hfl; cbn [search_area].
  - assert (o = k) as -> by lia. rewrite (nxt_area_empty s fl), Hfl by (done || lia).
    by rewrite decide_True.
  - destruct (decide (o = k)) as [->|].
    { rewrite (nxt_area_empty s fl), Hfl by (done || lia). by rewrite decide_True. }
    rewrite (nxt_area_empty s fl), (Hempty o) by (done || lia).
    rewrite decide_False by naive_solver.
    rewrite (proj2 (Z.ltb_lt _ _)) by lia. apply IH; try done; try lia.
    intros j Hj. apply Hempty. lia.
Qed.

Lemma search_area_none fuel s fl o :
  chains s fl → 0 <= o < NR_FREE_LIST → NR_FREE_LIST - o <= Z.of_nat fuel →
  (∀ j, o <= j < NR_FREE_LIST → fl j = []) →
  (search_area fuel s o).1 = NR_FREE_LIST.
Proof.
  revert o. induction fuel as [|fuel IH]; intros o Hc Ho Hf Hempty; [lia|]. cbn [search_area].
  rewrite (nxt_area_empty s fl), (Hempty o) by (done || lia).
  rewrite decide_False by naive_solver.
  destruct (Z.ltb_spec (o + 1) NR_FREE_LIST); [|simpl; lia].
  apply IH; try done; try lia. intros j Hj. apply Hempty. lia.
Qed.

(** Either some list from [order] on has a block, and there is a first such
    list, or all are empty. *)
Lemma first_nonempty (fl : freelists) o (d : nat) :
  (∃ k, o <= k < o + Z.of_nat d ∧ fl k ≠ [] ∧ ∀ j, o <= j < k → fl j = []) ∨
  (∀ j, o <= j < o + Z.of_nat d → fl j = []).
Proof.
  induction d as [|d [(k & Hk & Hne & Hj)|Hall]].
  - right. lia.
  - left. exists k. split_and!; [lia..|done|done].
  - destruct (decide (fl (o + Z.of_nat d) = [])) as [He|He].
    + right. intros j Hj. destruct (decide (j = o + Z.of_nat d)) as [->|]; [done|].
      apply Hall. lia.
    + left. exists (o + Z.of_nat d). split_and!; [lia..|done|]. intros j Hj. apply Hall. lia.
Qed.

(** Taking the first block of a list: the two writes and the toggle. *)
Lemma pop_front_inv s fl k n l :
  buddy_inv s fl → 0 <= k < NR_FREE_LIST → fl k = n :: l →
  let s1 := set_nxt (PArea k) (nxt s (PPage n)) s in
  let s2 := set_prv (nxt s1 (PPage n)) (PArea k) s1 in
  let s3 := toggle k (Z.shiftr n (k + 1)) s2 in
  buddy_inv s3 (<[k := l]> fl) ∧ same_aux s s3 ∧ hole (npages s) (<[k := l]> fl) k n.
Proof.
  intros [Hc Hb Hbits Hlo] Hk Hfl s1 s2 s3.
  assert (NoDup (fl k)) as Hnd.
  { apply (NoDup_fmap_1 PPage). eapply is_list_NoDup. by apply Hc. }
  destruct (unlink_chains s (npages s) fl k [] n l) as (Ha & Hb' & Hna & Hc'); [done..|].
  change (lst (PArea k) (PPage <$> [])) with (PArea k) in Ha.
  rewrite Ha in Hc'. assert (s2 = set_prv (nxt s (PPage n)) (PArea k) s1) as Hs2.
  { subst s2 s1. rewrite nxt_set_nxt.
    - by rewrite decide_False.
    - eapply linkable_hd. by apply Hc. }
  assert (same_maps s s2) as Hsm.
  { rewrite Hs2. etrans; [apply same_maps_set_nxt|apply same_maps_set_prv]. }
  assert (hole (npages s) (<[k := l]> fl) k n) as Hh by (by apply (hole_remove _ _ _ [] n l)).
  split_and!; [split|..|done].
  - eapply same_links_chains; [apply same_links_toggle|]. by rewrite Hs2.
  - change (npages s3) with (npages s2). rewrite (sm_np _ _ Hsm).
    by apply (blocks_remove _ _ _ [] n l).
  - eapply bits_toggle; [by eapply same_maps_bits|by eapply same_maps_layout|done|..].
    + rewrite (sm_np _ _ Hsm). eapply hole_range; [|done]. lia.
    + by destruct Hh as (_ & _ & ? & _).
    + intros o' Hne. by rewrite fn_lookup_insert_ne.
    + intros m Hm. rewrite fn_lookup_insert, Hfl. set_solver.
    + rewrite fn_lookup_insert, Hfl. rewrite Hfl in Hnd. apply NoDup_cons in Hnd as [? _].
      set_solver.
  - apply layout_toggle. by eapply same_maps_layout.
  - etrans; [by apply same_maps_aux|]. apply same_aux_toggle.
Qed.

(** ** Allocation, against the set of free pages *)

(** An aligned run of [2^order] free pages. *)
Definition run_free (fl : freelists) (order b : Z) : Prop :=
  (2 ^ order | b) ∧ ∀ p, in_block order b p → is_free fl p.

(** Aligned blocks that meet are nested. *)
Lemma aligned_nested o k n m p : 0 <= o <= k → (2 ^ o | n) → (2 ^ k | m) →
  in_block o n p → in_block k m p → m <= n ∧ n + 2 ^ o <= m + 2 ^ k.
Proof.
  unfold in_block. intros Hok [a ->] [b ->] Hn Hm. pose proof (pow2_pos o ltac:(lia)).
  assert (2 ^ k = 2 ^ (k - o) * 2 ^ o) as He by (rewrite <-Z.pow_add_r by lia; f_equal; lia).
  rewrite He in *. set (c := 2 ^ (k - o)) in *. set (x := 2 ^ o) in *.
  assert (b * c < a + 1) by nia. assert (a < b * c + c) by nia. nia.
Qed.

Lemma aligned_same_block o n m p : 0 <= o → (2 ^ o | n) → (2 ^ o | m) →
  in_block o n p → in_block o m p → n = m.
Proof.
  intros Ho [a ->] [b ->]. unfold in_block. pose proof (pow2_pos o Ho). intros.
  assert (a = b) by nia. by subst.
Qed.

(** Because free buddies are merged, a free run of [2^order] pages lies in
    blocks of at least that order. *)
Lemma run_free_blocks np fl order b k : blocks_ok np fl → 0 <= order < NR_FREE_LIST →
  run_free fl order b → 0 <= k <= order →
  ∀ p, in_block order b p → ∃ o n, k <= o < NR_FREE_LIST ∧ n ∈ fl o ∧ in_block o n p.
Proof.
  intros Hb Ho [Hal Hrun] [Hk0 Hk]. revert k Hk0 Hk. refine (natlike_ind _ _ _).
  { intros _ p Hp. destruct (Hrun p Hp) as (o & n & ? & ? & ?). by exists o, n. }
  intros k Hk0 IH Hk p Hp. unfold Z.succ in *.
  destruct (IH ltac:(lia) p Hp) as (o & n & Ho' & Hn & Hnp).
  destruct (decide (o = k)) as [->|]; [exfalso|by exists o, n; split; [lia|]].
  destruct (bo_range _ _ Hb k n ltac:(lia) Hn) as (Hn0 & Hnn & Haln).
  pose proof (pow2_pos k Hk0) as Hpk. pose proof (pow2_succ k Hk0) as Hps.
  set (u := Z.lxor n (2 ^ k)).
  (* the pair of [n] and its buddy *)
  set (d := n / 2 ^ (k + 1) * 2 ^ (k + 1)).
  assert (d <= n ∧ d <= u ∧ n + 2 ^ k <= d + 2 ^ (k + 1) ∧ u + 2 ^ k <= d + 2 ^ (k + 1) ∧
    (2 ^ (k + 1) | d) ∧ (2 ^ k | u)) as (Hd1 & Hd2 & Hd3 & Hd4 & Hdal & Hual).
  { destruct (buddy_cases k n Hk0 Haln) as [[Hc Hx]|[Hc Hx]]; fold d in Hc; fold u in Hx.
    - split_and!; [lia..|by apply Z.divide_factor_r|]. rewrite Hx. by apply Z.divide_add_r.
    - split_and!; [lia..|by apply Z.divide_factor_r|]. rewrite Hx. by apply Z.divide_sub_r. }
  assert (in_block order b u) as Hub.
  { destruct (aligned_nested (k + 1) order d b p); try done; unfold in_block in *; lia. }
  destruct (IH ltac:(lia) u Hub) as (o2 & n2 & Ho2 & Hn2 & Hnu).
  destruct (bo_range _ _ Hb o2 n2 ltac:(lia) Hn2) as (? & ? & Hal2). unfold in_block in *.
  destruct (decide (o2 = k)) as [->|].
  - assert (n2 = u) as -> by (eapply (aligned_same_block k); unfold in_block; eauto; lia).
    by apply (bo_merged _ _ Hb k n ltac:(lia) Hn).
  - assert (n2 <= d ∧ d + 2 ^ (k + 1) <= n2 + 2 ^ o2) as [? ?].
    { apply (aligned_nested (k + 1) o2 d n2 u); try done; unfold in_block in *; lia. }
    destruct (bo_disj _ _ Hb k n o2 n2 ltac:(lia) ltac:(lia) Hn Hn2); lia.
Qed.

Lemma run_free_available np fl order : blocks_ok np fl → 0 <= order < NR_FREE_LIST →
  (∃ b, run_free fl order b) ↔ ∃ k, order <= k < NR_FREE_LIST ∧ fl k ≠ [].
Proof.
  intros Hb Ho. split.
  - intros (b & Hr).
    destruct (run_free_blocks np fl order b order Hb Ho Hr ltac:(lia) b) as (o & n & ? & Hn & _).
    { unfold in_block. pose proof (pow2_pos order). lia. }
    exists o. split; [lia|]. by destruct (fl o); [apply elem_of_nil in Hn|].
  - intros (k & Hk & Hne). destruct (fl k) as [|n l] eqn:Hfl; [done|].
    assert (n ∈ fl k) as Hn by (rewrite Hfl; left).
    exists n. destruct (bo_range _ _ Hb k n ltac:(lia) Hn) as (? & ? & ?). split.
    + etrans; [|done]. exists (2 ^ (k - order)). rewrite <-Z.pow_add_r by lia. f_equal. lia.
    + intros p Hp. exists k, n. split_and!; [lia..|done|]. unfold in_block in *.
      pose proof (Z.pow_le_mono_r 2 order k). lia.
Qed.

(** Writing a descriptor's count, the counter or the frames. *)
Lemma buddy_inv_same s s' fl :
  same_links s s' → same_maps (upd_frames (λ _, frames s') (upd_nfree (λ _, nfreepages s') s)) s' →
  buddy_inv s fl → buddy_inv s' fl.
Proof.
  intros Hl Hm [Hc Hb Hbits Hlo]. split.
  - by eapply same_links_chains.
  - rewrite (sm_np _ _ Hm). done.
  - eapply same_maps_bits; [exact Hm|exact Hbits].
  - eapply same_maps_layout; [exact Hm|]. destruct Hlo. by split.
Qed.

Lemma clear_frames_lookup b n fr p :
  clear_frames b n fr !! p =
    if decide (b <= p < b + Z.of_nat n) then Some zero_page else fr !! p.
Proof.
  unfold clear_frames.
  assert (∀ k, foldr (λ i, <[b + Z.of_nat i := zero_page]>) fr (seq k n) !! p =
    if decide (b + Z.of_nat k <= p < b + Z.of_nat k + Z.of_nat n) then Some zero_page else fr !! p)
    as Hk.
  { induction n as [|n IH]; intros k; simpl.
    - rewrite decide_False by lia. done.
    - destruct (decide (p = b + Z.of_nat k)) as [->|Hne].
      + rewrite lookup_insert_eq, decide_True by lia. done.
      + rewrite lookup_insert_ne, IH by done. repeat case_decide; try done; lia. }
  rewrite Hk. repeat case_decide; try done; lia.
Qed.

(** What an allocation of the block [b] does to the state. *)
Record allocated (s s' : mm_state) (fl fl' : freelists) (order b : Z) : Prop := {
  al_inv : buddy_inv s' fl';
  al_range : 0 < b ∧ b + 2 ^ order <= npages s ∧ (2 ^ order | b);
  al_was_free p : in_block order b p → is_free fl p;
  al_free p : is_free fl' p ↔ is_free fl p ∧ ¬ in_block order b p;
  al_count : from_option p_count 0 (zget (mem_map s') b) = 1;
  al_nfree : nfreepages s' = nfreepages s - 2 ^ order;
  al_npages : npages s' = npages s;
  al_frames p : frames s' !! p =
    if decide (b <= p < b + 2 ^ order) then Some zero_page else frames s !! p;
}.

(** The tail of [get_free_pages], once a block of order [k] is unlinked. *)
Lemma take_block s fl k n l order :
  buddy_inv s fl → 0 <= order <= k → k < NR_FREE_LIST → fl k = n :: l →
  let s1 := set_nxt (PArea k) (nxt s (PPage n)) s in
  let s2 := set_prv (nxt s1 (PPage n)) (PArea k) s1 in
  let s3 := toggle k (Z.shiftr n (k + 1)) s2 in
  let r := split_block 10 order k (Z.shiftl 1 k) n s3 in
  let s4 := upd_page r.2 (λ g, Page (p_prev g) (p_next g) (p_flags g) 1) r.1 in
  let s5 := upd_nfree (λ n, n - Z.shiftl 1 order) s4 in
  ∃ fl', allocated s (upd_frames (clear_frames r.2 (Z.to_nat (Z.shiftl 1 order))) s5) fl fl' order r.2.
Proof.
  intros Hi Ho Hk Hfl s1 s2 s3 r s4 s5. pose proof (pow2_pos order) as Hp.
  destruct (pop_front_inv s fl k n l) as (Hi3 & Hsa & Hh); [done|lia|done|].
  fold s1 in Hi3, Hsa. fold s2 in Hi3, Hsa. fold s3 in Hi3, Hsa.
  pose proof (sa_np _ _ Hsa) as Hnp. rewrite <-Hnp in Hh.
  destruct (split_block_inv 10 order k n s3 _ Hi3 Ho Hk Hh) as
    (s' & b & fl' & Hr & Hi' & Hsa' & Hh' & Hlo & Hhi & Hfr); [unfold NR_FREE_LIST in *; lia|].
  rewrite <-Z.shiftl_1_l in Hr at 1. fold r in Hr. rewrite Hr in *. subst s5 s4.
  rewrite !Hr. simpl. exists fl'. destruct Hh' as (Hb0 & Hbn & Hbal & Hbd).
  rewrite Z.shiftl_1_l.
  assert (∀ p, is_free fl p ↔ in_block k n p ∨ is_free (<[k:=l]> fl) p) as Hfl1.
  { intros p. apply (is_free_remove fl k [] n l p); [lia|done]. }
  pose proof (sa_np _ _ Hsa') as Hnp'.
  split.
  - eapply buddy_inv_same; [| |exact Hi'].
    + by apply (same_links_upd_page b (λ g, Page (p_prev g) (p_next g) (p_flags g) 1) s').
    + split; simpl; try done. unfold npages. simpl. apply zlen_zalter.
  - split_and!; [done|lia|done].
  - intros p Hb. apply Hfl1. left. unfold in_block in *. lia.
  - intros p. rewrite Hfr, Hfl1. split.
    + intros [?|?]; [|split; [left|]; tauto]. split; [by right|]. intros Hpb.
      eapply (hole_not_free _ _ k n p); [exact Hh| |done]. unfold in_block in *. lia.
    + intros [[?|?] ?]; auto.
  - simpl. rewrite zget_zalter, decide_True by done.
    destruct (zget (mem_map s') b) eqn:Hg; [done|]. apply zget_None in Hg.
    unfold npages in *. lia.
  - simpl. rewrite (sa_nfree _ _ Hsa'), (sa_nfree _ _ Hsa). lia.
  - unfold npages. simpl. rewrite zlen_zalter. unfold npages in *. congruence.
  - intros p. simpl. rewrite clear_frames_lookup, Z2Nat.id by lia.
    by rewrite (sa_frames _ _ Hsa'), (sa_frames _ _ Hsa).
Qed.

Lemma get_free_pages_eq attr order s fl :
  buddy_inv s fl → 0 <= order < NR_FREE_LIST →
  (∃ b, run_free fl order b) →
  ∃ b s' fl', get_free_pages attr order s = Ret (b * PAGE_SIZE) s' ∧
    allocated s s' fl fl' order b.
Proof.
  intros Hi Ho Hr. pose proof Hi as [Hc Hb _ Hlo].
  apply (run_free_available _ _ _ Hb Ho) in Hr as (k' & Hk' & Hne').
  destruct (first_nonempty fl order (Z.to_nat (NR_FREE_LIST - order))) as [(k & Hk & Hne & Hj)|Hall].
  2: { exfalso. apply Hne', Hall. lia. }
  destruct (fl k) as [|n l] eqn:Hfl; [done|].
  destruct (take_block s fl k n l order) as (fl' & Hal); [done|lia|lia|done|].
  unfold get_free_pages, die_if. rewrite (proj2 (Z.leb_gt _ _)) by lia. mstep.
  erewrite (search_area_found 10 s fl order k n l); try done; try lia.
  2: { unfold NR_FREE_LIST in *; lia. }
  cbn [fst snd]. rewrite (proj2 (Z.eqb_neq k NR_FREE_LIST)) by lia. mstep.
  unfold page_nr. mstep. eexists _, _, fl'. split; [|exact Hal].
  unfold mret, M_ret. f_equal. destruct (al_range _ _ _ _ _ _ Hal) as (? & ? & _).
  pose proof (lo_npages _ Hlo). pose proof (pow2_pos order).
  rewrite u32_small; unfold PAGE_SHIFT; rewrite Z.shiftl_mul_pow2 by lia; [done|lia].
Qed.

(** ** Freeing *)

Lemma pow2_le32 o : 0 <= o < NR_FREE_LIST → 2 ^ (o + 1) <= 1024.
Proof. unfold NR_FREE_LIST. intros. apply (Z.pow_le_mono_r 2 (o + 1) 10); lia. Qed.

Lemma mask_of_init o : 0 <= o < NR_FREE_LIST → u32 (Z.lnot (Z.shiftl 1 o - 1)) = mask_of o.
Proof.
  intros Ho. rewrite Z.shiftl_1_l. unfold Z.lnot, mask_of, u32. unfold Z.pred.
  pose proof (pow2_le32 o Ho). rewrite pow2_succ in * by lia. pose proof (pow2_pos o ltac:(lia)).
  rewrite <-(Z.mod_small (2 ^ 32 - 2 ^ o) (2 ^ 32)) by lia.
  replace (- (2 ^ o - 1) + -1) with (2 ^ 32 - 2 ^ o + (-1) * 2 ^ 32) by lia. apply Z_mod_plus_full.
Qed.
Lemma mask_of_neg o : 0 <= o < NR_FREE_LIST → u32 (- mask_of o) = 2 ^ o.
Proof.
  intros Ho. unfold mask_of, u32. pose proof (pow2_le32 o Ho). rewrite pow2_succ in * by lia.
  pose proof (pow2_pos o ltac:(lia)).
  replace (- (2 ^ 32 - 2 ^ o)) with (2 ^ o + (-1) * 2 ^ 32) by lia. rewrite Z_mod_plus_full.
  apply Z.mod_small. lia.
Qed.
Lemma mask_of_shift o : 0 <= o < NR_FREE_LIST → u32 (Z.shiftl (mask_of o) 1) = mask_of (o + 1).
Proof.
  intros Ho. unfold mask_of, u32. rewrite Z.shiftl_mul_pow2 by lia.
  pose proof (pow2_le32 o Ho). pose proof (pow2_pos o ltac:(lia)). rewrite pow2_succ in * by lia.
  replace ((2 ^ 32 - 2 ^ o) * 2 ^ 1) with (2 ^ 32 - 2 * 2 ^ o + 1 * 2 ^ 32) by lia.
  rewrite Z_mod_plus_full. apply Z.mod_small. lia.
Qed.
(** The loop condition [mask + (1 << (NR_FREE_LIST - 1))] fails at the last order. *)
Lemma mask_of_cond o : 0 <= o < NR_FREE_LIST →
  truth (u32 (mask_of o + Z.shiftl 1 (NR_FREE_LIST - 1))) = (o <? NR_FREE_LIST - 1).
Proof.
  intros Ho. unfold mask_of, u32. change (Z.shiftl 1 (NR_FREE_LIST - 1)) with (2 ^ 9).
  change (NR_FREE_LIST - 1) with 9. unfold NR_FREE_LIST in Ho.
  pose proof (pow2_pos o ltac:(lia)).
  replace (2 ^ 32 - 2 ^ o + 2 ^ 9) with (2 ^ 9 - 2 ^ o + 1 * 2 ^ 32) by lia. rewrite Z_mod_plus_full.
  destruct (Z.ltb_spec o 9).
  - apply truth_true. pose proof (Z.pow_lt_mono_r 2 o 9). rewrite Z.mod_small; lia.
  - assert (o = 9) as -> by lia. done.
Qed.

(** A block and its free buddy make a hole of the next order. *)
Lemma hole_merge np fl o n l1 l2 :
  blocks_ok np fl → NoDup (fl o) → 0 <= o < NR_FREE_LIST - 1 → np <= 2 ^ 32 →
  hole np fl o n → fl o = l1 ++ Z.lxor n (2 ^ o) :: l2 →
  let n' := Z.land n (mask_of (o + 1)) in
  hole np (<[o := l1 ++ l2]> fl) (o + 1) n' ∧ n' = n / 2 ^ (o + 1) * 2 ^ (o + 1) ∧
  ∀ p, in_block (o + 1) n' p ↔ in_block o n p ∨ in_block o (Z.lxor n (2 ^ o)) p.
Proof.
  intros Hb Hnd Ho Hnp Hh Hfl n'. unfold NR_FREE_LIST in *.
  pose proof (hole_range np fl o n ltac:(lia) Hh) as Hr.
  pose proof (hole_remove np fl o l1 _ l2 Hb ltac:(unfold NR_FREE_LIST; lia) Hnd Hfl) as Hh2.
  assert (n' = n / 2 ^ (o + 1) * 2 ^ (o + 1)) as Hn' by (apply land_mask; lia).
  pose proof (pow2_pos o ltac:(lia)). pose proof (pow2_succ o ltac:(lia)) as Hs.
  destruct Hh as (Hp & Hmax & Hal & Hd), Hh2 as (Hp2 & Hmax2 & _ & Hd2).
  assert (∀ o' m, 0 <= o' < 10 → m ∈ (<[o:=l1 ++ l2]> fl) o' → m ∈ fl o') as Hel.
  { intros o' m _. destruct (decide (o' = o)) as [->|].
    - rewrite fn_lookup_insert, Hfl. set_solver.
    - by rewrite fn_lookup_insert_ne. }
  destruct (buddy_cases o n ltac:(lia) Hal) as [[Hc Hx]|[Hc Hx]]; rewrite Hx in *.
  all: split_and!; [split_and!|done|]; rewrite ?Hn'; [lia|lia|apply Z.divide_factor_r| |].
  all: try (intros p; unfold in_block; lia).
  all: intros o' m Ho' Hm; pose proof (pow2_pos o' ltac:(lia));
    destruct (Hd o' m Ho' (Hel _ _ Ho' Hm)), (Hd2 o' m Ho' Hm); try lia.
Qed.

(** The bit of a pair, seen from one half that is not free. *)
Lemma pair_bit_half fl o n : 0 <= o → (2 ^ o | n) → n ∉ fl o →
  pair_bit fl o (Z.shiftr n (o + 1)) = bool_decide (Z.lxor n (2 ^ o) ∈ fl o).
Proof.
  intros Ho Hal Hn. unfold pair_bit. rewrite Z.shiftr_div_pow2 by lia.
  destruct (buddy_cases o n Ho Hal) as [[Hc Hx]|[Hc Hx]]; rewrite <-Hc.
  - rewrite (bool_decide_false (n ∈ fl o)) by done. by rewrite Hx, xorb_false_l.
  - rewrite (bool_decide_false (n ∈ fl o)) by done. rewrite xorb_false_r, Hx.
    by replace (n - 2 ^ o) with (n / 2 ^ (o + 1) * 2 ^ (o + 1)) by lia.
Qed.

(** One turn of the merging loop, where the toggle leaves the bit set: the
    buddy is not free. *)
Lemma merge_stop s fl o n :
  buddy_inv s fl → 0 <= o < NR_FREE_LIST - 1 → hole (npages s) fl o n →
  let s1 := toggle o (Z.shiftr n (o + 1)) s in
  map_bit s1 o (Z.shiftr n (o + 1)) = negb (bool_decide (Z.lxor n (2 ^ o) ∈ fl o)) ∧
  bits_ok s1 (<[o := n :: fl o]> fl).
Proof.
  intros [Hc Hb Hbits Hlo] Ho Hh s1. unfold NR_FREE_LIST in *.
  pose proof (hole_range (npages s) fl o n ltac:(lia) Hh) as Hr.
  pose proof (hole_notin (npages s) fl o n o ltac:(lia) Hh ltac:(unfold NR_FREE_LIST; lia)) as Hn.
  assert (valid_index (npages s) o (Z.shiftr n (o + 1))) as Hv
    by (apply valid_index_block; unfold NR_FREE_LIST; lia).
  destruct Hh as (_ & _ & Hal & _). split.
  - subst s1. rewrite map_bit_toggle, decide_True by done. f_equal.
    rewrite Hbits; [|done|unfold NR_FREE_LIST; lia]. apply pair_bit_half; [lia|done..].
  - eapply bits_toggle; [done|done|unfold NR_FREE_LIST; lia|done|done|..].
    + intros o' Hne. by rewrite fn_lookup_insert_ne.
    + intros m Hm. rewrite fn_lookup_insert. set_solver.
    + rewrite fn_lookup_insert. set_solver.
Qed.

(** The same turn where the bit is clear: the buddy leaves its list. *)
Lemma merge_go s fl o n :
  buddy_inv s fl → 0 <= o < NR_FREE_LIST - 1 → hole (npages s) fl o n →
  Z.lxor n (2 ^ o) ∈ fl o →
  let s1 := toggle o (Z.shiftr n (o + 1)) s in
  let buddy := PPage (Z.lxor n (2 ^ o)) in
  let s2 := set_nxt (prv s1 buddy) (nxt s1 buddy) s1 in
  let s3 := inc_area_count o (-1) (set_prv (nxt s1 buddy) (prv s1 buddy) s2) in
  let n' := Z.land n (mask_of (o + 1)) in
  ∃ fl', buddy_inv s3 fl' ∧ same_aux s s3 ∧ hole (npages s) fl' (o + 1) n' ∧
    Z.shiftr n' (o + 1 + 1) = Z.shiftr (Z.shiftr n (o + 1)) 1 ∧
    ∀ p, in_block (o + 1) n' p ∨ is_free fl' p ↔ in_block o n p ∨ is_free fl p.
Proof.
  intros Hi Ho Hh Hin s1 buddy s2 s3 n'. pose proof Hi as [Hc Hb Hbits Hlo].
  assert (0 <= o < NR_FREE_LIST) as Ho' by lia.
  assert (NoDup (fl o)) as Hnd.
  { apply (NoDup_fmap_1 PPage). eapply is_list_NoDup. by apply Hc. }
  pose proof (lo_npages _ Hlo) as Hnp20.
  apply list_elem_of_split in Hin as (l1 & l2 & Hfl).
  destruct (hole_merge _ _ _ _ _ _ Hb Hnd Ho ltac:(lia) Hh Hfl) as (Hh' & Hn' & Hblk).
  fold n' in Hh', Hn', Hblk.
  assert (chains s1 fl) as Hc1 by (eapply same_links_chains; [apply same_links_toggle|done]).
  destruct (unlink_chains s1 (npages s) fl o l1 _ l2 Hc1 Hb Ho' Hfl) as (_ & _ & _ & Hc3).
  assert (same_maps s1 s3) as Hsm.
  { etrans; [apply same_maps_set_nxt|]. etrans; [apply same_maps_set_prv|apply same_maps_count]. }
  pose proof (hole_range (npages s) fl o n ltac:(lia) Hh) as Hr. destruct Hh as (Hh1 & Hh2 & Hal & Hd).
  pose proof (hole_remove _ _ _ _ _ _ Hb Ho' Hnd Hfl) as (Hu1 & Hu2 & Hual & _).
  exists (<[o := l1 ++ l2]> fl). split_and!; [split|..|done| |].
  - eapply same_links_chains; [by apply same_links_upd_area|]. exact Hc3.
  - rewrite (sm_np _ _ Hsm). by eapply blocks_remove.
  - eapply same_maps_bits; [done|]. subst s1.
    assert (Z.shiftr n (o + 1) = Z.shiftr (Z.lxor n (2 ^ o)) (o + 1)) as ->.
    { pose proof (pow2_pos o). pose proof (pow2_succ o).
      rewrite Z.shiftr_lxor, (Z.shiftr_div_pow2 (2 ^ o)), Z.div_small, Z.lxor_0_r by lia. done. }
    eapply bits_toggle; [done|done|done| |done|..].
    + pose proof (pow2_pos o). lia.
    + intros o2 Hne. by rewrite fn_lookup_insert_ne.
    + intros m Hm. rewrite fn_lookup_insert, Hfl. set_solver.
    + rewrite fn_lookup_insert, Hfl. rewrite Hfl, <-Permutation_middle in Hnd.
      apply NoDup_cons in Hnd as [? _]. set_solver.
  - eapply same_maps_layout; [done|]. by apply layout_toggle.
  - etrans; [apply same_aux_toggle|]. by apply same_maps_aux.
  - rewrite Hn', !Z.shiftr_div_pow2 by lia. rewrite (pow2_succ (o + 1)), (Z.mul_comm 2) by lia.
    pose proof (pow2_pos (o + 1)). rewrite <-Z.div_div by lia. rewrite Z.div_mul by lia. done.
  - intros p. rewrite (is_free_remove fl o l1 _ l2 p Ho' Hfl), Hblk. tauto.
Qed.

Lemma merge_loop_inv fuel s fl o n :
  buddy_inv s fl → 0 <= o < NR_FREE_LIST → hole (npages s) fl o n →
  NR_FREE_LIST - 1 - o < Z.of_nat fuel →
  ∃ s' o' n' fl', merge_loop fuel o (mask_of o) n (Z.shiftr n (o + 1)) s = (s', o', n') ∧
    o <= o' < NR_FREE_LIST ∧ hole (npages s') fl' o' n' ∧
    (o' < NR_FREE_LIST - 1 → Z.lxor n' (2 ^ o') ∉ fl' o') ∧
    chains s' fl' ∧ blocks_ok (npages s') fl' ∧ layout_ok s' ∧
    bits_ok s' (<[o' := n' :: fl' o']> fl') ∧ same_aux s s' ∧
    ∀ p, in_block o' n' p ∨ is_free fl' p ↔ in_block o n p ∨ is_free fl p.
Proof.
  revert s fl o n. induction fuel as [|fuel IH]; intros s fl o n Hi Ho Hh Hf; [lia|].
  cbn [merge_loop]. rewrite mask_of_cond by done. pose proof Hi as [Hc Hb Hbits Hlo].
  destruct (Z.ltb_spec o (NR_FREE_LIST - 1)) as [Ho9|Ho9].
  2: { exists s, o, n, fl. split_and!; try done; try lia.
       intros o' i Hv Hlt. rewrite (Hbits o' i Hv Hlt). unfold pair_bit.
       rewrite fn_lookup_insert_ne by lia. done. }
  destruct (merge_stop s fl o n Hi ltac:(lia) Hh) as [Hbit Hb1]. rewrite Hbit.
  destruct (bool_decide_reflect (Z.lxor n (2 ^ o) ∈ fl o)) as [Hin|Hout]; cbn [negb].
  - rewrite mask_of_neg, mask_of_shift by done.
    destruct (merge_go s fl o n Hi ltac:(lia) Hh Hin) as (fl' & Hi' & Hsa & Hh' & Hidx & Hfr).
    rewrite <-Hidx. pose proof (sa_np _ _ Hsa) as Hnp.
    destruct (IH _ fl' (o + 1) _ Hi' ltac:(lia) ltac:(by rewrite Hnp) ltac:(lia))
      as (s' & o' & n' & fl2 & Heq & Ho' & Hrest).
    destruct_and! Hrest. exists s', o', n', fl2. split_and!; try done; try lia.
    + by etrans.
    + intros p. etrans; [|apply Hfr]. auto.
  - exists (toggle o (Z.shiftr n (o + 1)) s), o, n, fl. split_and!; try done; try lia.
    + eapply same_links_chains; [apply same_links_toggle|done].
    + by apply layout_toggle.
Qed.

(** What freeing the block [b] does to the state. *)
Record freed (s s' : mm_state) (fl fl' : freelists) (order b : Z) : Prop := {
  fr_inv : buddy_inv s' fl';
  fr_free p : is_free fl' p ↔ is_free fl p ∨ in_block order b p;
  fr_nfree : nfreepages s' = nfreepages s + 2 ^ order;
  fr_frames : frames s' = frames s;
  fr_npages : npages s' = npages s;
}.

Lemma free_pages_freed s fl order b addr :
  buddy_inv s fl → 0 <= order < NR_FREE_LIST → 0 <= addr < 2 ^ 32 →
  b = addr / PAGE_SIZE / 2 ^ order * 2 ^ order → hole (npages s) fl order b →
  ∃ fl', freed s (__free_pages addr order s) fl fl' order b.
Proof.
  intros Hi Ho Haddr Hb Hh. unfold __free_pages. rewrite mask_of_init by done.
  assert (Z.land (Z.shiftr addr PAGE_SHIFT) (mask_of order) = b) as ->.
  { unfold PAGE_SHIFT, PAGE_SIZE, NR_FREE_LIST in *. rewrite Z.shiftr_div_pow2 by lia.
    change (2 ^ 12) with 4096. rewrite land_mask; [done|lia|].
    pose proof (Z.div_pos addr 4096). pose proof (Z.div_le_upper_bound addr 4096 (2 ^ 20)). lia. }
  destruct (merge_loop_inv 10 s fl order b Hi Ho Hh) as
    (s' & o' & n' & fl' & -> & Ho' & Hh' & Hbud & Hc & Hbl & Hlo & Hbits & Hsa & Hfr);
    [unfold NR_FREE_LIST in *; lia|].
  cbn [fst snd]. rewrite insert_block_eq, Z.shiftl_1_l.
  destruct (push_front_inv s' fl' o' n') as (Hc2 & Hb2 & Hlo2 & Hsm); [done..|lia|done|done|].
  exists (<[o' := n' :: fl' o']> fl'). split.
  - apply (buddy_inv_same (inc_area_count o' 1 (push_front o' n' s'))).
    + by apply same_links_eq.
    + by split.
    + split; [done..| |done]. by eapply same_maps_bits.
  - intros p. rewrite is_free_insert by lia. rewrite Hfr. tauto.
  - simpl. change (nfreepages (push_front o' n' s')) with (nfreepages s').
    rewrite <-(sa_nfree _ _ Hsa). pose proof (sm_nfree _ _ Hsm) as Hn. simpl in Hn. lia.
  - simpl. rewrite <-(sa_frames _ _ Hsa). apply (sm_frames _ _ Hsm).
  - rewrite <-(sa_np _ _ Hsa). apply (sm_np _ _ Hsm).
Qed.

(** A hole is a range of pages none of which is free. *)
Lemma hole_intro np fl order b :
  0 <= order → 0 < b → b + 2 ^ order <= np → (2 ^ order | b) →
  (∀ p, in_block order b p → ¬ is_free fl p) → hole np fl order b.
Proof.
  intros Ho Hb Hnp Hal Hnf. split_and!; [done..|].
  intros o m Ho' Hm. pose proof (pow2_pos o ltac:(lia)). pose proof (pow2_pos order Ho).
  destruct (decide (b + 2 ^ order <= m)); [by left|]. destruct (decide (m + 2 ^ o <= b)); [by right|].
  exfalso. apply (Hnf (Z.max b m)); [unfold in_block; lia|].
  exists o, m. split_and!; [lia..|done|]. unfold in_block. lia.
Qed.

Lemma free_pages_block s fl order b :
  buddy_inv s fl → 0 <= order < NR_FREE_LIST → hole (npages s) fl order b →
  ∃ fl', freed s (__free_pages (b * PAGE_SIZE) order s) fl fl' order b.
Proof.
  intros Hi Ho Hh. pose proof (lo_npages _ (bi_layout _ _ Hi)). pose proof (pow2_pos order ltac:(lia)).
  pose proof Hh as (Hb & Hbn & Hdiv & _).
  apply free_pages_freed; [done|done|unfold PAGE_SIZE; lia| |done].
  unfold PAGE_SIZE. rewrite Z.div_mul by lia. destruct Hdiv as [q ->]. rewrite Z.div_mul by lia. done.
Qed.

Lemma is_free_range s fl p : buddy_inv s fl → is_free fl p → 0 < p < npages s.
Proof.
  intros Hi (o & n & Ho & Hn & Hp). destruct (bo_range _ _ (bi_blocks _ _ Hi) o n Ho Hn) as (? & ? & _).
  unfold in_block in Hp. lia.
Qed.

(** ** The instance of the interface *)

#[export] Instance buddy_alloc : PageAlloc mm_state := {
  get_pages := get_free_pages;
  release_pages := __free_pages;
  put_page := free_one_page;
  pages_inv s F := ∃ fl, buddy_inv s fl ∧ ∀ p, F p ↔ is_free fl p;
  pages_total := npages;
}.

Lemma get_free_pages_none attr order s fl :
  buddy_inv s fl → 0 <= order < NR_FREE_LIST →
  (∀ b, ¬ run_free fl order b) →
  get_free_pages attr order s =
    if truth (Z.land attr PageWait) then Sleep s else Ret 0 s.
Proof.
  intros Hi Ho Hr. pose proof Hi as [Hc Hb _ _].
  assert (∀ j, order <= j < NR_FREE_LIST → fl j = []) as He.
  { intros j Hj. destruct (decide (fl j = [])) as [|Hne]; [done|]. exfalso.
    destruct (proj2 (run_free_available _ _ _ Hb Ho)) as [b Hrun]; [by exists j|]. by apply (Hr b). }
  unfold get_free_pages, die_if. rewrite (proj2 (Z.leb_gt _ _)) by lia. mstep.
  erewrite (search_area_none 10 s fl order); try done; try (unfold NR_FREE_LIST; lia).
  rewrite Z.eqb_refl. by destruct (truth _).
Qed.

Lemma run_free_dec s fl order : buddy_inv s fl → 0 <= order < NR_FREE_LIST →
  (∃ b, run_free fl order b) ∨ (∀ b, ¬ run_free fl order b).
Proof.
  intros Hi Ho. pose proof (run_free_available _ fl order (bi_blocks _ _ Hi) Ho) as Hav.
  destruct (first_nonempty fl order (Z.to_nat (NR_FREE_LIST - order))) as [(k & Hk & Hne & _)|Hall].
  - left. apply Hav. exists k. split; [lia|done].
  - right. intros b Hb. destruct (proj1 Hav) as (k & Hk & Hne); [by exists b|].
    apply Hne, Hall. lia.
Qed.

#[export] Instance buddy_alloc_laws : PageAllocLaws mm_state.
Proof.
  split.
  - intros s F (fl & Hi & _). apply (lo_npages _ (bi_layout _ _ Hi)).
  - intros s F p (fl & Hi & HF) Hp%HF. by eapply is_free_range.
  - intros attr order s F (fl & Hi & HF) Ho. simpl.
    destruct (run_free_dec s fl order Hi Ho) as [Hr|Hr].
    + left. destruct (get_free_pages_eq attr order s fl Hi Ho Hr) as (b & s' & fl' & Heq & []).
      exists b, s', (is_free fl'). destruct_and! al_range0. split_and!; try done.
      * by exists fl'.
      * intros p Hp. apply HF. auto.
      * intros p. rewrite al_free0, HF. done.
    + right. rewrite (get_free_pages_none attr order s fl Hi Ho Hr). destruct (truth _); auto.
  - intros b order s F (fl & Hi & HF) Ho Hb Hbn Hal Hnf. simpl in *.
    assert (hole (npages s) fl order b) as Hh.
    { apply hole_intro; try done; try lia. intros p Hp. rewrite <-HF. auto. }
    destruct (free_pages_block s fl order b Hi Ho Hh) as (fl' & []).
    exists (is_free fl'). split_and!; [by exists fl'|done|].
    intros p. rewrite fr_free0, HF. done.
Qed.

(** ** Reference counts: [free_one_page] *)

Definition count_of (s : mm_state) (n : Z) : Z := from_option p_count 0 (zget (mem_map s) n).
Definition reserved (s : mm_state) (n : Z) : bool :=
  from_option (λ g, truth (Z.land (p_flags g) (Z.shiftl 1 PageReserved))) false (zget (mem_map s) n).

(** The decrement of [free_one_page]. *)
Definition drop_ref (n : Z) : mm_state → mm_state :=
  upd_page n (λ g, Page (p_prev g) (p_next g) (p_flags g) (p_count g - 1)).

Lemma buddy_inv_drop_ref s fl n : buddy_inv s fl → buddy_inv (drop_ref n s) fl.
Proof.
  intros Hi. eapply buddy_inv_same; [by apply same_links_upd_page| |done].
  split; try done. unfold npages. simpl. apply zlen_zalter.
Qed.

Lemma free_one_page_eq s n :
  free_one_page (n * PAGE_SIZE) s =
    if count_of s n <=? 0 then Die
    else if reserved s n then Ret tt s
    else if count_of s n =? 1 then Ret tt (__free_pages (n * PAGE_SIZE) 0 (drop_ref n s))
    else Ret tt (drop_ref n s).
Proof.
  unfold free_one_page, count_of, reserved.
  assert (Z.shiftr (n * PAGE_SIZE) PAGE_SHIFT = n) as ->.
  { unfold PAGE_SIZE, PAGE_SHIFT. rewrite Z.shiftr_div_pow2 by lia. apply Z.div_mul. lia. }
  mstep. destruct (zget (mem_map s) n) as [g|]; [|done]. simpl. unfold from_opt. mstep.
  unfold die_if. destruct (_ <=? _); [done|]. mstep. destruct (truth _); [done|]. mstep.
  replace (p_count g - 1 =? 0) with (p_count g =? 1) by lia. by destruct (_ =? _).
Qed.

Lemma drop_ref_freed s fl n : buddy_inv s fl → 0 < n < npages s → ¬ is_free fl n →
  ∃ fl', freed (drop_ref n s) (__free_pages (n * PAGE_SIZE) 0 (drop_ref n s)) fl fl' 0 n.
Proof.
  intros Hi Hn Hf. apply free_pages_block; [by apply buddy_inv_drop_ref|done|].
  unfold npages. simpl. rewrite zlen_zalter. apply hole_intro; try done; unfold npages in Hn; try lia.
  - apply Z.divide_1_l.
  - intros p Hp. unfold in_block in Hp. by replace p with n by lia.
Qed.

(** Counts and flags move only in the descriptor written. *)
Definition same_counts (s s' : mm_state) : Prop :=
  ∀ n, (p_flags <$> zget (mem_map s') n) = (p_flags <$> zget (mem_map s) n) ∧
    (p_count <$> zget (mem_map s') n) = (p_count <$> zget (mem_map s) n).
#[export] Instance same_counts_preorder : PreOrder same_counts.
Proof.
  split.
  - intros s n. done.
  - intros s1 s2 s3 H12 H23 n. destruct (H12 n), (H23 n). split; congruence.
Qed.
Lemma same_counts_set_nxt p v s : same_counts s (set_nxt p v s).
Proof.
  intros n. destruct p as [|o|m]; simpl; try done. rewrite zget_zalter.
  case_decide; [|done]. by destruct (zget _ n).
Qed.
Lemma same_counts_set_prv p v s : same_counts s (set_prv p v s).
Proof.
  intros n. destruct p as [|o|m]; simpl; try done. rewrite zget_zalter.
  case_decide; [|done]. by destruct (zget _ n).
Qed.
Lemma same_counts_count o d s : same_counts s (inc_area_count o d s).
Proof. done. Qed.
Lemma same_counts_toggle o i s : same_counts s (toggle o i s).
Proof. done. Qed.

Lemma same_counts_merge fuel o mask n i s :
  same_counts s (merge_loop fuel o mask n i s).1.1.
Proof.
  revert o mask n i s. induction fuel as [|fuel IH]; intros o mask n i s; cbn [merge_loop]; [done|].
  destruct (truth _); [|done]. destruct (map_bit _ _ _); [done|]. etrans; [|apply IH].
  etrans; [|simple apply same_counts_count]. etrans; [|simple apply same_counts_set_prv].
  etrans; [|simple apply same_counts_set_nxt]. simple apply same_counts_toggle.
Qed.
Lemma same_counts_insert o n s : same_counts s (insert_block o n s).
Proof.
  unfold insert_block. cbv zeta.
  etrans; [|simple apply same_counts_count]. etrans; [|simple apply same_counts_set_nxt].
  etrans; [|simple apply same_counts_set_prv]. etrans; [|simple apply same_counts_set_prv].
  simple apply same_counts_set_nxt.
Qed.
Lemma same_counts_nfree f s : same_counts s (upd_nfree f s).
Proof. done. Qed.
Lemma same_counts_free addr order s : same_counts s (__free_pages addr order s).
Proof.
  unfold __free_pages. cbv zeta. etrans; [|simple apply same_counts_nfree].
  etrans; [|simple apply same_counts_insert]. simple apply same_counts_merge.
Qed.

Lemma same_counts_count_of s s' : same_counts s s' → ∀ m, count_of s' m = count_of s m.
Proof.
  intros Hs m. unfold count_of. destruct (Hs m) as [_ Hm].
  destruct (zget (mem_map s') m), (zget (mem_map s) m); by simplify_eq/=.
Qed.

#[local] Opaque __free_pages.

(** ** The theorems of the page allocator *)

(** C1. Allocation succeeds whenever the set of free pages contains an aligned
    run of [2^order] pages: [get_free_pages] returns the address of such a run
    [b], which is inside memory and was free; exactly the pages of the run stop
    being free, the reference count of the block is one, its frames are zeroed
    and all others untouched, [nfreepages] drops by [2^order], and the
    allocator's invariant holds again. *)
Theorem get_free_pages_takes attr order s fl :
  buddy_inv s fl → 0 <= order < NR_FREE_LIST →
  (∃ b, run_free fl order b) →
  ∃ b s' fl', get_free_pages attr order s = Ret (b * PAGE_SIZE) s' ∧
    allocated s s' fl fl' order b.
Proof. apply get_free_pages_eq. Qed.


(** C2. Freeing a block none of whose pages is free adds exactly its pages to
    the free set, whatever buddies it is merged with on the way up; the
    invariant (linked lists, disjoint aligned blocks, no two free buddies left
    unmerged, one bit per pair) holds again. *)
Theorem free_pages_merges s fl order b :
  buddy_inv s fl → 0 <= order < NR_FREE_LIST → 0 < b → b + 2 ^ order <= npages s →
  (2 ^ order | b) → (∀ p, in_block order b p → ¬ is_free fl p) →
  ∃ fl', freed s (__free_pages (b * PAGE_SIZE) order s) fl fl' order b.
Proof.
  intros Hi Ho Hb Hnp Hal Hnf. apply free_pages_block; [done..|]. apply hole_intro; try done. lia.
Qed.

(** C10. A block that is allocated and freed again leaves the same set of free
    pages and the same [nfreepages], for every order. *)
Theorem alloc_free_roundtrip attr order s fl :
  buddy_inv s fl → 0 <= order < NR_FREE_LIST → (∃ b, run_free fl order b) →
  ∃ addr s' fl'', get_free_pages attr order s = Ret addr s' ∧
    buddy_inv (__free_pages addr order s') fl'' ∧
    (∀ p, is_free fl'' p ↔ is_free fl p) ∧
    nfreepages (__free_pages addr order s') = nfreepages s.
Proof.
  intros Hi Ho Hr. destruct (get_free_pages_eq attr order s fl Hi Ho Hr) as (b & s' & fl' & Heq & Hal).
  assert (hole (npages s') fl' order b) as Hh.
  { rewrite (al_npages _ _ _ _ _ _ Hal). destruct (al_range _ _ _ _ _ _ Hal) as (? & ? & ?).
    apply hole_intro; try done; try lia. intros p Hp. rewrite (al_free _ _ _ _ _ _ Hal). tauto. }
  destruct (free_pages_block s' fl' order b (al_inv _ _ _ _ _ _ Hal) Ho Hh) as (fl2 & []).
  exists (b * PAGE_SIZE), s', fl2. split_and!; [done..| |].
  - intros p. rewrite fr_free0, (al_free _ _ _ _ _ _ Hal). split; [intros [[? _]|?]; [done|]|].
    + by apply (al_was_free _ _ _ _ _ _ Hal).
    + intros Hp. destruct (decide (b <= p < b + 2 ^ order)); [by right|by left].
  - rewrite fr_nfree0, (al_nfree _ _ _ _ _ _ Hal). lia.
Qed.


(** ** A small memory

    Four pages, the last two free as one block of order 1. *)
Definition demo_mm : mm_state :=
  MM [Page PNull PNull 6 0; Page PNull PNull 0 1; Page (PArea 1) (PArea 1) 0 0; Page PNull PNull 0 0]
    (imap (λ o _, if decide (o = 1%nat) then Area (PPage 2) (PPage 2) 1 1
                  else Area (PArea (Z.of_nat o)) (PArea (Z.of_nat o)) (Z.of_nat o) 0) (replicate 10 tt))
    [0; 1; 0; 0; 0; 0; 0; 0; 0; 0] ∅ 2.
Definition demo_fl : freelists := λ o, if decide (o = 1) then [2] else [].

Ltac order_cases o :=
  let H := fresh in
  assert (o = 0 ∨ o = 1 ∨ o = 2 ∨ o = 3 ∨ o = 4 ∨ o = 5 ∨ o = 6 ∨ o = 7 ∨ o = 8 ∨ o = 9) as H
    by (unfold NR_FREE_LIST in *; lia);
  destruct H as [->|[->|[->|[->|[->|[->|[->|[->|[->| ->]]]]]]]]].

Lemma demo_fl_elem o n : n ∈ demo_fl o ↔ o = 1 ∧ n = 2.
Proof. unfold demo_fl. case_decide; set_solver. Qed.

Lemma demo_inv : buddy_inv demo_mm demo_fl.
Proof.
  split.
  - intros o Ho. order_cases o; (split; [|split]);
      try (vm_compute; intuition congruence).
    all: try (repeat constructor; set_solver); vm_compute; repeat constructor.
  - change (npages demo_mm) with 4. split; intros *; rewrite ?demo_fl_elem.
    + intros _ [-> ->]. split_and!; [lia..|]. by exists 1.
    + intros _ _ [-> ->] [-> ->]. by left.
    + by intros _ [-> ->] [_ Hx].
  - intros o i (Ho & Hi & Hlt) _. change (npages demo_mm) with 4 in Hlt.
    order_cases o; [assert (i = 0 ∨ i = 1) as [->| ->] by lia|assert (i = 0) as -> by lia..]; done.
  - split.
    + done.
    + done.
    + intros o i (Ho & Hi & Hlt). change (npages demo_mm) with 4 in Hlt.
      order_cases o; [assert (i = 0 ∨ i = 1) as [->| ->] by lia|assert (i = 0) as -> by lia..]; done.
    + intros o i o' i' (Ho & Hi & Hlt) (Ho' & Hi' & Hlt'). change (npages demo_mm) with 4 in Hlt, Hlt'.
      assert (∀ o, 0 <= o < NR_FREE_LIST → area_map demo_mm o = o) as Hmap
        by (intros x Hx; order_cases x; done).
      rewrite !Hmap by done.
      assert (∀ o i, 0 <= o → 0 <= i → i * 2 ^ (o + 1) < 4 → i / 32 = 0) as Hdiv.
      { intros x j Hx Hj Hb. apply Z.div_small. pose proof (pow2_pos (x + 1)). nia. }
      rewrite (Hdiv o i), (Hdiv o' i') by lia. lia.
Qed.

Lemma demo_run o : 0 <= o <= 1 → run_free demo_fl o 2.
Proof.
  intros Ho. split; [assert (o = 0 ∨ o = 1) as [-> | ->] by lia; [by exists 2|by exists 1]|].
  intros p Hp. exists 1, 2. split_and!; [done..|by apply demo_fl_elem|].
  unfold in_block in *. pose proof (Z.pow_le_mono_r 2 o 1). lia.
Qed.

Lemma get_free_pages_takes_witness : ∃ b s' fl',
  get_free_pages 0 0 demo_mm = Ret (b * PAGE_SIZE) s' ∧ allocated demo_mm s' demo_fl fl' 0 b.
Proof.
  apply (get_free_pages_takes 0 0 demo_mm demo_fl demo_inv).
  - unfold NR_FREE_LIST; lia.
  - exists 2. apply demo_run. lia.
Defined.


Lemma demo_not_free p : p = 0 ∨ p = 1 → ¬ is_free demo_fl p.
Proof.
  intros Hp (o & n & Ho & Hn & Hb). apply demo_fl_elem in Hn as [-> ->]. unfold in_block in Hb. lia.
Qed.

Lemma free_pages_merges_witness : ∃ fl',
  freed demo_mm (__free_pages (1 * PAGE_SIZE) 0 demo_mm) demo_fl fl' 0 1.
Proof.
  apply (free_pages_merges demo_mm demo_fl 0 1 demo_inv).
  - unfold NR_FREE_LIST; lia.
  - lia.
  - change (npages demo_mm) with 4. lia.
  - by exists 1.
  - intros p Hp. apply demo_not_free. unfold in_block in Hp. lia.
Defined.

Lemma alloc_free_roundtrip_witness : ∃ addr s' fl'',
  get_free_pages 0 0 demo_mm = Ret addr s' ∧
  buddy_inv (__free_pages addr 0 s') fl'' ∧
  (∀ p, is_free fl'' p ↔ is_free demo_fl p) ∧
  nfreepages (__free_pages addr 0 s') = nfreepages demo_mm.
Proof.
  apply (alloc_free_roundtrip 0 0 demo_mm demo_fl demo_inv).
  - unfold NR_FREE_LIST; lia.
  - exists 2. apply demo_run. lia.
Defined.

