(* ===== verification/Kmalloc.v ===== *)
(** * The small block allocator (mm/kmalloc.c)

    [kmalloc] serves blocks from buckets of fixed block sizes.  A bucket is a
    list of page runs, each headed by a [page_descriptor] and carved into
    blocks; the free blocks of a run are chained through their headers.  The
    allocator is written over the page allocator's interface.  The theorems
    say that a block handed out is never one that is in use, that freeing
    makes exactly that block free, and that neither touches a block in use. *)

From S2P Require Import Prelude Pages Dlist.
From stdpp Require Import base numbers functions gmap list.

Local Open Scope Z_scope.

(** A [list_t *]: null, the list of a bucket, or of a page descriptor. *)
Inductive kptr := KNull | KBucket (i : Z) | KPage (a : Z).

#[export] Instance kptr_eq_dec : EqDecision kptr.
Proof. solve_decision. Defined.

Record page_descriptor := PD {
  pd_next : kptr; pd_prev : kptr;
  pd_firstfree : Z; pd_order : Z; pd_nfrees : Z;
}.
(** [sizeof(struct page_descriptor)] *)
Definition PAGE_DESC_SIZE : Z := 20.

Record block_header := BH { bh_flags : Z; bh_next : Z }.

Record sizes_descriptor := SD {
  sd_next : kptr; sd_prev : kptr;
  sd_nblocks : Z; sd_npages : Z; sd_nfrees : Z; sd_gfporder : Z;
}.

Definition blocksize : list Z :=
  [32; 64; 128; 255; 510; 1020; 2040;
   4096 - PAGE_DESC_SIZE; 8192 - PAGE_DESC_SIZE; 16384 - PAGE_DESC_SIZE;
   32768 - PAGE_DESC_SIZE; 65536 - PAGE_DESC_SIZE; 131072 - PAGE_DESC_SIZE; 0].

(** The initial [sizes]. *)
Definition sizes0 : list sizes_descriptor :=
  (λ g, SD KNull KNull 0 0 0 g) <$> [0; 0; 0; 0; 0; 0; 0; 0; 1; 2; 3; 4; 5; 0].

Definition BLOCKSIZE (order : Z) : Z := default 0 (zget blocksize order).
Definition MFREE : Z := 0xAA55AA55.
Definition PAGE_DESC (x : Z) : Z := Z.land x (u32 (Z.lnot (PAGE_SIZE - 1))).

Section kmalloc.
Context {S : Type} `{PageAlloc S}.

(** The memory of the page runs, as the structures the code reads there. *)
Record km_state := KM {
  km_pages : S;
  km_pd : Z → page_descriptor;
  km_bh : Z → block_header;
  sizes : list sizes_descriptor;
}.

Definition upd_pd (a : Z) (f : page_descriptor → page_descriptor) (s : km_state) : km_state :=
  KM (km_pages s) (<[a := f (km_pd s a)]> (km_pd s)) (km_bh s) (sizes s).
Definition upd_bh (a : Z) (f : block_header → block_header) (s : km_state) : km_state :=
  KM (km_pages s) (km_pd s) (<[a := f (km_bh s a)]> (km_bh s)) (sizes s).
Definition upd_sd (i : Z) (f : sizes_descriptor → sizes_descriptor) (s : km_state) : km_state :=
  KM (km_pages s) (km_pd s) (km_bh s) (zalter f i (sizes s)).
Definition upd_pages (g : S) (s : km_state) : km_state :=
  KM g (km_pd s) (km_bh s) (sizes s).

(** A call of the page allocator. *)
Definition lift_pages {A} (c : M S A) : M km_state A := λ s,
  match c (km_pages s) with
  | Ret a g => Ret a (upd_pages g s)
  | Die => Die
  | Sleep g => Sleep (upd_pages g s)
  end.

Definition pd_set_next v p := PD v (pd_prev p) (pd_firstfree p) (pd_order p) (pd_nfrees p).
Definition pd_set_prev v p := PD (pd_next p) v (pd_firstfree p) (pd_order p) (pd_nfrees p).
Definition pd_set_firstfree v p := PD (pd_next p) (pd_prev p) v (pd_order p) (pd_nfrees p).
Definition pd_set_order v p := PD (pd_next p) (pd_prev p) (pd_firstfree p) v (pd_nfrees p).
Definition pd_set_nfrees v p := PD (pd_next p) (pd_prev p) (pd_firstfree p) (pd_order p) v.
Definition sd_set_next v d := SD v (sd_prev d) (sd_nblocks d) (sd_npages d) (sd_nfrees d) (sd_gfporder d).
Definition sd_set_prev v d := SD (sd_next d) v (sd_nblocks d) (sd_npages d) (sd_nfrees d) (sd_gfporder d).
Definition sd_set_nblocks v d := SD (sd_next d) (sd_prev d) v (sd_npages d) (sd_nfrees d) (sd_gfporder d).
Definition sd_set_npages v d := SD (sd_next d) (sd_prev d) (sd_nblocks d) v (sd_nfrees d) (sd_gfporder d).
Definition sd_set_nfrees v d := SD (sd_next d) (sd_prev d) (sd_nblocks d) (sd_npages d) v (sd_gfporder d).

#[export] Instance km_links : LinkStore km_state kptr := {
  nxt s p := match p with
    | KNull => KNull
    | KBucket i => from_option sd_next KNull (zget (sizes s) i)
    | KPage a => pd_next (km_pd s a)
    end;
  prv s p := match p with
    | KNull => KNull
    | KBucket i => from_option sd_prev KNull (zget (sizes s) i)
    | KPage a => pd_prev (km_pd s a)
    end;
  set_nxt p v s := match p with
    | KNull => s
    | KBucket i => upd_sd i (sd_set_next v) s
    | KPage a => upd_pd a (pd_set_next v) s
    end;
  set_prv p v s := match p with
    | KNull => s
    | KBucket i => upd_sd i (sd_set_prev v) s
    | KPage a => upd_pd a (pd_set_prev v) s
    end;
  linkable s p := match p with
    | KNull => False
    | KBucket i => 0 <= i < zlen (sizes s)
    | KPage a => True
    end;
}.

#[export] Instance km_laws : LinkLaws km_state kptr.
Proof.
  split; intros s p v q.
  1, 2: intros Hp; destruct p as [|i|a]; [done|..]; destruct q as [|j|b]; simpl in *;
    repeat case_decide; simplify_eq; try done;
    rewrite ?zget_zalter, ?fn_lookup_insert, ?fn_lookup_insert_ne by congruence;
    rewrite ?decide_True, ?decide_False by congruence; try done;
    apply zget_is_Some in Hp as [x Hx]; by rewrite Hx.
  1, 2: destruct p as [|i|a]; [done|..]; destruct q as [|j|b]; simpl in *; try done;
    [rewrite zget_zalter; case_decide; [subst|done]; by destruct (zget (sizes s) i)
    |destruct (decide (b = a)) as [->|]; [by rewrite fn_lookup_insert|by rewrite fn_lookup_insert_ne]].
  all: destruct p as [|i|a]; [done|..]; destruct q as [|j|b]; simpl in *;
    by rewrite ?zlen_zalter.
Qed.

(** [for(;;)]: the first bucket that is large enough, or the end of the table;
    the comparison with the unsigned block size is unsigned. *)
Fixpoint find_bucket (fuel : nat) (size order : Z) : Z :=
  match fuel with
  | O => order
  | Datatypes.S fuel =>
      if (u32 size <=? BLOCKSIZE order) || negb (truth (BLOCKSIZE order)) then order
      else find_bucket fuel size (order + 1)
  end.

Definition sd_at (s : km_state) (i : Z) : sizes_descriptor :=
  default (SD KNull KNull 0 0 0 0) (zget (sizes s) i).

(** "add the free blocks to the list" *)
Fixpoint carve (n : nat) (order addr tmp : Z) (s : km_state) : km_state :=
  match n with
  | O =>
      let s := upd_bh tmp (λ h, BH MFREE (bh_next h)) s in
      upd_bh tmp (λ h, BH (bh_flags h) 0) s
  | Datatypes.S n =>
      let addr := addr + BLOCKSIZE order in
      let s := upd_bh tmp (λ h, BH MFREE (bh_next h)) s in
      let s := upd_bh tmp (λ h, BH (bh_flags h) addr) s in
      carve n order addr (bh_next (km_bh s tmp)) s
  end.

(** "initial the bucket and the page_descriptor" *)
Definition new_page (order addr : Z) (s : km_state) : km_state :=
  let pg := addr in
  let s := list_add_head (KBucket order) (KPage pg) s in
  let s := upd_sd order (λ d, sd_set_npages (sd_npages d + 1) d) s in
  let s := upd_pd pg (pd_set_nfrees (sd_nblocks (sd_at s order))) s in
  let s := upd_sd order (λ d, sd_set_nfrees (sd_nfrees d + pd_nfrees (km_pd s pg)) d) s in
  let s := upd_pd pg (pd_set_order order) s in
  let s := upd_pd pg (pd_set_firstfree (addr + PAGE_DESC_SIZE)) s in
  let addr := addr + PAGE_DESC_SIZE in
  carve (Z.to_nat (sd_nblocks (sd_at s order) - 1)) order addr addr s.

(** The block is taken off the chain of the page. *)
Definition take_first (order sd_firstfree : Z) : M km_state Z :=
  bh ← gets (λ s, pd_firstfree (km_pd s sd_firstfree));
  flags ← gets (λ s, bh_flags (km_bh s bh));
  die_if (negb (flags =? MFREE));;
  modify (λ s, upd_pd sd_firstfree (pd_set_firstfree (bh_next (km_bh s bh))) s);;
  modify (upd_pd sd_firstfree (λ p, pd_set_nfrees (pd_nfrees p - 1) p));;
  modify (upd_sd order (λ d, sd_set_nfrees (sd_nfrees d - 1) d));;
  mret bh.

(** The page the block is taken from: the first of the bucket. *)
Definition first_page (order : Z) (s : km_state) : option Z :=
  if list_empty (KBucket order) s then None
  else match nxt s (KBucket order) with KPage a => Some a | _ => None end.

Definition kmalloc (size attr : Z) : M km_state Z :=
  let order := find_bucket 14 size 0 in
  if negb (truth (BLOCKSIZE order)) then mret 0
  else
    sd_firstfree ← gets (first_page order);
    usable ← gets (λ s,
      match sd_firstfree with Some a => negb (pd_nfrees (km_pd s a) =? 0) | None => false end);
    match sd_firstfree, usable with
    | Some a, true => take_first order a
    | _, _ =>
        gfporder ← gets (λ s, sd_gfporder (sd_at s order));
        addr ← lift_pages (get_pages attr gfporder);
        if negb (truth addr) then mret 0
        else
          modify (new_page order addr);;
          take_first order addr
    end.

Definition kfree (p : Z) (s : km_state) : km_state :=
  let pg := PAGE_DESC p in
  let s := upd_bh p (λ h, BH (bh_flags h) (pd_firstfree (km_pd s pg))) s in
  let s := upd_pd pg (pd_set_firstfree p) s in
  let s := upd_bh p (λ h, BH MFREE (bh_next h)) s in
  let order := pd_order (km_pd s pg) in
  let s := upd_pd pg (λ d, pd_set_nfrees (pd_nfrees d + 1) d) s in
  let s := upd_sd order (λ d, sd_set_nfrees (sd_nfrees d + 1) d) s in
  if pd_nfrees (km_pd s pg) =? sd_nblocks (sd_at s order) then
    let s := list_del (KPage pg) s in
    let s := upd_sd order (λ d, sd_set_npages (sd_npages d - 1) d) s in
    let s := upd_sd order (λ d, sd_set_nfrees (sd_nfrees d - sd_nblocks d) d) s in
    upd_pages (release_pages pg (sd_gfporder (sd_at s order)) (km_pages s)) s
  else if decide (KPage pg ≠ nxt s (KBucket order)) then
    let s := list_del (KPage pg) s in
    list_add_head (KBucket order) (KPage pg) s
  else s.

Fixpoint kmalloc_init_loop (n : nat) (i : Z) (s : km_state) : km_state :=
  match n with
  | O => s
  | Datatypes.S n =>
      let order := sd_gfporder (sd_at s i) in
      let s := list_head_init (KBucket i) s in
      let s := upd_sd i (sd_set_nblocks (Z.shiftl PAGE_SIZE order / BLOCKSIZE i)) s in
      kmalloc_init_loop n (i + 1) s
  end.
(** [SIZES_NUM - 1] turns. *)
Definition kmalloc_init : km_state → km_state := kmalloc_init_loop 13 0.
End kmalloc.
Arguments km_state : clear implicits.

(** ** The invariant *)

Definition NR_BUCKETS : Z := 13.
Definition gfp (i : Z) : Z := default 0 (zget [0; 0; 0; 0; 0; 0; 0; 0; 1; 2; 3; 4; 5] i).
Definition nblocks (i : Z) : Z := Z.shiftl PAGE_SIZE (gfp i) / BLOCKSIZE i.
Definition bucket (i : Z) : Prop := 0 <= i < NR_BUCKETS.

(** The addresses of the blocks of a run. *)
Definition is_block (i a x : Z) : Prop :=
  ∃ k, 0 <= k < nblocks i ∧ x = a + PAGE_DESC_SIZE + k * BLOCKSIZE i.

(** The chain of free blocks from [x] on. *)
Fixpoint chain (bh : Z → block_header) (x : Z) (c : list Z) : Prop :=
  match c with
  | [] => x = 0
  | y :: c => x = y ∧ bh_flags (bh y) = MFREE ∧ chain bh (bh_next (bh y)) c
  end.

Definition sum_frees (C : Z → list Z) (l : list Z) : Z := foldr (λ a z, zlen (C a) + z) 0 l.

Ltac bucket_cases i :=
  let H := fresh in
  assert (i = 0 ∨ i = 1 ∨ i = 2 ∨ i = 3 ∨ i = 4 ∨ i = 5 ∨ i = 6 ∨ i = 7 ∨ i = 8 ∨ i = 9 ∨
    i = 10 ∨ i = 11 ∨ i = 12) as H by (unfold bucket, NR_BUCKETS in *; lia);
  destruct H as [->|[->|[->|[->|[->|[->|[->|[->|[->|[->|[->|[->| ->]]]]]]]]]]]].

Lemma bucket_facts i : bucket i →
  0 <= gfp i < NR_FREE_LIST ∧ 32 <= BLOCKSIZE i ∧ 0 < nblocks i ∧
  PAGE_DESC_SIZE + (nblocks i - 1) * BLOCKSIZE i + 8 <= PAGE_SIZE.
Proof. intros Hi. bucket_cases i; vm_compute; intuition congruence. Qed.

(** A block's header lies in the first page of its run, so that [PAGE_DESC]
    leads back to the run's descriptor. *)
Lemma is_block_page i a x : bucket i → is_block i (a * PAGE_SIZE) x →
  x / PAGE_SIZE = a.
Proof.
  intros Hi (k & Hk & ->). destruct (bucket_facts i Hi) as (_ & Hb & Hn & Hx).
  rewrite <-Z.add_assoc, Z.div_add_l by done.
  rewrite Z.div_small; [lia|]. unfold PAGE_DESC_SIZE in *. nia.
Qed.

Lemma PAGE_DESC_eq x : 0 <= x < 2 ^ 32 → PAGE_DESC x = x / PAGE_SIZE * PAGE_SIZE.
Proof. intros Hx. unfold PAGE_DESC. change (u32 _) with (mask_of 12). by apply land_mask. Qed.

(** All blocks of a run, in address order. *)
Fixpoint block_list (n : nat) (i x : Z) : list Z :=
  match n with O => [x] | Datatypes.S n => x :: block_list n i (x + BLOCKSIZE i) end.

Lemma elem_of_block_list n i x y : y ∈ block_list n i x ↔
  ∃ k, 0 <= k <= Z.of_nat n ∧ y = x + k * BLOCKSIZE i.
Proof.
  revert x. induction n as [|n IH]; intros x; simpl.
  - rewrite list_elem_of_singleton. split; [intros ->; exists 0; lia|].
    intros (k & Hk & ->). assert (k = 0) as -> by lia. lia.
  - rewrite elem_of_cons, IH. split.
    + intros [->|(k & Hk & ->)]; [exists 0; lia|exists (k + 1); lia].
    + intros (k & Hk & ->). destruct (decide (k = 0)) as [->|]; [left; lia|].
      right. exists (k - 1). lia.
Qed.
Lemma block_list_NoDup n i x : bucket i → NoDup (block_list n i x).
Proof.
  intros Hi. destruct (bucket_facts i Hi) as (_ & Hb & _).
  revert x. induction n as [|n IH]; intros x; simpl; [apply NoDup_singleton|].
  constructor; [|apply IH]. rewrite elem_of_block_list. intros (k & Hk & He). nia.
Qed.
Lemma block_list_len n i x : zlen (block_list n i x) = Z.of_nat n + 1.
Proof.
  revert x. induction n as [|n IH]; intros x; [done|]. unfold zlen in *. simpl.
  specialize (IH (x + BLOCKSIZE i)). lia.
Qed.

Section inv.
Context {S : Type} `{PageAlloc S}.
Implicit Types (s : km_state S) (F : Z → Prop) (L C : Z → list Z).

Record run_ok s (i a : Z) (c : list Z) : Prop := {
  ro_addr : ∃ b, a = b * PAGE_SIZE ∧ 0 < b ∧ b + 2 ^ gfp i <= pages_total (km_pages s) ∧ (2 ^ gfp i | b);
  ro_order : pd_order (km_pd s a) = i;
  ro_chain : chain (km_bh s) (pd_firstfree (km_pd s a)) c;
  ro_nfrees : pd_nfrees (km_pd s a) = zlen c;
  ro_nodup : NoDup c;
  ro_blocks x : x ∈ c → is_block i a x;
}.

(** [F]: the free pages; [L i]: the runs of bucket [i]; [C a]: the free blocks
    of the run at [a]. *)
Record km_inv s F L C : Prop := {
  ki_pages : pages_inv (km_pages s) F;
  ki_len : zlen (sizes s) = NR_BUCKETS + 1;
  ki_lists : lists_ok bucket KBucket s (λ i, KPage <$> L i);
  ki_nblocks i : bucket i → sd_nblocks (sd_at s i) = nblocks i;
  ki_gfp i : bucket i → sd_gfporder (sd_at s i) = gfp i;
  ki_npages i : bucket i → sd_npages (sd_at s i) = zlen (L i);
  ki_nfrees i : bucket i → sd_nfrees (sd_at s i) = sum_frees C (L i);
  ki_run i a : bucket i → a ∈ L i → run_ok s i a (C a);
  ki_used i a p : bucket i → a ∈ L i → in_block (gfp i) (a / PAGE_SIZE) p → ¬ F p;
  ki_disj i j a b p : bucket i → bucket j → a ∈ L i → b ∈ L j →
    in_block (gfp i) (a / PAGE_SIZE) p → in_block (gfp j) (b / PAGE_SIZE) p → a = b;
}.

(** A block handed out and not yet freed. *)
Definition in_use L C (x : Z) : Prop :=
  ∃ i a, bucket i ∧ a ∈ L i ∧ is_block i a x ∧ x ∉ C a.

(** Every run has a block in use: idle runs go back to the page allocator. *)
Definition no_idle L C : Prop := ∀ i a, bucket i → a ∈ L i → zlen (C a) < nblocks i.

(** [s'] differs from [s] in links only. *)
Record same_fields s s' : Prop := {
  sf_pages : km_pages s' = km_pages s;
  sf_bh x : km_bh s' x = km_bh s x;
  sf_len : zlen (sizes s') = zlen (sizes s);
  sf_firstfree a : pd_firstfree (km_pd s' a) = pd_firstfree (km_pd s a);
  sf_order a : pd_order (km_pd s' a) = pd_order (km_pd s a);
  sf_nfrees a : pd_nfrees (km_pd s' a) = pd_nfrees (km_pd s a);
  sf_nblocks i : sd_nblocks (sd_at s' i) = sd_nblocks (sd_at s i);
  sf_npages i : sd_npages (sd_at s' i) = sd_npages (sd_at s i);
  sf_sdnfrees i : sd_nfrees (sd_at s' i) = sd_nfrees (sd_at s i);
  sf_gfp i : sd_gfporder (sd_at s' i) = sd_gfporder (sd_at s i);
}.
#[export] Instance same_fields_preorder : PreOrder same_fields.
Proof.
  split.
  - intros s. by split.
  - intros s1 s2 s3 [] []. split; intros; etrans; eauto.
Qed.

Lemma sd_at_upd s i f j : 0 <= i < zlen (sizes s) →
  sd_at (upd_sd i f s) j = if decide (j = i) then f (sd_at s i) else sd_at s j.
Proof.
  intros Hi. unfold sd_at. simpl. rewrite zget_zalter. case_decide; [subst|done].
  apply zget_is_Some in Hi as [d ->]. done.
Qed.
Lemma km_pd_upd s a f b : km_pd (upd_pd a f s) b = if decide (b = a) then f (km_pd s a) else km_pd s b.
Proof.
  simpl. case_decide; [subst; by rewrite fn_lookup_insert|by rewrite fn_lookup_insert_ne].
Qed.
Lemma km_bh_upd s a f b : km_bh (upd_bh a f s) b = if decide (b = a) then f (km_bh s a) else km_bh s b.
Proof.
  simpl. case_decide; [subst; by rewrite fn_lookup_insert|by rewrite fn_lookup_insert_ne].
Qed.

Lemma same_fields_link p v s : same_fields s (set_nxt p v s) ∧ same_fields s (set_prv p v s).
Proof.
  destruct p as [|i|a]; [done|..].
  - split; (split; [done|done|apply zlen_zalter|done|done|done|..]); intros j; unfold sd_at; simpl;
      rewrite zget_zalter; (case_decide; [subst|done]); by destruct (zget (sizes s) i).
  - split; (split; try done); intros b; cbn [set_nxt set_prv km_links]; rewrite km_pd_upd;
      case_decide; by subst.
Qed.
Lemma same_fields_nxt p v s : same_fields s (set_nxt p v s).
Proof. apply same_fields_link. Qed.
Lemma same_fields_prv p v s : same_fields s (set_prv p v s).
Proof. apply same_fields_link. Qed.
Lemma same_fields_add_head hd n s : same_fields s (list_add_head hd n s).
Proof.
  unfold list_add_head. cbv zeta. etrans; [|simple apply same_fields_prv].
  etrans; [|simple apply same_fields_nxt]. etrans; [|simple apply same_fields_prv].
  simple apply same_fields_nxt.
Qed.
Lemma same_fields_del e s : same_fields s (list_del e s).
Proof. unfold list_del. cbv zeta. etrans; [|simple apply same_fields_prv]. simple apply same_fields_nxt. Qed.

(** Writes that leave the links alone. *)
Definition same_klinks s s' : Prop :=
  (∀ p, nxt s' p = nxt s p ∧ prv s' p = prv s p) ∧ zlen (sizes s') = zlen (sizes s).
#[export] Instance same_klinks_preorder : PreOrder same_klinks.
Proof.
  split.
  - intros s. by split.
  - intros s1 s2 s3 [H12 ?] [H23 ?]. split; [|congruence].
    intros p. destruct (H12 p), (H23 p). split; congruence.
Qed.
Lemma same_klinks_bh a f s : same_klinks s (upd_bh a f s).
Proof. by split. Qed.
Lemma same_klinks_pages g s : same_klinks s (upd_pages g s).
Proof. by split. Qed.
Lemma same_klinks_pd a f s :
  (∀ p, pd_next (f p) = pd_next p ∧ pd_prev (f p) = pd_prev p) → same_klinks s (upd_pd a f s).
Proof.
  intros Hf. split; [|done]. intros [|i|b]; [done..|].
  cbn [nxt prv km_links]. rewrite km_pd_upd. case_decide; [subst; apply Hf|done].
Qed.
Lemma same_klinks_sd i f s :
  (∀ d, sd_next (f d) = sd_next d ∧ sd_prev (f d) = sd_prev d) → same_klinks s (upd_sd i f s).
Proof.
  intros Hf. split; [|apply zlen_zalter]. intros [|j|b]; [done| |done].
  simpl. rewrite zget_zalter. case_decide; [subst|done]. destruct (zget (sizes s) i); [apply Hf|done].
Qed.
Lemma same_klinks_lists s s' (L : Z → list kptr) : same_klinks s s' →
  lists_ok bucket KBucket s L → lists_ok bucket KBucket s' L.
Proof.
  intros [Hl Hn] Hlk. eapply lists_ok_frame; [done| |].
  - intros i p _ _. apply Hl.
  - intros [|i|a]; simpl; by rewrite ?Hn.
Qed.

Lemma chain_frame bh bh' x c : (∀ y, y ∈ c → bh' y = bh y) → chain bh x c → chain bh' x c.
Proof.
  revert x. induction c as [|y c IH]; intros x Hf; [done|]. simpl. intros (-> & Hm & Hc).
  rewrite !Hf by left. split_and!; [done..|]. apply IH; [|done]. intros z Hz. apply Hf. by right.
Qed.

Lemma sum_frees_ext C C' l : (∀ a, a ∈ l → C' a = C a) → sum_frees C' l = sum_frees C l.
Proof.
  intros He. unfold sum_frees. induction l as [|a l IH]; [done|]. simpl.
  rewrite He by left. f_equal. apply IH. intros b Hb. apply He. by right.
Qed.
Lemma sum_frees_app C l1 l2 : sum_frees C (l1 ++ l2) = sum_frees C l1 + sum_frees C l2.
Proof.
  unfold sum_frees. induction l1 as [|a l1 IH]; simpl; [done|]. rewrite IH. lia.
Qed.
(** Changing the chain of one run of a list. *)
Lemma sum_frees_insert C l a c : NoDup l → a ∈ l →
  sum_frees (<[a := c]> C) l = sum_frees C l + zlen c - zlen (C a).
Proof.
  intros Hnd Ha. apply list_elem_of_split in Ha as (l1 & l2 & ->).
  rewrite <-Permutation_middle in Hnd. apply NoDup_cons in Hnd as [Ha _].
  rewrite !sum_frees_app. change (a :: l2) with ([a] ++ l2). rewrite !sum_frees_app.
  rewrite (sum_frees_ext C _ l1), (sum_frees_ext C _ l2).
  - unfold sum_frees. simpl. rewrite fn_lookup_insert. lia.
  - intros b Hb. rewrite fn_lookup_insert_ne; [done|]. intros ->. set_solver.
  - intros b Hb. rewrite fn_lookup_insert_ne; [done|]. intros ->. set_solver.
Qed.

Lemma KPage_NoDup s F L C i : km_inv s F L C → bucket i → NoDup (L i).
Proof.
  intros Hk Hi. apply (NoDup_fmap_1 KPage).
  eapply is_list_NoDup, (lk_list _ _ _ _ (ki_lists _ _ _ _ Hk)); done.
Qed.
Lemma run_bucket s F L C i j a : km_inv s F L C → bucket i → bucket j → a ∈ L i → a ∈ L j → i = j.
Proof.
  intros Hk Hi Hj Hai Haj.
  apply (lk_disj _ _ _ _ (ki_lists _ _ _ _ Hk) i j (KPage a)); [done..| |];
    right; apply list_elem_of_fmap; eauto.
Qed.

(** ** Taking a block off a chain *)

Definition popped (i a y : Z) s : km_state S :=
  upd_sd i (λ d, sd_set_nfrees (sd_nfrees d - 1) d)
    (upd_pd a (λ p, pd_set_nfrees (pd_nfrees p - 1) p)
      (upd_pd a (pd_set_firstfree (bh_next (km_bh s y))) s)).

Lemma take_first_pop s F L C i a y c :
  km_inv s F L C → bucket i → a ∈ L i → C a = y :: c →
  take_first i a s = Ret y (popped i a y s) ∧ km_inv (popped i a y s) F L (<[a := c]> C) ∧
  ∀ x, km_bh (popped i a y s) x = km_bh s x.
Proof.
  intros Hk Hi Ha HC. pose proof (ki_run _ _ _ _ Hk i a Hi Ha) as Hr.
  pose proof (ro_chain _ _ _ _ Hr) as Hch. rewrite HC in Hch. destruct Hch as (Hff & Hmf & Hch).
  assert (0 <= i < zlen (sizes s)) as Hlen by (rewrite (ki_len _ _ _ _ Hk); unfold bucket, NR_BUCKETS in *; lia).
  split_and!; [|split|done].
  - unfold take_first. mstep. rewrite Hff, Hmf. done.
  - apply (ki_pages _ _ _ _ Hk).
  - simpl. rewrite zlen_zalter. apply (ki_len _ _ _ _ Hk).
  - eapply same_klinks_lists; [|apply (ki_lists _ _ _ _ Hk)]. unfold popped.
    etrans; [|by apply same_klinks_sd]. etrans; [|by apply same_klinks_pd]. by apply same_klinks_pd.
  - intros j Hj. unfold popped. rewrite sd_at_upd by done. case_decide; subst; by apply (ki_nblocks _ _ _ _ Hk).
  - intros j Hj. unfold popped. rewrite sd_at_upd by done. case_decide; subst; by apply (ki_gfp _ _ _ _ Hk).
  - intros j Hj. unfold popped. rewrite sd_at_upd by done. case_decide; subst; by apply (ki_npages _ _ _ _ Hk).
  - intros j Hj. unfold popped. rewrite sd_at_upd by done. case_decide as Hji.
    + subst j. rewrite sum_frees_insert; [|by eapply KPage_NoDup|done]. simpl.
      change (sd_nfrees (sd_at _ i)) with (sd_nfrees (sd_at s i)).
      rewrite (ki_nfrees _ _ _ _ Hk) by done. rewrite HC. unfold zlen. simpl. lia.
    + rewrite sum_frees_ext with (C := C).
      * apply (ki_nfrees _ _ _ _ Hk j Hj).
      * intros b Hb. rewrite fn_lookup_insert_ne; [done|]. intros ->. apply Hji.
        by eapply run_bucket.
  - intros j b Hj Hb. pose proof (ki_run _ _ _ _ Hk j b Hj Hb) as Hrb.
    destruct (decide (b = a)) as [->|Hne].
    + assert (j = i) as -> by (by eapply run_bucket). rewrite fn_lookup_insert.
      destruct Hr. rewrite HC in *. split; unfold popped; simpl; rewrite ?fn_lookup_insert; simpl; try done.
      * rewrite ro_nfrees0. unfold zlen. simpl. lia.
      * by apply NoDup_cons in ro_nodup0 as [_ ?].
      * intros x Hx. apply ro_blocks0. by right.
    + rewrite fn_lookup_insert_ne by done.
      destruct Hrb. split; unfold popped; simpl; rewrite ?fn_lookup_insert_ne by done; try done.
  - apply (ki_used _ _ _ _ Hk).
  - apply (ki_disj _ _ _ _ Hk).
Qed.

(** ** A new run *)

Lemma carve_spec n i x s : bucket i →
  let s' := carve n i x x s in
  chain (km_bh s') x (block_list n i x) ∧ (∀ y, y ∉ block_list n i x → km_bh s' y = km_bh s y) ∧
  km_pd s' = km_pd s ∧ sizes s' = sizes s ∧ km_pages s' = km_pages s.
Proof.
  intros Hi. revert x s. induction n as [|n IH]; intros x s; cbn [carve block_list]; cbv zeta.
  - split_and!; try done.
    + simpl. rewrite !fn_lookup_insert. done.
    + intros y Hy. rewrite !km_bh_upd, !decide_False by set_solver. done.
  - rewrite km_bh_upd, decide_True by done. cbn [bh_next].
    set (s1 := upd_bh x (λ h, BH (bh_flags h) (x + BLOCKSIZE i)) (upd_bh x _ s)).
    destruct (IH (x + BLOCKSIZE i) s1) as (Hch & Hfr & Hpd & Hsz & Hpg).
    pose proof (block_list_NoDup (Datatypes.S n) i x Hi) as Hnd. apply NoDup_cons in Hnd as [Hx _].
    split_and!; try done.
    + simpl. split; [done|]. rewrite Hfr by done. subst s1. rewrite !km_bh_upd, !decide_True by done. done.
    + intros y Hy. rewrite Hfr by set_solver. subst s1. rewrite !km_bh_upd, !decide_False by set_solver. done.
Qed.

Definition all_blocks (i a : Z) : list Z :=
  block_list (Z.to_nat (nblocks i - 1)) i (a + PAGE_DESC_SIZE).

Lemma elem_of_all_blocks i a x : bucket i → x ∈ all_blocks i a ↔ is_block i a x.
Proof.
  intros Hi. destruct (bucket_facts i Hi) as (_ & _ & Hn & _). unfold all_blocks.
  rewrite elem_of_block_list. unfold is_block. split; intros (k & Hk & ->); exists k; lia.
Qed.

(** The fields of a new run's descriptor, before the blocks are carved. *)
Definition with_run (i a : Z) s : km_state S :=
  let s := list_add_head (KBucket i) (KPage a) s in
  let s := upd_sd i (λ d, sd_set_npages (sd_npages d + 1) d) s in
  let s := upd_pd a (pd_set_nfrees (sd_nblocks (sd_at s i))) s in
  let s := upd_sd i (λ d, sd_set_nfrees (sd_nfrees d + pd_nfrees (km_pd s a)) d) s in
  let s := upd_pd a (pd_set_order i) s in
  upd_pd a (pd_set_firstfree (a + PAGE_DESC_SIZE)) s.

Record run_added (i a : Z) s s' : Prop := {
  ra_pages : km_pages s' = km_pages s;
  ra_bh x : km_bh s' x = km_bh s x;
  ra_len : zlen (sizes s') = zlen (sizes s);
  ra_links : same_klinks (list_add_head (KBucket i) (KPage a) s) s';
  ra_nblocks j : sd_nblocks (sd_at s' j) = sd_nblocks (sd_at s j);
  ra_gfp j : sd_gfporder (sd_at s' j) = sd_gfporder (sd_at s j);
  ra_npages j : sd_npages (sd_at s' j) = sd_npages (sd_at s j) + (if decide (j = i) then 1 else 0);
  ra_sdnfrees j : sd_nfrees (sd_at s' j) =
    sd_nfrees (sd_at s j) + (if decide (j = i) then sd_nblocks (sd_at s i) else 0);
  ra_new : pd_order (km_pd s' a) = i ∧ pd_firstfree (km_pd s' a) = a + PAGE_DESC_SIZE ∧
    pd_nfrees (km_pd s' a) = sd_nblocks (sd_at s i);
  ra_old b : b ≠ a → pd_order (km_pd s' b) = pd_order (km_pd s b) ∧
    pd_firstfree (km_pd s' b) = pd_firstfree (km_pd s b) ∧ pd_nfrees (km_pd s' b) = pd_nfrees (km_pd s b);
}.

Lemma with_run_added i a s : 0 <= i < zlen (sizes s) → run_added i a s (with_run i a s).
Proof.
  intros Hi. unfold with_run. cbv zeta. set (s1 := list_add_head _ _ s).
  pose proof (same_fields_add_head (KBucket i) (KPage a) s) as Hf. fold s1 in Hf.
  pose proof (sf_len _ _ Hf) as Hlen. rewrite <-Hlen in Hi.
  assert (∀ g, zlen (sizes (upd_sd i g s1)) = zlen (sizes s1)) as Hz by (intros; apply zlen_zalter).
  set (s2 := upd_sd i (λ d, sd_set_npages (sd_npages d + 1) d) s1).
  set (s3 := upd_pd a (pd_set_nfrees (sd_nblocks (sd_at s2 i))) s2).
  set (s4 := upd_sd i _ s3). set (s5 := upd_pd a (pd_set_order i) s4).
  assert (sd_nblocks (sd_at s2 i) = sd_nblocks (sd_at s i)) as Hnb.
  { unfold s2. rewrite sd_at_upd, decide_True by done. apply (sf_nblocks _ _ Hf). }
  assert (∀ j, sd_at s4 j = if decide (j = i)
    then sd_set_nfrees (sd_nfrees (sd_at s1 i) + sd_nblocks (sd_at s i))
      (sd_set_npages (sd_npages (sd_at s1 i) + 1) (sd_at s1 i)) else sd_at s1 j) as Hsd.
  { assert (pd_nfrees (km_pd s3 a) = sd_nblocks (sd_at s i)) as Hn3.
    { unfold s3. rewrite km_pd_upd, decide_True by done. done. }
    intros j. unfold s4. rewrite sd_at_upd by (unfold s3, s2; simpl; by rewrite zlen_zalter).
    rewrite Hn3. change (sd_at s3) with (sd_at s2). unfold s2. rewrite !sd_at_upd by done.
    destruct (decide (j = i)); [|done]. by rewrite decide_True by done. }
  split.
  - apply (sf_pages _ _ Hf).
  - intros x. apply (sf_bh _ _ Hf).
  - rewrite <-Hlen. unfold s5, s4, s3, s2. cbn [sizes upd_pd upd_sd]. by rewrite !zlen_zalter.
  - etrans; [|by apply same_klinks_pd]. etrans; [|by apply same_klinks_pd].
    etrans; [|by apply same_klinks_sd]. etrans; [|by apply same_klinks_pd]. by apply same_klinks_sd.
  - intros j. change (sd_at (upd_pd a _ s5) j) with (sd_at s4 j). rewrite Hsd.
    case_decide; subst; apply (sf_nblocks _ _ Hf).
  - intros j. change (sd_at (upd_pd a _ s5) j) with (sd_at s4 j). rewrite Hsd.
    case_decide; subst; apply (sf_gfp _ _ Hf).
  - intros j. change (sd_at (upd_pd a _ s5) j) with (sd_at s4 j). rewrite Hsd.
    case_decide; subst; cbn; rewrite (sf_npages _ _ Hf); lia.
  - intros j. change (sd_at (upd_pd a _ s5) j) with (sd_at s4 j). rewrite Hsd.
    case_decide; subst; cbn; rewrite (sf_sdnfrees _ _ Hf); lia.
  - unfold s5, s4, s3. simpl. rewrite !fn_lookup_insert. simpl. done.
  - intros b Hb. unfold s5, s4, s3, s2. cbn [km_pd upd_pd upd_sd]. rewrite !fn_lookup_insert_ne by done.
    rewrite (sf_order _ _ Hf), (sf_firstfree _ _ Hf), (sf_nfrees _ _ Hf). done.
Qed.

(** The state after [new_page] for a run the page allocator just handed out. *)
Lemma new_page_inv s g F F' L C i b :
  km_inv s F L C → bucket i → pages_inv g F' → pages_total g = pages_total (km_pages s) →
  0 < b → b + 2 ^ gfp i <= pages_total g → (2 ^ gfp i | b) →
  (∀ p, in_block (gfp i) b p → F p) → (∀ p, F' p ↔ F p ∧ ¬ in_block (gfp i) b p) →
  let a := b * PAGE_SIZE in
  let s' := new_page i a (upd_pages g s) in
  km_inv s' F' (<[i := a :: L i]> L) (<[a := all_blocks i a]> C) ∧
  (∀ j, bucket j → a ∉ L j) ∧
  ∀ x, ¬ is_block i a x → km_bh s' x = km_bh s x.
Proof.
  intros Hk Hi Hg Htot Hb Hbn Hal HF HF' a s'. destruct (bucket_facts i Hi) as (Hgfp & Hbs & Hnb & Hmax).
  assert (0 <= i < zlen (sizes (upd_pages g s))) as Hil.
  { simpl. rewrite (ki_len _ _ _ _ Hk). unfold bucket, NR_BUCKETS in *. lia. }
  pose proof (with_run_added i a (upd_pages g s) Hil) as Hra.
  set (s1 := with_run i a (upd_pages g s)) in *.
  assert (sd_nblocks (sd_at s i) = nblocks i) as Hnbi by (by apply (ki_nblocks _ _ _ _ Hk)).
  assert (s' = carve (Z.to_nat (nblocks i - 1)) i (a + PAGE_DESC_SIZE) (a + PAGE_DESC_SIZE) s1) as Hs'.
  { change s' with (carve (Z.to_nat (sd_nblocks (sd_at s1 i) - 1)) i
      (a + PAGE_DESC_SIZE) (a + PAGE_DESC_SIZE) s1). rewrite (ra_nblocks _ _ _ _ Hra).
    by change (sd_at (upd_pages g s) i) with (sd_at s i); rewrite Hnbi. }
  destruct (carve_spec (Z.to_nat (nblocks i - 1)) i (a + PAGE_DESC_SIZE) s1 Hi)
    as (Hch & Hfr & Hpd & Hsz & Hpg).
  rewrite <-Hs' in Hch, Hfr, Hpd, Hsz, Hpg. fold (all_blocks i a) in Hch, Hfr.
  assert (∀ j, bucket j → a ∉ L j) as Hfresh.
  { intros j Hj Ha. apply (ki_used _ _ _ _ Hk j a b Hj Ha); [|apply HF].
    - unfold a. rewrite Z.div_mul by done. pose proof (pow2_pos (gfp j)).
      destruct (bucket_facts j Hj). unfold in_block. lia.
    - unfold in_block. pose proof (pow2_pos (gfp i)). lia. }
  assert (∀ j c, bucket j → c ∈ L j → ∀ x, is_block j c x → ¬ is_block i a x) as Hsepb.
  { intros j c Hj Hc x Hx1 Hx2. destruct (ki_run _ _ _ _ Hk j c Hj Hc) as [(bc & -> & _) _ _ _ _ _].
    apply is_block_page in Hx1, Hx2; [|done..]. apply (Hfresh j Hj). unfold a. by rewrite <-Hx2, Hx1. }
  assert (∀ j c, c ∈ (<[i := a :: L i]> L) j → (j = i ∧ c = a) ∨ c ∈ L j) as Hel.
  { intros j c. destruct (decide (j = i)) as [->|]; [rewrite fn_lookup_insert; set_solver|].
    rewrite fn_lookup_insert_ne by done. auto. }
  split_and!; [split|done|].
  - rewrite Hpg, (ra_pages _ _ _ _ Hra). done.
  - rewrite Hsz, (ra_len _ _ _ _ Hra). apply (ki_len _ _ _ _ Hk).
  - assert (same_klinks s1 s') as Hkl.
    { split; [|by rewrite Hsz]. intros [|j|c]; simpl; by rewrite ?Hsz, ?Hpd. }
    assert (lists_ok bucket KBucket (upd_pages g s) (λ j, KPage <$> L j)) as Hl0.
    { eapply same_klinks_lists; [apply same_klinks_pages|]. apply (ki_lists _ _ _ _ Hk). }
    eapply lists_ok_ext; [|eapply same_klinks_lists; [exact Hkl|];
      eapply same_klinks_lists; [exact (ra_links _ _ _ _ Hra)|];
      eapply (lists_ok_add_head bucket KBucket _ _ i (KPage a) Hl0); [done| |done]].
    + intros j Hj. destruct (decide (j = i)) as [->|]; [by rewrite !fn_lookup_insert|].
      by rewrite !fn_lookup_insert_ne.
    + intros j Hj. rewrite elem_of_cons. intros [?|Hin]; [done|].
      apply list_elem_of_fmap in Hin as (c & [= <-] & Hc). by apply (Hfresh j).
  - intros j Hj. unfold sd_at. rewrite Hsz. change (sd_nblocks (sd_at s1 j) = nblocks j).
    rewrite (ra_nblocks _ _ _ _ Hra). by apply (ki_nblocks _ _ _ _ Hk).
  - intros j Hj. unfold sd_at. rewrite Hsz. change (sd_gfporder (sd_at s1 j) = gfp j).
    rewrite (ra_gfp _ _ _ _ Hra). by apply (ki_gfp _ _ _ _ Hk).
  - intros j Hj. unfold sd_at. rewrite Hsz.
    change (sd_npages (sd_at s1 j) = zlen ((<[i := a :: L i]> L) j)).
    rewrite (ra_npages _ _ _ _ Hra). change (sd_at (upd_pages g s) j) with (sd_at s j).
    rewrite (ki_npages _ _ _ _ Hk) by done. case_decide.
    + subst. rewrite fn_lookup_insert. unfold zlen. simpl. lia.
    + rewrite fn_lookup_insert_ne by done. lia.
  - intros j Hj. unfold sd_at. rewrite Hsz.
    change (sd_nfrees (sd_at s1 j) = sum_frees (<[a := all_blocks i a]> C) ((<[i := a :: L i]> L) j)).
    rewrite (ra_sdnfrees _ _ _ _ Hra). change (sd_at (upd_pages g s)) with (sd_at s).
    rewrite (ki_nfrees _ _ _ _ Hk), Hnbi by done.
    assert (sum_frees (<[a := all_blocks i a]> C) (L j) = sum_frees C (L j)) as Hsum.
    { apply sum_frees_ext. intros c Hc. rewrite fn_lookup_insert_ne; [done|]. intros ->. by apply (Hfresh j). }
    case_decide.
    + subst. rewrite fn_lookup_insert. unfold sum_frees in *. simpl. rewrite Hsum, fn_lookup_insert.
      unfold all_blocks. rewrite block_list_len. lia.
    + rewrite fn_lookup_insert_ne by done. rewrite Hsum. lia.
  - intros j c Hj Hc. apply Hel in Hc as [[-> ->]|Hc].
    + rewrite fn_lookup_insert. destruct (ra_new _ _ _ _ Hra) as (Hor & Hff & Hnf).
      split; rewrite ?Hpd, ?Hor, ?Hff; try done.
      * exists b. rewrite Hpg, (ra_pages _ _ _ _ Hra). done.
      * rewrite Hnf. change (sd_at (upd_pages g s) i) with (sd_at s i). rewrite Hnbi.
        unfold all_blocks. rewrite block_list_len. lia.
      * by apply block_list_NoDup.
      * intros x. by rewrite elem_of_all_blocks.
    + assert (c ≠ a) by (intros ->; by apply (Hfresh j)). rewrite fn_lookup_insert_ne by done.
      destruct (ra_old _ _ _ _ Hra c ltac:(done)) as (Hor & Hff & Hnf).
      pose proof (ki_run _ _ _ _ Hk j c Hj Hc) as [(bc & Hcb) ro2 ro3 ro4 ro5 ro6].
      split; rewrite ?Hpd, ?Hor, ?Hff, ?Hnf; try done.
      * exists bc. rewrite Hpg, (ra_pages _ _ _ _ Hra). simpl. rewrite Htot. done.
      * eapply chain_frame; [|exact ro3]. intros y Hy. rewrite Hfr, (ra_bh _ _ _ _ Hra); [done|].
        rewrite elem_of_all_blocks by done. eapply Hsepb; [done..|]. by apply ro6.
  - intros j c p Hj Hc Hp. rewrite HF'. intros [HFp Hnp].
    apply Hel in Hc as [[-> ->]|Hc].
    + apply Hnp. unfold a in Hp. by rewrite Z.div_mul in Hp by done.
    + by apply (ki_used _ _ _ _ Hk j c p).
  - assert (∀ j c p, bucket j → c ∈ L j → in_block (gfp j) (c / PAGE_SIZE) p →
      in_block (gfp i) (a / PAGE_SIZE) p → False) as Hno.
    { intros j c p Hj Hc Hp Hpa. apply (ki_used _ _ _ _ Hk j c p Hj Hc Hp), HF.
      unfold a in Hpa. by rewrite Z.div_mul in Hpa by done. }
    intros j1 j2 c1 c2 p Hj1 Hj2 Hc1 Hc2 Hp1 Hp2.
    apply Hel in Hc1 as [[-> ->]|Hc1]; apply Hel in Hc2 as [[-> ->]|Hc2]; [done|..].
    + exfalso. by eapply (Hno j2 c2).
    + exfalso. by eapply (Hno j1 c1).
    + by eapply (ki_disj _ _ _ _ Hk j1 j2).
  - intros x Hx. rewrite Hfr by (by rewrite elem_of_all_blocks). apply (ra_bh _ _ _ _ Hra).
Qed.

(** ** [kmalloc] *)

Lemma find_bucket_spec fuel size o : 0 <= o → o + Z.of_nat fuel = NR_BUCKETS + 1 →
  let r := find_bucket fuel size o in
  o <= r <= NR_BUCKETS + 1 ∧
  (BLOCKSIZE r ≠ 0 → bucket r ∧ u32 size <= BLOCKSIZE r ∧ ∀ j, o <= j < r → BLOCKSIZE j < u32 size).
Proof.
  revert o. induction fuel as [|fuel IH]; intros o Ho Hf; cbn [find_bucket]; cbv zeta.
  - assert (o = NR_BUCKETS + 1) as -> by lia. split; [lia|]. done.
  - destruct (Z.leb_spec (u32 size) (BLOCKSIZE o)); cbn [orb].
    + split; [lia|]. intros Hne. split_and!; [|done|lia]. unfold bucket.
      split; [lia|]. destruct (decide (o = NR_BUCKETS)) as [->|]; [done|lia].
    + destruct (truth (BLOCKSIZE o)) eqn:Ht; cbn [negb].
      * destruct (IH (o + 1)) as [Hr Hspec]; [lia..|]. split; [lia|]. intros Hne.
        destruct (Hspec Hne) as (? & ? & Hj). split_and!; [done..|].
        intros j Hj'. destruct (decide (j = o)) as [->|]; [done|]. apply Hj. lia.
      * split; [lia|]. by apply truth_false in Ht.
Qed.

Lemma first_page_spec s F L C i : km_inv s F L C → bucket i →
  first_page i s = head (L i).
Proof.
  intros Hk Hi. pose proof (lk_list _ _ _ _ (ki_lists _ _ _ _ Hk) i Hi) as Hl.
  unfold first_page. rewrite (list_empty_spec _ _ _ Hl), (is_list_nxt_hd _ _ _ Hl).
  by destruct (L i).
Qed.

(** What handing out the block [p] does. *)
Record handed_out s s' L C L' C' (size p : Z) : Prop := {
  ho_fresh : ¬ in_use L C p;
  ho_pos : 0 < p;
  ho_use x : in_use L' C' x ↔ in_use L C x ∨ x = p;
  ho_keep x : in_use L C x → km_bh s' x = km_bh s x;
  ho_fit : ∃ i a, bucket i ∧ a ∈ L' i ∧ is_block i a p ∧ u32 size <= BLOCKSIZE i;
  ho_idle : no_idle L C → no_idle L' C';
}.

Lemma is_block_run s F L C i j a b x : km_inv s F L C → bucket i → bucket j →
  a ∈ L i → b ∈ L j → is_block i a x → is_block j b x → a = b ∧ i = j.
Proof.
  intros Hk Hi Hj Ha Hb Hxa Hxb.
  destruct (ki_run _ _ _ _ Hk i a Hi Ha) as [(ba & -> & _) _ _ _ _ _].
  destruct (ki_run _ _ _ _ Hk j b Hj Hb) as [(bb & -> & _) _ _ _ _ _].
  apply is_block_page in Hxa, Hxb; [|done..]. subst.
  split; [done|]. by eapply run_bucket.
Qed.

Lemma is_block_pos s F L C i a x : km_inv s F L C → bucket i → a ∈ L i → is_block i a x → 0 < x.
Proof.
  intros Hk Hi Ha (k & Hk0 & ->). destruct (bucket_facts i Hi) as (_ & ? & _).
  destruct (ki_run _ _ _ _ Hk i a Hi Ha) as [(ba & -> & ? & _) _ _ _ _ _].
  unfold PAGE_SIZE, PAGE_DESC_SIZE. nia.
Qed.

(** Popping [y] off the chain of [a] puts exactly [y] in use. *)
Lemma in_use_pop s F L C i a y c : km_inv s F L C → bucket i → a ∈ L i → C a = y :: c →
  is_block i a y ∧ ¬ in_use L C y ∧ (∀ x, in_use L (<[a := c]> C) x ↔ in_use L C x ∨ x = y).
Proof.
  intros Hk Hi Ha HC. pose proof (ki_run _ _ _ _ Hk i a Hi Ha) as [_ _ _ _ Hnd Hbl].
  rewrite HC in Hnd, Hbl. apply NoDup_cons in Hnd as [Hy _].
  assert (is_block i a y) as Hby by (apply Hbl; left).
  split_and!; [done|..].
  - intros (j & b & Hj & Hb & Hblk & Hni).
    destruct (is_block_run s F L C i j a b y) as [-> ->]; try done. rewrite HC in Hni. set_solver.
  - intros x. split.
    + intros (j & b & Hj & Hb & Hblk & Hni). destruct (decide (b = a)) as [->|].
      * rewrite fn_lookup_insert in Hni. destruct (decide (x = y)) as [->|]; [by right|].
        left. exists j, a. rewrite HC. set_solver.
      * rewrite fn_lookup_insert_ne in Hni by done. left. by exists j, b.
    + intros [(j & b & Hj & Hb & Hblk & Hni)| ->].
      * exists j, b. split_and!; try done. destruct (decide (b = a)) as [->|].
        -- rewrite fn_lookup_insert. rewrite HC in Hni. set_solver.
        -- by rewrite fn_lookup_insert_ne.
      * exists i, a. rewrite fn_lookup_insert. done.
Qed.

Lemma no_idle_pop L C i a y c s F : km_inv s F L C → bucket i → a ∈ L i → C a = y :: c →
  (∀ j b, bucket j → b ∈ L j → b ≠ a → zlen (C b) < nblocks j) → zlen (C a) <= nblocks i →
  no_idle L (<[a := c]> C).
Proof.
  intros Hk Hi Ha HC Hot Hle j b Hj Hb. destruct (decide (b = a)) as [->|].
  - rewrite fn_lookup_insert. assert (j = i) as -> by (by eapply run_bucket).
    rewrite HC in Hle. unfold zlen in *. simpl in Hle. lia.
  - rewrite fn_lookup_insert_ne by done. auto.
Qed.

Lemma take_existing s F L C i a y c size :
  km_inv s F L C → bucket i → a ∈ L i → C a = y :: c → u32 size <= BLOCKSIZE i →
  ∃ s', take_first i a s = Ret y s' ∧ km_inv s' F L (<[a := c]> C) ∧
    handed_out s s' L C L (<[a := c]> C) size y.
Proof.
  intros Hk Hi Ha HC Hsz. destruct (take_first_pop s F L C i a y c Hk Hi Ha HC) as (Hr & Hk' & Hbh).
  destruct (in_use_pop s F L C i a y c Hk Hi Ha HC) as (Hby & Hny & Huse).
  exists (popped i a y s). split_and!; [done..|]. split; try done.
  - by eapply is_block_pos.
  - by exists i, a.
  - intros Hid. eapply no_idle_pop; [done..| |].
    + intros j b Hj Hb _. by apply Hid.
    + pose proof (Hid i a Hi Ha). lia.
Qed.

(** A new run has no block in use. *)
Lemma in_use_new_run L C i a : bucket i → (∀ j, bucket j → a ∉ L j) →
  ∀ x, in_use (<[i := a :: L i]> L) (<[a := all_blocks i a]> C) x ↔ in_use L C x.
Proof.
  intros Hi Hfresh x. split.
  - intros (j & b & Hj & Hb & Hbl & Hni). assert (b ≠ a) as Hne.
    { intros ->. rewrite fn_lookup_insert, elem_of_all_blocks in Hni by done.
      destruct (decide (j = i)) as [->|]; [done|].
      rewrite fn_lookup_insert_ne in Hb by done. by apply (Hfresh j). }
    rewrite fn_lookup_insert_ne in Hni by done. exists j, b. split_and!; try done.
    destruct (decide (j = i)) as [->|]; [rewrite fn_lookup_insert in Hb; set_solver|].
    by rewrite fn_lookup_insert_ne in Hb.
  - intros (j & b & Hj & Hb & Hbl & Hni). assert (b ≠ a) by (intros ->; by apply (Hfresh j)).
    exists j, b. rewrite (fn_lookup_insert_ne C) by done. split_and!; try done.
    destruct (decide (j = i)) as [->|]; [rewrite fn_lookup_insert; by right|].
    by rewrite fn_lookup_insert_ne.
Qed.

Lemma take_new s g F F' L C i b size :
  km_inv s F L C → bucket i → pages_inv g F' → pages_total g = pages_total (km_pages s) →
  0 < b → b + 2 ^ gfp i <= pages_total g → (2 ^ gfp i | b) →
  (∀ p, in_block (gfp i) b p → F p) → (∀ p, F' p ↔ F p ∧ ¬ in_block (gfp i) b p) →
  u32 size <= BLOCKSIZE i →
  let a := b * PAGE_SIZE in
  ∃ y s' L' C', take_first i a (new_page i a (upd_pages g s)) = Ret y s' ∧ km_inv s' F' L' C' ∧
    handed_out s s' L C L' C' size y.
Proof.
  intros Hk Hi Hg Htot Hb Hbn Hal HF HF' Hsz a.
  destruct (new_page_inv s g F F' L C i b) as (Hk1 & Hfresh & Hbh1); [done..|]. fold a in Hk1, Hfresh, Hbh1.
  set (s1 := new_page i a (upd_pages g s)) in *.
  set (L1 := <[i := a :: L i]> L) in *. set (C1 := <[a := all_blocks i a]> C) in *.
  assert (a ∈ L1 i) as Ha1 by (unfold L1; rewrite fn_lookup_insert; left).
  assert (∃ c, C1 a = (a + PAGE_DESC_SIZE) :: c) as [c HC1].
  { unfold C1. rewrite fn_lookup_insert. unfold all_blocks. destruct (Z.to_nat _); simpl; eauto. }
  destruct (take_first_pop s1 F' L1 C1 i a _ c Hk1 Hi Ha1 HC1) as (Hr & Hk' & Hbh).
  destruct (in_use_pop s1 F' L1 C1 i a _ c Hk1 Hi Ha1 HC1) as (Hby & Hny & Huse).
  pose proof (in_use_new_run L C i a Hi Hfresh) as Hnew. fold L1 C1 in Hnew.
  exists (a + PAGE_DESC_SIZE), (popped i a (a + PAGE_DESC_SIZE) s1), L1, (<[a := c]> C1).
  split_and!; [done..|]. split.
  - by rewrite <-Hnew.
  - by eapply (is_block_pos s1 F' L1 C1).
  - intros x. by rewrite Huse, Hnew.
  - intros x Hx. rewrite Hbh. apply Hbh1. intros Hblk. apply Hnew in Hx as (j & d & Hj & Hd & Hbd & Hnd).
    destruct (is_block_run s1 F' L1 C1 i j a d x) as [<- <-]; try done.
    apply Hnd. unfold C1. rewrite fn_lookup_insert. by apply elem_of_all_blocks.
  - by exists i, a.
  - intros Hid. eapply (no_idle_pop L1 C1 i a _ c s1 F'); [done..| |].
    + intros j d Hj Hd Hne. unfold C1. rewrite fn_lookup_insert_ne by done. apply Hid; [done|].
      unfold L1 in Hd. destruct (decide (j = i)) as [->|].
      * rewrite fn_lookup_insert in Hd. set_solver.
      * by rewrite fn_lookup_insert_ne in Hd.
    + unfold C1. rewrite fn_lookup_insert. unfold all_blocks. rewrite block_list_len.
      destruct (bucket_facts i Hi) as (_ & _ & ? & _). lia.
Qed.

Context `{!PageAllocLaws S}.

Lemma bind_lift_pages {A B} (c : M S A) (k : A → M (km_state S) B) s :
  (lift_pages c ≫= k) s =
    match c (km_pages s) with
    | Ret a g => k a (upd_pages g s) | Die => Die | Sleep g => Sleep (upd_pages g s)
    end.
Proof. unfold mbind, M_bind, lift_pages. by destruct (c (km_pages s)). Qed.

(** The outcomes of [kmalloc]: a block, or nothing and the state as before. *)
Lemma kmalloc_outcome size attr s F L C : km_inv s F L C →
  (∃ p s' F' L' C', kmalloc size attr s = Ret p s' ∧ km_inv s' F' L' C' ∧
    handed_out s s' L C L' C' size p) ∨
  kmalloc size attr s = Ret 0 s ∨ kmalloc size attr s = Sleep s.
Proof.
  intros Hk. unfold kmalloc.
  destruct (find_bucket_spec 14 size 0) as [_ Hfb]; [lia|done|]. set (i := find_bucket 14 size 0) in *.
  destruct (truth (BLOCKSIZE i)) eqn:Ht; cbn [negb]; [|by right; left].
  apply truth_true in Ht. destruct (Hfb Ht) as (Hi & Hsz & _). mstep.
  rewrite (first_page_spec s F L C) by done.
  assert (∀ a, a ∈ L i → pd_nfrees (km_pd s a) = zlen (C a)) as Hnf.
  { intros a Ha. apply (ro_nfrees _ _ _ _ (ki_run _ _ _ _ Hk i a Hi Ha)). }
  assert ((∃ a y c, head (L i) = Some a ∧ a ∈ L i ∧ C a = y :: c) ∨
    match head (L i) with Some a => negb (pd_nfrees (km_pd s a) =? 0) | None => false end = false)
    as [(a & y & c & Hhd & Ha & HC)|Hno].
  { destruct (L i) as [|a l] eqn:HL; [by right|]. simpl. destruct (C a) as [|y c] eqn:HC.
    - right. rewrite Hnf, HC by left. done.
    - left. exists a, y, c. split_and!; [done|left|done]. }
  - rewrite Hhd, (Hnf a Ha), HC.
    replace (negb (zlen (y :: c) =? 0)) with true by (unfold zlen; simpl; lia).
    destruct (take_existing s F L C i a y c size) as (s' & Heq & Hk' & Hho); [done..|].
    left. by exists y, s', F, L, (<[a := c]> C).
  - rewrite Hno.


    set (alloc := gets _ ≫= _).
    assert (match head (L i) with Some a => alloc | None => alloc end = alloc) as ->
      by (by destruct (head _)).
    unfold alloc. mstep. rewrite (ki_gfp _ _ _ _ Hk) by done.
    rewrite bind_lift_pages.
    destruct (bucket_facts i Hi) as (Hgfp & _ & Hnb & _).
    destruct (pa_get attr (gfp i) (km_pages s) F (ki_pages _ _ _ _ Hk) Hgfp) as
      [(b & g & F' & -> & Hg & Htot & Hb & Hbn & Hal & HF & HF')|[-> | ->]].
    + replace (truth (b * PAGE_SIZE)) with true
        by (symmetry; apply truth_true; unfold PAGE_SIZE; lia).
      cbn [negb]. mstep.
      destruct (take_new s g F F' L C i b size) as (y & s' & L' & C' & Heq & Hk' & Hho);
        try done; [by rewrite Htot|].
      left. by exists y, s', F', L', C'.
    + right; left. by destruct s.
    + right; right. by destruct s.
Qed.

(** ** [kfree] *)

Lemma PAGE_DESC_run s F L C i a x :
  km_inv s F L C → bucket i → a ∈ L i → is_block i a x → PAGE_DESC x = a.
Proof.
  intros Hk Hi Ha Hx. pose proof (is_block_pos s F L C i a x Hk Hi Ha Hx) as Hpos.
  destruct (ki_run _ _ _ _ Hk i a Hi Ha) as [(b & -> & Hb & Hbn & _) _ _ _ _ _].
  pose proof (pa_bound _ _ (ki_pages _ _ _ _ Hk)) as Htot.
  destruct (bucket_facts i Hi) as (Hg & _). pose proof (pow2_pos (gfp i) ltac:(lia)).
  apply is_block_page in Hx; [|done]. rewrite PAGE_DESC_eq; [by rewrite Hx|].
  pose proof (Z.div_mod x PAGE_SIZE). pose proof (Z.mod_pos_bound x PAGE_SIZE).
  unfold PAGE_SIZE in *. lia.
Qed.

(** The first part: the block joins the chain of its run. *)
Definition pushed (i a x : Z) s : km_state S :=
  upd_sd i (λ d, sd_set_nfrees (sd_nfrees d + 1) d)
    (upd_pd a (λ d, pd_set_nfrees (pd_nfrees d + 1) d)
      (upd_bh x (λ h, BH MFREE (bh_next h))
        (upd_pd a (pd_set_firstfree x)
          (upd_bh x (λ h, BH (bh_flags h) (pd_firstfree (km_pd s a))) s)))).

Lemma pushed_inv s F L C i a x :
  km_inv s F L C → bucket i → a ∈ L i → is_block i a x → x ∉ C a →
  km_inv (pushed i a x s) F L (<[a := x :: C a]> C) ∧
  ∀ y, y ≠ x → km_bh (pushed i a x s) y = km_bh s y.
Proof.
  intros Hk Hi Ha Hx Hnx. pose proof (ki_run _ _ _ _ Hk i a Hi Ha) as Hr.
  assert (0 <= i < zlen (sizes s)) as Hlen by (rewrite (ki_len _ _ _ _ Hk); unfold bucket, NR_BUCKETS in *; lia).
  assert (∀ y, y ≠ x → km_bh (pushed i a x s) y = km_bh s y) as Hbh.
  { intros y Hy. simpl. by rewrite !fn_lookup_insert_ne. }
  split; [split|done].
  - apply (ki_pages _ _ _ _ Hk).
  - simpl. rewrite zlen_zalter. apply (ki_len _ _ _ _ Hk).
  - eapply same_klinks_lists; [|apply (ki_lists _ _ _ _ Hk)]. unfold pushed.
    etrans; [|by apply same_klinks_sd]. etrans; [|by apply same_klinks_pd].
    etrans; [|by apply same_klinks_bh]. etrans; [|by apply same_klinks_pd]. by apply same_klinks_bh.
  - intros j Hj. unfold pushed. rewrite sd_at_upd by done. case_decide; subst; by apply (ki_nblocks _ _ _ _ Hk).
  - intros j Hj. unfold pushed. rewrite sd_at_upd by done. case_decide; subst; by apply (ki_gfp _ _ _ _ Hk).
  - intros j Hj. unfold pushed. rewrite sd_at_upd by done. case_decide; subst; by apply (ki_npages _ _ _ _ Hk).
  - intros j Hj. unfold pushed. rewrite sd_at_upd by done. case_decide as Hji.
    + subst j. rewrite sum_frees_insert; [|by eapply KPage_NoDup|done]. simpl.
      change (sd_nfrees (sd_at _ i)) with (sd_nfrees (sd_at s i)).
      rewrite (ki_nfrees _ _ _ _ Hk) by done. unfold zlen. simpl. lia.
    + rewrite sum_frees_ext with (C := C).
      * apply (ki_nfrees _ _ _ _ Hk j Hj).
      * intros b Hb. rewrite fn_lookup_insert_ne; [done|]. intros ->. apply Hji. by eapply run_bucket.
  - intros j b Hj Hb. pose proof (ki_run _ _ _ _ Hk j b Hj Hb) as Hrb.
    destruct (decide (b = a)) as [->|Hne].
    + assert (j = i) as -> by (by eapply run_bucket). rewrite fn_lookup_insert.
      destruct Hr. split; unfold pushed; simpl; rewrite ?fn_lookup_insert; simpl; try done.
      * split_and!; [done|done|]. eapply chain_frame; [|exact ro_chain0].
        intros y Hy. rewrite !fn_lookup_insert_ne by (intros ->; done). done.
      * rewrite ro_nfrees0. unfold zlen. simpl. lia.
      * by apply NoDup_cons.
      * intros y. rewrite elem_of_cons. intros [->|Hy]; [done|by apply ro_blocks0].
    + rewrite fn_lookup_insert_ne by done.
      assert (km_pd (pushed i a x s) b = km_pd s b) as Hpdb.
      { simpl. rewrite !(fn_lookup_insert_ne _ a b) by done. done. }
      destruct Hrb. split; rewrite ?Hpdb; try done.
      eapply chain_frame; [|exact ro_chain0]. intros y Hy. apply Hbh. intros ->.
      destruct (is_block_run s F L C i j a b x) as [? _]; try congruence. by apply ro_blocks0.
  - apply (ki_used _ _ _ _ Hk).
  - apply (ki_disj _ _ _ _ Hk).
Qed.

Lemma in_use_push s F L C i a x :
  km_inv s F L C → bucket i → a ∈ L i → is_block i a x → x ∉ C a →
  ∀ y, in_use L (<[a := x :: C a]> C) y ↔ in_use L C y ∧ y ≠ x.
Proof.
  intros Hk Hi Ha Hx Hnx y. split.
  - intros (j & b & Hj & Hb & Hblk & Hni). destruct (decide (b = a)) as [->|].
    + rewrite fn_lookup_insert in Hni. split; [|set_solver]. exists j, a. set_solver.
    + rewrite fn_lookup_insert_ne in Hni by done. split; [by exists j, b|]. intros ->.
      destruct (is_block_run s F L C i j a b x) as [? _]; congruence.
  - intros [(j & b & Hj & Hb & Hblk & Hni) Hne]. exists j, b. split_and!; try done.
    destruct (decide (b = a)) as [->|]; [rewrite fn_lookup_insert; set_solver|].
    by rewrite fn_lookup_insert_ne.
Qed.

(** Moving a run to the front of its bucket. *)
Lemma to_front_inv s F L C i a l1 l2 :
  km_inv s F L C → bucket i → L i = l1 ++ a :: l2 →
  km_inv (list_add_head (KBucket i) (KPage a) (list_del (KPage a) s)) F (<[i := a :: l1 ++ l2]> L) C.
Proof.
  intros Hk Hi HL. set (s' := list_add_head _ _ _).
  assert (same_fields s s') as Hf.
  { etrans; [|apply same_fields_add_head]. apply same_fields_del. }
  assert (a :: l1 ++ l2 ≡ₚ L i) as Hperm by (by rewrite HL, Permutation_middle).
  assert (∀ j b, b ∈ (<[i := a :: l1 ++ l2]> L) j ↔ b ∈ L j) as Hel.
  { intros j b. destruct (decide (j = i)) as [->|]; [rewrite fn_lookup_insert; by rewrite Hperm|].
    by rewrite fn_lookup_insert_ne. }
  pose proof Hk as [k1 k2 k3 k4 k5 k6 k7 k8 k9 k10]. pose proof Hf as [f1 f2 f3 f4 f5 f6 f7 f8 f9 f10]. split.
  - by rewrite f1.
  - by rewrite f3.
  - destruct (lists_ok_del bucket KBucket s _ i (KPage <$> l1) (KPage a) (KPage <$> l2) k3 Hi) as [Hl Hfr].
    { by rewrite HL, fmap_app. }
    eapply lists_ok_ext; [|apply (lists_ok_add_head bucket KBucket _ _ i (KPage a) Hl Hi Hfr); done].
    intros j Hj. destruct (decide (j = i)) as [->|]; [|by rewrite !fn_lookup_insert_ne].
    rewrite !fn_lookup_insert. by rewrite fmap_cons, fmap_app.
  - intros j Hj. rewrite f7. auto.
  - intros j Hj. rewrite f10. auto.
  - intros j Hj. rewrite f8, k6 by done. destruct (decide (j = i)) as [->|].
    + rewrite fn_lookup_insert. unfold zlen. by rewrite <-Hperm.
    + by rewrite fn_lookup_insert_ne.
  - intros j Hj. rewrite f9, k7 by done. destruct (decide (j = i)) as [->|]; [|by rewrite fn_lookup_insert_ne].
    rewrite fn_lookup_insert, HL. change (a :: l1 ++ l2) with ([a] ++ l1 ++ l2).
    change (a :: l2) with ([a] ++ l2). rewrite !sum_frees_app. lia.
  - intros j b Hj Hb%Hel. destruct (k8 j b Hj Hb). split; rewrite ?f1, ?f4, ?f5, ?f6; try done.
    eapply chain_frame; [|done]. auto.
  - intros j b q Hj Hb%Hel. by apply k9.
  - intros j1 j2 b1 b2 q Hj1 Hj2 Hb1%Hel Hb2%Hel. by apply k10.
Qed.

(** Giving an idle run back. *)
Definition run_dropped (i a : Z) s : km_state S :=
  let s := list_del (KPage a) s in
  let s := upd_sd i (λ d, sd_set_npages (sd_npages d - 1) d) s in
  let s := upd_sd i (λ d, sd_set_nfrees (sd_nfrees d - sd_nblocks d) d) s in
  upd_pages (release_pages a (sd_gfporder (sd_at s i)) (km_pages s)) s.

Record dropped (i a : Z) s s' : Prop := {
  dr_pages : km_pages s' = release_pages a (sd_gfporder (sd_at s i)) (km_pages s);
  dr_bh x : km_bh s' x = km_bh s x;
  dr_len : zlen (sizes s') = zlen (sizes s);
  dr_links : same_klinks (list_del (KPage a) s) s';
  dr_pd b : pd_order (km_pd s' b) = pd_order (km_pd s b) ∧
    pd_firstfree (km_pd s' b) = pd_firstfree (km_pd s b) ∧ pd_nfrees (km_pd s' b) = pd_nfrees (km_pd s b);
  dr_sd j : sd_nblocks (sd_at s' j) = sd_nblocks (sd_at s j) ∧ sd_gfporder (sd_at s' j) = sd_gfporder (sd_at s j);
  dr_npages j : sd_npages (sd_at s' j) = sd_npages (sd_at s j) - (if decide (j = i) then 1 else 0);
  dr_nfrees j : sd_nfrees (sd_at s' j) =
    sd_nfrees (sd_at s j) - (if decide (j = i) then sd_nblocks (sd_at s i) else 0);
}.

Lemma run_dropped_dropped i a s : 0 <= i < zlen (sizes s) → dropped i a s (run_dropped i a s).
Proof.
  intros Hi. unfold run_dropped. cbv zeta. set (s1 := list_del (KPage a) s).
  pose proof (same_fields_del (KPage a) s) as Hf. fold s1 in Hf. pose proof (sf_len _ _ Hf) as Hlen.
  rewrite <-Hlen in Hi. set (s2 := upd_sd i (λ d, sd_set_npages (sd_npages d - 1) d) s1).
  set (s3 := upd_sd i _ s2).
  assert (∀ j, sd_at s3 j = if decide (j = i)
    then sd_set_nfrees (sd_nfrees (sd_at s1 i) - sd_nblocks (sd_at s1 i))
      (sd_set_npages (sd_npages (sd_at s1 i) - 1) (sd_at s1 i)) else sd_at s1 j) as Hsd.
  { intros j. unfold s3. rewrite sd_at_upd by (unfold s2; simpl; by rewrite zlen_zalter).
    unfold s2. rewrite !sd_at_upd by done. destruct (decide (j = i)); [|done]. by rewrite decide_True. }
  split.
  - simpl. rewrite Hsd, decide_True by done. cbn. by rewrite (sf_gfp _ _ Hf), <-(sf_pages _ _ Hf).
  - intros x. apply (sf_bh _ _ Hf).
  - rewrite <-Hlen. unfold s3, s2. cbn [sizes upd_pages upd_sd]. by rewrite !zlen_zalter.
  - etrans; [|apply same_klinks_pages]. etrans; [|by apply same_klinks_sd]. by apply same_klinks_sd.
  - intros b. rewrite <-(sf_order _ _ Hf), <-(sf_firstfree _ _ Hf), <-(sf_nfrees _ _ Hf). done.
  - intros j. change (sd_at (upd_pages _ s3) j) with (sd_at s3 j). rewrite Hsd.
    rewrite <-(sf_nblocks _ _ Hf), <-(sf_gfp _ _ Hf). case_decide; by subst.
  - intros j. change (sd_at (upd_pages _ s3) j) with (sd_at s3 j). rewrite Hsd.
    rewrite <-(sf_npages _ _ Hf). case_decide; subst; cbn; lia.
  - intros j. change (sd_at (upd_pages _ s3) j) with (sd_at s3 j). rewrite Hsd.
    rewrite <-!(sf_sdnfrees _ _ Hf), <-(sf_nblocks _ _ Hf). case_decide; subst; cbn; lia.
Qed.

Lemma run_dropped_inv s F L C i a l1 l2 :
  km_inv s F L C → bucket i → L i = l1 ++ a :: l2 → zlen (C a) = nblocks i →
  ∃ F', km_inv (run_dropped i a s) F' (<[i := l1 ++ l2]> L) C ∧
    (∀ p, F' p ↔ F p ∨ in_block (gfp i) (a / PAGE_SIZE) p).
Proof.
  intros Hk Hi HL Hfull. pose proof Hk as [k1 k2 k3 k4 k5 k6 k7 k8 k9 k10].
  assert (a ∈ L i) as Ha by (rewrite HL; set_solver).
  destruct (run_dropped_dropped i a s) as [d1 d2 d3 d4 d5 d6 d7 d8].
  { rewrite k2. unfold bucket, NR_BUCKETS in *. lia. }
  set (s' := run_dropped i a s) in *. rewrite (k5 i Hi) in d1.
  destruct (k8 i a Hi Ha) as [(b & -> & Hb & Hbn & Hal) _ _ _ _ _].
  destruct (bucket_facts i Hi) as (Hg & _).
  destruct (pa_release b (gfp i) (km_pages s) F k1 Hg Hb Hbn Hal) as (F' & HF1 & HF2 & HF3).
  { intros p Hp. eapply k9; [done..|]. by rewrite Z.div_mul. }
  exists F'. rewrite Z.div_mul by done. split; [|done].
  assert (b * PAGE_SIZE ∉ l1 ++ l2) as Hnin.
  { pose proof (KPage_NoDup _ _ _ _ _ Hk Hi) as Hnd. rewrite HL, <-Permutation_middle in Hnd.
    by apply NoDup_cons in Hnd as [? _]. }
  assert (∀ j c, bucket j → c ∈ (<[i := l1 ++ l2]> L) j → c ∈ L j ∧ c ≠ b * PAGE_SIZE) as Hel.
  { intros j c Hj. destruct (decide (j = i)) as [->|Hne].
    - rewrite fn_lookup_insert, HL. set_solver.
    - rewrite fn_lookup_insert_ne by done. intros Hc. split; [done|]. intros ->.
      apply Hne. by eapply run_bucket. }
  split.
  - by rewrite d1.
  - by rewrite d3.
  - destruct (lists_ok_del bucket KBucket s _ i (KPage <$> l1) (KPage (b * PAGE_SIZE)) (KPage <$> l2) k3 Hi)
      as [Hl _]; [by rewrite HL, fmap_app|].
    eapply lists_ok_ext; [|eapply same_klinks_lists; [exact d4|exact Hl]].
    intros j Hj. destruct (decide (j = i)) as [->|]; [|by rewrite !fn_lookup_insert_ne].
    by rewrite !fn_lookup_insert, fmap_app.
  - intros j Hj. destruct (d6 j) as [-> _]. auto.
  - intros j Hj. destruct (d6 j) as [_ ->]. auto.
  - intros j Hj. rewrite d7, k6 by done. case_decide.
    + subst. rewrite fn_lookup_insert, HL. unfold zlen. rewrite !length_app. simpl. lia.
    + rewrite fn_lookup_insert_ne by done. lia.
  - intros j Hj. rewrite d8, k7 by done. case_decide.
    + subst. rewrite fn_lookup_insert, HL, k4, <-Hfull by done.
      change (b * PAGE_SIZE :: l2) with ([b * PAGE_SIZE] ++ l2). rewrite !sum_frees_app.
      unfold sum_frees at 2. simpl. lia.
    + rewrite fn_lookup_insert_ne by done. lia.
  - intros j c Hj Hc. apply Hel in Hc as [Hc _]; [|done]. destruct (d5 c) as (e1 & e2 & e3).
    destruct (k8 j c Hj Hc). split; rewrite ?e1, ?e2, ?e3; try done.
    + by rewrite d1, HF2.
    + eapply chain_frame; [|done]. auto.
  - intros j c p Hj Hc Hp. apply Hel in Hc as [Hc Hne]; [|done]. rewrite HF3. intros [HFp|Hpb].
    + by apply (k9 j c p).
    + apply Hne. eapply (k10 j i c (b * PAGE_SIZE) p); try done. by rewrite Z.div_mul.
  - intros j1 j2 c1 c2 p Hj1 Hj2 Hc1 Hc2. apply Hel in Hc1 as [Hc1 _]; [|done].
    apply Hel in Hc2 as [Hc2 _]; [|done]. by apply k10.
Qed.

Lemma kfree_eq s F L C i a x :
  km_inv s F L C → bucket i → a ∈ L i → is_block i a x →
  kfree x s =
    let s1 := pushed i a x s in
    if pd_nfrees (km_pd s1 a) =? sd_nblocks (sd_at s1 i) then run_dropped i a s1
    else if decide (KPage a ≠ nxt s1 (KBucket i)) then
      list_add_head (KBucket i) (KPage a) (list_del (KPage a) s1)
    else s1.
Proof.
  intros Hk Hi Ha Hx. pose proof (ro_order _ _ _ _ (ki_run _ _ _ _ Hk i a Hi Ha)) as Hor.
  unfold kfree. cbv zeta. rewrite (PAGE_DESC_run s F L C i a x) by done.
  rewrite <-Hor. set (s2 := upd_bh x _ (upd_pd a _ _)).
  assert (pd_order (km_pd s2 a) = pd_order (km_pd s a)) as ->; [|done].
  unfold s2. cbn [km_pd upd_bh]. rewrite km_pd_upd, decide_True by done. done.
Qed.

(** A chain with as many blocks as the run has all of them. *)
Lemma full_chain s i a c x : run_ok s i a c → bucket i → zlen c = nblocks i → is_block i a x → x ∈ c.
Proof.
  intros Hr Hi Hlen Hx. rewrite <-elem_of_all_blocks in Hx by done.
  assert (c ⊆+ all_blocks i a) as Hsub.
  { apply NoDup_submseteq; [apply (ro_nodup _ _ _ _ Hr)|]. intros y Hy.
    apply elem_of_all_blocks; [done|]. by apply (ro_blocks _ _ _ _ Hr). }
  assert (length (all_blocks i a) = length c) as Hl.
  { pose proof (block_list_len (Z.to_nat (nblocks i - 1)) i (a + PAGE_DESC_SIZE)) as Hbl.
    destruct (bucket_facts i Hi) as (_ & _ & Hn & _). fold (all_blocks i a) in Hbl.
    unfold zlen in *. lia. }
  assert (c ≡ₚ all_blocks i a) as ->; [|done].
  apply submseteq_length_Permutation; [done|lia].
Qed.

Record taken_back s s' F F' L C L' C' (p : Z) : Prop := {
  tb_use x : in_use L' C' x ↔ in_use L C x ∧ x ≠ p;
  tb_keep x : x ≠ p → km_bh s' x = km_bh s x;
  tb_pages q : F q → F' q;
  tb_idle : no_idle L C → no_idle L' C';
}.

Lemma kfree_taken_back s F L C p : km_inv s F L C → in_use L C p →
  ∃ F' L' C', km_inv (kfree p s) F' L' C' ∧ taken_back s (kfree p s) F F' L C L' C' p.
Proof.
  intros Hk (i & a & Hi & Ha & Hp & Hnp). rewrite (kfree_eq s F L C i a p) by done. cbv zeta.
  destruct (pushed_inv s F L C i a p Hk Hi Ha Hp Hnp) as [Hk1 Hbh].
  pose proof (in_use_push s F L C i a p Hk Hi Ha Hp Hnp) as Huse.
  set (s1 := pushed i a p s) in *. set (C1 := <[a := p :: C a]> C) in *.
  pose proof (ki_run _ _ _ _ Hk1 i a Hi Ha) as Hr1.
  assert (C1 a = p :: C a) as HC1 by (unfold C1; by rewrite fn_lookup_insert).
  assert (∀ b, b ≠ a → C1 b = C b) as Hoth by (intros b Hb; unfold C1; by rewrite fn_lookup_insert_ne).
  rewrite (ro_nfrees _ _ _ _ Hr1), (ki_nblocks _ _ _ _ Hk1) by done.
  pose proof Ha as Hsplit. apply list_elem_of_split in Hsplit as (l1 & l2 & HL).
  destruct (Z.eqb_spec (zlen (C1 a)) (nblocks i)) as [Hfull|Hnot].
  - destruct (run_dropped_inv s1 F L C1 i a l1 l2 Hk1 Hi HL Hfull) as (F' & Hk' & HF').
    exists F', (<[i := l1 ++ l2]> L), C1. split; [done|].
    assert (∀ j b, bucket j → b ∈ (<[i := l1 ++ l2]> L) j ↔ b ∈ L j ∧ b ≠ a) as Hel.
    { intros j b Hj. destruct (decide (j = i)) as [->|Hne].
      - pose proof (KPage_NoDup _ _ _ _ _ Hk Hi) as Hnd. rewrite HL, <-Permutation_middle in Hnd.
        apply NoDup_cons in Hnd as [? _]. rewrite fn_lookup_insert, HL. set_solver.
      - rewrite fn_lookup_insert_ne by done. split; [|tauto]. intros Hb. split; [done|]. intros ->.
        by apply Hne, (run_bucket s F L C j i a). }
    split.
    + intros x. rewrite <-Huse. split; intros (j & b & Hj & Hb & Hbl & Hni).
      * apply Hel in Hb as [Hb _]; [|done]. by exists j, b.
      * exists j, b. split_and!; try done. apply Hel; [done|]. split; [done|]. intros ->.
        assert (j = i) as -> by (by apply (run_bucket s F L C j i a)). by apply Hni, (full_chain s1 i a).
    + intros x Hx. rewrite (dr_bh i a s1).
      * by apply Hbh.
      * apply run_dropped_dropped. rewrite (ki_len _ _ _ _ Hk1). unfold bucket, NR_BUCKETS in *. lia.
    + intros q Hq. apply HF'. by left.
    + intros Hid j b Hj Hb. apply Hel in Hb as [Hb Hne]; [|done]. rewrite Hoth by done. by apply Hid.
  - assert (∀ L', (∀ j b, bucket j → b ∈ L' j ↔ b ∈ L j) →
      (∀ x, in_use L' C1 x ↔ in_use L C x ∧ x ≠ p) ∧ (no_idle L C → no_idle L' C1)) as Hsame.
    { intros L' Hel. split.
      - intros x. rewrite <-Huse. unfold in_use. split; intros (j & b & Hj & Hb & ?);
          exists j, b; (split; [done|]); (split; [by apply Hel|done]).
      - intros Hid j b Hj Hb%Hel; [|done]. destruct (decide (b = a)) as [->|]; [|rewrite Hoth by done; by apply Hid].
        assert (j = i) as -> by (by apply (run_bucket s F L C j i a)). pose proof (Hid i a Hi Ha).
        rewrite HC1 in *. unfold zlen in *. simpl in *. lia. }
    case_decide.
    + exists F, (<[i := a :: l1 ++ l2]> L), C1. split; [by apply to_front_inv|].
      destruct (Hsame (<[i := a :: l1 ++ l2]> L)) as [Hu Hid].
      { intros j b Hj. destruct (decide (j = i)) as [->|]; [|by rewrite fn_lookup_insert_ne].
        rewrite fn_lookup_insert, HL. by rewrite <-Permutation_middle. }
      split; [done| |done|done]. intros x Hx.
      rewrite (sf_bh _ _ (same_fields_add_head _ _ _)), (sf_bh _ _ (same_fields_del _ _)). by apply Hbh.
    + exists F, L, C1. split; [done|]. destruct (Hsame L) as [Hu Hid]; [done|]. by split.
Qed.

(** ** [kmalloc_init] *)

Definition sizes1 : list sizes_descriptor :=
  ((λ i, SD (KBucket i) (KBucket i) (nblocks i) 0 0 (gfp i)) <$> seqZ 0 13) ++ [SD KNull KNull 0 0 0 0].

Lemma kmalloc_init_eq g pd bh :
  kmalloc_init (KM g pd bh sizes0 : km_state S) = KM g pd bh sizes1.
Proof. vm_compute. reflexivity. Qed.

Lemma sizes1_at g pd bh i : bucket i →
  sd_at (KM g pd bh sizes1 : km_state S) i = SD (KBucket i) (KBucket i) (nblocks i) 0 0 (gfp i).
Proof. intros Hi. bucket_cases i; reflexivity. Qed.

Lemma kmalloc_init_inv g pd bh F : pages_inv g F →
  km_inv (kmalloc_init (KM g pd bh sizes0)) F (λ _, []) (λ _, []).
Proof.
  intros Hg. rewrite kmalloc_init_eq. split; try (intros; set_solver); try done.
  - split.
    + intros i Hi. split_and!; [apply NoDup_singleton| |].
      * constructor; [|done]. change (0 <= i < 14). unfold bucket, NR_BUCKETS in Hi. lia.
      * simpl. bucket_cases i; done.
    + intros i j p Hi Hj. simpl. rewrite !list_elem_of_singleton. congruence.
  - intros i Hi. by rewrite sizes1_at.
  - intros i Hi. by rewrite sizes1_at.
  - intros i Hi. by rewrite sizes1_at.
  - intros i Hi. by rewrite sizes1_at.
Qed.

(** ** The theorems of the block allocator *)

(** C3. [kmalloc] never hands out a block that is in use: it returns a block
    of a bucket whose blocks are at least as long as the request, which was
    not in use and now is, with every other block as before and the header
    words of the blocks in use untouched; or it returns null or sleeps for
    want of pages and the state is as before.  It never reaches its [DIE]. *)
Theorem kmalloc_hands_out size attr s F L C : km_inv s F L C →
  match kmalloc size attr s with
  | Ret p s' => (p = 0 ∧ s' = s) ∨
      ∃ F' L' C', km_inv s' F' L' C' ∧ handed_out s s' L C L' C' size p
  | Sleep s' => s' = s
  | Die => False
  end.
Proof.
  intros Hk. destruct (kmalloc_outcome size attr s F L C Hk) as
    [(p & s' & F' & L' & C' & -> & Hk' & Hho)|[-> | ->]]; [right|by left|done].
  by exists F', L', C'.
Qed.


(** C11. A block that is allocated and freed at once leaves the same blocks in
    use. *)
Theorem kmalloc_kfree_roundtrip size attr s F L C p s' : km_inv s F L C →
  kmalloc size attr s = Ret p s' → p ≠ 0 →
  ∃ F' L' C', km_inv (kfree p s') F' L' C' ∧ ∀ x, in_use L' C' x ↔ in_use L C x.
Proof.
  intros Hk Heq Hp. destruct (kmalloc_outcome size attr s F L C Hk) as
    [(p1 & s1 & F1 & L1 & C1 & Heq1 & Hk1 & Hho)|[Heq1|Heq1]]; rewrite Heq in Heq1; simplify_eq.
  destruct (kfree_taken_back s1 F1 L1 C1 p1 Hk1) as (F2 & L2 & C2 & Hk2 & Htb).
  { apply (ho_use _ _ _ _ _ _ _ _ Hho). by right. }
  exists F2, L2, C2. split; [done|]. intros x.
  rewrite (tb_use _ _ _ _ _ _ _ _ _ Htb), (ho_use _ _ _ _ _ _ _ _ Hho).
  split; [tauto|]. intros Hx. split; [by left|]. intros ->. by apply (ho_fresh _ _ _ _ _ _ _ _ Hho).
Qed.
End inv.

(** The block count of a bucket ignores the page descriptor: in each of the
    seven buckets of one page the last block ends behind the page, by 20 bytes
    for the sizes 32, 64 and 128 and by 4 for 255 to 2040; the single block of
    the larger buckets ends exactly with its run. *)
Theorem last_block_overrun i : bucket i →
  PAGE_DESC_SIZE + nblocks i * BLOCKSIZE i - Z.shiftl PAGE_SIZE (gfp i) =
    if i <=? 2 then 20 else if i <=? 6 then 4 else 0.
Proof. intros Hi. bucket_cases i; reflexivity. Qed.
Lemma last_block_overrun_witness :
  PAGE_DESC_SIZE + nblocks 0 * BLOCKSIZE 0 - Z.shiftl PAGE_SIZE (gfp 0) = 20.
Proof. apply (last_block_overrun 0). unfold bucket, NR_BUCKETS. lia. Defined.
