(* ===== verification/MemInit.v ===== *)
(** * Setting up physical memory (mm/page_alloc.c, mm/init.c)

    [free_area_init] lays out the page descriptors and the bitmaps of the page
    allocator behind the kernel image; [mem_init] hands it the free pages one
    by one.  The theorems establish the allocator's invariant from the
    uninitialised memory, under the condition on the number of pages that the
    bitmap lengths need. *)

From S2P Require Import Prelude Pages Dlist Buddy Kmalloc.
From stdpp Require Import base numbers functions gmap list.

Local Open Scope Z_scope.

(** ** [free_area_init] *)

(** [LONG_ALIGN] *)
Definition LONG_ALIGN (x : Z) : Z := u32 (Z.land (x + 4 - 1) (Z.lnot (4 - 1))).

(** [memset(map, 0, n)] at byte [off] (a multiple of four) of the words: the
    bytes of a little-endian word are its low bits first. *)
Definition clear_word (k w : Z) : Z :=
  if k <=? 0 then w else if 4 <=? k then 0 else Z.ldiff w (Z.ones (8 * k)).
Definition clear_bytes (off n : Z) (mem : list Z) : list Z :=
  imap (λ i w, if off <=? 4 * Z.of_nat i then clear_word (off + n - 4 * Z.of_nat i) w else w) mem.

(** [do{ --p; p->flags = ...; p->count = 0; }while(p > mem_map)], entered with
    [n] descriptors before [p]. *)
Fixpoint reserve_pages (n : nat) (l : list page) : list page :=
  match n with
  | O => l
  | S n =>
      reserve_pages n (zalter (λ g, Page (p_prev g) (p_next g)
        (Z.lor (Z.shiftl 1 PageReserved) (Z.shiftl 1 PageDMA)) 0) (Z.of_nat n) l)
  end.

(** The loop over [free_area_list]; [start] is the next map's byte offset from
    the first map. *)
Fixpoint init_areas (n : nat) (order start end_mem : Z) (s : mm_state) : mm_state * Z :=
  match n with
  | O => (s, start)
  | S n =>
      let bitlength := Z.shiftr end_mem (PAGE_SHIFT + order + 1) in
      let bitlength := Z.shiftr (bitlength + 7) 3 in
      let s := upd_area order (λ a, Area (a_prev a) (a_next a) (start / 4) (a_count a)) s in
      let s := upd_bitmem (clear_bytes start bitlength) s in
      let s := upd_area order (λ a, Area (PArea order) (PArea order) (a_map a) (a_count a)) s in
      init_areas n (order + 1) (LONG_ALIGN (start + bitlength)) end_mem s
  end.

(** The globals start out zero; the words after [mem_map] hold anything. *)
Definition free_area_init (end_mem : Z) (words : list Z) (frs : gmap Z (list Z)) : mm_state * Z :=
  let map_nr := Z.shiftr end_mem PAGE_SHIFT in
  let mem_map := replicate (Z.to_nat map_nr) (Page PNull PNull 0 0) in
  let mem_map := reserve_pages (Z.to_nat map_nr) mem_map in
  init_areas 10 0 0 end_mem (MM mem_map (replicate 10 (Area PNull PNull 0 0)) words frs 0).

(** *** The bitmaps after initialisation *)

Lemma LONG_ALIGN_eq x : 0 <= x < 2 ^ 31 → LONG_ALIGN x = (x + 3) / 4 * 4.
Proof.
  intros Hx. unfold LONG_ALIGN. change (4 - 1) with (Z.ones 2).
  rewrite <-Z.ldiff_land, Z.ldiff_ones_r, Z.shiftl_mul_pow2, Z.shiftr_div_pow2 by lia.
  replace (x + 4 - 1) with (x + 3) by lia. change (2 ^ 2) with 4.
  rewrite u32_small; [done|]. pose proof (Z.div_mod (x + 3) 4). pose proof (Z.mod_pos_bound (x + 3) 4). lia.
Qed.

(** Bit [i] of the map that starts at word [off]. *)
Definition mem_bit (mem : list Z) (off i : Z) : bool :=
  Z.testbit (default 0 (zget mem (off + i / 32))) (i mod 32).

Lemma zget_clear_bytes off n mem j : zget (clear_bytes off n mem) j =
  (λ w, if off <=? 4 * j then clear_word (off + n - 4 * j) w else w) <$> zget mem j.
Proof.
  unfold zget, clear_bytes. destruct (Z.leb_spec 0 j); [|done]. rewrite list_lookup_imap.
  destruct (mem !! Z.to_nat j); [|done]. simpl. by rewrite Z2Nat.id by lia.
Qed.
Lemma zlen_clear_bytes off n mem : zlen (clear_bytes off n mem) = zlen mem.
Proof. unfold zlen, clear_bytes. by rewrite length_imap. Qed.

Lemma clear_word_bits k w j : 0 <= j → Z.testbit w j = false → Z.testbit (clear_word k w) j = false.
Proof.
  intros Hj Hw. unfold clear_word. destruct (_ <=? _); [done|]. destruct (_ <=? _).
  - apply Z.bits_0.
  - by rewrite Z.ldiff_spec, Hw.
Qed.

Lemma mem_bit_clear_keeps off n mem o i :
  mem_bit mem o i = false → mem_bit (clear_bytes off n mem) o i = false.
Proof.
  unfold mem_bit. rewrite zget_clear_bytes. destruct (zget mem _); simpl; [|done].
  destruct (_ <=? _); [|done]. apply clear_word_bits. pose proof (Z.mod_pos_bound i 32). lia.
Qed.

Lemma mem_bit_clear off n mem i : 0 <= off → 0 <= i < 8 * n →
  mem_bit (clear_bytes (4 * off) n mem) off i = false.
Proof.
  intros Hoff Hi. unfold mem_bit. rewrite zget_clear_bytes.
  destruct (zget mem _); simpl; [|apply Z.bits_0].
  pose proof (Z.div_mod i 32). pose proof (Z.mod_pos_bound i 32).
  rewrite (proj2 (Z.leb_le _ _)) by lia. unfold clear_word.
  rewrite (proj2 (Z.leb_gt _ _)) by lia.
  destruct (Z.leb_spec 4 (4 * off + n - 4 * (off + i / 32))); [apply Z.bits_0|].
  rewrite Z.ldiff_spec, Z.ones_spec_low by lia. apply andb_false_r.
Qed.

(** The length in bytes of the map of an order. *)
Definition map_bytes (end_mem o : Z) : Z := Z.shiftr (Z.shiftr end_mem (PAGE_SHIFT + o + 1) + 7) 3.

Lemma map_bytes_eq end_mem o : 0 <= o →
  map_bytes end_mem o = (end_mem / 2 ^ PAGE_SHIFT / 2 ^ (o + 1) + 7) / 8.
Proof.
  intros Ho. unfold map_bytes, PAGE_SHIFT. rewrite !Z.shiftr_div_pow2 by lia.
  pose proof (pow2_pos (o + 1)). rewrite Z.div_div, <-Z.pow_add_r by lia. do 4 f_equal. lia.
Qed.

(** The maps of the orders from [order] to [9], between the offsets [a] and
    [b] (in words): in sequence, and zero. *)
Record maps_between (end_mem order a b : Z) (s : mm_state) : Prop := {
  mb_links o : order <= o < NR_FREE_LIST → nxt s (PArea o) = PArea o ∧ prv s (PArea o) = PArea o;
  mb_lo o : order <= o < NR_FREE_LIST → a <= area_map s o;
  mb_hi o : order <= o < NR_FREE_LIST → area_map s o + (map_bytes end_mem o + 3) / 4 <= b;
  mb_sep o o' : order <= o → o < o' < NR_FREE_LIST →
    area_map s o + (map_bytes end_mem o + 3) / 4 <= area_map s o';
  mb_zero o i : order <= o < NR_FREE_LIST → 0 <= i < 8 * map_bytes end_mem o →
    mem_bit (bitmem s) (area_map s o) i = false;
}.

Lemma map_bytes_bound end_mem o : 0 <= o → 0 <= end_mem < 2 ^ 32 →
  0 <= map_bytes end_mem o <= 2 ^ 17.
Proof.
  intros Ho He. rewrite map_bytes_eq by done. unfold PAGE_SHIFT.
  assert (2 <= 2 ^ (o + 1)) by (rewrite pow2_succ by done; pose proof (pow2_pos o); lia).
  assert (0 <= end_mem / 2 ^ 12 < 2 ^ 20) as [? ?].
  { split; [apply Z.div_pos|apply Z.div_lt_upper_bound]; lia. }
  assert (0 <= end_mem / 2 ^ 12 / 2 ^ (o + 1) <= 2 ^ 19) as [? ?].
  { split; [apply Z.div_pos|apply Z.div_le_upper_bound]; nia. }
  split; [apply Z.div_pos; lia|]. apply Z.div_le_upper_bound; lia.
Qed.

(** One turn of the loop over the areas. *)
Definition init_area (order off n : Z) (s : mm_state) : mm_state :=
  upd_area order (λ a, Area (PArea order) (PArea order) (a_map a) (a_count a))
    (upd_bitmem (clear_bytes (4 * off) n)
      (upd_area order (λ a, Area (a_prev a) (a_next a) off (a_count a)) s)).

Lemma init_areas_step n order off end_mem s :
  0 <= off <= 2 ^ 20 → 0 <= order → 0 <= end_mem < 2 ^ 32 →
  init_areas (S n) order (4 * off) end_mem s =
    init_areas n (order + 1) (4 * (off + (map_bytes end_mem order + 3) / 4)) end_mem
      (init_area order off (map_bytes end_mem order) s).
Proof.
  intros Hoff Ho He. cbn [init_areas]. fold (map_bytes end_mem order).
  pose proof (map_bytes_bound end_mem order Ho He).
  rewrite LONG_ALIGN_eq by lia. rewrite (Z.mul_comm 4 off), Z.div_mul by lia.
  replace (off * 4 + map_bytes end_mem order + 3) with (map_bytes end_mem order + 3 + off * 4) by lia.
  rewrite Z.div_add by lia. unfold init_area. f_equal; [lia|]. by rewrite (Z.mul_comm 4 off).
Qed.

Lemma area_map_init order off n s o : 0 <= order < zlen (free_area_list s) →
  area_map (init_area order off n s) o = if decide (o = order) then off else area_map s o.
Proof.
  intros Ho. unfold init_area. rewrite area_map_upd by done. unfold area_map. simpl.
  rewrite zget_zalter. case_decide; [subst|done].
  apply zget_is_Some in Ho as [a ->]. done.
Qed.

Lemma links_init order off n s p : 0 <= order < zlen (free_area_list s) →
  nxt (init_area order off n s) p = (if decide (p = PArea order) then PArea order else nxt s p) ∧
  prv (init_area order off n s) p = (if decide (p = PArea order) then PArea order else prv s p).
Proof.
  intros Ho. apply zget_is_Some in Ho as [a Ha]. destruct p as [|o|m]; simpl; [done| |done].
  rewrite !zget_zalter. repeat case_decide; simplify_eq; try done.
  by rewrite Ha.
Qed.

(** What the loop leaves alone. *)
Record init_frame (order : Z) (s s' : mm_state) : Prop := {
  if_map : mem_map s' = mem_map s;
  if_areas : zlen (free_area_list s') = zlen (free_area_list s);
  if_words : zlen (bitmem s') = zlen (bitmem s);
  if_frames : frames s' = frames s;
  if_nfree : nfreepages s' = nfreepages s;
  if_zero o i : mem_bit (bitmem s) o i = false → mem_bit (bitmem s') o i = false;
  if_links o : o < order → nxt s' (PArea o) = nxt s (PArea o) ∧ prv s' (PArea o) = prv s (PArea o);
  if_maps o : o < order → area_map s' o = area_map s o;
}.

Lemma init_area_frame order off n s : 0 <= order < zlen (free_area_list s) →
  init_frame order s (init_area order off n s).
Proof.
  intros Ho. split; try done.
  - simpl. by rewrite !zlen_zalter.
  - simpl. apply zlen_clear_bytes.
  - intros o i. simpl. apply mem_bit_clear_keeps.
  - intros o Hlt. destruct (links_init order off n s (PArea o) Ho) as [-> ->].
    rewrite !decide_False; [done|intros [= ->]; lia..].
  - intros o Hlt. rewrite area_map_init by done. by rewrite decide_False by lia.
Qed.

Lemma init_areas_spec n order off end_mem s :
  0 <= off <= order * (2 ^ 15 + 1) → 0 <= order → order + Z.of_nat n = NR_FREE_LIST →
  0 <= end_mem < 2 ^ 32 → zlen (free_area_list s) = NR_FREE_LIST →
  ∃ s' b, init_areas n order (4 * off) end_mem s = (s', 4 * b) ∧
    off <= b ∧ init_frame order s s' ∧ maps_between end_mem order off b s'.
Proof.
  revert order off s. induction n as [|n IH]; intros order off s Hoff Ho Hn He Hal.
  { exists s, off. split_and!; [done|lia|by split; auto|]. split; intros; lia. }
  pose proof (map_bytes_bound end_mem order Ho He) as Hmb.
  assert (0 <= (map_bytes end_mem order + 3) / 4 <= 2 ^ 15 + 1) as Hq.
  { split; [apply Z.div_pos; lia|]. apply Z.div_le_upper_bound; lia. }
  assert (0 <= order < zlen (free_area_list s)) as Hoa by lia.
  unfold NR_FREE_LIST in *.
  rewrite init_areas_step by lia.
  pose proof (init_area_frame order off (map_bytes end_mem order) s Hoa) as Hf1.
  destruct (IH (order + 1) (off + (map_bytes end_mem order + 3) / 4)
    (init_area order off (map_bytes end_mem order) s)) as (s' & b & -> & Hb & Hf & Hm);
    [lia..| |].
  { by rewrite (if_areas _ _ _ Hf1). }
  assert (area_map s' order = off) as Hao.
  { rewrite (if_maps _ _ _ Hf) by lia. rewrite area_map_init by done. by rewrite decide_True. }
  exists s', b. split_and!; [done|lia|..].
  - destruct Hf1, Hf. split; try congruence.
    + auto.
    + intros o Hlt. destruct (if_links1 o ltac:(lia)), (if_links0 o Hlt). split; congruence.
    + intros o Hlt. rewrite if_maps1 by lia. by apply if_maps0.
  - destruct Hm. split; unfold NR_FREE_LIST in *.
    + intros o Hr. destruct (decide (o = order)) as [->|]; [|apply mb_links0; lia].
      destruct (if_links _ _ _ Hf order ltac:(lia)) as [-> ->].
      destruct (links_init order off (map_bytes end_mem order) s (PArea order) Hoa) as [-> ->].
      by rewrite !decide_True.
    + intros o Hr. destruct (decide (o = order)) as [->|]; [lia|].
      specialize (mb_lo0 o ltac:(lia)). lia.
    + intros o Hr. destruct (decide (o = order)) as [->|]; [lia|]. apply mb_hi0. lia.
    + intros o o' Hr Hr'. destruct (decide (o = order)) as [->|]; [|apply mb_sep0; lia].
      specialize (mb_lo0 o' ltac:(lia)). lia.
    + intros o i Hr Hi. destruct (decide (o = order)) as [->|]; [|apply mb_zero0; [lia|done]].
      rewrite Hao. apply (if_zero _ _ _ Hf). simpl. apply mem_bit_clear; lia.
Qed.

Lemma reserve_pages_lookup n l i :
  zget (reserve_pages n l) i =
    if decide (0 <= i < Z.of_nat n) then (λ g, Page (p_prev g) (p_next g) 6 0) <$> zget l i
    else zget l i.
Proof.
  revert l. induction n as [|n IH]; intros l; cbn [reserve_pages].
  { by rewrite decide_False by lia. }
  rewrite IH, zget_zalter. repeat case_decide; subst; try lia; done.
Qed.
Lemma reserve_pages_zlen n l : zlen (reserve_pages n l) = zlen l.
Proof.
  revert l. induction n as [|n IH]; intros l; cbn [reserve_pages]; [done|].
  by rewrite IH, zlen_zalter.
Qed.

(** No bit of a pair lies behind the bytes of its map.  A map has a bit for
    every whole pair, rounded up to bytes, so the last pair of an order is
    covered when it is whole or when the byte has room. *)
Definition maps_cover (np : Z) : Prop :=
  ∀ o, 0 <= o < NR_FREE_LIST → np mod 2 ^ (o + 1) = 0 ∨ (np / 2 ^ (o + 1)) mod 8 ≠ 0.

Lemma maps_cover_index end_mem o i : maps_cover (end_mem / 2 ^ PAGE_SHIFT) →
  valid_index (end_mem / 2 ^ PAGE_SHIFT) o i → 0 <= i < 8 * map_bytes end_mem o.
Proof.
  intros Hc (Ho & Hi & Hlt). rewrite map_bytes_eq by lia. specialize (Hc o Ho).
  set (np := end_mem / 2 ^ PAGE_SHIFT) in *. pose proof (pow2_pos (o + 1) ltac:(lia)) as Hp.
  set (w := 2 ^ (o + 1)) in *.
  pose proof (Z.div_mod np w ltac:(lia)). pose proof (Z.mod_pos_bound np w Hp).
  set (q := np / w) in *. set (r := np mod w) in *.
  pose proof (Z.div_mod (q + 7) 8 ltac:(lia)). pose proof (Z.mod_pos_bound (q + 7) 8 ltac:(lia)).
  assert (i <= q) by nia.
  destruct (decide (i = q)) as [->|]; [|lia]. split; [done|].
  destruct Hc as [Hr|Hm]; [nia|].
  pose proof (Z.div_mod q 8 ltac:(lia)). pose proof (Z.mod_pos_bound q 8 ltac:(lia)). lia.
Qed.

Lemma map_words_index m i : 0 <= i < 8 * m → 0 <= i / 32 < (m + 3) / 4.
Proof.
  intros Hi. pose proof (Z.div_mod i 32). pose proof (Z.mod_pos_bound i 32).
  pose proof (Z.div_mod (m + 3) 4). pose proof (Z.mod_pos_bound (m + 3) 4). lia.
Qed.

Lemma free_area_init_ok end_mem words frs :
  0 <= end_mem < 2 ^ 32 → maps_cover (end_mem / 2 ^ PAGE_SHIFT) →
  (free_area_init end_mem words frs).2 <= 4 * zlen words →
  let s := (free_area_init end_mem words frs).1 in
  buddy_inv s (λ _, []) ∧ npages s = end_mem / 2 ^ PAGE_SHIFT ∧ nfreepages s = 0 ∧
  ∀ n, 0 <= n < npages s → zget (mem_map s) n = Some (Page PNull PNull 6 0).
Proof.
  intros He Hc Hfit. unfold free_area_init in *. rewrite Z.shiftr_div_pow2 in * by done.
  set (np := end_mem / 2 ^ PAGE_SHIFT) in *.
  assert (0 <= np < 2 ^ 20) as Hnp.
  { unfold np, PAGE_SHIFT. split; [apply Z.div_pos|apply Z.div_lt_upper_bound]; lia. }
  set (s0 := MM _ _ words frs 0) in *.
  destruct (init_areas_spec 10 0 0 end_mem s0) as (s & b & Heq & Hb & Hf & Hm); [lia..|done|done|done|].
  rewrite Z.mul_0_r in Heq. rewrite Heq in *. cbn [fst snd] in *.
  assert (npages s = np) as Hnps.
  { unfold npages. rewrite (if_map _ _ _ Hf). simpl. rewrite reserve_pages_zlen.
    unfold zlen. rewrite length_replicate. lia. }
  assert (∀ o i, valid_index np o i → 0 <= i < 8 * map_bytes end_mem o) as Hidx.
  { intros o i. by apply maps_cover_index. }
  assert (zlen (bitmem s) = zlen words) as Hw by apply (if_words _ _ _ Hf).
  split_and!; [split|done|..].
  - intros o Ho. destruct (mb_links _ _ _ _ _ Hm o ltac:(lia)) as [Hnx Hpv].
    split_and!; [repeat constructor; set_solver|constructor; [|done]|by split].
    simpl. by rewrite (if_areas _ _ _ Hf).
  - split; intros; set_solver.
  - intros o i Hv Ho9. rewrite Hnps in Hv. rewrite map_bit_testbit.
    unfold pair_bit. rewrite !bool_decide_false by set_solver. simpl.
    apply (mb_zero _ _ _ _ _ Hm); [by destruct Hv|by apply Hidx].
  - split.
    + by rewrite (if_areas _ _ _ Hf).
    + lia.
    + rewrite Hnps. intros o i Hv. pose proof (map_words_index _ _ (Hidx o i Hv)).
      destruct Hv as [Ho _]. pose proof (mb_lo _ _ _ _ _ Hm o Ho). pose proof (mb_hi _ _ _ _ _ Hm o Ho). lia.
    + rewrite Hnps. intros o i o' i' Hv Hv' Heqw.
      pose proof (map_words_index _ _ (Hidx o i Hv)). pose proof (map_words_index _ _ (Hidx o' i' Hv')).
      destruct Hv as [Ho _], Hv' as [Ho' _].
      destruct (Z.lt_trichotomy o o') as [Hlt|[?|Hlt]]; [|done|].
      * pose proof (mb_sep _ _ _ _ _ Hm o o'). lia.
      * pose proof (mb_sep _ _ _ _ _ Hm o' o). lia.
  - rewrite (if_nfree _ _ _ Hf). done.
  - intros n Hn. rewrite (if_map _ _ _ Hf). simpl. rewrite reserve_pages_lookup, decide_True by lia.
    unfold zget. rewrite (proj2 (Z.leb_le _ _)) by lia.
    rewrite lookup_replicate_2 by lia. done.
Qed.

(** ** [mem_init] *)

Definition RESERVED_MEM : Z := 4 * 0x1000.
Definition LOW_MEM : Z := 160 * 0x1000.
Definition DMA_HIGH_MEM : Z := 0x1000000.
Definition PAGE_ALIGN (addr : Z) : Z := Z.land (u32 (addr + PAGE_SIZE - 1)) (mask_of PAGE_SHIFT).

Definition pg_set_flags f (g : page) := Page (p_prev g) (p_next g) (f (p_flags g)) (p_count g).
Definition pg_set_count c (g : page) := Page (p_prev g) (p_next g) (p_flags g) c.
(** [x &= ~(1 << b)] on an [unsigned long] *)
Definition clear_bit (b x : Z) : Z := Z.land x (u32 (Z.lnot (Z.shiftl 1 b))).

(** The body of the two loops that free pages. *)
Definition init_page (addr : Z) : M mm_state unit :=
  let pg := Z.shiftr addr PAGE_SHIFT in
  when (DMA_HIGH_MEM <? addr) (modify (upd_page pg (pg_set_flags (clear_bit PageDMA))));;
  modify (upd_page pg (pg_set_flags (clear_bit PageReserved)));;
  modify (upd_page pg (pg_set_count 1));;
  free_one_page addr;;
  modify (upd_nfree (λ n, n + 1)).

(** [while(addr < limit)]; the number of turns bounds the recursion. *)
Fixpoint init_pages (fuel : nat) (addr limit : Z) : M mm_state Z :=
  if addr <? limit then
    match fuel with
    | O => die
    | S fuel => init_page addr;; init_pages fuel (addr + PAGE_SIZE) limit
    end
  else mret addr.
Definition init_range (addr limit : Z) : M mm_state Z :=
  init_pages (Z.to_nat (limit / PAGE_SIZE + 1)) addr limit.

(** The counters of [mem_init]. *)
Record page_counts := Counts {
  ncodepages : Z; ndatapages : Z; nreservedpages : Z; nmemmap_and_bitmap : Z }.

(** The loop over the kernel's own pages; [_etext] and [_end] come from the
    linker. *)
Fixpoint count_pages (fuel : nat) (etext end_ addr start_mem : Z) (c : page_counts) : page_counts * Z :=
  match fuel with
  | O => (c, addr)
  | S fuel =>
      if addr <? start_mem then
        let c :=
          if (0x100000 <=? addr) && (addr <? etext) then
            Counts (ncodepages c + 1) (ndatapages c) (nreservedpages c) (nmemmap_and_bitmap c)
          else if (etext <=? addr) && (addr <? end_) then
            Counts (ncodepages c) (ndatapages c + 1) (nreservedpages c) (nmemmap_and_bitmap c)
          else if end_ <=? addr then
            Counts (ncodepages c) (ndatapages c) (nreservedpages c) (nmemmap_and_bitmap c + 1)
          else c in
        let c := Counts (ncodepages c) (ndatapages c) (nreservedpages c + 1) (nmemmap_and_bitmap c) in
        count_pages fuel etext end_ (addr + PAGE_SIZE) start_mem c
      else (c, addr)
  end.

Record init_state := IS { is_km : km_state mm_state; is_counts : page_counts }.

Definition mem_init (etext end_ start_mem end_mem : Z) : M init_state unit := λ st,
  let km := is_km st in
  let s := upd_nfree (λ _, 0) (km_pages km) in
  let counts := Counts 0 0 0 0 in
  match init_range RESERVED_MEM LOW_MEM s with
  | Ret _ s =>
      let start_mem := PAGE_ALIGN start_mem in
      let end_mem := Z.land end_mem (mask_of PAGE_SHIFT) in
      let r := count_pages (Z.to_nat (start_mem / PAGE_SIZE + 1)) etext end_ 0 start_mem counts in
      match init_range r.2 end_mem s with
      | Ret _ s => Ret tt (IS (kmalloc_init (upd_pages s km)) r.1)
      | Die => Die
      | Sleep s => Sleep (IS (upd_pages s km) r.1)
      end
  | Die => Die
  | Sleep s => Sleep (IS (upd_pages s km) counts)
  end.

(** *** The free set [mem_init] builds *)

#[local] Opaque __free_pages.

Lemma buddy_inv_upd_page s fl n f :
  (∀ g, p_next (f g) = p_next g ∧ p_prev (f g) = p_prev g) →
  buddy_inv s fl → buddy_inv (upd_page n f s) fl ∧ npages (upd_page n f s) = npages s.
Proof.
  intros Hf Hi.
  assert (npages (upd_page n f s) = npages s) as Hn by apply zlen_zalter.
  split; [|done]. eapply buddy_inv_same; [by apply same_links_upd_page| |done]. by split.
Qed.

Lemma buddy_inv_upd_nfree s fl f : buddy_inv s fl → buddy_inv (upd_nfree f s) fl.
Proof. apply buddy_inv_same; [by apply same_links_eq|by split]. Qed.

Lemma clear_bit_clears b x : 0 <= b < 32 → truth (Z.land (clear_bit b x) (Z.shiftl 1 b)) = false.
Proof.
  intros Hb. unfold clear_bit. rewrite !Z.shiftl_1_l, land_pow2_testbit by lia.
  rewrite Z.land_spec. apply andb_false_intro2. unfold u32.
  rewrite Z.mod_pow2_bits_low by lia. rewrite Z.lnot_spec, Z.pow2_bits_true by lia. done.
Qed.

Record page_joined (s s' : mm_state) (fl fl' : freelists) (a b : Z) : Prop := {
  pj_inv : buddy_inv s' fl';
  pj_free p : is_free fl' p ↔ is_free fl p ∨ a <= p < b;
  pj_nfree : nfreepages s' = nfreepages s + 2 * (b - a);
  pj_npages : npages s' = npages s;
}.

(** The descriptor as the loop body prepares it for [free_one_page]. *)
Definition prepared (n : Z) (s : mm_state) : mm_state :=
  upd_page n (pg_set_count 1) (upd_page n (pg_set_flags (clear_bit PageReserved))
    (if DMA_HIGH_MEM <? n * PAGE_SIZE then upd_page n (pg_set_flags (clear_bit PageDMA)) s else s)).

Lemma prepared_inv s fl n : buddy_inv s fl →
  buddy_inv (prepared n s) fl ∧ npages (prepared n s) = npages s ∧
  nfreepages (prepared n s) = nfreepages s.
Proof.
  intros Hi. unfold prepared.
  set (s0 := if DMA_HIGH_MEM <? n * PAGE_SIZE then _ else s).
  assert (buddy_inv s0 fl ∧ npages s0 = npages s ∧ nfreepages s0 = nfreepages s) as (Hi0 & Hn0 & Hf0).
  { unfold s0. destruct (_ <? _); [|done].
    by destruct (buddy_inv_upd_page s fl n (pg_set_flags (clear_bit PageDMA))). }
  destruct (buddy_inv_upd_page s0 fl n (pg_set_flags (clear_bit PageReserved))) as [Hi1 Hn1]; [done..|].
  destruct (buddy_inv_upd_page _ fl n (pg_set_count 1) ltac:(done) Hi1) as [Hi2 Hn2].
  split_and!; [done|congruence|done].
Qed.

Lemma prepared_frees s n : 0 <= n < npages s →
  free_one_page (n * PAGE_SIZE) (prepared n s) =
    Ret tt (__free_pages (n * PAGE_SIZE) 0 (drop_ref n (prepared n s))).
Proof.
  intros Hn. set (s0 := if DMA_HIGH_MEM <? n * PAGE_SIZE
    then upd_page n (pg_set_flags (clear_bit PageDMA)) s else s).
  assert (npages s0 = npages s) as Hn0 by (unfold s0; destruct (_ <? _); [apply zlen_zalter|done]).
  destruct (proj2 (zget_is_Some (mem_map s0) n)) as [g Hg]; [unfold npages in *; lia|].
  assert (zget (mem_map (prepared n s)) n = Some (pg_set_count 1 (pg_set_flags (clear_bit PageReserved) g)))
    as Hg2.
  { unfold prepared. fold s0. cbn [mem_map upd_page]. rewrite !zget_zalter, !decide_True by done. by rewrite Hg. }
  rewrite free_one_page_eq. unfold count_of, reserved. rewrite Hg2. cbn [from_option].
  change (p_count (pg_set_count 1 _)) with 1.
  change (p_flags (pg_set_count 1 _)) with (clear_bit PageReserved (p_flags g)).
  by rewrite clear_bit_clears by done.
Qed.

Lemma init_page_eq s n : 0 <= n < npages s →
  init_page (n * PAGE_SIZE) s =
    Ret tt (upd_nfree (λ k, k + 1) (__free_pages (n * PAGE_SIZE) 0 (drop_ref n (prepared n s)))).
Proof.
  intros Hn. pose proof (prepared_frees s n Hn) as Hfr. unfold init_page.
  assert (Z.shiftr (n * PAGE_SIZE) PAGE_SHIFT = n) as ->.
  { unfold PAGE_SIZE, PAGE_SHIFT. rewrite Z.shiftr_div_pow2 by lia. apply Z.div_mul. lia. }
  unfold when, prepared in *. destruct (_ <? _); mstep; by rewrite (bind_eval _ _ _ _ _ Hfr).
Qed.

Lemma init_page_joined s fl n : buddy_inv s fl → 0 < n < npages s → ¬ is_free fl n →
  ∃ s' fl', init_page (n * PAGE_SIZE) s = Ret tt s' ∧ page_joined s s' fl fl' n (n + 1).
Proof.
  intros Hi Hn Hf. rewrite init_page_eq by lia.
  destruct (prepared_inv s fl n Hi) as (Hi2 & Hn2 & Hnf2).
  destruct (drop_ref_freed (prepared n s) fl n Hi2) as (fl' & Hfreed); [lia|done|].
  assert (npages (drop_ref n (prepared n s)) = npages s) as Hn3.
  { unfold drop_ref. rewrite <-Hn2. apply zlen_zalter. }
  assert (nfreepages (drop_ref n (prepared n s)) = nfreepages s) as Hnf3 by (rewrite <-Hnf2; done).
  revert Hfreed. generalize (__free_pages (n * PAGE_SIZE) 0 (drop_ref n (prepared n s))) as s3.
  intros s3 [Hfi Hff Hfn _ Hfnp].
  eexists _, fl'. split; [done|]. split.
  - by apply buddy_inv_upd_nfree.
  - intros p. rewrite Hff. unfold in_block. change (2 ^ 0) with 1. done.
  - simpl. lia.
  - change (npages s3 = npages s). lia.
Qed.

Lemma init_pages_joined fuel s fl a b :
  buddy_inv s fl → 0 < a → a <= b <= npages s → (∀ p, a <= p < b → ¬ is_free fl p) →
  b - a <= Z.of_nat fuel →
  ∃ s' fl', init_pages fuel (a * PAGE_SIZE) (b * PAGE_SIZE) s = Ret (b * PAGE_SIZE) s' ∧
    page_joined s s' fl fl' a b.
Proof.
  revert s fl a. induction fuel as [|fuel IH]; intros s fl a Hi Ha Hab Hnf Hf; cbn [init_pages].
  - assert (a = b) as -> by lia. rewrite Z.ltb_irrefl. exists s, fl. split; [done|].
    split; [done| |lia|done]. intros p. split; [by left|]. intros [?|?]; [done|lia].
  - destruct (Z.ltb_spec (a * PAGE_SIZE) (b * PAGE_SIZE)) as [Hlt|Hge]; unfold PAGE_SIZE in *.
    2: { assert (a = b) as -> by lia. exists s, fl. split; [done|].
         split; [done| |lia|done]. intros p. split; [by left|]. intros [?|?]; [done|lia]. }
    destruct (init_page_joined s fl a Hi) as (s1 & fl1 & Heq & [j1 j2 j3 j4]); [lia|apply Hnf; lia|].
    unfold PAGE_SIZE in Heq. rewrite (bind_eval _ _ _ _ _ Heq).
    destruct (IH s1 fl1 (a + 1) j1) as (s' & fl' & Heq' & [k1 k2 k3 k4]); [lia|lia| |lia|].
    { intros p Hp. rewrite j2. intros [Hfr|?]; [|lia]. by apply (Hnf p); [lia|]. }
    exists s', fl'. split.
    + rewrite <-Heq'. f_equal. lia.
    + split; [done| |lia|congruence]. intros p. rewrite k2, j2.
      assert (a <= p < b ↔ a <= p < a + 1 ∨ a + 1 <= p < b) as -> by lia. tauto.
Qed.

Lemma init_range_joined s fl a b :
  buddy_inv s fl → 0 < a → a <= b <= npages s → (∀ p, a <= p < b → ¬ is_free fl p) →
  ∃ s' fl', init_range (a * PAGE_SIZE) (b * PAGE_SIZE) s = Ret (b * PAGE_SIZE) s' ∧
    page_joined s s' fl fl' a b.
Proof.
  intros Hi Ha Hab Hnf. apply init_pages_joined; try done.
  unfold PAGE_SIZE. rewrite Z.div_mul by lia. lia.
Qed.

Lemma count_pages_end fuel etext end_ a b c : a <= b → b - a <= Z.of_nat fuel →
  (count_pages fuel etext end_ (a * PAGE_SIZE) (b * PAGE_SIZE) c).2 = b * PAGE_SIZE ∧
  nreservedpages (count_pages fuel etext end_ (a * PAGE_SIZE) (b * PAGE_SIZE) c).1 =
    nreservedpages c + (b - a).
Proof.
  revert a c. induction fuel as [|fuel IH]; intros a c Hab Hf; cbn [count_pages].
  - assert (a = b) as -> by lia. simpl. lia.
  - destruct (Z.ltb_spec (a * PAGE_SIZE) (b * PAGE_SIZE)) as [Hlt|Hge]; unfold PAGE_SIZE in *.
    2: { assert (a = b) as -> by lia. simpl. lia. }
    replace (a * 4096 + 4096) with ((a + 1) * 4096) by lia.
    set (c' := Counts _ _ _ _). destruct (IH (a + 1) c') as [-> ->]; [lia..|].
    split; [done|]. unfold c'. cbn. repeat destruct (_ && _); cbn; try lia. destruct (_ <=? _); cbn; lia.
Qed.

Lemma PAGE_ALIGN_eq x : 0 <= x <= 2 ^ 32 - PAGE_SIZE → PAGE_ALIGN x = (x + 4095) / PAGE_SIZE * PAGE_SIZE.
Proof.
  intros Hx. unfold PAGE_ALIGN, PAGE_SHIFT, PAGE_SIZE in *. rewrite u32_small by lia.
  rewrite land_mask by lia. by replace (x + 4096 - 1) with (x + 4095) by lia.
Qed.

(** ** The theorems *)

(** C14. From memory with arbitrary contents, [free_area_init] builds the
    allocator's invariant with no free page, provided the bitmaps fit into the
    memory behind [mem_map] and no pair of buddies lies behind the last byte
    of its map; every page is reserved with count zero. *)
Theorem free_area_init_establishes end_mem words frs :
  0 <= end_mem < 2 ^ 32 → maps_cover (end_mem / 2 ^ PAGE_SHIFT) →
  (free_area_init end_mem words frs).2 <= 4 * zlen words →
  let s := (free_area_init end_mem words frs).1 in
  buddy_inv s (λ _, []) ∧ npages s = end_mem / 2 ^ PAGE_SHIFT ∧ nfreepages s = 0 ∧
  ∀ n, 0 <= n < npages s → zget (mem_map s) n = Some (Page PNull PNull 6 0).
Proof. apply free_area_init_ok. Qed.

(** C13. [mem_init] makes free exactly the pages from 16K to 640K and those
    from the end of the kernel's own memory to the end of memory, never
    executes [DIE], counts the kernel's pages, and leaves the block allocator
    initialised on top of it.  [nfreepages] ends up as twice the number of
    free pages: the page is counted by [__free_pages] and again by the loop. *)
Theorem mem_init_frees etext end_ start_mem end_mem km c :
  let sp := PAGE_ALIGN start_mem / PAGE_SIZE in
  let ep := end_mem / PAGE_SIZE in
  buddy_inv (km_pages km) (λ _, []) → sizes km = sizes0 →
  0 <= start_mem <= 2 ^ 32 - PAGE_SIZE → 0 <= end_mem < 2 ^ 32 →
  160 <= sp <= ep → ep <= npages (km_pages km) →
  ∃ st fl, mem_init etext end_ start_mem end_mem (IS km c) = Ret tt st ∧
    buddy_inv (km_pages (is_km st)) fl ∧
    (∀ p, is_free fl p ↔ 4 <= p < 160 ∨ sp <= p < ep) ∧
    nfreepages (km_pages (is_km st)) = 2 * ((160 - 4) + (ep - sp)) ∧
    nreservedpages (is_counts st) = sp ∧
    km_inv (is_km st) (is_free fl) (λ _, []) (λ _, []).
Proof.
  intros sp ep Hi Hsz Hst Hend Hsp Hep. unfold mem_init. cbn [is_km].
  assert (∀ p, ¬ is_free (λ _, []) p) as Hempty by (intros p (? & ? & _ & ? & _); set_solver).
  set (s0 := upd_nfree (λ _, 0) (km_pages km)).
  assert (buddy_inv s0 (λ _, [])) as Hi0 by (by apply buddy_inv_upd_nfree).
  destruct (init_range_joined s0 _ 4 160 Hi0) as (s1 & fl1 & Heq1 & [j1 j2 j3 j4]);
    [lia|split; [lia|]; change (npages s0) with (npages (km_pages km)); lia|intros; apply Hempty|].
  change (4 * PAGE_SIZE) with RESERVED_MEM in Heq1. change (160 * PAGE_SIZE) with LOW_MEM in Heq1.
  rewrite Heq1.
  assert (PAGE_ALIGN start_mem = sp * PAGE_SIZE) as Hal.
  { unfold sp. rewrite PAGE_ALIGN_eq by done. by rewrite Z.div_mul. }
  rewrite Hal. rewrite land_mask by (done || lia).
  change (end_mem / 2 ^ PAGE_SHIFT * 2 ^ PAGE_SHIFT) with (ep * PAGE_SIZE).
  rewrite Z.div_mul by done.
  destruct (count_pages_end (Z.to_nat (sp + 1)) etext end_ 0 sp (Counts 0 0 0 0)) as [Hend2 Hres]; [lia..|].
  rewrite Z.mul_0_l in Hend2, Hres. rewrite Hend2.
  destruct (init_range_joined s1 fl1 sp ep j1) as (s2 & fl2 & Heq2 & [k1 k2 k3 k4]); [lia| | |].
  { change (npages s0) with (npages (km_pages km)) in j4. lia. }
  { intros p Hp. rewrite j2. intros [?|?]; [by apply (Hempty p)|lia]. }
  rewrite Heq2. eexists _, fl2. split; [done|]. cbn [is_km is_counts].
  destruct km as [g pd bh sz]. cbn [sizes] in Hsz. subst sz.
  unfold upd_pages. cbn [km_pages km_pd km_bh sizes] in *.
  assert (km_pages (kmalloc_init (KM s2 pd bh sizes0)) = s2) as Hkp by (by rewrite kmalloc_init_eq).
  assert (∀ p, is_free fl2 p ↔ 4 <= p < 160 ∨ sp <= p < ep) as Hfree.
  { intros p. rewrite k2, j2. specialize (Hempty p). tauto. }
  split_and!.
  - by rewrite Hkp.
  - done.
  - rewrite Hkp, k3, j3. simpl. lia.
  - rewrite Hres. simpl. lia.
  - apply kmalloc_init_inv. by exists fl2.
Qed.


(** ** Concrete runs *)

(** A machine with 4 MB. *)
Definition boot_mm : mm_state := (free_area_init (1024 * PAGE_SIZE) (replicate 60 0xdead) ∅).1.

Lemma maps_cover_1024 : maps_cover 1024.
Proof.
  intros o Ho. left. unfold NR_FREE_LIST in Ho.
  assert (1024 = 2 ^ (9 - o) * 2 ^ (o + 1)) as -> by (rewrite <-Z.pow_add_r by lia; by replace (9 - o + (o + 1)) with 10 by lia).
  apply Z.mod_mul. pose proof (pow2_pos (o + 1)). lia.
Qed.

Lemma free_area_init_establishes_witness :
  buddy_inv boot_mm (λ _, []) ∧ npages boot_mm = 1024 ∧ nfreepages boot_mm = 0 ∧
  ∀ n, 0 <= n < npages boot_mm → zget (mem_map boot_mm) n = Some (Page PNull PNull 6 0).
Proof.
  apply (free_area_init_establishes (1024 * PAGE_SIZE) (replicate 60 0xdead) ∅).
  - unfold PAGE_SIZE. lia.
  - apply maps_cover_1024.
  - vm_compute. congruence.
Defined.

Lemma boot_inv : buddy_inv boot_mm (λ _, []) ∧ npages boot_mm = 1024.
Proof.
  destruct (free_area_init_ok (1024 * PAGE_SIZE) (replicate 60 0xdead) ∅) as (Hi & Hn & _).
  - unfold PAGE_SIZE. lia.
  - apply maps_cover_1024.
  - vm_compute. congruence.
  - fold boot_mm in Hi, Hn. split; [exact Hi|]. rewrite Hn. reflexivity.
Qed.

Definition boot_km : km_state mm_state :=
  KM boot_mm (λ _, PD KNull KNull 0 0 0) (λ _, BH 0 0) sizes0.

Lemma mem_init_frees_witness : ∃ st fl,
  mem_init 0x120000 0x140000 0x150000 (1024 * PAGE_SIZE) (IS boot_km (Counts 0 0 0 0)) = Ret tt st ∧
  buddy_inv (km_pages (is_km st)) fl ∧
  (∀ p, is_free fl p ↔ 4 <= p < 160 ∨ 336 <= p < 1024) ∧
  nfreepages (km_pages (is_km st)) = 2 * ((160 - 4) + (1024 - 336)) ∧
  nreservedpages (is_counts st) = 336 ∧
  km_inv (is_km st) (is_free fl) (λ _, []) (λ _, []).
Proof.
  apply (mem_init_frees 0x120000 0x140000 0x150000 (1024 * PAGE_SIZE) boot_km (Counts 0 0 0 0)).
  - apply boot_inv.
  - reflexivity.
  - unfold PAGE_SIZE. lia.
  - unfold PAGE_SIZE. lia.
  - vm_compute. split; congruence.
  - change (km_pages boot_km) with boot_mm. rewrite (proj2 boot_inv). done.
Defined.

(** The block allocator on the four pages of [demo_mm]. *)
Definition demo_km : km_state mm_state :=
  kmalloc_init (KM demo_mm (λ _, PD KNull KNull 0 0 0) (λ _, BH 0 0) sizes0).

Lemma demo_km_inv : km_inv demo_km (is_free demo_fl) (λ _, []) (λ _, []).
Proof. apply kmalloc_init_inv. exists demo_fl. split; [apply demo_inv|done]. Qed.

Lemma kmalloc_hands_out_witness :
  match kmalloc 100 0 demo_km with
  | Ret p s' => (p = 0 ∧ s' = demo_km) ∨
      ∃ F' L' C', km_inv s' F' L' C' ∧ handed_out demo_km s' (λ _, []) (λ _, []) L' C' 100 p
  | Sleep s' => s' = demo_km
  | Die => False
  end.
Proof. apply (kmalloc_hands_out 100 0 demo_km (is_free demo_fl)). apply demo_km_inv. Defined.

(** The second page of the free block serves the request. *)
Lemma demo_kmalloc : ∃ s', kmalloc 100 0 demo_km = Ret (3 * PAGE_SIZE + PAGE_DESC_SIZE) s'.
Proof.
  assert (match kmalloc 100 0 demo_km with Ret p _ => p =? 3 * PAGE_SIZE + PAGE_DESC_SIZE | _ => false end
    = true) as Hr by (vm_compute; reflexivity).
  destruct (kmalloc 100 0 demo_km) as [p s'| |s']; [|done..].
  apply Z.eqb_eq in Hr as ->. by exists s'.
Qed.

#[local] Opaque kmalloc demo_km.

Lemma demo_handed : ∃ s' F L C, km_inv s' F L C ∧
  handed_out demo_km s' (λ _, []) (λ _, []) L C 100 (3 * PAGE_SIZE + PAGE_DESC_SIZE).
Proof.
  destruct demo_kmalloc as [s' Heq].
  destruct (kmalloc_outcome 100 0 demo_km (is_free demo_fl) (λ _, []) (λ _, []) demo_km_inv) as
    [(p & s1 & F1 & L1 & C1 & Heq1 & Hk1 & Hho)|[Heq1|Heq1]]; rewrite Heq in Heq1.
  - injection Heq1 as <- <-. exists s', F1, L1, C1. split; [exact Hk1|exact Hho].
  - injection Heq1 as Hp _. discriminate Hp.
  - discriminate Heq1.
Qed.


Lemma kmalloc_kfree_roundtrip_witness : ∃ s' F' L' C',
  kmalloc 100 0 demo_km = Ret (3 * PAGE_SIZE + PAGE_DESC_SIZE) s' ∧
  km_inv (kfree (3 * PAGE_SIZE + PAGE_DESC_SIZE) s') F' L' C' ∧
  ∀ x, in_use L' C' x ↔ in_use (λ _, []) (λ _, []) x.
Proof.
  destruct demo_kmalloc as [s' Heq].
  destruct (kmalloc_kfree_roundtrip 100 0 demo_km (is_free demo_fl) (λ _, []) (λ _, []) _ s' demo_km_inv Heq)
    as (F' & L' & C' & Hk & Hu); [discriminate|].
  exists s', F', L', C'. split_and!; [exact Heq|exact Hk|exact Hu].
Defined.
